(** * Proxy-me gateway: access resolution, reverse-proxy routing, circuit
      breaker, quota cooldown detection and client-key expiry.

    A shallow embedding of the Go sources

      - sdk/cliproxy/auth/api_key_permissions.go
      - the reverse-proxy helpers of internal/runtime/executor
      - internal/runtime/executor/codex_executor.go
      - internal/access/config_access/provider.go

    Go strings are byte strings ([string]); [time.Time] and
    [time.Duration] are integers counting nanoseconds ([Z]); Go maps are
    [gmap]s, a nil map or pointer is [None]; a [float64] is an IEEE 754
    binary64 value as [SpecFloat] specifies it. *)

From Stdlib Require Import ZArith SpecFloat Ascii String List Bool Lia.
From stdpp Require Import base option list gmap strings.

Local Open Scope Z_scope.

(** ** Package [strings] (the functions the sources call) *)

Module Str.

Definition code (c : ascii) : N := N_of_ascii c.

Definition codes (s : string) : list N := map code (list_ascii_of_string s).

Definition of_codes (l : list N) : string :=
  string_of_list_ascii (map ascii_of_N l).

(** [asciiSpace] of package strings: tab, newline, vertical tab, form
    feed, carriage return and space. *)
Definition asciiSpace (c : N) : bool :=
  ((9 <=? c) && (c <=? 13) || (c =? 32))%N.

(** UTF-8 encodings of the non-ASCII runes for which [unicode.IsSpace]
    holds: U+0085, U+00A0, U+1680, U+2000..U+200A, U+2028, U+2029,
    U+202F, U+205F, U+3000. *)
Definition unicodeSpaces : list (list N) :=
  [ [194; 133]; [194; 160]; [225; 154; 128];
    [226; 128; 128]; [226; 128; 129]; [226; 128; 130]; [226; 128; 131];
    [226; 128; 132]; [226; 128; 133]; [226; 128; 134]; [226; 128; 135];
    [226; 128; 136]; [226; 128; 137]; [226; 128; 138];
    [226; 128; 168]; [226; 128; 169]; [226; 128; 175];
    [226; 129; 159]; [227; 128; 128] ]%N.

Fixpoint stripPrefix (p l : list N) : option (list N) :=
  match p, l with
  | [], _ => Some l
  | a :: p', b :: l' => if (a =? b)%N then stripPrefix p' l' else None
  | _ :: _, [] => None
  end.

Fixpoint firstStrip (ps : list (list N)) (l : list N) : option (list N) :=
  match ps with
  | [] => None
  | p :: ps' =>
      match stripPrefix p l with
      | Some r => Some r
      | None => firstStrip ps' l
      end
  end.

(** One white-space rune removed from the front, if there is one. *)
Definition stripSpace (spaces : list (list N)) (l : list N) : option (list N) :=
  match l with
  | [] => None
  | c :: r => if asciiSpace c then Some r else firstStrip spaces l
  end.

Fixpoint trimLeftFuel (fuel : nat) (spaces : list (list N)) (l : list N) : list N :=
  match fuel with
  | O => l
  | S f =>
      match stripSpace spaces l with
      | Some r => trimLeftFuel f spaces r
      | None => l
      end
  end.

Definition trimLeft (spaces : list (list N)) (l : list N) : list N :=
  trimLeftFuel (length l) spaces l.

(** [strings.TrimSpace]: leading and trailing white space removed, as
    defined by Unicode.  The trailing side is the leading side of the
    reversed bytes against the reversed encodings. *)
Definition TrimSpace (s : string) : string :=
  let l := trimLeft unicodeSpaces (codes s) in
  of_codes (rev (trimLeft (map (@rev N) unicodeSpaces) (rev l))).

Definition HasPrefix (s p : string) : bool := String.prefix p s.

Definition HasSuffix (s suf : string) : bool :=
  match stripPrefix (rev (codes suf)) (rev (codes s)) with
  | Some _ => true
  | None => false
  end.

Definition TrimSuffix (s suf : string) : string :=
  if HasSuffix s suf
  then String.substring 0 (String.length s - String.length suf) s
  else s.

Fixpoint dropWhileEq (c : N) (l : list N) : list N :=
  match l with
  | [] => []
  | b :: r => if (b =? c)%N then dropWhileEq c r else l
  end.

(** [strings.Trim s cutset] for a cutset of one ASCII byte. *)
Definition Trim1 (s : string) (c : ascii) : string :=
  of_codes (rev (dropWhileEq (code c) (rev (dropWhileEq (code c) (codes s))))).

Definition Contains (s sub : string) : bool :=
  match String.index 0 sub s with
  | Some _ => true
  | None => false
  end.

Definition lowerByte (c : N) : N :=
  if ((65 <=? c) && (c <=? 90))%N then (c + 32)%N else c.

(** [strings.ToLower] as far as ASCII is concerned: the letters A-Z, and
    the two non-ASCII runes whose lower case is an ASCII letter, U+0130
    (to i) and U+212A (to k).  Every other rune is mapped by Go to
    bytes above 127, so whether an ASCII pattern or a caseless
    non-ASCII pattern occurs in the result is the same here and there. *)
Fixpoint lowerFuel (fuel : nat) (l : list N) : list N :=
  match fuel with
  | O => l
  | S f =>
      match l with
      | [] => []
      | c :: r =>
          match stripPrefix [196; 176]%N l, stripPrefix [226; 132; 170]%N l with
          | Some r', _ => 105%N :: lowerFuel f r'
          | None, Some r' => 107%N :: lowerFuel f r'
          | None, None => lowerByte c :: lowerFuel f r
          end
      end
  end.

Definition ToLower (s : string) : string :=
  of_codes (lowerFuel (length (codes s)) (codes s)).

Definition eqb (a b : string) : bool := bool_decide (a = b).

End Str.

(** ** Package [time]: instants and durations in nanoseconds *)

Module Time.

Definition Second : Z := 1000000000.
Definition Minute : Z := 60 * Second.
Definition Hour : Z := 60 * Minute.

Definition minDuration : Z := - 2 ^ 63.
Definition maxDuration : Z := 2 ^ 63 - 1.

(** Two's complement wrap-around of int64 arithmetic. *)
Definition wrap64 (z : Z) : Z := (z + 2 ^ 63) mod 2 ^ 64 - 2 ^ 63.

(** [t.After(u)], [t.Before(u)]: strict. *)
Definition After (t u : Z) : bool := u <? t.
Definition Before (t u : Z) : bool := t <? u.

Definition Add (t d : Z) : Z := t + d.

(** [t.Sub(u)] saturates at the bounds of [Duration]. *)
Definition Sub (t u : Z) : Z :=
  Z.max minDuration (Z.min maxDuration (t - u)).

(** Seconds from January 1, year 1 to the Unix epoch. *)
Definition unixToInternal : Z := 62135596800.

(** [time.Unix(sec, 0)].  A [Time] keeps its seconds since year 1 in an
    int64, and [sec + unixToInternal] wraps around there. *)
Definition Unix (sec : Z) : Z := (wrap64 (sec + unixToInternal) - unixToInternal) * Second.

(** The zero [Time]: January 1, year 1, 00:00:00 UTC. *)
Definition zero : Z := Unix (-62135596800).

Definition IsZero (t : Z) : bool := t =? zero.

End Time.

(** ** Data shared by the packages *)

(** A value of Go's [any] as far as the sources inspect it. *)
Inductive anyv : Type :=
  | AString (s : string)
  | ABytes (s : string)
  | AOther.

(** Lookup in a [map[string]string] that may be nil; a missing key reads
    as the empty string. *)
Definition getStr (m : option (gmap string string)) (k : string) : string :=
  default EmptyString (m ≫= (fun mm => mm !! k)).

(** [m[k].(string)] on a [map[string]any] that may be nil. *)
Definition getAnyStr (m : option (gmap string anyv)) (k : string) : option string :=
  match m ≫= (fun mm => mm !! k) with
  | Some (AString s) => Some s
  | _ => None
  end.

(** Package [cliproxyauth]: the credential record.  The struct is declared
    outside the files at hand; the fields are those the sources read. *)
Module cliproxyauth.

Record Auth : Type := mkAuth {
  ID : string;
  Provider : string;
  FileName : string;
  Index : string;
  Label : string;
  Attributes : option (gmap string string);
  Metadata : option (gmap string anyv);
  ProxyURL : string
}.

End cliproxyauth.

(** Package [config]: the configuration snapshot, with the fields the
    sources read. *)
Module config.

Record ReverseProxy : Type := mkReverseProxy {
  ID : string;
  Name : string;
  BaseURL : string;
  Enabled : bool;
  Headers : gmap string string
}.

Record ProxyRouting : Type := mkProxyRouting {
  Codex : string;
  Antigravity : string;
  Claude : string;
  Gemini : string;
  GeminiCLI : string;
  Vertex : string;
  AIStudio : string;
  Qwen : string;
  IFlow : string
}.

Record Config : Type := mkConfig {
  APIKeyAuth : gmap string (list string);
  Routing : ProxyRouting;
  ProxyRoutingAuth : gmap string string;
  ReverseProxies : list ReverseProxy;
  ReverseProxyWorkerURL : string
}.

End config.

(** ** [float64] *)

Module Float64.

Definition prec : Z := 53.
Definition emax : Z := 1024.

(** [float64(z)] for an integer constant. *)
Definition of_Z (z : Z) : spec_float := binary_normalize prec emax z 0 false.

(** [a * b], rounded to nearest even. *)
Definition mul (a b : spec_float) : spec_float := SFmul prec emax a b.

(** [a >= b], [a > b] and [a != b]; a NaN makes the first two false and
    the last true. *)
Definition ge (a b : spec_float) : bool := SFleb b a.
Definition gt (a b : spec_float) : bool := SFltb b a.
Definition ne (a b : spec_float) : bool := negb (SFeqb a b).

(** The integer left once the fraction of a finite value is discarded. *)
Definition trunc (f : spec_float) : option Z :=
  match f with
  | S754_zero _ => Some 0
  | S754_finite s m e =>
      let mag := if 0 <=? e then Zpos m * 2 ^ e else Zpos m / 2 ^ (- e) in
      Some (if s then - mag else mag)
  | S754_infinity _ | S754_nan => None
  end.

End Float64.

(** A parsed [url.URL]. *)
Record url_URL : Type := mkURL {
  Scheme : string;
  Host : string;
  Path : string;
  RawQuery : string
}.

(** [http.Header], keyed by canonical header names, and [url.Values];
    [Get] is the first value of the key or the empty string. *)
Abbreviation Header := (gmap string (list string)).

Definition Header_Get (h : Header) (key : string) : string :=
  match h !! key with
  | Some (v :: _) => v
  | _ => EmptyString
  end.

(** A JSON document as [gjson] sees it; objects keep their members in
    order, and a lookup takes the first member with the key. *)
#[local] Unset Elimination Schemes.
Inductive json : Type :=
  | JNull
  | JTrue
  | JFalse
  | JNum (f : spec_float)
  | JStr (s : string)
  | JArr (l : list json)
  | JObj (l : list (string * json)).
#[local] Set Elimination Schemes.

(** Functions of the Go standard library and of [gjson] that the sources
    call and that are taken as they are. *)
Class GoLib : Type := {
  (** [url.Parse]; [None] is an error. *)
  url_Parse : string -> option url_URL;
  (** [strings.EqualFold]. *)
  EqualFold : string -> string -> bool;
  (** [http.ParseTime]. *)
  http_ParseTime : string -> option Z;
  (** [time.Parse(time.RFC3339, _)]. *)
  time_ParseRFC3339 : string -> option Z;
  (** [strconv.ParseFloat(_, 64)]; [None] is an error, the words for
      infinity and NaN are read without one. *)
  strconv_ParseFloat : string -> option spec_float;
  (** [int64(f)] for a NaN, an infinity or a value outside the range of
      int64: the language leaves the result to the implementation. *)
  int64_unrepresentable : spec_float -> Z;
  (** [gjson.ParseBytes]; [None] is a result that does not exist. *)
  gjson_Parse : string -> option json
}.

(** Functions of package [cliproxyauth] declared outside the files at
    hand. *)
Class AuthLib : Type := {
  stableAuthIndex : string -> string;
  EnsureIndex : cliproxyauth.Auth -> string
}.

(** ** sdk/cliproxy/auth/api_key_permissions.go *)

Module Access.
Import cliproxyauth.

(** The credential manager: the configuration snapshot it holds (nil
    before [SetConfig]) and the registered credentials, in the order the
    loop over [m.auths] visits them; an entry may be a nil pointer. *)
Record Manager : Type := mkManager {
  runtimeConfig : option config.Config;
  auths : list (option Auth)
}.

Section WithAuthLib.
Context {AL : AuthLib}.

(** The loop of [allowedAuthRefsForClientKey] over the references. *)
Definition collectRefs (refs : list string) : gset string :=
  foldl (fun allowed ref =>
           let ref := Str.TrimSpace ref in
           if Str.eqb ref EmptyString then allowed else {[ ref ]} ∪ allowed)
        ∅ refs.

Definition allowedAuthRefsForClientKey (m : option Manager) (clientKey : string)
  : option (gset string) * bool :=
  match m with
  | None => (None, false)
  | Some m =>
      let clientKey := Str.TrimSpace clientKey in
      if Str.eqb clientKey EmptyString then (None, false)
      else
        match runtimeConfig m with
        | None => (None, false)
        | Some cfg =>
            if bool_decide (size (config.APIKeyAuth cfg) = 0%nat) then (None, false)
            else
              match config.APIKeyAuth cfg !! clientKey with
              | None => (None, false)
              | Some refs => (Some (collectRefs refs), true)
              end
        end
  end.

Definition authIndexForMatch (auth : option Auth) : string :=
  match auth with
  | None => EmptyString
  | Some auth =>
      let idx := Str.TrimSpace (Index auth) in
      if negb (Str.eqb idx EmptyString) then idx
      else
        let seed := Str.TrimSpace (FileName auth) in
        let seed :=
          if negb (Str.eqb seed EmptyString) then ("file:" ++ seed)%string
          else
            match Attributes auth with
            | Some attrs =>
                let apiKey := Str.TrimSpace (default EmptyString (attrs !! "api_key"%string)) in
                if negb (Str.eqb apiKey EmptyString) then ("api_key:" ++ apiKey)%string else seed
            | None => seed
            end in
        if Str.eqb seed EmptyString then
          let id := Str.TrimSpace (ID auth) in
          if negb (Str.eqb id EmptyString) then stableAuthIndex ("id:" ++ id)%string
          else EmptyString
        else stableAuthIndex seed
  end.

Definition authMatchesAllowedRefs (auth : option Auth) (allowed : gset string) : bool :=
  match auth with
  | None => false
  | Some a =>
      if bool_decide (size allowed = 0%nat) then false
      else
        let id := Str.TrimSpace (ID a) in
        if negb (Str.eqb id EmptyString) && bool_decide (id ∈ allowed) then true
        else
          let idx := authIndexForMatch auth in
          if negb (Str.eqb idx EmptyString) && bool_decide (idx ∈ allowed) then true
          else
            let name := Str.TrimSpace (FileName a) in
            if negb (Str.eqb name EmptyString) && bool_decide (name ∈ allowed) then true
            else false
  end.

(** The loop of [AllowedAuthIDsForClientKey] over the credentials. *)
Definition collectIDs (l : list (option Auth)) (allowedRefs : gset string) : gset string :=
  foldl (fun out auth =>
           if authMatchesAllowedRefs auth allowedRefs
           then match auth with
                | Some a => {[ ID a ]} ∪ out
                | None => out
                end
           else out)
        ∅ l.

Definition AllowedAuthIDsForClientKey (m : option Manager) (clientKey : string)
  : option (gset string) * bool :=
  let '(allowedRefs, restricted) := allowedAuthRefsForClientKey m clientKey in
  if negb restricted then (None, false)
  else
    let refs := default ∅ allowedRefs in
    if bool_decide (size refs = 0%nat) then (Some ∅, true)
    else (Some (collectIDs (from_option auths [] m) refs), true).

End WithAuthLib.
End Access.

(** ** internal/runtime/executor: reverse-proxy routing and its breaker *)

Module Router.
Import cliproxyauth.

Definition reverseProxyBanTTL : Z := 5 * Time.Minute.

Record reverseProxyResolution : Type := mkResolution {
  URL : string;
  ProxyID : string;
  Proxied : bool
}.

(** [reverseProxyBanState.bannedTill]; the mutex is not modelled, every
    function below is one critical section. *)
Abbreviation BanState := (gmap string Z).

(** [url.URL.Hostname]: the host without a valid port and without the
    brackets of an IPv6 literal. *)
Fixpoint lastIndexSplit (c : N) (l : list N) : option (list N * list N) :=
  match l with
  | [] => None
  | b :: r =>
      match lastIndexSplit c r with
      | Some (pre, post) => Some (b :: pre, post)
      | None => if (b =? c)%N then Some ([], r) else None
      end
  end.

Definition isDigit (c : N) : bool := ((48 <=? c) && (c <=? 57))%N.

Definition Hostname (u : url_URL) : string :=
  let h := Str.codes (Host u) in
  let h :=
    match lastIndexSplit 58%N h with
    | Some (pre, port) => if forallb isDigit port then pre else h
    | None => h
    end in
  let s := Str.of_codes h in
  if Str.HasPrefix s "[" && Str.HasSuffix s "]"
  then String.substring 1 (String.length s - 2) s
  else s.

Definition resolveProxyIDForProvider (cfg : option config.Config) (provider : string) : string :=
  match cfg with
  | None => EmptyString
  | Some cfg =>
      let r := config.Routing cfg in
      if Str.eqb provider "codex" then config.Codex r
      else if Str.eqb provider "antigravity" then config.Antigravity r
      else if Str.eqb provider "claude" then config.Claude r
      else if Str.eqb provider "gemini" then config.Gemini r
      else if Str.eqb provider "gemini-cli" then config.GeminiCLI r
      else if Str.eqb provider "vertex" then config.Vertex r
      else if Str.eqb provider "aistudio" then config.AIStudio r
      else if Str.eqb provider "qwen" then config.Qwen r
      else if Str.eqb provider "iflow" then config.IFlow r
      else EmptyString
  end.

Definition findReverseProxyByID (cfg : option config.Config) (proxyID : string)
  : option config.ReverseProxy :=
  match cfg with
  | None => None
  | Some cfg =>
      if Str.eqb proxyID EmptyString || bool_decide (length (config.ReverseProxies cfg) = 0%nat)
      then None
      else List.find (fun p => Str.eqb (config.ID p) proxyID && config.Enabled p)
                     (config.ReverseProxies cfg)
  end.

Definition shouldBanPatterns : list string :=
  [ "request detail"; "status 404";
    Str.of_codes [34]%N ++ "status" ++ Str.of_codes [34]%N ++ ":404";
    "/v1/v1/messages" ]%string.

(** The marker of the first [strings.Contains] test, four Han characters
    in UTF-8. *)
Definition requestDetailMarker : string :=
  Str.of_codes [232; 175; 183; 230; 177; 130; 232; 175; 166; 230; 131; 133]%N.

Definition shouldBanReverseProxyOnError (statusCode : Z) (errMsg : string) : bool :=
  if existsb (Z.eqb statusCode) [404; 502; 503; 504] then true
  else if existsb (Z.eqb statusCode) [520; 521; 522; 523; 524] then true
  else
    let msg := Str.ToLower (Str.TrimSpace errMsg) in
    if Str.eqb msg EmptyString then false
    else if Str.Contains msg requestDetailMarker then true
    else existsb (Str.Contains msg) shouldBanPatterns.

(** [banReverseProxyTemporarily]; [now] is the value of [time.Now()]. *)
Definition banReverseProxyTemporarily (now : Z) (proxyID : string) (bannedTill : BanState)
  : BanState :=
  let id := Str.TrimSpace proxyID in
  if Str.eqb id EmptyString then bannedTill
  else
    let until := Time.Add now reverseProxyBanTTL in
    let until :=
      match bannedTill !! id with
      | Some current => if Time.After current until then current else until
      | None => until
      end in
    <[ id := until ]> bannedTill.

(** [isReverseProxyTemporarilyBanned]: the answer and the map after the
    read. *)
Definition isReverseProxyTemporarilyBanned (now : Z) (proxyID : string) (bannedTill : BanState)
  : bool * BanState :=
  let id := Str.TrimSpace proxyID in
  if Str.eqb id EmptyString then (false, bannedTill)
  else
    match bannedTill !! id with
    | None => (false, bannedTill)
    | Some until =>
        if Time.After now until then (false, delete id bannedTill)
        else (true, bannedTill)
    end.

Section WithLibs.
Context {GL : GoLib} {AL : AuthLib}.

Definition resolveProxyIDForAuth (cfg : option config.Config) (auth : option Auth) : string :=
  match cfg, auth with
  | Some cfg, Some auth =>
      let routing := config.ProxyRoutingAuth cfg in
      let get k := Str.TrimSpace (default EmptyString (routing !! k)) in
      if bool_decide (size routing = 0%nat) then EmptyString
      else
        let id := Str.TrimSpace (ID auth) in
        if negb (Str.eqb id EmptyString) && negb (Str.eqb (get id) EmptyString) then get id
        else
          let idx := Str.TrimSpace (EnsureIndex auth) in
          if negb (Str.eqb idx EmptyString) && negb (Str.eqb (get idx) EmptyString) then get idx
          else
            let name := Str.TrimSpace (FileName auth) in
            if negb (Str.eqb name EmptyString) && negb (Str.eqb (get name) EmptyString)
            then get name
            else EmptyString
  | _, _ => EmptyString
  end.

Definition buildReverseProxyWorkerURL (cfg : option config.Config)
    (proxyBaseURL prefix path rawQuery : string) : string :=
  match cfg with
  | None => EmptyString
  | Some cfg =>
      let workerBase := Str.TrimSpace (config.ReverseProxyWorkerURL cfg) in
      if Str.eqb workerBase EmptyString then EmptyString
      else
        match url_Parse workerBase with
        | None => EmptyString
        | Some workerParsed =>
            if Str.eqb (Host workerParsed) EmptyString then EmptyString
            else
              match url_Parse (Str.TrimSpace proxyBaseURL) with
              | None => EmptyString
              | Some upstreamParsed =>
                  if Str.eqb (Host upstreamParsed) EmptyString then EmptyString
                  else
                    let upstreamHost := Str.TrimSpace (Hostname upstreamParsed) in
                    if Str.eqb upstreamHost EmptyString then EmptyString
                    else if EqualFold (Str.TrimSpace (Hostname workerParsed)) upstreamHost
                    then EmptyString
                    else
                      let normalizedPrefix :=
                        ("/" ++ Str.Trim1 (Str.TrimSpace prefix) "/")%string in
                      let normalizedPath :=
                        if Str.eqb path EmptyString then "/"%string else path in
                      let normalizedPath :=
                        if negb (Str.HasPrefix normalizedPath "/")
                        then ("/" ++ normalizedPath)%string else normalizedPath in
                      let basePath := (normalizedPrefix ++ normalizedPath)%string in
                      let basePath := Str.TrimSuffix basePath "/" in
                      let workerTarget :=
                        (Str.TrimSuffix workerBase "/" ++ basePath ++ "/" ++ upstreamHost)%string in
                      if negb (Str.eqb rawQuery EmptyString)
                      then (workerTarget ++ "?" ++ rawQuery)%string
                      else workerTarget
              end
        end
  end.

(** The prefix chosen by [resolveReverseProxyURLWithID] from the provider
    and the host of the original URL. *)
Definition routePrefix (provider host : string) : string :=
  if Str.eqb provider "antigravity" then
    if Str.eqb host "daily-cloudcode-pa.sandbox.googleapis.com" then "/antigravity-sandbox"
    else if Str.eqb host "daily-cloudcode-pa.googleapis.com" then "/antigravity-daily"
    else if Str.eqb host "cloudcode-pa.googleapis.com" then "/antigravity-cloudcode"
    else "/antigravity-sandbox"
  else if Str.eqb provider "codex" then "/codex"
  else ("/" ++ provider)%string.

Definition resolveReverseProxyURLWithID (cfg : option config.Config)
    (proxyID provider originalURL : string) : string :=
  match cfg with
  | None => originalURL
  | Some c =>
      if bool_decide (length (config.ReverseProxies c) = 0%nat) || Str.eqb proxyID EmptyString
      then originalURL
      else
        match findReverseProxyByID cfg proxyID with
        | None => originalURL
        | Some proxyConfig =>
            match url_Parse originalURL with
            | None => originalURL
            | Some parsedURL =>
                let proxyBase := Str.TrimSuffix (config.BaseURL proxyConfig) "/" in
                let prefix := routePrefix provider (Host parsedURL) in
                let newPath := Path parsedURL in
                let newPath :=
                  if negb (Str.HasPrefix newPath "/") then ("/" ++ newPath)%string
                  else newPath in
                let workerURL :=
                  buildReverseProxyWorkerURL cfg (config.BaseURL proxyConfig) prefix newPath
                                             (RawQuery parsedURL) in
                if negb (Str.eqb workerURL EmptyString) then workerURL
                else
                  let newURL := (proxyBase ++ prefix ++ newPath)%string in
                  if negb (Str.eqb (RawQuery parsedURL) EmptyString)
                  then (newURL ++ "?" ++ RawQuery parsedURL)%string
                  else newURL
            end
        end
  end.

(** [resolveReverseProxyRouteWithID]: the route and the ban state after the
    lazy eviction its ban check may perform. *)
Definition resolveReverseProxyRouteWithID (now : Z) (cfg : option config.Config)
    (proxyID provider originalURL : string) (bannedTill : BanState)
  : reverseProxyResolution * BanState :=
  let result := mkResolution originalURL (Str.TrimSpace proxyID) false in
  if Str.eqb (ProxyID result) EmptyString then (result, bannedTill)
  else
    let '(banned, bannedTill) :=
      isReverseProxyTemporarilyBanned now (ProxyID result) bannedTill in
    if banned then (result, bannedTill)
    else
      let url := resolveReverseProxyURLWithID cfg (ProxyID result) provider originalURL in
      (mkResolution url (ProxyID result) (negb (Str.eqb url originalURL)), bannedTill).

(** The proxy id [resolveReverseProxyRouteForAuth] and
    [applyReverseProxyHeaders] start from. *)
Definition routeProxyID (cfg : option config.Config) (auth : option Auth) (provider : string)
  : string :=
  let proxyID := resolveProxyIDForAuth cfg auth in
  if Str.eqb proxyID EmptyString then resolveProxyIDForProvider cfg provider else proxyID.

Definition resolveReverseProxyRouteForAuth (now : Z) (cfg : option config.Config)
    (auth : option Auth) (provider originalURL : string) (bannedTill : BanState)
  : reverseProxyResolution * BanState :=
  resolveReverseProxyRouteWithID now cfg (routeProxyID cfg auth provider) provider
                                 originalURL bannedTill.

Definition resolveReverseProxyRoute (now : Z) (cfg : option config.Config)
    (provider originalURL : string) (bannedTill : BanState)
  : reverseProxyResolution * BanState :=
  resolveReverseProxyRouteWithID now cfg (resolveProxyIDForProvider cfg provider) provider
                                 originalURL bannedTill.

(** [applyReverseProxyHeaders] as far as the shared ban state goes: the
    ban check it makes evicts an expired entry.  The headers it copies
    onto the request are not part of the model. *)
Definition applyReverseProxyHeaders (now : Z) (cfg : option config.Config)
    (auth : option Auth) (provider : string) (bannedTill : BanState) : BanState :=
  match cfg with
  | None => bannedTill
  | Some _ =>
      let proxyID := routeProxyID cfg auth provider in
      if Str.eqb proxyID EmptyString then bannedTill
      else snd (isReverseProxyTemporarilyBanned now proxyID bannedTill)
  end.

End WithLibs.
End Router.

(** ** [gjson] results *)

Module gjson.

(** A [gjson.Result]; [None] is the result that does not exist. *)
Abbreviation Result := (option json).

Fixpoint member (key : string) (l : list (string * json)) : Result :=
  match l with
  | [] => None
  | (k, v) :: r => if Str.eqb k key then Some v else member key r
  end.

(** [Result.Get] with a plain key: a member of an object, nothing else. *)
Definition Get (r : Result) (key : string) : Result :=
  match r with
  | Some (JObj l) => member key l
  | _ => None
  end.

Definition Exists (r : Result) : bool :=
  match r with
  | Some _ => true
  | None => false
  end.

(** [Result.Type == gjson.Null]; the result that does not exist has that
    type too. *)
Definition isNull (r : Result) : bool :=
  match r with
  | None | Some JNull => true
  | _ => false
  end.

(** [Result.Bool]: true, a number with [t.Num != 0], or a string that
    [strconv.ParseBool] reads as true once in lower case. *)
Definition Bool (r : Result) : bool :=
  match r with
  | Some JTrue => true
  | Some (JNum f) => Float64.ne f (Float64.of_Z 0)
  | Some (JStr s) =>
      let l := Str.ToLower s in
      Str.eqb l "1" || Str.eqb l "t" || Str.eqb l "true"
  | _ => false
  end.

End gjson.

(** ** internal/runtime/executor/codex_executor.go: quota cooldown *)

Module Codex.
Import cliproxyauth.

(** One entry of the slice [candidates]. *)
Record candidate : Type := mkCandidate {
  resetAt : Z;
  reason : string
}.

(** The error type of the executors; the struct is declared outside the
    files at hand, the fields are those [newCodexStatusErr] sets. *)
Record statusErr : Type := mkStatusErr {
  code : Z;
  msg : string;
  retryAfter : option Z;
  quotaReason : string
}.

Record codexQuotaCooldownHint : Type := mkHint {
  hintRetryAfter : Z;
  hintReason : string
}.

Fixpoint digitsValue (acc : Z) (l : list N) : option Z :=
  match l with
  | [] => Some acc
  | c :: r =>
      if Router.isDigit c then digitsValue (10 * acc + (Z.of_N c - 48)) r else None
  end.

(** [strconv.Atoi]: an optional sign, at least one decimal digit, and a
    value that fits the 64-bit [int]. *)
Definition Atoi (s : string) : option Z :=
  let l := Str.codes s in
  let '(neg, ds) :=
    match l with
    | c :: r => if (c =? 45)%N then (true, r) else if (c =? 43)%N then (false, r) else (false, l)
    | [] => (false, l)
    end in
  match ds with
  | [] => None
  | _ =>
      match digitsValue 0 ds with
      | Some v =>
          let v := if neg then - v else v in
          if (Time.minDuration <=? v) && (v <=? Time.maxDuration) then Some v else None
      | None => None
      end
  end.

Section WithLibs.
Context {GL : GoLib}.

(** [int64(f)] and [time.Duration(f)]: the fraction is discarded when the
    value fits; when it does not, the result is the int64 the
    implementation gives. *)
Definition int64 (f : spec_float) : Z :=
  match Float64.trunc f with
  | Some z =>
      if (Time.minDuration <=? z) && (z <=? Time.maxDuration) then z
      else Time.wrap64 (int64_unrepresentable f)
  | None => Time.wrap64 (int64_unrepresentable f)
  end.

Definition gjsonToFloat (result : gjson.Result) : option spec_float :=
  match result with
  | None => None
  | Some (JNum f) => Some f
  | Some (JStr s) =>
      let trimmed := Str.TrimSpace s in
      if Str.eqb trimmed EmptyString then None else strconv_ParseFloat trimmed
  | Some _ =>
      (* [result.String()] is then true, false, the empty string or the
         raw text of an array or object; [ParseFloat] accepts none *)
      None
  end.

(** [ok && v >= bound] and [ok && v > 0] on a [gjsonToFloat] answer. *)
Definition floatGe (r : gjson.Result) (bound : spec_float) : bool :=
  match gjsonToFloat r with
  | Some v => Float64.ge v bound
  | None => false
  end.

Definition floatPos (r : gjson.Result) : option spec_float :=
  match gjsonToFloat r with
  | Some v => if Float64.gt v (Float64.of_Z 0) then Some v else None
  | None => None
  end.

Definition codexWindowRecoverAt (window : gjson.Result) (now : Z) : option Z :=
  match floatPos (gjson.Get window "reset_at") with
  | Some resetAt => Some (Time.Unix (int64 resetAt))
  | None =>
  match floatPos (gjson.Get window "resetAt") with
  | Some resetAt => Some (Time.Unix (int64 resetAt))
  | None =>
  match floatPos (gjson.Get window "reset_after_seconds") with
  | Some resetAfter =>
      Some (Time.Add now (int64 (Float64.mul resetAfter (Float64.of_Z Time.Second))))
  | None =>
  match floatPos (gjson.Get window "resetAfterSeconds") with
  | Some resetAfter =>
      Some (Time.Add now (int64 (Float64.mul resetAfter (Float64.of_Z Time.Second))))
  | None => None
  end end end end.

Definition daySeconds : spec_float := Float64.of_Z (24 * 60 * 60).

Definition resolveCodexWindowReason (window : gjson.Result)
    (reasonPrimary reasonSecondary : string) : string :=
  if Str.eqb reasonPrimary reasonSecondary then reasonPrimary
  else if negb (gjson.Exists window) || gjson.isNull window then reasonPrimary
  else if floatGe (gjson.Get window "limit_window_seconds") daySeconds then reasonSecondary
  else if floatGe (gjson.Get window "limitWindowSeconds") daySeconds then reasonSecondary
  else if floatGe (gjson.Get window "reset_after_seconds") daySeconds then reasonSecondary
  else if floatGe (gjson.Get window "resetAfterSeconds") daySeconds then reasonSecondary
  else reasonPrimary.

Definition appendCodexWindowCandidate (candidates : list candidate) (window : gjson.Result)
    (parentLimited : bool) (reason : string) (now : Z) : list candidate :=
  if negb (gjson.Exists window) || gjson.isNull window then candidates
  else
    let windowLimited := parentLimited in
    let windowLimited :=
      if floatGe (gjson.Get window "used_percent") (Float64.of_Z 100) then true
      else windowLimited in
    let windowLimited :=
      if floatGe (gjson.Get window "usedPercent") (Float64.of_Z 100) then true
      else windowLimited in
    if negb windowLimited then candidates
    else
      match codexWindowRecoverAt window now with
      | Some resetAt =>
          if negb (Time.After resetAt now) then candidates
          else candidates ++ [mkCandidate resetAt reason]
      | None => candidates
      end.

(** The closure [addByRateLimit] of [codexQuotaRecoverAt]. *)
Definition addByRateLimit (now : Z) (candidates : list candidate) (rateLimit : gjson.Result)
    (reasonPrimary reasonSecondary : string) : list candidate :=
  if negb (gjson.Exists rateLimit) || gjson.isNull rateLimit then candidates
  else
    let parentLimited :=
      gjson.Bool (gjson.Get rateLimit "limit_reached")
      || gjson.Bool (gjson.Get rateLimit "limitReached") in
    let allowed := gjson.Get rateLimit "allowed" in
    let parentLimited :=
      if gjson.Exists allowed && negb (gjson.Bool allowed) then true else parentLimited in
    let candidates :=
      appendCodexWindowCandidate candidates (gjson.Get rateLimit "primary_window") parentLimited
        (resolveCodexWindowReason (gjson.Get rateLimit "primary_window")
                                  reasonPrimary reasonSecondary) now in
    let candidates :=
      appendCodexWindowCandidate candidates (gjson.Get rateLimit "primaryWindow") parentLimited
        (resolveCodexWindowReason (gjson.Get rateLimit "primaryWindow")
                                  reasonPrimary reasonSecondary) now in
    let candidates :=
      appendCodexWindowCandidate candidates (gjson.Get rateLimit "secondary_window")
        parentLimited reasonSecondary now in
    appendCodexWindowCandidate candidates (gjson.Get rateLimit "secondaryWindow")
      parentLimited reasonSecondary now.

(** The slice [candidates] once the four sections have been scanned. *)
Definition quotaCandidates (root : gjson.Result) (now : Z) : list candidate :=
  let c := addByRateLimit now [] (gjson.Get root "rate_limit")
             "codex_5h_limit" "codex_weekly_limit" in
  let c := addByRateLimit now c (gjson.Get root "rateLimit")
             "codex_5h_limit" "codex_weekly_limit" in
  let c := addByRateLimit now c (gjson.Get root "code_review_rate_limit")
             "codex_code_review_limit" "codex_code_review_limit" in
  addByRateLimit now c (gjson.Get root "codeReviewRateLimit")
    "codex_code_review_limit" "codex_code_review_limit".

(** The loop that keeps the earliest candidate. *)
Definition pickEarliest (first : candidate) (rest : list candidate) : candidate :=
  foldl (fun earliest c => if Time.Before (resetAt c) (resetAt earliest) then c else earliest)
        first rest.

Definition codexQuotaRecoverAt (payload : string) (now : Z) : Z * string * bool :=
  let root := gjson_Parse payload in
  match quotaCandidates root now with
  | [] => (Time.zero, EmptyString, false)
  | first :: rest =>
      let earliest := pickEarliest first rest in
      (resetAt earliest, reason earliest, true)
  end.

(** [parseRetryAfterHeader]; [now] is the clock reading [time.Until]
    takes on the HTTP-date path. *)
Definition parseRetryAfterHeader (now : Z) (headers : Header) : option Z :=
  if bool_decide (size headers = 0%nat) then None
  else
    let raw := Str.TrimSpace (Header_Get headers "Retry-After") in
    if Str.eqb raw EmptyString then None
    else
      let byDate :=
        match http_ParseTime raw with
        | None => None
        | Some retryAt =>
            let retryAfter := Time.Sub retryAt now in
            if retryAfter <=? 0 then None else Some retryAfter
        end in
      match Atoi raw with
      | Some seconds =>
          if 0 <? seconds then Some (Time.wrap64 (seconds * Time.Second)) else byDate
      | None => byDate
      end.

Definition codexCreds (a : option Auth) : string * string :=
  match a with
  | None => (EmptyString, EmptyString)
  | Some a =>
      let apiKey := getStr (Attributes a) "api_key" in
      let baseURL := getStr (Attributes a) "base_url" in
      let apiKey :=
        if Str.eqb apiKey EmptyString
        then default apiKey (getAnyStr (Metadata a) "access_token")
        else apiKey in
      (apiKey, baseURL)
  end.

(** The part of [fetchCodexQuotaCooldownHint] after the body of the usage
    lookup has been read; [now] is its clock reading. *)
Definition hintFromUsageBody (body : string) (now : Z) : codexQuotaCooldownHint * bool :=
  let hint := mkHint 0 EmptyString in
  if bool_decide (String.length body = 0%nat) then (hint, false)
  else
    let '(retryAt, reason, ok) := codexQuotaRecoverAt body now in
    if negb ok || Time.IsZero retryAt || negb (Time.After retryAt now) then (hint, false)
    else (mkHint (Time.Sub retryAt now) reason, true).

(** The last lines of [newCodexStatusErr]: the hint, when there is one,
    written over the error built so far. *)
Definition applyHint (sErr : statusErr) (h : codexQuotaCooldownHint * bool) : statusErr :=
  let '(hint, ok) := h in
  if ok then
    let sErr :=
      if 0 <? hintRetryAfter hint
      then mkStatusErr (code sErr) (msg sErr) (Some (hintRetryAfter hint)) (quotaReason sErr)
      else sErr in
    mkStatusErr (code sErr) (msg sErr) (retryAfter sErr) (hintReason hint)
  else sErr.

End WithLibs.

(** *** The executor and the world it runs in *)

Record Request : Type := mkRequest {
  Method : string;
  ReqURL : string
}.

(** An upstream answer: status, the bytes [io.ReadAll] returned, the
    error it returned if any, and the headers. *)
Record Response : Type := mkResponse {
  StatusCode : Z;
  Body : string;
  BodyErr : option string;
  RespHeader : Header
}.

Inductive DoResult : Type :=
  | DoErr (e : string)
  | DoResp (r : Response).

(** The outside: the successive readings of [time.Now()] and the answer
    to the k-th call of [httpClient.Do]. *)
Record Env : Type := mkEnv {
  time_Now : nat -> Z;
  http_Do : nat -> Request -> DoResult
}.

(** The process as one request sees it: the shared ban state, how many
    clock readings and HTTP calls have been made, and the requests sent
    so far, in order.  Requests served at the same time are not
    modelled. *)
Record World : Type := mkWorld {
  bannedTill : Router.BanState;
  clockReads : nat;
  httpCalls : nat;
  trace : list Request
}.

Definition M (A : Type) : Type := World -> A * World.

Definition ret {A : Type} (a : A) : M A := fun w => (a, w).

Definition bind {A B : Type} (m : M A) (k : A -> M B) : M B :=
  fun w => let '(a, w') := m w in k a w'.

Notation "x <- m ;; k" := (bind m (fun x => k))
  (at level 100, m at next level, right associativity).
Notation "m ;;; k" := (bind m (fun _ => k))
  (at level 100, right associativity).

Inductive error : Type :=
  | ErrStatus (e : statusErr)
  | ErrOther (e : string).

Inductive execResult : Type :=
  | ExecOK (payload : string)
  | ExecErr (e : error).

(** The translators and the payload preparation, which the executor calls
    as opaque services. *)
Class Translators : Type := {
  TranslateNonStream : string -> string
}.

(** What [Execute] is given besides the credential: [opts.Alt] and the
    error of [thinking.ApplyThinking], if it returns one. *)
Record ExecInput : Type := mkExecInput {
  Alt : string;
  ApplyThinkingErr : option string
}.

Section WithEnv.
Context {GL : GoLib} {AL : AuthLib} {TL : Translators} (env : Env).

(** A reading of the clock.  One is drawn for every call below that may
    consult the clock; the sources draw it only on the paths that use
    it, and the readings being arbitrary the difference cannot be
    observed. *)
Definition Now : M Z :=
  fun w => (time_Now env (clockReads w),
            mkWorld (bannedTill w) (S (clockReads w)) (httpCalls w) (trace w)).

Definition Do (r : Request) : M DoResult :=
  fun w => (http_Do env (httpCalls w) r,
            mkWorld (bannedTill w) (clockReads w) (S (httpCalls w)) (trace w ++ [r])).

Definition onBans {A : Type} (f : Router.BanState -> A * Router.BanState) : M A :=
  fun w => let '(a, b) := f (bannedTill w) in
           (a, mkWorld b (clockReads w) (httpCalls w) (trace w)).

Definition resolveRouteM (cfg : option config.Config) (auth : option Auth)
    (provider originalURL : string) : M Router.reverseProxyResolution :=
  now <- Now ;;
  onBans (Router.resolveReverseProxyRouteForAuth now cfg auth provider originalURL).

Definition applyHeadersM (cfg : option config.Config) (auth : option Auth)
    (provider : string) : M unit :=
  now <- Now ;;
  onBans (fun b => (tt, Router.applyReverseProxyHeaders now cfg auth provider b)).

Definition banM (proxyID : string) : M unit :=
  now <- Now ;;
  onBans (fun b => (tt, Router.banReverseProxyTemporarily now proxyID b)).

(** [cacheHelper]: the request, unless [http.NewRequestWithContext]
    rejects the URL, which it does when [url.Parse] fails.  The context
    is taken to be there.  The prompt-cache key it may add to the body
    and the headers are not part of the model. *)
Definition cacheHelper (url : string) : option Request :=
  match url_Parse url with
  | Some _ => Some (mkRequest "POST" url)
  | None => None
  end.

Definition codexUsageURL : string := "https://chatgpt.com/backend-api/wham/usage".

Definition noHint : codexQuotaCooldownHint * bool := (mkHint 0 EmptyString, false).

Definition fetchCodexQuotaCooldownHint (auth : option Auth)
  : M (codexQuotaCooldownHint * bool) :=
  match auth with
  | None => ret noHint
  | Some _ =>
      let token := Str.TrimSpace (fst (codexCreds auth)) in
      if Str.eqb token EmptyString then ret noHint
      else
        match url_Parse codexUsageURL with
        | None => ret noHint
        | Some _ =>
            r <- Do (mkRequest "GET" codexUsageURL) ;;
            match r with
            | DoErr _ => ret noHint
            | DoResp resp =>
                if (StatusCode resp <? 200) || (300 <=? StatusCode resp) then ret noHint
                else
                  match BodyErr resp with
                  | Some _ => ret noHint
                  | None =>
                      now <- Now ;;
                      ret (hintFromUsageBody (Body resp) now)
                  end
            end
        end
  end.

Definition newCodexStatusErr (auth : option Auth) (statusCode : Z) (body : string)
    (headers : Header) : M statusErr :=
  let sErr := mkStatusErr statusCode body None EmptyString in
  if negb (statusCode =? 429) then ret sErr
  else
    now <- Now ;;
    let sErr :=
      match parseRetryAfterHeader now headers with
      | Some d => mkStatusErr statusCode body (Some d) EmptyString
      | None => sErr
      end in
    h <- fetchCodexQuotaCooldownHint auth ;;
    ret (applyHint sErr h).

(** [bytes.Split(data, "\n")] on the bytes of [data]. *)
Fixpoint splitLines (l : list N) : list (list N) :=
  match l with
  | [] => [[]]
  | c :: r =>
      match splitLines r with
      | cur :: rest => if (c =? 10)%N then [] :: cur :: rest else (c :: cur) :: rest
      | [] => [[c]]
      end
  end.

Definition isCompleted (line : string) : bool :=
  match gjson.Get (gjson_Parse line) "type" with
  | Some (JStr t) => Str.eqb t "response.completed"
  | _ => false
  end.

(** The loop of [Execute] over the lines of the answer: the first line
    tagged [data:] whose event is the completed response. *)
Fixpoint firstCompleted (lines : list string) : option string :=
  match lines with
  | [] => None
  | line :: rest =>
      if negb (Str.HasPrefix line "data:") then firstCompleted rest
      else
        let line := Str.TrimSpace (String.substring 5 (String.length line - 5) line) in
        if negb (isCompleted line) then firstCompleted rest else Some line
  end.

Definition streamClosedErr : statusErr :=
  mkStatusErr 408
    "stream error: stream disconnected before completion: stream closed before response.completed"
    None EmptyString.

(** The end of [Execute], from [io.ReadAll] on an answer in the 2xx
    range. *)
Definition finishExecute (resp : Response) : execResult :=
  match BodyErr resp with
  | Some e => ExecErr (ErrOther e)
  | None =>
      match firstCompleted (map Str.of_codes (splitLines (Str.codes (Body resp)))) with
      | Some line => ExecOK (TranslateNonStream line)
      | None => ExecErr (ErrStatus streamClosedErr)
      end
  end.

Definition is2xx (statusCode : Z) : bool := (200 <=? statusCode) && (statusCode <? 300).

Definition newRequestErr : error := ErrOther "net/http: new request".

Definition executeCompact (cfg : option config.Config) (auth : option Auth)
    (input : ExecInput) : M execResult :=
  let '(apiKey, baseURL) := codexCreds auth in
  let baseURL :=
    if Str.eqb baseURL EmptyString then "https://chatgpt.com/backend-api/codex"%string
    else baseURL in
  match ApplyThinkingErr input with
  | Some e => ret (ExecErr (ErrOther e))
  | None =>
      let url := (Str.TrimSuffix baseURL "/" ++ "/responses/compact")%string in
      match cacheHelper url with
      | None => ret (ExecErr newRequestErr)
      | Some httpReq =>
          applyHeadersM cfg auth "codex" ;;;
          r <- Do httpReq ;;
          match r with
          | DoErr e => ret (ExecErr (ErrOther e))
          | DoResp httpResp =>
              if negb (is2xx (StatusCode httpResp)) then
                sErr <- newCodexStatusErr auth (StatusCode httpResp) (Body httpResp)
                                          (RespHeader httpResp) ;;
                ret (ExecErr (ErrStatus sErr))
              else
                match BodyErr httpResp with
                | Some e => ret (ExecErr (ErrOther e))
                | None => ret (ExecOK (TranslateNonStream (Body httpResp)))
                end
          end
      end
  end.

Definition Execute (cfg : option config.Config) (auth : option Auth)
    (input : ExecInput) : M execResult :=
  if Str.eqb (Alt input) "responses/compact" then executeCompact cfg auth input
  else
    let '(apiKey, baseURL) := codexCreds auth in
    let baseURL :=
      if Str.eqb baseURL EmptyString then "https://chatgpt.com/backend-api/codex"%string
      else baseURL in
    match ApplyThinkingErr input with
    | Some e => ret (ExecErr (ErrOther e))
    | None =>
        let originalURL := (Str.TrimSuffix baseURL "/" ++ "/responses")%string in
        proxyRoute <- resolveRouteM cfg auth "codex" originalURL ;;
        let url := Router.URL proxyRoute in
        match cacheHelper url with
        | None => ret (ExecErr newRequestErr)
        | Some httpReq =>
            applyHeadersM cfg auth "codex" ;;;
            r <- Do httpReq ;;
            match r with
            | DoErr e => ret (ExecErr (ErrOther e))
            | DoResp httpResp =>
                if negb (is2xx (StatusCode httpResp)) then
                  let b := Body httpResp in
                  if Router.Proxied proxyRoute
                     && Router.shouldBanReverseProxyOnError (StatusCode httpResp) b
                  then
                    banM (Router.ProxyID proxyRoute) ;;;
                    let fallbackURL := originalURL in
                    match cacheHelper fallbackURL with
                    | None => ret (ExecErr newRequestErr)
                    | Some httpReq =>
                        applyHeadersM cfg auth "codex" ;;;
                        r2 <- Do httpReq ;;
                        match r2 with
                        | DoErr e => ret (ExecErr (ErrOther e))
                        | DoResp httpResp =>
                            if negb (is2xx (StatusCode httpResp)) then
                              sErr <- newCodexStatusErr auth (StatusCode httpResp)
                                        (Body httpResp) (RespHeader httpResp) ;;
                              ret (ExecErr (ErrStatus sErr))
                            else ret (finishExecute httpResp)
                        end
                    end
                  else
                    sErr <- newCodexStatusErr auth (StatusCode httpResp) b
                              (RespHeader httpResp) ;;
                    ret (ExecErr (ErrStatus sErr))
                else ret (finishExecute httpResp)
            end
        end
    end.

End WithEnv.
End Codex.

(** ** internal/access/config_access/provider.go *)

Module configaccess.

(** The value stored under a key of [AccessProvider.Config]: nil, a
    [map[string]string] or a [map[string]any] with its entries in the
    order the [range] loop visits them, or anything else. *)
Inductive rawConfig : Type :=
  | RawNil
  | RawStrMap (entries : list (string * string))
  | RawAnyMap (entries : list (string * anyv))
  | RawOther.

Record AccessProvider : Type := mkAccessProvider {
  Name : string;
  APIKeys : list string;
  Config : gmap string rawConfig
}.

(** The provider; its clock [now] is passed to [Authenticate] as the
    reading it returns. *)
Record provider : Type := mkProvider {
  name : string;
  keys : gset string;
  expiresAt : option (gmap string Z)
}.

Record HttpRequest : Type := mkHttpRequest {
  ReqHeader : Header;
  ReqQuery : option Header
}.

Inductive outcome : Type :=
  | Authenticated (providerName principal source : string)
  | ErrNotHandled
  | ErrNoCredentials
  | ErrInvalidCredential
  | ErrExpiredCredential.

Definition toString (v : anyv) : string :=
  match v with
  | AString t => t
  | ABytes t => t
  | AOther => EmptyString
  end.

Fixpoint splitAtSpace (l : list N) : option (list N * list N) :=
  match l with
  | [] => None
  | c :: r =>
      if (c =? 32)%N then Some ([], r)
      else match splitAtSpace r with
           | Some (a, b) => Some (c :: a, b)
           | None => None
           end
  end.

Definition extractBearerToken (header : string) : string :=
  if Str.eqb header EmptyString then EmptyString
  else
    match splitAtSpace (Str.codes header) with
    | None => header
    | Some (p0, p1) =>
        if negb (Str.eqb (Str.ToLower (Str.of_codes p0)) "bearer") then header
        else Str.TrimSpace (Str.of_codes p1)
    end.

Section WithLibs.
Context {GL : GoLib}.

(** The sdkconfig constant [DefaultAccessProviderName], declared outside
    the files at hand. *)
Variable DefaultAccessProviderName : string.

Definition expiryStep (out : gmap string Z) (key val : string) : gmap string Z :=
  let key := Str.TrimSpace key in
  let val := Str.TrimSpace val in
  if Str.eqb key EmptyString || Str.eqb val EmptyString then out
  else
    match time_ParseRFC3339 val with
    | Some ts => <[ key := ts ]> out
    | None => out
    end.

Definition parseExpiryMap (cfg : option AccessProvider) : option (gmap string Z) :=
  match cfg with
  | None => None
  | Some cfg =>
      if bool_decide (size (Config cfg) = 0%nat) then None
      else
        let raw :=
          match Config cfg !! "api-key-expiry"%string with
          | Some RawNil | None => default RawNil (Config cfg !! "apiKeyExpiry"%string)
          | Some v => v
          end in
        let finish (out : gmap string Z) :=
          if bool_decide (size out = 0%nat) then None else Some out in
        match raw with
        | RawNil => None
        | RawStrMap v => finish (foldl (fun out kv => expiryStep out kv.1 kv.2) ∅ v)
        | RawAnyMap v => finish (foldl (fun out kv => expiryStep out kv.1 (toString kv.2)) ∅ v)
        | RawOther => None
        end
  end.

Definition newProvider (cfg : AccessProvider) : provider :=
  let name :=
    if Str.eqb (Name cfg) EmptyString then DefaultAccessProviderName else Name cfg in
  let keys :=
    foldl (fun ks key => if Str.eqb key EmptyString then ks else {[ key ]} ∪ ks)
          (∅ : gset string) (APIKeys cfg) in
  mkProvider name keys (parseExpiryMap (Some cfg)).

Definition Identifier (p : option provider) : string :=
  match p with
  | Some p => if Str.eqb (name p) EmptyString then DefaultAccessProviderName else name p
  | None => DefaultAccessProviderName
  end.

(** The values [Authenticate] tries, with their sources, in its order. *)
Definition candidates (r : HttpRequest) : list (string * string) :=
  let q k := match ReqQuery r with
             | Some v => Header_Get v k
             | None => EmptyString
             end in
  [ (extractBearerToken (Header_Get (ReqHeader r) "Authorization"), "authorization");
    (Header_Get (ReqHeader r) "X-Goog-Api-Key", "x-goog-api-key");
    (Header_Get (ReqHeader r) "X-Api-Key", "x-api-key");
    (q "key", "query-key");
    (q "auth_token", "query-auth-token") ]%string.

(** The loop of [Authenticate] over the candidates. *)
Fixpoint authenticateLoop (now : Z) (p : provider) (cs : list (string * string)) : outcome :=
  match cs with
  | [] => ErrInvalidCredential
  | (value, source) :: rest =>
      if Str.eqb value EmptyString then authenticateLoop now p rest
      else if bool_decide (value ∈ keys p) then
        let expired :=
          match expiresAt p with
          | Some ex =>
              match ex !! value with
              | Some exp => negb (Time.IsZero exp) && negb (Time.After exp now)
              | None => false
              end
          | None => false
          end in
        if expired then ErrExpiredCredential
        else Authenticated (Identifier (Some p)) value source
      else authenticateLoop now p rest
  end.

Definition Authenticate (now : Z) (p : option provider) (r : HttpRequest) : outcome :=
  match p with
  | None => ErrNotHandled
  | Some pp =>
      if bool_decide (size (keys pp) = 0%nat) then ErrNotHandled
      else
        let h k := Header_Get (ReqHeader r) k in
        let q k := match ReqQuery r with
                   | Some v => Header_Get v k
                   | None => EmptyString
                   end in
        if Str.eqb (h "Authorization") EmptyString
           && Str.eqb (h "X-Goog-Api-Key") EmptyString
           && Str.eqb (h "X-Api-Key") EmptyString
           && Str.eqb (q "key") EmptyString
           && Str.eqb (q "auth_token") EmptyString
        then ErrNoCredentials
        else authenticateLoop now pp (candidates r)
  end.

End WithLibs.
End configaccess.

(** ** Vocabulary of the statements *)

Module Spec.
Import cliproxyauth.

(** The reference list the api-key-auth mapping holds for a key, if the
    key is listed. *)
Definition keyRefs (m : option Access.Manager) (k : string) : option (list string) :=
  m ≫= (fun mm => Access.runtimeConfig mm ≫= (fun cfg => config.APIKeyAuth cfg !! k)).

(** The seed of the index of a credential that has no explicit one:
    "file:" and its file name, else "api_key:" and its api_key
    attribute, else "id:" and its ID, white space at the ends aside; a
    credential with none of the three has no seed. *)
Definition indexSeed (a : Auth) : option string :=
  let file := Str.TrimSpace (FileName a) in
  let apiKey := Str.TrimSpace (getStr (Attributes a) "api_key") in
  let id := Str.TrimSpace (ID a) in
  if negb (Str.eqb file EmptyString) then Some ("file:" ++ file)%string
  else if negb (Str.eqb apiKey EmptyString) then Some ("api_key:" ++ apiKey)%string
  else if negb (Str.eqb id EmptyString) then Some ("id:" ++ id)%string
  else None.

(** The derived index of a credential: its explicit index if it has one,
    else the stable token of its seed, else nothing. *)
Definition derivedIndex {AL : AuthLib} (a : Auth) : string :=
  let idx := Str.TrimSpace (Index a) in
  if negb (Str.eqb idx EmptyString) then idx
  else
    match indexSeed a with
    | Some seed => stableAuthIndex seed
    | None => EmptyString
    end.

(** A credential matches a reference list when its ID, its derived index
    or its file name, white space at the ends aside, is one of the
    references that are not blank. *)
Definition refMatches {AL : AuthLib} (a : Auth) (refs : list string) : Prop :=
  ∃ ref, ref ∈ refs ∧ Str.TrimSpace ref ≠ EmptyString ∧
    (Str.TrimSpace (ID a) = Str.TrimSpace ref
     ∨ derivedIndex a = Str.TrimSpace ref
     ∨ Str.TrimSpace (FileName a) = Str.TrimSpace ref).

Definition blank (s : string) : Prop := Str.TrimSpace s = EmptyString.

(** The provider-level mapping: the proxy-routing table, one entry for
    each provider it names. *)
Definition providerTable (r : config.ProxyRouting) : list (string * string) :=
  [ ("codex", config.Codex r); ("antigravity", config.Antigravity r);
    ("claude", config.Claude r); ("gemini", config.Gemini r);
    ("gemini-cli", config.GeminiCLI r); ("vertex", config.Vertex r);
    ("aistudio", config.AIStudio r); ("qwen", config.Qwen r);
    ("iflow", config.IFlow r) ]%string.

(** The proxy id the provider-level mapping holds for a provider, white
    space at the ends aside; none for a provider the table does not
    name and without a configuration. *)
Definition providerProxyID (cfg : option config.Config) (provider : string) : string :=
  match cfg with
  | Some c =>
      match List.find (fun e => Str.eqb provider e.1) (providerTable (config.Routing c)) with
      | Some e => Str.TrimSpace e.2
      | None => EmptyString
      end
  | None => EmptyString
  end.

(** The keys under which the credential-level mapping is read for a
    credential, in order: its ID, its index, its file name. *)
Definition credentialKeys {AL : AuthLib} (a : Auth) : list string :=
  [ Str.TrimSpace (ID a); Str.TrimSpace (EnsureIndex a); Str.TrimSpace (FileName a) ].

(** The proxy id the credential-level mapping holds for a credential:
    the entry of proxy-routing-auth under the first of its keys that is
    not blank and has an entry that is not blank, white space at the
    ends aside. *)
Definition credentialProxyID {AL : AuthLib} (cfg : option config.Config)
    (auth : option Auth) : string :=
  match cfg, auth with
  | Some c, Some a =>
      default EmptyString
        (head (omap (fun k =>
                       if Str.eqb k EmptyString then None
                       else
                         match config.ProxyRoutingAuth c !! k with
                         | Some p =>
                             if Str.eqb (Str.TrimSpace p) EmptyString then None
                             else Some (Str.TrimSpace p)
                         | None => None
                         end)
                    (credentialKeys a)))
  | _, _ => EmptyString
  end.

(** The resolution order: the credential-level mapping, then the
    provider-level mapping, else none. *)
Definition resolvedProxyID {AL : AuthLib} (cfg : option config.Config)
    (auth : option Auth) (provider : string) : string :=
  if negb (Str.eqb (credentialProxyID cfg auth) EmptyString) then credentialProxyID cfg auth
  else providerProxyID cfg provider.

(** One of the three tests of [authMatchesAllowedRefs]. *)
Definition refTest (S : gset string) (x : string) : bool :=
  negb (Str.eqb x EmptyString) && bool_decide (x ∈ S).

(** A run of ban events, each with the clock reading it takes. *)
Definition banAll (events : list (Z * string)) (b : Router.BanState) : Router.BanState :=
  foldl (fun b e => Router.banReverseProxyTemporarily e.1 e.2 b) b events.

(** The suffix that carries the query string. *)
Definition querySuffix (rawQuery : string) : string :=
  if Str.eqb rawQuery EmptyString then EmptyString else ("?" ++ rawQuery)%string.

(** The path [resolveReverseProxyURLWithID] routes: the path of the
    original URL, with a leading slash. *)
Definition routedPath (u : url_URL) : string :=
  if Str.HasPrefix (Path u) "/" then Path u else ("/" ++ Path u)%string.

(** The bridge URL of [buildReverseProxyWorkerURL] once its guards have
    passed. *)
Definition bridgeURL (workerBase prefix path upstreamHost rawQuery : string) : string :=
  (Str.TrimSuffix workerBase "/"
   ++ Str.TrimSuffix
        (("/" ++ Str.Trim1 (Str.TrimSpace prefix) "/")
         ++ (if Str.HasPrefix (if Str.eqb path EmptyString then "/" else path) "/"
             then (if Str.eqb path EmptyString then "/" else path)
             else "/" ++ (if Str.eqb path EmptyString then "/" else path)))
        "/"
   ++ "/" ++ upstreamHost ++ querySuffix rawQuery)%string.

End Spec.


(** The cooldown detector in the words of the specification. *)
Module SpecQuota.
Import Codex.
Section WithLibs.
Context {GL : GoLib}.

(** The number a field holds: a JSON number, or a string that reads as a
    number, white space at its ends aside. *)
Definition number (field : gjson.Result) : option spec_float :=
  match field with
  | Some (JNum f) => Some f
  | Some (JStr s) =>
      if Str.eqb (Str.TrimSpace s) EmptyString then None
      else strconv_ParseFloat (Str.TrimSpace s)
  | _ => None
  end.

(** A window has used up its allowance when it reports a used percentage
    of 100 or more. *)
Definition usedUp (window : gjson.Result) : bool :=
  existsb (fun k =>
             match number (gjson.Get window k) with
             | Some v => Float64.ge v (Float64.of_Z 100)
             | None => false
             end)
          [ "used_percent"; "usedPercent" ]%string.

(** The first of the fields [keys] of a window that holds a number above
    zero. *)
Definition firstPositive (window : gjson.Result) (keys : list string) : option spec_float :=
  head (omap (fun k =>
                match number (gjson.Get window k) with
                | Some v => if Float64.gt v (Float64.of_Z 0) then Some v else None
                | None => None
                end) keys).

(** The recovery time of a window: its absolute reset epoch, in seconds,
    if it gives one, else now plus the seconds after which it resets. *)
Definition recovery (window : gjson.Result) (now : Z) : option Z :=
  match firstPositive window [ "reset_at"; "resetAt" ]%string with
  | Some epoch => Some (Time.Unix (int64 epoch))
  | None =>
      match firstPositive window [ "reset_after_seconds"; "resetAfterSeconds" ]%string with
      | Some seconds =>
          Some (now + int64 (Float64.mul seconds (Float64.of_Z Time.Second)))
      | None => None
      end
  end.

(** A window declares a long duration when its limit-window-seconds or
    its reset-after-seconds is 24 hours or more. *)
Definition declaresLong (window : gjson.Result) : bool :=
  existsb (fun k =>
             match number (gjson.Get window k) with
             | Some v => Float64.ge v (Float64.of_Z 86400)
             | None => false
             end)
          [ "limit_window_seconds"; "limitWindowSeconds";
            "reset_after_seconds"; "resetAfterSeconds" ]%string.

(** The tag of a primary window: the long-form tag when it declares a
    long duration, the short-form tag otherwise. *)
Definition tag (window : gjson.Result) (short long : string) : string :=
  if declaresLong window then long else short.

(** The candidate of one window, in the words of the specification: the
    window is there, it is limiting (its section is flagged or it has
    used up its allowance), it has a recovery time, and that time is
    strictly after now. *)
Definition windowCandidate (window : gjson.Result) (parentLimited : bool)
    (reason : string) (now : Z) : list candidate :=
  if gjson.Exists window && negb (gjson.isNull window)
     && (parentLimited || usedUp window)
  then
    match recovery window now with
    | Some t => if now <? t then [mkCandidate t reason] else []
    | None => []
    end
  else [].

(** A section is flagged when it reports that the limit is reached or
    that the request is not allowed. *)
Definition sectionFlagged (rateLimit : gjson.Result) : bool :=
  gjson.Bool (gjson.Get rateLimit "limit_reached")
  || gjson.Bool (gjson.Get rateLimit "limitReached")
  || (gjson.Exists (gjson.Get rateLimit "allowed")
      && negb (gjson.Bool (gjson.Get rateLimit "allowed"))).

Definition sectionCandidates (rateLimit : gjson.Result)
    (reasonPrimary reasonSecondary : string) (now : Z) : list candidate :=
  if gjson.Exists rateLimit && negb (gjson.isNull rateLimit) then
    let flagged := sectionFlagged rateLimit in
    let primary w := tag w reasonPrimary reasonSecondary in
    windowCandidate (gjson.Get rateLimit "primary_window") flagged
                    (primary (gjson.Get rateLimit "primary_window")) now
    ++ windowCandidate (gjson.Get rateLimit "primaryWindow") flagged
                       (primary (gjson.Get rateLimit "primaryWindow")) now
    ++ windowCandidate (gjson.Get rateLimit "secondary_window") flagged reasonSecondary now
    ++ windowCandidate (gjson.Get rateLimit "secondaryWindow") flagged reasonSecondary now
  else [].

(** All limiting candidates across all sections. *)
Definition limitingCandidates (root : gjson.Result) (now : Z) : list candidate :=
  sectionCandidates (gjson.Get root "rate_limit") "codex_5h_limit" "codex_weekly_limit" now
  ++ sectionCandidates (gjson.Get root "rateLimit") "codex_5h_limit" "codex_weekly_limit" now
  ++ sectionCandidates (gjson.Get root "code_review_rate_limit")
       "codex_code_review_limit" "codex_code_review_limit" now
  ++ sectionCandidates (gjson.Get root "codeReviewRateLimit")
       "codex_code_review_limit" "codex_code_review_limit" now.
End WithLibs.
End SpecQuota.

(** The executor: what a caller can observe of a run. *)
Module SpecExec.
Import Codex.
(** The upstream URL [Execute] starts from. *)
Definition originalURL (auth : option cliproxyauth.Auth) : string :=
  let baseURL := (codexCreds auth).2 in
  let baseURL :=
    if Str.eqb baseURL EmptyString then "https://chatgpt.com/backend-api/codex"%string
    else baseURL in
  (Str.TrimSuffix baseURL "/" ++ "/responses")%string.

Definition POST (url : string) : Request := mkRequest "POST" url.

(** The upstream calls among the requests sent: the POSTs. *)
Definition posts (t : list Request) : list Request :=
  List.filter (fun r => Str.eqb (Method r) "POST") t.

(** The world after one reading of the clock. *)
Definition afterNow (w : World) : World :=
  mkWorld (bannedTill w) (S (clockReads w)) (httpCalls w) (trace w).

(** The status codes that trip the breaker whatever the body. *)
Definition banStatusCodes : list Z := [404; 502; 503; 504; 520; 521; 522; 523; 524].

(** The markers of a proxy failure in an error body: the words for
    request detail in Chinese (four Han characters, in UTF-8) and in
    English, a 404 status in plain text and in JSON, and a doubled
    version segment in the path. *)
Definition banMarkers : list string :=
  [ Str.of_codes [232; 175; 183; 230; 177; 130; 232; 175; 166; 230; 131; 133]%N;
    "request detail"; "status 404";
    Str.of_codes [34; 115; 116; 97; 116; 117; 115; 34; 58; 52; 48; 52]%N;
    "/v1/v1/messages" ]%string.

(** The ban predicate: one of the status codes, or an error body that
    holds one of the markers once trimmed and in lower case. *)
Definition banPredicate (statusCode : Z) (errMsg : string) : Prop :=
  statusCode ∈ banStatusCodes
  ∨ ∃ marker, marker ∈ banMarkers
              ∧ Str.Contains (Str.ToLower (Str.TrimSpace errMsg)) marker = true.
End SpecExec.

(** Client-key authentication: what a request presents and what the
    configuration holds for it. *)
Module SpecAuthn.
Import configaccess.

(** The configured client key a request presents: the first of its
    candidate values that is not empty and is one of the provider's
    keys, with its source. *)
Definition presented (p : provider) (r : HttpRequest) : option (string * string) :=
  List.find (fun c => negb (Str.eqb c.1 EmptyString) && bool_decide (c.1 ∈ keys p))
            (candidates r).

(** The expiry the provider holds for a key. *)
Definition expiryOf (p : provider) (key : string) : option Z :=
  expiresAt p ≫= (fun ex => ex !! key).

(** The name under which the provider of a configuration answers: the
    configured name, or the default name when none is configured. *)
Definition providerName (defaultName : string) (cfg : AccessProvider) : string :=
  if Str.eqb (Name cfg) EmptyString then defaultName else Name cfg.

(** The value of the api-key-expiry configuration, under either
    spelling. *)
Definition rawExpiry (cfg : AccessProvider) : rawConfig :=
  match Config cfg !! "api-key-expiry"%string with
  | Some RawNil | None => default RawNil (Config cfg !! "apiKeyExpiry"%string)
  | Some v => v
  end.

(** The text of a value of any type: that of a string or of bytes, and
    nothing for anything else. *)
Definition valueText (v : anyv) : string :=
  match v with
  | AString t | ABytes t => t
  | AOther => EmptyString
  end.

(** Its entries as strings. *)
Definition expiryEntries (raw : rawConfig) : list (string * string) :=
  match raw with
  | RawStrMap v => v
  | RawAnyMap v => map (fun kv => (kv.1, valueText kv.2)) v
  | _ => []
  end.

(** The RFC3339 timestamp an entry of the configuration gives for a key:
    the entry's key is the key, white space at the ends aside, and its
    value, white space aside, is not blank and reads as the timestamp. *)
Definition entryTimestamp {GL : GoLib} (key : string) (kv : string * string) : option Z :=
  if Str.eqb (Str.TrimSpace kv.1) key && negb (Str.eqb (Str.TrimSpace kv.2) EmptyString)
  then time_ParseRFC3339 (Str.TrimSpace kv.2)
  else None.

(** The RFC3339 timestamps the api-key-expiry configuration holds for a
    key, one for each entry that gives one. *)
Definition timestamps {GL : GoLib} (cfg : AccessProvider) (key : string) : list Z :=
  omap (entryTimestamp key) (expiryEntries (rawExpiry cfg)).
End SpecAuthn.
(** ** Concrete data for the examples *)

Module Examples.
Import cliproxyauth.

(** A stand-in for the hash [stableAuthIndex]; [EnsureIndex] follows the
    derivation of [authIndexForMatch]. *)
#[export] Instance exAuthLib : AuthLib := {|
  stableAuthIndex := fun seed => ("idx-" ++ seed)%string;
  EnsureIndex := fun a =>
    if Str.eqb (Index a) EmptyString then ("idx-file:" ++ FileName a)%string else Index a
|}.

Definition mkA (id file : string) : Auth :=
  mkAuth id "codex" file EmptyString EmptyString None None EmptyString.

Definition noRouting : config.ProxyRouting :=
  config.mkProxyRouting EmptyString EmptyString EmptyString EmptyString EmptyString
                        EmptyString EmptyString EmptyString EmptyString.

Definition exAccessConfig : config.Config :=
  config.mkConfig
    (<[ "client-1"%string := [ " a.json "%string; "  "%string ] ]>
       (<[ "client-2"%string := [ "   "%string ] ]> ∅))
    noRouting ∅ [] EmptyString.

Definition exManager : Access.Manager :=
  Access.mkManager (Some exAccessConfig)
    [ Some (mkA "auth-allowed" "a.json"); Some (mkA "auth-denied" "b.json") ].

(** Credentials that a reference reaches through the derived index only:
    by an explicit index, and by the token of a file, api_key and id
    seed; and one that no reference reaches. *)
Definition exIndexRefs : list string :=
  [ "  idx-7 "; "idx-file:c.json"; "idx-api_key:sk-1"; "idx-id:auth-d" ]%string.

Definition exIndexAuths : list Auth :=
  [ mkAuth "auth-a" "codex" "a.json" " idx-7 " EmptyString None None EmptyString;
    mkAuth "auth-b" "codex" " c.json" EmptyString EmptyString None None EmptyString;
    mkAuth "auth-c" "codex" EmptyString EmptyString EmptyString
           (Some {[ "api_key"%string := " sk-1 "%string ]}) None EmptyString;
    mkAuth " auth-d " "codex" EmptyString EmptyString EmptyString None None EmptyString;
    mkAuth "auth-e" "codex" "e.json" EmptyString EmptyString None None EmptyString ].

Definition exIndexManager : Access.Manager :=
  Access.mkManager
    (Some (config.mkConfig (<[ "client-idx"%string := exIndexRefs ]> ∅)
                           noRouting ∅ [] EmptyString))
    (Some <$> exIndexAuths).

Definition num (z : Z) : json := JNum (Float64.of_Z z).

(** The payload of a reached limit with a 5-hour primary window and a
    one-day secondary window. *)
Definition payloadNearest : json :=
  JObj [ ("rate_limit"%string,
          JObj [ ("limit_reached"%string, JTrue);
                 ("primary_window"%string, JObj [ ("reset_after_seconds"%string, num 18000) ]);
                 ("secondary_window"%string, JObj [ ("reset_after_seconds"%string, num 86400) ]) ]) ].

(** The payload with a secondary window only, resetting in a week. *)
Definition payloadWeekly : json :=
  JObj [ ("rate_limit"%string,
          JObj [ ("limit_reached"%string, JTrue);
                 ("secondary_window"%string, JObj [ ("reset_after_seconds"%string, num 604800) ]) ]) ].

Definition quoted (s : string) : string :=
  (Str.of_codes [34]%N ++ s ++ Str.of_codes [34]%N)%string.

(** The text of [payloadNearest]. *)
Definition payloadNearestText : string :=
  ("{" ++ quoted "rate_limit" ++ ":{" ++ quoted "limit_reached" ++ ":true,"
   ++ quoted "primary_window" ++ ":{" ++ quoted "reset_after_seconds" ++ ":18000},"
   ++ quoted "secondary_window" ++ ":{" ++ quoted "reset_after_seconds" ++ ":86400}}}")%string.

(** The text of [payloadWeekly]. *)
Definition payloadWeeklyText : string :=
  ("{" ++ quoted "rate_limit" ++ ":{" ++ quoted "limit_reached" ++ ":true,"
   ++ quoted "secondary_window" ++ ":{" ++ quoted "reset_after_seconds" ++ ":604800}}}")%string.

Definition cut (sep s : string) : string * option string :=
  match String.index 0 sep s with
  | Some i =>
      (String.substring 0 i s,
       Some (String.substring (i + String.length sep)
                              (String.length s - i - String.length sep) s))
  | None => (s, None)
  end.

(** A stand-in for [url.Parse] on plain URLs of the shape
    scheme://host/path?query; anything else is a relative path. *)
Definition simpleURLParse (s : string) : option url_URL :=
  let '(beforeQ, query) := cut "?" s in
  match cut "://" beforeQ with
  | (scheme, Some rest) =>
      let '(host, path) := cut "/" rest in
      Some (mkURL scheme host
                  (match path with Some p => ("/" ++ p)%string | None => EmptyString end)
                  (default EmptyString query))
  | (_, None) => Some (mkURL EmptyString EmptyString beforeQ (default EmptyString query))
  end.

Fixpoint spanDigits (l : list N) : list N * list N :=
  match l with
  | c :: r =>
      if Router.isDigit c then let '(d, t) := spanDigits r in (c :: d, t) else ([], l)
  | [] => ([], [])
  end.

Definition digitsZ (d : list N) : Z := foldl (fun acc c => 10 * acc + (Z.of_N c - 48)) 0 d.

Definition signOf (l : list N) : bool * list N :=
  match l with
  | c :: r => if (c =? 45)%N then (true, r) else if (c =? 43)%N then (false, r) else (false, l)
  | [] => (false, l)
  end.

(** The float64 nearest to m * 10^e, for m above zero of [nd] digits;
    [None] when it is out of range. *)
Definition roundDecimal (neg : bool) (m nd e : Z) : option spec_float :=
  if m =? 0 then Some (S754_zero neg)
  else if 310 <? e + nd then None
  else if e + nd <? -330 then Some (S754_zero neg)
  else
    let f :=
      if 0 <=? e then
        binary_normalize Float64.prec Float64.emax ((if neg then -1 else 1) * (m * 10 ^ e)) 0 neg
      else
        let d := 10 ^ (- e) in
        let s := 66 + Z.log2 d in
        let q := (m * 2 ^ s) / d in
        let sticky := if (m * 2 ^ s) mod d =? 0 then 0 else 1 in
        binary_normalize Float64.prec Float64.emax
                         ((if neg then -1 else 1) * (2 * q + sticky)) (- (s + 1)) neg in
    match f with
    | S754_infinity _ => None
    | _ => Some f
    end.

(** A stand-in for [strconv.ParseFloat(_, 64)]: decimal literals with
    their correct rounding, and the words for infinity and NaN.  The
    hexadecimal literals and the underscores between digits that
    [ParseFloat] reads as well are errors here. *)
Definition parseDecimal (s : string) : option spec_float :=
  let '(neg, body) := signOf (Str.codes s) in
  let word := Str.ToLower (Str.of_codes body) in
  if Str.eqb word "inf" || Str.eqb word "infinity" then Some (S754_infinity neg)
  else if Str.eqb (Str.ToLower s) "nan" then Some S754_nan
  else
    let '(int, rest) := spanDigits body in
    let '(frac, rest) :=
      match rest with
      | c :: r => if (c =? 46)%N then spanDigits r else ([], rest)
      | [] => ([], rest)
      end in
    if bool_decide (int ++ frac = []) then None
    else
      let m := digitsZ (int ++ frac) in
      let nd := Z.of_nat (length (int ++ frac)) in
      match rest with
      | [] => roundDecimal neg m nd (- Z.of_nat (length frac))
      | c :: r =>
          if (c =? 101)%N || (c =? 69)%N then
            let '(eneg, r) := signOf r in
            let '(ed, r) := spanDigits r in
            match ed, r with
            | _ :: _, [] =>
                let ev := if (8 <? length ed)%nat then 100000000 else digitsZ ed in
                roundDecimal neg m nd ((if eneg then - ev else ev) - Z.of_nat (length frac))
            | _, _ => None
            end
          else None
      end.

(** Stand-ins for the library functions, right on the inputs the examples
    feed them; a float that int64 cannot hold converts as on amd64. *)
#[export] Instance exGoLib : GoLib := {|
  url_Parse := simpleURLParse;
  EqualFold := fun a b => Str.eqb (Str.ToLower a) (Str.ToLower b);
  http_ParseTime := fun s =>
    if Str.eqb s "Wed, 21 Oct 2015 07:28:00 GMT" then Some (Time.Unix 1445412480) else None;
  time_ParseRFC3339 := fun s =>
    if Str.eqb s "0001-01-01T00:00:00Z" then Some Time.zero
    else if Str.eqb s "2020-01-01T00:00:00Z" then Some (Time.Unix 1577836800)
    else if Str.eqb s "2999-01-01T00:00:00Z" then Some (Time.Unix 32472144000)
    else None;
  strconv_ParseFloat := parseDecimal;
  int64_unrepresentable := fun _ => Time.minDuration;
  gjson_Parse := fun s =>
    if Str.eqb s payloadNearestText then Some payloadNearest
    else if Str.eqb s payloadWeeklyText then Some payloadWeekly
    else None
|}.

Definition denoProxy : config.ReverseProxy :=
  config.mkReverseProxy "deno-1" "deno-1" "https://funny-starfish-28.lauracadano-max.deno.net"
                        true ∅.

Definition codexRouting : config.ProxyRouting :=
  config.mkProxyRouting "deno-1" EmptyString EmptyString EmptyString EmptyString
                        EmptyString EmptyString EmptyString EmptyString.

Definition exRouteConfig (worker : string) : config.Config :=
  config.mkConfig ∅ codexRouting ∅ [ denoProxy ] worker.

Definition codexURL : string := "https://chatgpt.com/backend-api/codex/responses".

Definition bridgeWorkerURL : string := "https://cpa-deno-bridge.mengcenfay.workers.dev".

(** A configuration whose only proxy is the worker itself. *)
Definition selfWorkerConfig : config.Config :=
  config.mkConfig ∅ noRouting ∅
    [ config.mkReverseProxy "worker" "worker" bridgeWorkerURL true ∅ ] bridgeWorkerURL.

(** A primary window that declares a one-week duration. *)
Definition payloadWeeklyPrimary : json :=
  JObj [ ("rate_limit"%string,
          JObj [ ("limit_reached"%string, JTrue);
                 ("primary_window"%string,
                  JObj [ ("limit_window_seconds"%string, num 604800);
                         ("reset_after_seconds"%string, num 604800) ]) ]) ].

(** A rate-limit section with a primary window of the given fields; the
    section reports a reached limit when [reached] is set. *)
Definition windowPayload (reached : bool) (fields : list (string * json)) : json :=
  JObj [ ("rate_limit"%string,
          JObj ((if reached then [ ("limit_reached"%string, JTrue) ] else [])
                ++ [ ("primary_window"%string, JObj fields) ])) ].

(** The float64 that the literal 1.001 denotes. *)
Definition f1_001 : spec_float := S754_finite false 4508103226997866 (-52).

#[export] Instance exTranslators : Codex.Translators := {|
  Codex.TranslateNonStream := fun line => line
|}.

(** A credential with an API key, so that the usage lookup is made. *)
Definition keyAuth : Auth :=
  mkAuth "auth-1" "codex" EmptyString EmptyString EmptyString
         (Some {[ "api_key"%string := "sk-test"%string ]}) None EmptyString.

Definition proxiedCodexURL : string :=
  "https://funny-starfish-28.lauracadano-max.deno.net/codex/backend-api/codex/responses".

Definition plainResponse (status : Z) (body : string) (h : Header) : Codex.Response :=
  Codex.mkResponse status body None h.

(** An outside where the clock advances by a second per reading, the
    proxy answers 502, the upstream answers 429 with a Retry-After of a
    day, and the usage lookup returns [payloadNearestText]. *)
Definition exEnv : Codex.Env :=
  Codex.mkEnv
    (fun k => Z.of_nat k * Time.Second)
    (fun _ r =>
       if Str.eqb (Codex.ReqURL r) proxiedCodexURL
       then Codex.DoResp (plainResponse 502 "bad gateway" ∅)
       else if Str.eqb (Codex.ReqURL r) codexURL
       then Codex.DoResp (plainResponse 429 "usage limit reached"
                            {[ "Retry-After"%string := [ "86400"%string ] ]})
       else if Str.eqb (Codex.ReqURL r) Codex.codexUsageURL
       then Codex.DoResp (plainResponse 200 payloadNearestText ∅)
       else Codex.DoErr "no route to host").

Definition exWorld : Codex.World := Codex.mkWorld ∅ 0 0 [].

Definition exInput : Codex.ExecInput := Codex.mkExecInput EmptyString None.


(** Three client keys: one with the zero time as its expiry, one that
    expired at the start of 2020, one whose expiry does not parse. *)
Definition exAccessProvider : configaccess.AccessProvider :=
  configaccess.mkAccessProvider EmptyString [ "k1"; "k2"; "k3" ]%string
    {[ "api-key-expiry"%string :=
         configaccess.RawStrMap
           [ ("k1", "0001-01-01T00:00:00Z"); ("k2", "2020-01-01T00:00:00Z");
             ("k3", "not a date") ]%string ]}.

Definition exProvider : configaccess.provider :=
  configaccess.newProvider "config-inline" exAccessProvider.

(** A client key written with white space at its ends, with an expiry at
    the start of 2020 under the very same key. *)
Definition paddedAccessProvider : configaccess.AccessProvider :=
  configaccess.mkAccessProvider EmptyString [ " k4 " ]%string
    {[ "api-key-expiry"%string :=
         configaccess.RawStrMap [ (" k4 ", "2020-01-01T00:00:00Z") ]%string ]}.

(** A client key with two expiry entries, one written with a space
    before the key: an expiry at the start of 2020, and one at the
    start of 2999 that the loop visits later. *)
Definition twiceAccessProvider : configaccess.AccessProvider :=
  configaccess.mkAccessProvider EmptyString [ "k5" ]%string
    {[ "api-key-expiry"%string :=
         configaccess.RawStrMap
           [ ("k5", "2020-01-01T00:00:00Z"); (" k5", "2999-01-01T00:00:00Z") ]%string ]}.

(** A request that presents its key in the query string. *)
Definition queryKey (key : string) : configaccess.HttpRequest :=
  configaccess.mkHttpRequest ∅ (Some {[ "key"%string := [ key ] ]}).

Definition bearer (key : string) : configaccess.HttpRequest :=
  configaccess.mkHttpRequest {[ "Authorization"%string := [ ("Bearer " ++ key)%string ] ]} None.

(** A reading of the clock in November 2023. *)
Definition exNow : Z := Time.Unix 1700000000.

End Examples.


(** * More of the sources *)

(** The order in which a [range] loop visits a [map[string]string].  Go
    leaves it unspecified; the statements that depend on it ask that the
    list be a permutation of the entries. *)
Class MapRange : Type := {
  rangeOrder : gmap string string -> list (string * string)
}.

(** Functions of [net/http] taken as they are. *)
Class HttpLib : Type := {
  (** [textproto.CanonicalMIMEHeaderKey]. *)
  CanonicalMIMEHeaderKey : string -> string
}.

(** ** The reverse-proxy helpers, continued *)

Module RouterExt.
Import cliproxyauth.

Section WithLibs.
Context {GL : GoLib} {AL : AuthLib} {MR : MapRange} {HL : HttpLib}.

(** [http.Header.Get] and [http.Header.Set] with any spelling of the
    name. *)
Definition Get (h : Header) (key : string) : string :=
  Header_Get h (CanonicalMIMEHeaderKey key).

Definition Set_ (h : Header) (key value : string) : Header :=
  <[ CanonicalMIMEHeaderKey key := [ value ] ]> h.

(** The loop of [applyReverseProxyHeaders] over the configured headers. *)
Definition injectHeaders (entries : list (string * string)) (h : Header) : Header :=
  foldl (fun h kv =>
           let k := Str.TrimSpace kv.1 in
           let v := Str.TrimSpace kv.2 in
           if Str.eqb k EmptyString || Str.eqb v EmptyString then h
           else if negb (Str.eqb (Get h k) EmptyString) then h
           else Set_ h k v)
        h entries.

(** [applyReverseProxyHeaders] in full: the headers of the request, nil
    for a nil request, and the ban state after its ban check. *)
Definition applyReverseProxyHeadersReq (now : Z) (req : option Header)
    (cfg : option config.Config) (auth : option Auth) (provider : string)
    (bannedTill : Router.BanState) : option Header * Router.BanState :=
  match req, cfg with
  | Some h, Some _ =>
      let proxyID := Router.routeProxyID cfg auth provider in
      if Str.eqb proxyID EmptyString then (req, bannedTill)
      else
        let '(banned, bannedTill) :=
          Router.isReverseProxyTemporarilyBanned now proxyID bannedTill in
        if banned then (req, bannedTill)
        else
          match Router.findReverseProxyByID cfg proxyID with
          | None => (req, bannedTill)
          | Some proxyConfig =>
              if bool_decide (size (config.Headers proxyConfig) = 0%nat)
              then (req, bannedTill)
              else (Some (injectHeaders (rangeOrder (config.Headers proxyConfig)) h),
                    bannedTill)
          end
  | _, _ => (req, bannedTill)
  end.

End WithLibs.
End RouterExt.

(** ** codex_executor.go, continued *)

Module CodexExt.
Import cliproxyauth Codex.

(** What [ExecuteStream] hands back before its goroutine starts: the
    answer whose body is then streamed, or an error.  The goroutine that
    scans the lines and feeds the channel is not part of the model. *)
Inductive streamResult : Type :=
  | StreamOpen (resp : Response)
  | StreamErr (e : error).

Definition compactStreamErr : statusErr :=
  mkStatusErr 400 "streaming not supported for /responses/compact" None EmptyString.

(** The token set [RefreshTokensWithRetry] returns; the struct is declared
    in package codexauth, the fields are those [Refresh] reads. *)
Record CodexTokenData : Type := mkTokenData {
  IDToken : string;
  AccessToken : string;
  RefreshToken : string;
  AccountID : string;
  Email : string;
  Expire : string
}.

(** The token service and [time.Time.Format(time.RFC3339)]. *)
Class RefreshLib : Type := {
  RefreshTokensWithRetry : string -> CodexTokenData + string;
  time_FormatRFC3339 : Z -> string
}.

Definition authNilErr : statusErr :=
  mkStatusErr 500 "codex executor: auth is nil" None EmptyString.

Definition withMetadata (a : Auth) (md : gmap string anyv) : Auth :=
  mkAuth (ID a) (Provider a) (FileName a) (Index a) (Label a) (Attributes a) (Some md)
         (ProxyURL a).

(** The writes of [Refresh] into the metadata, in its order. *)
Definition refreshedMetadata {RL : RefreshLib} (now : Z) (md : gmap string anyv)
    (td : CodexTokenData) : gmap string anyv :=
  let md := <[ "id_token"%string := AString (IDToken td) ]> md in
  let md := <[ "access_token"%string := AString (AccessToken td) ]> md in
  let md :=
    if negb (Str.eqb (RefreshToken td) EmptyString)
    then <[ "refresh_token"%string := AString (RefreshToken td) ]> md else md in
  let md :=
    if negb (Str.eqb (AccountID td) EmptyString)
    then <[ "account_id"%string := AString (AccountID td) ]> md else md in
  let md := <[ "email"%string := AString (Email td) ]> md in
  let md := <[ "expired"%string := AString (Expire td) ]> md in
  let md := <[ "type"%string := AString "codex" ]> md in
  <[ "last_refresh"%string := AString (time_FormatRFC3339 now) ]> md.

(** [Refresh]; [now] is the reading of [time.Now()] it formats. *)
Definition Refresh {RL : RefreshLib} (now : Z) (auth : option Auth) : Auth + error :=
  match auth with
  | None => inr (ErrStatus authNilErr)
  | Some a =>
      let refreshToken :=
        match getAnyStr (Metadata a) "refresh_token" with
        | Some v => if negb (Str.eqb v EmptyString) then v else EmptyString
        | None => EmptyString
        end in
      if Str.eqb refreshToken EmptyString then inl a
      else
        match RefreshTokensWithRetry refreshToken with
        | inr e => inr (ErrOther e)
        | inl td => inl (withMetadata a (refreshedMetadata now (default ∅ (Metadata a)) td))
        end
  end.

Section WithEnv.
Context {GL : GoLib} {AL : AuthLib} {TL : Translators} (env : Env).

Definition ExecuteStream (cfg : option config.Config) (auth : option Auth)
    (input : ExecInput) : M streamResult :=
  if Str.eqb (Alt input) "responses/compact"
  then ret (StreamErr (ErrStatus compactStreamErr))
  else
    let '(apiKey, baseURL) := codexCreds auth in
    let baseURL :=
      if Str.eqb baseURL EmptyString then "https://chatgpt.com/backend-api/codex"%string
      else baseURL in
    match ApplyThinkingErr input with
    | Some e => ret (StreamErr (ErrOther e))
    | None =>
        let originalURL := (Str.TrimSuffix baseURL "/" ++ "/responses")%string in
        proxyRoute <- resolveRouteM env cfg auth "codex" originalURL ;;
        let url := Router.URL proxyRoute in
        match cacheHelper url with
        | None => ret (StreamErr newRequestErr)
        | Some httpReq =>
            applyHeadersM env cfg auth "codex" ;;;
            r <- Do env httpReq ;;
            match r with
            | DoErr e => ret (StreamErr (ErrOther e))
            | DoResp httpResp =>
                if negb (is2xx (StatusCode httpResp)) then
                  match BodyErr httpResp with
                  | Some readErr => ret (StreamErr (ErrOther readErr))
                  | None =>
                      let data := Body httpResp in
                      if Router.Proxied proxyRoute
                         && Router.shouldBanReverseProxyOnError (StatusCode httpResp) data
                      then
                        banM env (Router.ProxyID proxyRoute) ;;;
                        let fallbackURL := originalURL in
                        match cacheHelper fallbackURL with
                        | None => ret (StreamErr newRequestErr)
                        | Some httpReq =>
                            applyHeadersM env cfg auth "codex" ;;;
                            r2 <- Do env httpReq ;;
                            match r2 with
                            | DoErr e => ret (StreamErr (ErrOther e))
                            | DoResp httpResp =>
                                if negb (is2xx (StatusCode httpResp)) then
                                  match BodyErr httpResp with
                                  | Some readErr => ret (StreamErr (ErrOther readErr))
                                  | None =>
                                      sErr <- newCodexStatusErr env auth
                                                (StatusCode httpResp) (Body httpResp)
                                                (RespHeader httpResp) ;;
                                      ret (StreamErr (ErrStatus sErr))
                                  end
                                else ret (StreamOpen httpResp)
                            end
                        end
                      else
                        sErr <- newCodexStatusErr env auth (StatusCode httpResp) data
                                  (RespHeader httpResp) ;;
                        ret (StreamErr (ErrStatus sErr))
                  end
                else ret (StreamOpen httpResp)
            end
        end
    end.

End WithEnv.
End CodexExt.

(** ** The management handlers of the reverse proxies *)

Module management.

(** [config.SaveConfigPreserveComments]: the error, if the save fails. *)
Class ConfigStore : Type := {
  SaveConfigPreserveComments : config.Config -> option string
}.

(** The status codes the handlers answer with. *)
Definition StatusOK : Z := 200.
Definition StatusBadRequest : Z := 400.
Definition StatusNotFound : Z := 404.
Definition StatusInternalServerError : Z := 500.

Definition withProxies (c : config.Config) (l : list config.ReverseProxy) : config.Config :=
  config.mkConfig (config.APIKeyAuth c) (config.Routing c) (config.ProxyRoutingAuth c) l
                  (config.ReverseProxyWorkerURL c).

Definition withRouting (c : config.Config) (r : config.ProxyRouting) : config.Config :=
  config.mkConfig (config.APIKeyAuth c) r (config.ProxyRoutingAuth c)
                  (config.ReverseProxies c) (config.ReverseProxyWorkerURL c).

Definition withRoutingAuth (c : config.Config) (m : gmap string string) : config.Config :=
  config.mkConfig (config.APIKeyAuth c) (config.Routing c) m
                  (config.ReverseProxies c) (config.ReverseProxyWorkerURL c).

Definition withWorkerURL (c : config.Config) (u : string) : config.Config :=
  config.mkConfig (config.APIKeyAuth c) (config.Routing c) (config.ProxyRoutingAuth c)
                  (config.ReverseProxies c) u.

(** The find-and-delete loop of [DeleteReverseProxy]: the list without
    the first proxy of that id, or nothing when there is none. *)
Fixpoint removeFirst (proxyID : string) (l : list config.ReverseProxy)
  : option (list config.ReverseProxy) :=
  match l with
  | [] => None
  | p :: rest =>
      if Str.eqb (config.ID p) proxyID then Some rest
      else match removeFirst proxyID rest with
           | Some rest' => Some (p :: rest')
           | None => None
           end
  end.

Definition clearIf (proxyID field : string) : string :=
  if Str.eqb field proxyID then EmptyString else field.

(** The nine provider-level tests of [DeleteReverseProxy]. *)
Definition clearRouting (proxyID : string) (r : config.ProxyRouting) : config.ProxyRouting :=
  config.mkProxyRouting
    (clearIf proxyID (config.Codex r)) (clearIf proxyID (config.Antigravity r))
    (clearIf proxyID (config.Claude r)) (clearIf proxyID (config.Gemini r))
    (clearIf proxyID (config.GeminiCLI r)) (clearIf proxyID (config.Vertex r))
    (clearIf proxyID (config.AIStudio r)) (clearIf proxyID (config.Qwen r))
    (clearIf proxyID (config.IFlow r)).

(** The credential-level cleanup of [DeleteReverseProxy]. *)
Definition clearRoutingAuth (proxyID : string) (m : gmap string string) : gmap string string :=
  filter (fun kv => kv.2 ≠ proxyID) m.

(** The trimming loop shared by [UpdateProxyRoutingAuth] and
    [sanitizeProxyRoutingAuthLocked]: blank keys and values are dropped,
    the rest is stored trimmed. *)
Definition trimEntries (entries : list (string * string)) : gmap string string :=
  foldl (fun clean kv =>
           let trimKey := Str.TrimSpace kv.1 in
           let trimValue := Str.TrimSpace kv.2 in
           if Str.eqb trimKey EmptyString || Str.eqb trimValue EmptyString then clean
           else <[ trimKey := trimValue ]> clean)
        ∅ entries.

(** The last loop of [sanitizeProxyRoutingAuthLocked]: the cleaned map
    and whether an entry was dropped. *)
Definition keepKnown (known : gset string) (entries : list (string * string))
  : gmap string string * bool :=
  foldl (fun acc kv =>
           let '(clean, changed) := acc in
           let trimKey := Str.TrimSpace kv.1 in
           let trimValue := Str.TrimSpace kv.2 in
           if Str.eqb trimKey EmptyString || Str.eqb trimValue EmptyString
           then (clean, true)
           else if negb (bool_decide (trimKey ∈ known)) then (clean, true)
           else (<[ trimKey := trimValue ]> clean, changed))
        (∅, false) entries.

Section WithLibs.
Context {GL : GoLib} {MR : MapRange} {CS : ConfigStore}.

(** The end of the writing handlers: the save and the status. *)
Definition saveAndAnswer (c : config.Config) : Z * config.Config :=
  match SaveConfigPreserveComments c with
  | Some _ => (StatusInternalServerError, c)
  | None => (StatusOK, c)
  end.

(** [DeleteReverseProxy]: the status and the configuration in memory
    afterwards. *)
Definition DeleteReverseProxy (proxyID : string) (c : config.Config) : Z * config.Config :=
  match removeFirst proxyID (config.ReverseProxies c) with
  | None => (StatusNotFound, c)
  | Some rest =>
      let c := withProxies c rest in
      let c :=
        if bool_decide (size (config.ProxyRoutingAuth c) = 0%nat) then c
        else withRoutingAuth c (clearRoutingAuth proxyID (config.ProxyRoutingAuth c)) in
      let c := withRouting c (clearRouting proxyID (config.Routing c)) in
      saveAndAnswer c
  end.

(** [PutReverseProxyWorkerURL]; [value] is the bound field, nothing when
    the body does not bind or has no value. *)
Definition PutReverseProxyWorkerURL (value : option string) (c : config.Config)
  : Z * config.Config :=
  match value with
  | None => (StatusBadRequest, c)
  | Some v =>
      let value := Str.TrimSpace v in
      let invalid :=
        if negb (Str.eqb value EmptyString) then
          match url_Parse value with
          | None => true
          | Some parsed =>
              Str.eqb (Host parsed) EmptyString
              || (negb (Str.eqb (Scheme parsed) "https") && negb (Str.eqb (Scheme parsed) "http"))
          end
        else false in
      if invalid then (StatusBadRequest, c)
      else saveAndAnswer (withWorkerURL c value)
  end.

Definition DeleteReverseProxyWorkerURL (c : config.Config) : Z * config.Config :=
  saveAndAnswer (withWorkerURL c EmptyString).

(** [UpdateProxyRoutingAuth]; [req] is the bound map. *)
Definition UpdateProxyRoutingAuth (req : option (gmap string string)) (c : config.Config)
  : Z * config.Config :=
  match req with
  | None => (StatusBadRequest, c)
  | Some m => saveAndAnswer (withRoutingAuth c (trimEntries (rangeOrder m)))
  end.

(** [sanitizeProxyRoutingAuthLocked] from the point where the references
    of the live credentials, or else of the files of the auth directory,
    have been collected in [known]; [authDirScanned] and [authDirReadErr]
    are its two flags.  It answers with the map, whether it changed, and
    the configuration afterwards. *)
Definition sanitizeProxyRoutingAuthLocked (known : gset string)
    (authDirScanned authDirReadErr : bool) (c : option config.Config)
  : gmap string string * bool * option config.Config :=
  match c with
  | None => (∅, false, c)
  | Some cfg =>
      let routing := config.ProxyRoutingAuth cfg in
      if bool_decide (size routing = 0%nat) then (∅, false, c)
      else if bool_decide (size known = 0%nat) then
        if authDirScanned && negb authDirReadErr then
          (∅, true, Some (withRoutingAuth cfg ∅))
        else
          let copyMap := trimEntries (rangeOrder routing) in
          if negb (bool_decide (size copyMap = size routing))
          then (copyMap, true, Some (withRoutingAuth cfg copyMap))
          else (copyMap, false, c)
      else
        let '(clean, changed) := keepKnown known (rangeOrder routing) in
        let changed :=
          if negb changed && negb (bool_decide (size clean = size routing)) then true
          else changed in
        if changed then (clean, true, Some (withRoutingAuth cfg clean))
        else (clean, false, c)
  end.

(** [GetProxyRoutingAuth]: the map it answers with and the configuration
    afterwards; the status is always 200, a failed save of the cleaned
    map is only logged. *)
Definition GetProxyRoutingAuth (known : gset string) (authDirScanned authDirReadErr : bool)
    (c : config.Config) : gmap string string * config.Config :=
  let '(clean, changed, c') :=
    sanitizeProxyRoutingAuthLocked known authDirScanned authDirReadErr (Some c) in
  if changed then (clean, default c c') else (config.ProxyRoutingAuth c, c).

End WithLibs.
End management.

(** ** Vocabulary and data for the properties of these sources *)

Module SpecExt.
Import cliproxyauth.

(** The bytes [strings.TrimSpace] returns. *)
Definition trimmedCodes (s : string) : list N :=
  rev (Str.trimLeft (map (@rev N) Str.unicodeSpaces)
         (rev (Str.trimLeft Str.unicodeSpaces (Str.codes s)))).

(** The keys under which [resolveProxyIDForAuth] looks a credential up,
    in its order. *)
Definition routingKeys {AL : AuthLib} (a : Auth) : list string :=
  [ Str.TrimSpace (ID a); Str.TrimSpace (EnsureIndex a); Str.TrimSpace (FileName a) ].

(** An enabled proxy of that id is configured. *)
Definition enabledProxy (cfg : option config.Config) (id : string) : Prop :=
  ∃ c p, cfg = Some c ∧ p ∈ config.ReverseProxies c ∧ config.ID p = id
         ∧ config.Enabled p = true.

(** The URL of the compaction endpoint [executeCompact] calls. *)
Definition compactURL (auth : option Auth) : string :=
  let baseURL := (Codex.codexCreds auth).2 in
  let baseURL :=
    if Str.eqb baseURL EmptyString then "https://chatgpt.com/backend-api/codex"%string
    else baseURL in
  (Str.TrimSuffix baseURL "/" ++ "/responses/compact")%string.

Definition usageGET : Codex.Request := Codex.mkRequest "GET" Codex.codexUsageURL.

(** What a stretch of a run leaves behind: the requests it sent, a
    breaker touched under [id] only, and, when [quiet], a breaker that
    has lost entries at most. *)
Definition footprint (id : string) (quiet : bool) (w w' : Codex.World)
    (sent : list Codex.Request) : Prop :=
  Codex.trace w' = Codex.trace w ++ sent
  ∧ (∀ k, k ≠ id → Codex.bannedTill w' !! k = Codex.bannedTill w !! k)
  ∧ (quiet = true → Codex.bannedTill w' ⊆ Codex.bannedTill w).

(** What [ExecuteStream] and [Execute] hand back on the same run: the
    same error, or the open answer that [Execute] reads to its end. *)
Definition sameOutcome {GL : GoLib} {TL : Codex.Translators}
    (s : CodexExt.streamResult) (x : Codex.execResult) : Prop :=
  match s with
  | CodexExt.StreamOpen resp => x = Codex.finishExecute resp
  | CodexExt.StreamErr e => x = Codex.ExecErr e
  end.

(** The metadata keys [Refresh] writes. *)
Definition refreshKeys : list string :=
  [ "id_token"; "access_token"; "refresh_token"; "account_id"; "email"; "expired"; "type";
    "last_refresh" ]%string.

(** The three reason tags of the cooldown detector. *)
Definition reasonTags : list string :=
  [ "codex_5h_limit"; "codex_weekly_limit"; "codex_code_review_limit" ]%string.

(** The five raw credentials [Authenticate] reads from a request. *)
Definition rawCredentials (r : configaccess.HttpRequest) : list string :=
  let q k := match configaccess.ReqQuery r with
             | Some v => Header_Get v k
             | None => EmptyString
             end in
  [ Header_Get (configaccess.ReqHeader r) "Authorization";
    Header_Get (configaccess.ReqHeader r) "X-Goog-Api-Key";
    Header_Get (configaccess.ReqHeader r) "X-Api-Key";
    q "key"; q "auth_token" ]%string.

(** The nine provider-level entries of the routing table. *)
Definition routingFields (r : config.ProxyRouting) : list string :=
  [ config.Codex r; config.Antigravity r; config.Claude r; config.Gemini r;
    config.GeminiCLI r; config.Vertex r; config.AIStudio r; config.Qwen r; config.IFlow r ].

(** The loop that the handlers of [proxy-routing-auth] share, with the
    test it applies to a trimmed key: blank keys and values and keys
    that fail the test are dropped, the rest is stored trimmed. *)
Definition keepEntries (keep : string → bool) (entries : list (string * string))
    (acc : gmap string string) : gmap string string :=
  foldl (fun clean kv =>
           if Str.eqb (Str.TrimSpace kv.1) EmptyString
              || Str.eqb (Str.TrimSpace kv.2) EmptyString
           then clean
           else if negb (keep (Str.TrimSpace kv.1)) then clean
           else <[ Str.TrimSpace kv.1 := Str.TrimSpace kv.2 ]> clean)
        acc entries.

(** An entry that loop drops. *)
Definition dropped (keep : string → bool) (kv : string * string) : Prop :=
  Str.TrimSpace kv.1 = EmptyString ∨ Str.TrimSpace kv.2 = EmptyString
  ∨ keep (Str.TrimSpace kv.1) = false.

(** A routing table in normal form: keys and values trimmed and not
    blank. *)
Definition normalTable (m : gmap string string) : Prop :=
  ∀ k v, m !! k = Some v →
    k ≠ EmptyString ∧ v ≠ EmptyString ∧ Str.TrimSpace k = k ∧ Str.TrimSpace v = v.

(** The [range] loop visits the entries of the map, and nothing else. *)
Definition rangeVisitsEntries {MR : MapRange} : Prop :=
  ∀ (m : gmap string string) k v, (k, v) ∈ rangeOrder m ↔ m !! k = Some v.

(** A worker URL the management API accepts: empty, or one that parses
    with a host and the scheme http or https. *)
Definition acceptableWorkerURL {GL : GoLib} (value : string) : Prop :=
  value = EmptyString
  ∨ ∃ parsed, url_Parse value = Some parsed ∧ Host parsed ≠ EmptyString
              ∧ (Scheme parsed = "https"%string ∨ Scheme parsed = "http"%string).

End SpecExt.

Module ExamplesExt.
Import cliproxyauth Examples.

#[export] Instance exMapRange : MapRange := {|
  rangeOrder := map_to_list
|}.

Definition upperByte (c : N) : N :=
  if ((97 <=? c) && (c <=? 122))%N then (c - 32)%N else c.

Fixpoint canonicalCodes (upper : bool) (l : list N) : list N :=
  match l with
  | [] => []
  | c :: r =>
      (if upper then upperByte c else Str.lowerByte c) :: canonicalCodes (c =? 45)%N r
  end.

(** A stand-in for [textproto.CanonicalMIMEHeaderKey] on names made of
    letters, digits and hyphens. *)
#[export] Instance exHttpLib : HttpLib := {|
  CanonicalMIMEHeaderKey := fun s => Str.of_codes (canonicalCodes true (Str.codes s))
|}.

(** A token service that rotates the access token and returns no new
    refresh token. *)
#[export] Instance exRefreshLib : CodexExt.RefreshLib := {|
  CodexExt.RefreshTokensWithRetry := fun rt =>
    if Str.eqb rt "revoked" then inr "token refresh failed"%string
    else inl (CodexExt.mkTokenData "id-2" "access-2" EmptyString "acct-1" "a@example.com"
                                   "2030-01-01T00:00:00Z");
  CodexExt.time_FormatRFC3339 := fun _ => "2023-11-14T22:13:20Z"%string
|}.

(** A configuration file that can always be written. *)
#[export] Instance exConfigStore : management.ConfigStore := {|
  management.SaveConfigPreserveComments := fun _ => None
|}.

Definition oauthAuth : Auth :=
  mkAuth "auth-2" "codex" "codex-a.json" EmptyString EmptyString None
         (Some {[ "refresh_token"%string := AString "rt-1";
                  "access_token"%string := AString "access-1";
                  "note"%string := AString "kept" ]}) EmptyString.

(** A proxy that injects two headers. *)
Definition headerProxy : config.ReverseProxy :=
  config.mkReverseProxy "deno-1" "deno-1" "https://funny-starfish-28.lauracadano-max.deno.net"
                        true {[ " x-proxy-token "%string := " secret "%string;
                                "user-agent"%string := "proxy-agent"%string ]}.

Definition headerConfig : config.Config :=
  config.mkConfig ∅ codexRouting ∅ [ headerProxy ] EmptyString.

(** A routing table that sends one credential and the codex provider
    through the same proxy. *)
Definition routedConfig : config.Config :=
  config.mkConfig ∅ codexRouting
    {[ "auth-1"%string := "deno-1"%string; "auth-9"%string := "other"%string ]}
    [ denoProxy; config.mkReverseProxy "other" "other" "https://other.example" true ∅ ]
    EmptyString.

(** An outside whose every answer is a 502 with a body that cannot be
    read. *)
Definition brokenBodyEnv : Codex.Env :=
  Codex.mkEnv (fun k => Z.of_nat k * Time.Second)
    (fun _ _ => Codex.DoResp (Codex.mkResponse 502 EmptyString (Some "unexpected EOF"%string) ∅)).

Definition compactInput : Codex.ExecInput := Codex.mkExecInput "responses/compact" None.

(** [exManager] with a longer reference list for the first client. *)
Definition exManager2 : Access.Manager :=
  Access.mkManager
    (Some (config.mkConfig
             (<[ "client-1"%string := [ "b.json"%string; "a.json"%string ] ]> ∅)
             noRouting ∅ [] EmptyString))
    [ Some (mkA "auth-allowed" "a.json"); Some (mkA "auth-denied" "b.json") ].

(** A request for the credential-level table, with white space around
    key and value. *)
Definition routingRequest : gmap string string :=
  {[ " auth-1 "%string := " deno-1 "%string ]}.

(** A table with an entry for a credential that is gone. *)
Definition staleConfig : config.Config :=
  config.mkConfig ∅ noRouting
    {[ "auth-1"%string := "deno-1"%string; " gone.json "%string := "deno-1"%string ]}
    [ denoProxy ] EmptyString.

End ExamplesExt.
(** * Properties *)

Section StrFacts.

Lemma eqb_true (a b : string) : Str.eqb a b = true ↔ a = b.
Proof. unfold Str.eqb. apply bool_decide_eq_true. Qed.

Lemma eqb_false (a b : string) : Str.eqb a b = false ↔ a ≠ b.
Proof. unfold Str.eqb. apply bool_decide_eq_false. Qed.

Lemma eqb_refl (a : string) : Str.eqb a a = true.
Proof. by apply eqb_true. Qed.

Lemma append_cons (x : ascii) (a b : string) :
  (String x a ++ b)%string = String x (a ++ b)%string.
Proof. reflexivity. Qed.

Lemma append_assoc (a b c : string) : ((a ++ b) ++ c = a ++ (b ++ c))%string.
Proof.
  induction a as [|x a IH]; [reflexivity |].
  rewrite !append_cons. f_equal. exact IH.
Qed.

Lemma append_empty_r (a : string) : (a ++ EmptyString)%string = a.
Proof.
  induction a as [|x a IH]; [reflexivity |].
  rewrite append_cons. f_equal. exact IH.
Qed.

Lemma append_nonempty_r (a b : string) : b ≠ EmptyString → (a ++ b)%string ≠ EmptyString.
Proof.
  intros Hb Hab. apply Hb. destruct a; [exact Hab | rewrite append_cons in Hab; discriminate].
Qed.

Lemma append_nonempty_l (a b : string) : a ≠ EmptyString → (a ++ b)%string ≠ EmptyString.
Proof.
  intros Ha Hab. apply Ha.
  destruct a; [reflexivity | rewrite append_cons in Hab; discriminate].
Qed.

End StrFacts.

(** ** The fuel of the string functions *)

Section FuelFacts.
Import Str.

Lemma stripPrefix_length (p l r : list N) :
  stripPrefix p l = Some r → length l = (length p + length r)%nat.
Proof.
  revert l. induction p as [|a p IH]; intros l; cbn [stripPrefix].
  - by intros [= ->].
  - destruct l as [|b l]; [intros [=] |].
    destruct (a =? b)%N; [| intros [=]].
    intros H. apply IH in H. cbn [length]. lia.
Qed.

Lemma firstStrip_shorter (ps : list (list N)) (l r : list N) :
  Forall (fun p => p ≠ []) ps → firstStrip ps l = Some r → (length r < length l)%nat.
Proof.
  intros Hne. induction Hne as [|p ps Hp _ IH]; cbn [firstStrip]; [intros [=] |].
  destruct (stripPrefix p l) as [r'|] eqn:Hs; [| exact IH].
  intros [= ->]. apply stripPrefix_length in Hs.
  destruct p; [done |]. cbn [length] in Hs. lia.
Qed.

Lemma stripSpace_shorter (ps : list (list N)) (l r : list N) :
  Forall (fun p => p ≠ []) ps → stripSpace ps l = Some r → (length r < length l)%nat.
Proof.
  intros Hne. unfold stripSpace. destruct l as [|c l]; [intros [=] |].
  destruct (asciiSpace c); [intros [= ->]; cbn [length]; lia |].
  by apply firstStrip_shorter.
Qed.

(** The fuel [trimLeft] gives is enough: more fuel changes nothing. *)
Lemma trimLeftFuel_enough (ps : list (list N)) (fuel : nat) (l : list N) :
  Forall (fun p => p ≠ []) ps → (length l ≤ fuel)%nat →
  trimLeftFuel fuel ps l = trimLeft ps l.
Proof.
  intros Hne. unfold trimLeft.
  assert (H : ∀ f1 f2 l, (length l ≤ f1)%nat → (length l ≤ f2)%nat →
                         trimLeftFuel f1 ps l = trimLeftFuel f2 ps l).
  { induction f1 as [|f1 IH]; intros f2 l0 H1 H2.
    - destruct l0; [| cbn [length] in H1; lia]. by destruct f2.
    - destruct f2 as [|f2].
      + destruct l0; [reflexivity | cbn [length] in H2; lia].
      + cbn [trimLeftFuel]. destruct (stripSpace ps l0) as [r|] eqn:Hs; [| reflexivity].
        apply (stripSpace_shorter ps l0 r Hne) in Hs. apply IH; lia. }
  intros Hl. by apply H.
Qed.

Lemma unicodeSpaces_nonempty : Forall (fun p => p ≠ []) unicodeSpaces.
Proof. unfold unicodeSpaces. repeat constructor; discriminate. Qed.

Lemma unicodeSpaces_rev_nonempty : Forall (fun p => p ≠ []) (map (@rev N) unicodeSpaces).
Proof. unfold unicodeSpaces. cbn [map rev app]. repeat constructor; discriminate. Qed.

(** The fuel [ToLower] gives is enough. *)
Lemma lowerFuel_enough (fuel : nat) (l : list N) :
  (length l ≤ fuel)%nat → lowerFuel fuel l = lowerFuel (length l) l.
Proof.
  assert (H : ∀ f1 f2 l, (length l ≤ f1)%nat → (length l ≤ f2)%nat →
                         lowerFuel f1 l = lowerFuel f2 l).
  { induction f1 as [|f1 IH]; intros f2 l0 H1 H2.
    - destruct l0; [| cbn [length] in H1; lia]. by destruct f2.
    - destruct f2 as [|f2].
      + destruct l0; [reflexivity | cbn [length] in H2; lia].
      + cbn [lowerFuel]. destruct l0 as [|c r]; [reflexivity |].
        destruct (stripPrefix [196; 176]%N (c :: r)) as [r1|] eqn:H3.
        { f_equal. apply stripPrefix_length in H3. cbn [length] in *. apply IH; lia. }
        destruct (stripPrefix [226; 132; 170]%N (c :: r)) as [r2|] eqn:H4.
        { f_equal. apply stripPrefix_length in H4. cbn [length] in *. apply IH; lia. }
        f_equal. cbn [length] in *. apply IH; lia. }
  intros Hl. by apply H.
Qed.

End FuelFacts.

Ltac case_eqb a b H :=
  destruct (Str.eqb a b) eqn:H;
  [apply eqb_true in H | apply eqb_false in H].


(** * More properties of the sources *)

(** ** [strings.TrimSpace] is idempotent *)

Section TrimFacts.
Import Str.

Lemma codes_of_codes (l : list N) :
  Forall (fun c => (c < 256)%N) l → codes (of_codes l) = l.
Proof.
  intros H. unfold codes, of_codes. rewrite list_ascii_of_string_of_list_ascii.
  induction H as [|c l Hc _ IH]; [reflexivity |].
  cbn [map]. unfold code at 1. rewrite (N_ascii_embedding c Hc). by rewrite IH.
Qed.

Lemma of_codes_codes (s : string) : of_codes (codes s) = s.
Proof.
  unfold codes, of_codes. rewrite <- (string_of_list_ascii_of_string s) at 2.
  f_equal. induction (list_ascii_of_string s) as [|a l IH]; [reflexivity |].
  cbn [map]. unfold code at 1. by rewrite ascii_N_embedding, IH.
Qed.

Lemma codes_bytes (s : string) : Forall (fun c => (c < 256)%N) (codes s).
Proof.
  unfold codes. induction (list_ascii_of_string s) as [|a l IH]; constructor; [| exact IH].
  unfold code. apply N_ascii_bounded.
Qed.

Lemma stripSpace_suffix (ps : list (list N)) (l r : list N) :
  stripSpace ps l = Some r → ∃ pre, l = pre ++ r.
Proof.
  unfold stripSpace. destruct l as [|c l]; [intros [=] |].
  destruct (asciiSpace c); [intros [= ->]; by exists [c] |].
  generalize (c :: l). clear. intros l.
  induction ps as [|p ps IH]; cbn [firstStrip]; [intros [=] |].
  destruct (stripPrefix p l) as [r'|] eqn:Hs; [| exact IH].
  intros [= ->]. clear IH. revert l Hs.
  induction p as [|a p IHp]; intros l; cbn [stripPrefix].
  - intros [= ->]. by exists [].
  - destruct l as [|b l]; [intros [=] |]. destruct (a =? b)%N; [| intros [=]].
    intros H. destruct (IHp l H) as [pre ->]. by exists (b :: pre).
Qed.

Lemma trimLeftFuel_suffix (ps : list (list N)) (fuel : nat) (l : list N) :
  ∃ pre, l = pre ++ trimLeftFuel fuel ps l.
Proof.
  revert l. induction fuel as [|f IH]; intros l; cbn [trimLeftFuel]; [by exists [] |].
  destruct (stripSpace ps l) as [r|] eqn:Hs; [| by exists []].
  destruct (stripSpace_suffix ps l r Hs) as [p1 ->].
  destruct (IH r) as [p2 Hr]. exists (p1 ++ p2). rewrite <- app_assoc. by rewrite <- Hr.
Qed.

Lemma trimLeftFuel_stable (ps : list (list N)) (fuel : nat) (l : list N) :
  Forall (fun p => p ≠ []) ps → (length l ≤ fuel)%nat →
  stripSpace ps (trimLeftFuel fuel ps l) = None.
Proof.
  intros Hne. revert l. induction fuel as [|f IH]; intros l Hl; cbn [trimLeftFuel].
  - destruct l; [reflexivity | cbn [length] in Hl; lia].
  - destruct (stripSpace ps l) as [r|] eqn:Hs; [| exact Hs].
    apply IH. apply (stripSpace_shorter ps l r Hne) in Hs. lia.
Qed.

Lemma trimLeft_stable (ps : list (list N)) (l : list N) :
  Forall (fun p => p ≠ []) ps → stripSpace ps (trimLeft ps l) = None.
Proof. intros Hne. unfold trimLeft. by apply trimLeftFuel_stable. Qed.

Lemma trimLeft_fixed (ps : list (list N)) (l : list N) :
  stripSpace ps l = None → trimLeft ps l = l.
Proof.
  intros H. unfold trimLeft. destruct (length l); cbn [trimLeftFuel]; [reflexivity |].
  by rewrite H.
Qed.

Lemma stripPrefix_app (p l r x : list N) :
  stripPrefix p l = Some r → stripPrefix p (l ++ x) = Some (r ++ x).
Proof.
  revert l. induction p as [|a p IH]; intros l; cbn [stripPrefix].
  - by intros [= ->].
  - destruct l as [|b l]; [intros [=] |]. cbn [app].
    destruct (a =? b)%N; [apply IH | intros [=]].
Qed.

Lemma firstStrip_app (ps : list (list N)) (l r x : list N) :
  firstStrip ps l = Some r → ∃ r', firstStrip ps (l ++ x) = Some r'.
Proof.
  induction ps as [|p ps IH]; cbn [firstStrip]; [intros [=] |].
  destruct (stripPrefix p l) as [r0|] eqn:Hs.
  - intros _. rewrite (stripPrefix_app p l r0 x Hs). by eexists.
  - intros H. destruct (stripPrefix p (l ++ x)); [by eexists | by apply IH].
Qed.

(** A prefix of a list with no leading white space has none either. *)
Lemma stripSpace_prefix_none (ps : list (list N)) (l x : list N) :
  stripSpace ps (l ++ x) = None → stripSpace ps l = None.
Proof.
  unfold stripSpace. destruct l as [|c l]; [reflexivity |]. cbn [app].
  destruct (asciiSpace c); [intros [=] |].
  intros H. destruct (firstStrip ps (c :: l)) as [r|] eqn:Hf; [| reflexivity].
  destruct (firstStrip_app ps (c :: l) r x Hf) as [r' Hr']. cbn [app] in Hr'.
  rewrite Hr' in H. discriminate.
Qed.

Lemma trimmedCodes_bytes (s : string) :
  Forall (fun c => (c < 256)%N) (SpecExt.trimmedCodes s).
Proof.
  unfold SpecExt.trimmedCodes.
  destruct (trimLeftFuel_suffix unicodeSpaces (length (codes s)) (codes s)) as [p1 H1].
  fold (trimLeft unicodeSpaces (codes s)) in H1.
  set (l1 := trimLeft unicodeSpaces (codes s)) in *.
  destruct (trimLeftFuel_suffix (map (@rev N) unicodeSpaces) (length (rev l1)) (rev l1))
    as [p2 H2].
  fold (trimLeft (map (@rev N) unicodeSpaces) (rev l1)) in H2.
  set (l2 := trimLeft (map (@rev N) unicodeSpaces) (rev l1)) in *.
  pose proof (codes_bytes s) as Hb. rewrite H1 in Hb.
  apply Forall_app in Hb as [_ Hb].
  apply Forall_rev in Hb. rewrite H2 in Hb. apply Forall_app in Hb as [_ Hb].
  by apply Forall_rev.
Qed.

Lemma TrimSpace_idem (s : string) : TrimSpace (TrimSpace s) = TrimSpace s.
Proof.
  unfold TrimSpace at 1. cbv zeta.
  change (TrimSpace s) with (of_codes (SpecExt.trimmedCodes s)).
  rewrite (codes_of_codes _ (trimmedCodes_bytes s)).
  f_equal.
  unfold SpecExt.trimmedCodes.
  set (R := map (@rev N) unicodeSpaces). set (U := unicodeSpaces).
  set (l1 := trimLeft U (codes s)).
  set (l2 := trimLeft R (rev l1)).
  assert (H1 : stripSpace U l1 = None) by apply trimLeft_stable, unicodeSpaces_nonempty.
  assert (H2 : stripSpace R l2 = None) by apply trimLeft_stable, unicodeSpaces_rev_nonempty.
  destruct (trimLeftFuel_suffix R (length (rev l1)) (rev l1)) as [p Hp].
  fold (trimLeft R (rev l1)) in Hp. fold l2 in Hp.
  assert (Hl1 : l1 = rev l2 ++ rev p).
  { rewrite <- (rev_involutive l1), Hp. by rewrite rev_app_distr. }
  assert (H3 : stripSpace U (rev l2) = None).
  { apply (stripSpace_prefix_none U (rev l2) (rev p)). by rewrite <- Hl1. }
  rewrite (trimLeft_fixed U (rev l2) H3). rewrite rev_involutive.
  by rewrite (trimLeft_fixed R l2 H2).
Qed.

End TrimFacts.
(** ** Access resolver *)

Section AccessFacts.
Context {AL : AuthLib}.
Import cliproxyauth.

Lemma collectRefs_acc (refs : list string) (acc : gset string) (r : string) :
  r ∈ foldl (fun allowed ref =>
               let ref := Str.TrimSpace ref in
               if Str.eqb ref EmptyString then allowed else {[ ref ]} ∪ allowed)
            acc refs
  ↔ r ∈ acc ∨ ∃ ref, ref ∈ refs ∧ Str.TrimSpace ref = r ∧ r ≠ EmptyString.
Proof.
  revert acc. induction refs as [|x refs IH]; intros acc; simpl.
  - split; [by left | intros [H | (ref & H & _)]; [done | by apply elem_of_nil in H]].
  - rewrite IH. case_eqb (Str.TrimSpace x) EmptyString Hx.
    + split.
      * intros [H | (ref & Hin & Heq & Hne)]; [by left | right].
        exists ref. split; [by apply elem_of_cons; right | done].
      * intros [H | (ref & Hin & Heq & Hne)]; [by left |].
        apply elem_of_cons in Hin as [-> | Hin]; [congruence |].
        right. by exists ref.
    + split.
      * intros [H | (ref & Hin & Heq & Hne)].
        -- apply elem_of_union in H as [H | H]; [| by left].
           apply elem_of_singleton in H. subst r. right. exists x.
           split; [by apply elem_of_cons; left | done].
        -- right. exists ref. split; [by apply elem_of_cons; right | done].
      * intros [H | (ref & Hin & Heq & Hne)].
        -- left. apply elem_of_union. by right.
        -- apply elem_of_cons in Hin as [-> | Hin].
           ++ left. apply elem_of_union. left. by apply elem_of_singleton.
           ++ right. by exists ref.
Qed.

Lemma collectRefs_spec (refs : list string) (r : string) :
  r ∈ Access.collectRefs refs
  ↔ ∃ ref, ref ∈ refs ∧ Str.TrimSpace ref = r ∧ r ≠ EmptyString.
Proof.
  unfold Access.collectRefs. rewrite collectRefs_acc.
  split; [intros [H | H]; [by apply elem_of_empty in H | done] | by right].
Qed.

Lemma collectRefs_blank (refs : list string) :
  Forall Spec.blank refs → Access.collectRefs refs = ∅.
Proof.
  intros Hall. apply set_eq. intros r. rewrite collectRefs_spec.
  split; [| by intros H; apply elem_of_empty in H].
  intros (ref & Hin & Heq & Hne).
  rewrite Forall_forall in Hall. specialize (Hall ref Hin).
  unfold Spec.blank in Hall. congruence.
Qed.

Lemma size_zero_empty (s : gset string) : size s = 0%nat ↔ s = ∅.
Proof.
  split; [intros H; by apply leibniz_equiv, size_empty_inv | intros ->; apply size_empty].
Qed.

Lemma authMatches_bool (a : Auth) (S : gset string) :
  Access.authMatchesAllowedRefs (Some a) S
  = negb (bool_decide (size S = 0%nat))
    && (Spec.refTest S (Str.TrimSpace (ID a))
        || Spec.refTest S (Access.authIndexForMatch (Some a))
        || Spec.refTest S (Str.TrimSpace (FileName a))).
Proof.
  unfold Access.authMatchesAllowedRefs, Spec.refTest.
  generalize (Access.authIndexForMatch (Some a)). intros idx.
  destruct (bool_decide (size S = 0%nat)); [reflexivity |].
  destruct (negb (Str.eqb (Str.TrimSpace (ID a)) EmptyString)
            && bool_decide (Str.TrimSpace (ID a) ∈ S)); [reflexivity |].
  destruct (negb (Str.eqb idx EmptyString) && bool_decide (idx ∈ S)); [reflexivity |].
  destruct (negb (Str.eqb (Str.TrimSpace (FileName a)) EmptyString)
            && bool_decide (Str.TrimSpace (FileName a) ∈ S)); reflexivity.
Qed.

(** The index the code derives is the one of the specification. *)
Lemma authIndexForMatch_spec (a : Auth) :
  Access.authIndexForMatch (Some a) = Spec.derivedIndex a.
Proof.
  unfold Access.authIndexForMatch, Spec.derivedIndex, Spec.indexSeed, getStr. cbv zeta.
  destruct (Str.eqb (Str.TrimSpace (Index a)) EmptyString); cbn [negb]; [| reflexivity].
  assert (Hpre : ∀ p x : string, p ≠ EmptyString → Str.eqb (p ++ x) EmptyString = false).
  { intros p x Hp. apply eqb_false. by destruct p. }
  case_eqb (Str.TrimSpace (FileName a)) EmptyString Hf; cbn [negb].
  - rewrite Hf.
    destruct (Attributes a) as [attrs|]; cbn [mbind option_bind].
    + destruct (Str.eqb (Str.TrimSpace (default EmptyString (attrs !! "api_key"%string)))
                        EmptyString); cbn [negb].
      * change (Str.eqb EmptyString EmptyString) with true. cbv iota.
        by destruct (Str.eqb (Str.TrimSpace (ID a)) EmptyString).
      * by rewrite Hpre.
    + change (Str.eqb (Str.TrimSpace (default EmptyString None)) EmptyString) with true.
      cbn [negb].
      change (Str.eqb EmptyString EmptyString) with true. cbv iota.
      by destruct (Str.eqb (Str.TrimSpace (ID a)) EmptyString).
  - by rewrite Hpre.
Qed.

Lemma ref_test_spec (refs : list string) (x : string) :
  Spec.refTest (Access.collectRefs refs) x = true
  ↔ ∃ ref, ref ∈ refs ∧ Str.TrimSpace ref ≠ EmptyString ∧ x = Str.TrimSpace ref.
Proof.
  unfold Spec.refTest. rewrite andb_true_iff, negb_true_iff, eqb_false, bool_decide_eq_true.
  rewrite collectRefs_spec. split.
  - intros (Hne & ref & Hin & Heq & _). exists ref. subst x. done.
  - intros (ref & Hin & Hne & ->). split; [done |]. by exists ref.
Qed.

Lemma authMatches_spec (a : Auth) (refs : list string) :
  Access.authMatchesAllowedRefs (Some a) (Access.collectRefs refs) = true
  ↔ Spec.refMatches a refs.
Proof.
  rewrite authMatches_bool, andb_true_iff, !orb_true_iff, !ref_test_spec.
  rewrite negb_true_iff, bool_decide_eq_false, size_zero_empty, authIndexForMatch_spec.
  unfold Spec.refMatches. split.
  - intros (_ & [[H | H] | H]); destruct H as (ref & ? & ? & ?); exists ref; auto.
  - intros (ref & Hin & Hne & Hm). split.
    + intros He. assert (Hx : Str.TrimSpace ref ∈ Access.collectRefs refs).
      { apply collectRefs_spec. by exists ref. }
      rewrite He in Hx. by apply elem_of_empty in Hx.
    + destruct Hm as [Hm | [Hm | Hm]]; [left; left | left; right | right];
        by exists ref.
Qed.

Lemma collectIDs_acc (l : list (option Auth)) (S acc : gset string) (id : string) :
  id ∈ foldl (fun out auth =>
                if Access.authMatchesAllowedRefs auth S
                then match auth with
                     | Some a => {[ ID a ]} ∪ out
                     | None => out
                     end
                else out)
             acc l
  ↔ id ∈ acc ∨ ∃ a, Some a ∈ l ∧ ID a = id
                    ∧ Access.authMatchesAllowedRefs (Some a) S = true.
Proof.
  revert acc. induction l as [|x l IH]; intros acc; cbn [foldl].
  - split; [by left |]. intros [H | (a & H & _)]; [done |]. by inversion H.
  - rewrite IH. clear IH. split.
    + intros [H | (a & Hin & Hid & Hm)].
      * destruct x as [a|].
        -- destruct (Access.authMatchesAllowedRefs (Some a) S) eqn:Hm; [| by left].
           apply elem_of_union in H as [H | H]; [| by left].
           apply elem_of_singleton in H. right. exists a.
           split; [by apply elem_of_cons; left | done].
        -- left. by destruct (Access.authMatchesAllowedRefs None S).
      * right. exists a. split; [by apply elem_of_cons; right | done].
    + intros [H | (a & Hin & Hid & Hm)].
      * left. destruct x as [a|].
        -- destruct (Access.authMatchesAllowedRefs (Some a) S); [| done].
           apply elem_of_union. by right.
        -- by destruct (Access.authMatchesAllowedRefs None S).
      * apply elem_of_cons in Hin as [Hx | Hin].
        -- left. subst x. rewrite Hm. apply elem_of_union. left.
           by apply elem_of_singleton.
        -- right. by exists a.
Qed.

Lemma collectIDs_spec (l : list (option Auth)) (refs : list string) (id : string) :
  id ∈ Access.collectIDs l (Access.collectRefs refs)
  ↔ ∃ a, Some a ∈ l ∧ ID a = id ∧ Spec.refMatches a refs.
Proof.
  unfold Access.collectIDs. rewrite collectIDs_acc. split.
  - intros [H | (a & ? & ? & Hm)]; [by apply elem_of_empty in H |].
    exists a. by rewrite <- authMatches_spec.
  - intros (a & ? & ? & Hm). right. exists a. by rewrite authMatches_spec.
Qed.

Lemma allowedAuthRefs_lookup (m : Access.Manager) (clientKey : string) :
  Str.TrimSpace clientKey ≠ EmptyString →
  Access.allowedAuthRefsForClientKey (Some m) clientKey
  = match Spec.keyRefs (Some m) (Str.TrimSpace clientKey) with
    | Some refs => (Some (Access.collectRefs refs), true)
    | None => (None, false)
    end.
Proof.
  intros Hk. unfold Access.allowedAuthRefsForClientKey, Spec.keyRefs. simpl.
  rewrite (proj2 (eqb_false _ _) Hk).
  destruct (Access.runtimeConfig m) as [cfg|]; simpl; [| reflexivity].
  case_bool_decide as Hsz; [| reflexivity].
  apply map_size_empty_inv in Hsz. rewrite Hsz. by rewrite lookup_empty.
Qed.

(** C1. The tri-state of the access resolver.  With [k] the trimmed
    client key: when [k] is empty or not listed in api-key-auth the
    answer is (nil, restricted = false); when [k] is listed with an empty
    reference list the answer is (empty set, restricted = true); when [k]
    is listed, the answer is restricted = true with exactly the IDs of
    the registered credentials whose ID, derived index or file name is
    one of the trimmed non-blank references.  The derived index is the
    trimmed explicit index of the credential when that is not blank,
    and otherwise the stable token of its seed: "file:" and the trimmed
    file name, else "api_key:" and the trimmed api_key attribute, else
    "id:" and the trimmed ID; a credential with none of them has no
    index and is not reached through it.  Listed-but-empty and not-listed
    differ in the flag. *)
Theorem AllowedAuthIDsForClientKey_tristate (m : option Access.Manager) (clientKey : string) :
  let k := Str.TrimSpace clientKey in
  let res := Access.AllowedAuthIDsForClientKey m clientKey in
  (k = EmptyString ∨ Spec.keyRefs m k = None → res = (None, false))
  ∧ (k ≠ EmptyString → Spec.keyRefs m k = Some [] → res = (Some ∅, true))
  ∧ (k ≠ EmptyString → ∀ refs, Spec.keyRefs m k = Some refs →
       ∃ ids, res = (Some ids, true)
              ∧ ∀ id, id ∈ ids ↔
                  ∃ a, Some a ∈ from_option Access.auths [] m ∧ ID a = id
                       ∧ ∃ ref, ref ∈ refs ∧ Str.TrimSpace ref ≠ EmptyString
                                ∧ (Str.TrimSpace (ID a) = Str.TrimSpace ref
                                   ∨ Spec.derivedIndex a = Str.TrimSpace ref
                                   ∨ Str.TrimSpace (FileName a) = Str.TrimSpace ref)).
Proof.
  intros k res. subst res. unfold Access.AllowedAuthIDsForClientKey.
  destruct m as [m|].
  2:{ simpl. split; [done |]. split; intros; discriminate. }
  destruct (decide (k = EmptyString)) as [Hk | Hk].
  { split; [| split; intros; contradiction].
    intros _. unfold Access.allowedAuthRefsForClientKey. fold k.
    by rewrite (proj2 (eqb_true _ _) Hk). }
  rewrite (allowedAuthRefs_lookup m clientKey Hk). fold k.
  split; [| split].
  - intros [? | Hnone]; [contradiction |]. by rewrite Hnone.
  - intros _ Hrefs. rewrite Hrefs. simpl. by rewrite bool_decide_eq_true_2.
  - intros _ refs Hrefs. rewrite Hrefs. simpl.
    case_bool_decide as Hsz.
    + exists ∅. split; [done |]. intros id.
      rewrite <- (collectIDs_spec (Access.auths m) refs id).
      apply size_zero_empty in Hsz. rewrite Hsz.
      unfold Access.collectIDs. rewrite collectIDs_acc.
      split; [by left | intros [H | (a & _ & _ & Hm)]; [done |]].
      unfold Access.authMatchesAllowedRefs in Hm.
      by rewrite bool_decide_eq_true_2 in Hm.
    + eexists. split; [reflexivity |]. intros id. apply collectIDs_spec.
Qed.

(** C9. A client key listed in api-key-auth whose references are all
    blank is deny-all: the references are trimmed and the blank ones
    dropped, the presence flag stays true, and the answer is (empty set,
    restricted = true). *)
Theorem AllowedAuthIDsForClientKey_blank_refs_deny_all
    (m : Access.Manager) (clientKey : string) (refs : list string) :
  Str.TrimSpace clientKey ≠ EmptyString →
  Spec.keyRefs (Some m) (Str.TrimSpace clientKey) = Some refs →
  Forall Spec.blank refs →
  Access.allowedAuthRefsForClientKey (Some m) clientKey = (Some ∅, true)
  ∧ Access.AllowedAuthIDsForClientKey (Some m) clientKey = (Some ∅, true).
Proof.
  intros Hk Hrefs Hblank.
  assert (Hr : Access.allowedAuthRefsForClientKey (Some m) clientKey = (Some ∅, true)).
  { rewrite (allowedAuthRefs_lookup m clientKey Hk), Hrefs.
    by rewrite (collectRefs_blank refs Hblank). }
  split; [exact Hr |].
  unfold Access.AllowedAuthIDsForClientKey. rewrite Hr. simpl.
  by rewrite bool_decide_eq_true_2.
Qed.

End AccessFacts.

Section AccessWitnesses.
Import Examples.

Lemma AllowedAuthIDsForClientKey_tristate_witness :
  ∃ ids, Access.AllowedAuthIDsForClientKey (Some exIndexManager) " client-idx"
         = (Some ids, true)
         ∧ "auth-a"%string ∈ ids ∧ "auth-b"%string ∈ ids ∧ "auth-c"%string ∈ ids
         ∧ " auth-d "%string ∈ ids.
Proof.
  destruct (proj2 (proj2 (AllowedAuthIDsForClientKey_tristate (Some exIndexManager)
                            " client-idx"))
              ltac:(vm_compute; discriminate) exIndexRefs ltac:(vm_compute; reflexivity))
    as (ids & Hres & Hids).
  exists ids. split; [exact Hres |].
  repeat split; apply Hids.
  - exists (cliproxyauth.mkAuth "auth-a" "codex" "a.json" " idx-7 " EmptyString None None EmptyString).
    split; [repeat constructor |]. split; [reflexivity |].
    exists "  idx-7 "%string. split; [repeat constructor |].
    split; [vm_compute; discriminate | right; left; vm_compute; reflexivity].
  - exists (cliproxyauth.mkAuth "auth-b" "codex" " c.json" EmptyString EmptyString None None EmptyString).
    split; [repeat constructor |]. split; [reflexivity |].
    exists "idx-file:c.json"%string. split; [repeat constructor |].
    split; [vm_compute; discriminate | right; left; vm_compute; reflexivity].
  - exists (cliproxyauth.mkAuth "auth-c" "codex" EmptyString EmptyString EmptyString
                   (Some {[ "api_key"%string := " sk-1 "%string ]}) None EmptyString).
    split; [repeat constructor |]. split; [reflexivity |].
    exists "idx-api_key:sk-1"%string. split; [repeat constructor |].
    split; [vm_compute; discriminate | right; left; vm_compute; reflexivity].
  - exists (cliproxyauth.mkAuth " auth-d " "codex" EmptyString EmptyString EmptyString None None
                   EmptyString).
    split; [repeat constructor |]. split; [reflexivity |].
    exists "idx-id:auth-d"%string. split; [repeat constructor |].
    split; [vm_compute; discriminate | right; left; vm_compute; reflexivity].
Defined.

Lemma AllowedAuthIDsForClientKey_blank_refs_deny_all_witness :
  Access.allowedAuthRefsForClientKey (Some exManager) "client-2" = (Some ∅, true)
  ∧ Access.AllowedAuthIDsForClientKey (Some exManager) "client-2" = (Some ∅, true).
Proof.
  apply (AllowedAuthIDsForClientKey_blank_refs_deny_all exManager "client-2" [ "   "%string ]).
  - vm_compute. discriminate.
  - vm_compute. reflexivity.
  - repeat constructor.
Defined.

End AccessWitnesses.
(** ** The breaker: ban state *)

Section BanFacts.
Import Router.

Lemma ban_lookup (now : Z) (proxyID : string) (b : BanState) :
  Str.TrimSpace proxyID ≠ EmptyString →
  banReverseProxyTemporarily now proxyID b !! Str.TrimSpace proxyID
  = Some (match b !! Str.TrimSpace proxyID with
          | Some prev => Z.max prev (now + reverseProxyBanTTL)
          | None => now + reverseProxyBanTTL
          end).
Proof.
  intros Hid. unfold banReverseProxyTemporarily.
  rewrite (proj2 (eqb_false _ _) Hid). rewrite lookup_insert_eq. f_equal.
  destruct (b !! Str.TrimSpace proxyID) as [prev|]; [| reflexivity].
  unfold Time.After, Time.Add. destruct (Z.ltb_spec (now + reverseProxyBanTTL) prev); lia.
Qed.

Lemma ban_other (now : Z) (proxyID k : string) (b : BanState) :
  k ≠ Str.TrimSpace proxyID →
  banReverseProxyTemporarily now proxyID b !! k = b !! k.
Proof.
  intros Hk. unfold banReverseProxyTemporarily.
  destruct (Str.eqb (Str.TrimSpace proxyID) EmptyString); [reflexivity |].
  by rewrite lookup_insert_ne.
Qed.

Lemma ban_step_mono (now : Z) (proxyID k : string) (b : BanState) (prev : Z) :
  b !! k = Some prev →
  ∃ t, banReverseProxyTemporarily now proxyID b !! k = Some t ∧ prev ≤ t.
Proof.
  intros Hk. destruct (decide (k = Str.TrimSpace proxyID)) as [-> | Hne].
  - case_eqb (Str.TrimSpace proxyID) EmptyString Hid.
    + unfold banReverseProxyTemporarily. rewrite (proj2 (eqb_true _ _) Hid).
      exists prev. split; [done | lia].
    + rewrite (ban_lookup now proxyID b Hid), Hk. eexists. split; [reflexivity | lia].
  - rewrite (ban_other now proxyID k b Hne). exists prev. split; [done | lia].
Qed.

Lemma banAll_mono (events : list (Z * string)) (k : string) (b : BanState) (prev : Z) :
  b !! k = Some prev →
  ∃ t, Spec.banAll events b !! k = Some t ∧ prev ≤ t.
Proof.
  revert b prev. induction events as [|[now id] events IH]; intros b prev Hk.
  - exists prev. split; [done | lia].
  - destruct (ban_step_mono now id k b prev Hk) as (t1 & H1 & Hle1).
    destruct (IH _ t1 H1) as (t & Ht & Hle).
    exists t. split; [exact Ht | lia].
Qed.

(** C5. Banning never shortens a ban.  For a proxy id that is not blank,
    the expiry stored after [banReverseProxyTemporarily] is the later of
    the expiry stored before, if any, and the clock reading plus the
    5-minute TTL; and through any run of ban events the expiry stored
    under a key never decreases. *)
Theorem banReverseProxyTemporarily_extends_only
    (now : Z) (proxyID : string) (b : BanState) :
  Str.TrimSpace proxyID ≠ EmptyString →
  banReverseProxyTemporarily now proxyID b !! Str.TrimSpace proxyID
  = Some (match b !! Str.TrimSpace proxyID with
          | Some prev => Z.max prev (now + 5 * Time.Minute)
          | None => now + 5 * Time.Minute
          end)
  ∧ ∀ (events : list (Z * string)) (k : string) (prev : Z),
      b !! k = Some prev →
      ∃ t, Spec.banAll events b !! k = Some t ∧ prev ≤ t.
Proof.
  intros Hid. split; [exact (ban_lookup now proxyID b Hid) |].
  intros events k prev. apply banAll_mono.
Qed.

Lemma isBanned_cases (now : Z) (id : string) (b : BanState) :
  Str.TrimSpace id ≠ EmptyString →
  isReverseProxyTemporarilyBanned now id b
  = match b !! Str.TrimSpace id with
    | None => (false, b)
    | Some until =>
        if decide (now ≤ until) then (true, b) else (false, delete (Str.TrimSpace id) b)
    end.
Proof.
  intros Hid. unfold isReverseProxyTemporarilyBanned.
  rewrite (proj2 (eqb_false _ _) Hid).
  destruct (b !! Str.TrimSpace id) as [till|]; [| reflexivity].
  unfold Time.After. destruct (Z.ltb_spec till now); case_decide; (reflexivity || lia).
Qed.

(** C6, as the code has it.  A proxy id (not blank) is in one of two
    states.  With no entry it is unbanned.  With an entry it is banned on
    every read up to and including the stored expiry, the map unchanged;
    on the first read strictly after the expiry it is unbanned and the
    read removes the entry.  So a ban placed at [t0] on an id with no
    entry is reported at [t0 + 1s], and is gone, entry removed, at
    [t0 + 5m1s]. *)
Theorem isReverseProxyTemporarilyBanned_lazy_expiry
    (now : Z) (proxyID : string) (b : BanState) :
  let id := Str.TrimSpace proxyID in
  id ≠ EmptyString →
  (b !! id = None → isReverseProxyTemporarilyBanned now proxyID b = (false, b))
  ∧ (∀ till, b !! id = Some till → now ≤ till →
       isReverseProxyTemporarilyBanned now proxyID b = (true, b))
  ∧ (∀ till, b !! id = Some till → till < now →
       isReverseProxyTemporarilyBanned now proxyID b = (false, delete id b)
       ∧ delete id b !! id = None)
  ∧ (∀ t0, b !! id = None →
       let b' := banReverseProxyTemporarily t0 proxyID b in
       isReverseProxyTemporarilyBanned (t0 + Time.Second) proxyID b' = (true, b')
       ∧ isReverseProxyTemporarilyBanned (t0 + 5 * Time.Minute + Time.Second) proxyID b'
         = (false, delete id b')
       ∧ delete id b' !! id = None).
Proof.
  intros id Hid. subst id.
  split; [| split; [| split]].
  - intros Hn. by rewrite (isBanned_cases now proxyID b Hid), Hn.
  - intros till Hu Hle. rewrite (isBanned_cases now proxyID b Hid), Hu.
    by rewrite decide_True.
  - intros till Hu Hlt. rewrite (isBanned_cases now proxyID b Hid), Hu.
    rewrite decide_False by lia. split; [reflexivity | apply lookup_delete_eq].
  - intros t0 Hn b'.
    assert (Hb' : b' !! Str.TrimSpace proxyID = Some (t0 + 5 * Time.Minute)).
    { subst b'. by rewrite (ban_lookup t0 proxyID b Hid), Hn. }
    rewrite !(isBanned_cases _ proxyID b' Hid), Hb'.
    rewrite decide_True by (unfold Time.Minute, Time.Second; lia).
    rewrite decide_False by (unfold Time.Minute, Time.Second; lia).
    split; [reflexivity |]. split; [reflexivity | apply lookup_delete_eq].
Qed.

End BanFacts.

Section BanExamples.
Import Router.

Lemma banReverseProxyTemporarily_extends_only_witness :
  banReverseProxyTemporarily Time.Second " deno-1 " {[ "deno-1"%string := 10 * Time.Minute ]}
    !! Str.TrimSpace " deno-1 "
  = Some (match ({[ "deno-1"%string := 10 * Time.Minute ]} : BanState)
                  !! Str.TrimSpace " deno-1 " with
          | Some prev => Z.max prev (Time.Second + 5 * Time.Minute)
          | None => Time.Second + 5 * Time.Minute
          end)
  ∧ ∀ (events : list (Z * string)) (k : string) (prev : Z),
      ({[ "deno-1"%string := 10 * Time.Minute ]} : BanState) !! k = Some prev →
      ∃ t, Spec.banAll events {[ "deno-1"%string := 10 * Time.Minute ]} !! k = Some t
           ∧ prev ≤ t.
Proof.
  apply (banReverseProxyTemporarily_extends_only Time.Second " deno-1 "
           {[ "deno-1"%string := 10 * Time.Minute ]}).
  vm_compute. discriminate.
Defined.

Lemma isReverseProxyTemporarilyBanned_lazy_expiry_witness :
  let b' := banReverseProxyTemporarily 0 "deno-1" ∅ in
  isReverseProxyTemporarilyBanned (0 + Time.Second) "deno-1" b' = (true, b')
  ∧ isReverseProxyTemporarilyBanned (0 + 5 * Time.Minute + Time.Second) "deno-1" b'
    = (false, delete (Str.TrimSpace "deno-1") b')
  ∧ delete (Str.TrimSpace "deno-1") b' !! Str.TrimSpace "deno-1" = None.
Proof.
  refine (proj2 (proj2 (proj2
            (isReverseProxyTemporarilyBanned_lazy_expiry 0 "deno-1" ∅ _))) 0 _).
  - vm_compute. discriminate.
  - vm_compute. reflexivity.
Defined.

(** C6 as stated fails on the boundary: a read at exactly the stored
    expiry, where now >= bannedUntil, still reports the proxy banned and
    keeps the entry. *)
Lemma isReverseProxyTemporarilyBanned_banned_at_expiry :
  let b := banReverseProxyTemporarily 0 "deno-1" ∅ in
  let now := 5 * Time.Minute in
  b !! "deno-1"%string = Some now
  ∧ isReverseProxyTemporarilyBanned now "deno-1" b = (true, b).
Proof. vm_compute. split; reflexivity. Qed.

End BanExamples.
(** ** Route resolution and URL rewriting *)

Section RouteFacts.
Context {GL : GoLib} {AL : AuthLib}.
Import Router.

Lemma withID_banned (now : Z) (cfg : option config.Config)
    (proxyID provider originalURL : string) (b : BanState) :
  (isReverseProxyTemporarilyBanned now (Str.TrimSpace proxyID) b).1 = true →
  (resolveReverseProxyRouteWithID now cfg proxyID provider originalURL b).1
  = mkResolution originalURL (Str.TrimSpace proxyID) false.
Proof.
  intros Hb. unfold resolveReverseProxyRouteWithID. cbn [ProxyID].
  destruct (Str.eqb (Str.TrimSpace proxyID) EmptyString); [reflexivity |].
  destruct (isReverseProxyTemporarilyBanned now (Str.TrimSpace proxyID) b) as [banned b'].
  simpl in Hb. subst banned. reflexivity.
Qed.

Lemma withID_ProxyID (now : Z) (cfg : option config.Config)
    (proxyID provider originalURL : string) (b : BanState) :
  ProxyID (resolveReverseProxyRouteWithID now cfg proxyID provider originalURL b).1
  = Str.TrimSpace proxyID.
Proof.
  unfold resolveReverseProxyRouteWithID. cbn [ProxyID].
  destruct (Str.eqb (Str.TrimSpace proxyID) EmptyString); [reflexivity |].
  destruct (isReverseProxyTemporarilyBanned now (Str.TrimSpace proxyID) b) as [[] b'];
    reflexivity.
Qed.

Lemma withID_blank (now : Z) (cfg : option config.Config)
    (proxyID provider originalURL : string) (b : BanState) :
  Str.TrimSpace proxyID = EmptyString →
  resolveReverseProxyRouteWithID now cfg proxyID provider originalURL b
  = (mkResolution originalURL EmptyString false, b).
Proof.
  intros H. unfold resolveReverseProxyRouteWithID. cbn [ProxyID].
  rewrite H. reflexivity.
Qed.

Lemma resolveProxyIDForAuth_by_ID (c : config.Config) (a : cliproxyauth.Auth) (p : string) :
  Str.TrimSpace (cliproxyauth.ID a) ≠ EmptyString →
  config.ProxyRoutingAuth c !! Str.TrimSpace (cliproxyauth.ID a) = Some p →
  Str.TrimSpace p ≠ EmptyString →
  resolveProxyIDForAuth (Some c) (Some a) = Str.TrimSpace p.
Proof.
  intros Hid Hp Hne. unfold resolveProxyIDForAuth. cbv beta zeta.
  case_bool_decide as Hsz.
  { apply map_size_empty_inv in Hsz. rewrite Hsz, lookup_empty in Hp. discriminate. }
  rewrite Hp. cbn [default from_option]. unfold id.
  by rewrite (proj2 (eqb_false _ _) Hid), (proj2 (eqb_false _ _) Hne).
Qed.

(** The provider-level id the code reads is the entry of the
    proxy-routing table. *)
Lemma resolveProxyIDForProvider_spec (cfg : option config.Config) (provider : string) :
  Str.TrimSpace (resolveProxyIDForProvider cfg provider) = Spec.providerProxyID cfg provider.
Proof.
  unfold resolveProxyIDForProvider, Spec.providerProxyID, Spec.providerTable.
  destruct cfg as [c|]; [| reflexivity]. cbn [List.find fst snd].
  repeat (match goal with
          | |- context [Str.eqb provider ?x] => destruct (Str.eqb provider x)
          end; [reflexivity |]).
  reflexivity.
Qed.

(** The credential-level id the code reads is the entry of
    proxy-routing-auth under the first key that has one. *)
Lemma resolveProxyIDForAuth_spec (cfg : option config.Config)
    (auth : option cliproxyauth.Auth) :
  resolveProxyIDForAuth cfg auth = Spec.credentialProxyID cfg auth.
Proof.
  unfold resolveProxyIDForAuth, Spec.credentialProxyID, Spec.credentialKeys.
  destruct cfg as [c|], auth as [a|]; try reflexivity. cbv beta zeta.
  cbn [omap list_omap].
  case_bool_decide as Hsz.
  - apply map_size_empty_inv in Hsz. rewrite Hsz, !lookup_empty.
    by repeat (match goal with |- context [Str.eqb ?x EmptyString] =>
                 destruct (Str.eqb x EmptyString) end).
  - destruct (Str.eqb (Str.TrimSpace (cliproxyauth.ID a)) EmptyString); cbn [negb andb];
      [| destruct (config.ProxyRoutingAuth c !! Str.TrimSpace (cliproxyauth.ID a)) as [p1|];
         cbn [default from_option]; unfold id;
         [destruct (Str.eqb (Str.TrimSpace p1) EmptyString); cbn [negb];
          [| reflexivity] |
          change (Str.eqb (Str.TrimSpace EmptyString) EmptyString) with true; cbn [negb]]];
      (destruct (Str.eqb (Str.TrimSpace (EnsureIndex a)) EmptyString); cbn [negb andb];
       [| destruct (config.ProxyRoutingAuth c !! Str.TrimSpace (EnsureIndex a)) as [p2|];
          cbn [default from_option]; unfold id;
          [destruct (Str.eqb (Str.TrimSpace p2) EmptyString); cbn [negb];
           [| reflexivity] |
           change (Str.eqb (Str.TrimSpace EmptyString) EmptyString) with true; cbn [negb]]]);
      (destruct (Str.eqb (Str.TrimSpace (cliproxyauth.FileName a)) EmptyString);
       cbn [negb andb];
       [reflexivity |
        destruct (config.ProxyRoutingAuth c !! Str.TrimSpace (cliproxyauth.FileName a))
          as [p3|];
        cbn [default from_option]; unfold id;
        [destruct (Str.eqb (Str.TrimSpace p3) EmptyString); reflexivity | reflexivity]]).
Qed.

Lemma credentialProxyID_trimmed (cfg : option config.Config)
    (auth : option cliproxyauth.Auth) :
  Str.TrimSpace (Spec.credentialProxyID cfg auth) = Spec.credentialProxyID cfg auth.
Proof.
  unfold Spec.credentialProxyID.
  destruct cfg as [c|], auth as [a|]; try reflexivity.
  destruct (head _) as [x|] eqn:Hh; [| reflexivity].
  apply head_Some_elem_of, list_elem_of_omap in Hh as (k & _ & Hk).
  destruct (Str.eqb k EmptyString); [discriminate |].
  destruct (config.ProxyRoutingAuth c !! k) as [p|]; [| discriminate].
  destruct (Str.eqb (Str.TrimSpace p) EmptyString); [discriminate |].
  injection Hk as <-. cbn [default from_option]. unfold id. apply TrimSpace_idem.
Qed.

(** The id a route starts from, trimmed, is the one the resolution order
    gives. *)
Lemma routeProxyID_spec (cfg : option config.Config) (auth : option cliproxyauth.Auth)
    (provider : string) :
  Str.TrimSpace (routeProxyID cfg auth provider) = Spec.resolvedProxyID cfg auth provider.
Proof.
  unfold routeProxyID, Spec.resolvedProxyID. rewrite resolveProxyIDForAuth_spec.
  destruct (Str.eqb (Spec.credentialProxyID cfg auth) EmptyString); cbn [negb].
  - apply resolveProxyIDForProvider_spec.
  - apply credentialProxyID_trimmed.
Qed.

(** C7. Resolution order and the banned route.  The proxy id of a route
    is the one the credential-level mapping holds for the credential
    when it holds one, else the one the provider-level mapping holds
    for the provider, else none, and then the route is the original
    URL, not proxied.  The credential-level mapping is proxy-routing-auth
    read under the credential's ID, else its index, else its file name,
    a blank key or entry being passed over; the provider-level mapping
    is the field of proxy-routing that bears the provider's name; white
    space around an id does not count.  So an entry under the
    credential's ID wins whatever the provider mapping says, and without
    a credential the route is the one [resolveReverseProxyRoute] gives
    for the provider.  Whenever the resolved id is banned at the time of
    the call, which is when the breaker holds an expiry for it that now
    has not passed, the route is the original URL with proxied = false
    and still reports the id; [resolveReverseProxyRouteWithID] does so
    for any id it is given. *)
Theorem resolveReverseProxyRoute_precedence_and_ban
    (now : Z) (cfg : option config.Config) (auth : option cliproxyauth.Auth)
    (provider originalURL : string) (b : BanState) :
  let id := Spec.resolvedProxyID cfg auth provider in
  let route := (resolveReverseProxyRouteForAuth now cfg auth provider originalURL b).1 in
  resolveProxyIDForAuth cfg auth = Spec.credentialProxyID cfg auth
  ∧ Str.TrimSpace (resolveProxyIDForProvider cfg provider) = Spec.providerProxyID cfg provider
  ∧ ProxyID route = id
  ∧ (id = EmptyString → route = mkResolution originalURL EmptyString false)
  ∧ ((isReverseProxyTemporarilyBanned now id b).1 = true →
       route = mkResolution originalURL id false)
  ∧ (∀ till, id ≠ EmptyString → b !! id = Some till → now ≤ till →
       route = mkResolution originalURL id false)
  ∧ (∀ c a p, cfg = Some c → auth = Some a →
       Str.TrimSpace (cliproxyauth.ID a) ≠ EmptyString →
       config.ProxyRoutingAuth c !! Str.TrimSpace (cliproxyauth.ID a) = Some p →
       Str.TrimSpace p ≠ EmptyString →
       ProxyID route = Str.TrimSpace p)
  ∧ (auth = None →
       resolveReverseProxyRoute now cfg provider originalURL b
       = resolveReverseProxyRouteForAuth now cfg auth provider originalURL b
       ∧ id = Spec.providerProxyID cfg provider)
  ∧ (∀ proxyID,
       (isReverseProxyTemporarilyBanned now (Str.TrimSpace proxyID) b).1 = true →
       (resolveReverseProxyRouteWithID now cfg proxyID provider originalURL b).1
       = mkResolution originalURL (Str.TrimSpace proxyID) false).
Proof.
  intros id route. subst id route.
  pose proof (routeProxyID_spec cfg auth provider) as Hid.
  unfold resolveReverseProxyRouteForAuth.
  split; [apply resolveProxyIDForAuth_spec |].
  split; [apply resolveProxyIDForProvider_spec |].
  split; [by rewrite withID_ProxyID |].
  split; [| split; [| split; [| split; [| split]]]].
  - intros He. rewrite He in Hid.
    by rewrite (withID_blank now cfg _ provider originalURL b Hid).
  - intros Hb. rewrite <- Hid in Hb |- *. by apply withID_banned.
  - intros till Hne Hl Hle. rewrite <- Hid in Hne, Hl |- *. apply withID_banned.
    assert (Hne' : Str.TrimSpace (Str.TrimSpace (routeProxyID cfg auth provider))
                   ≠ EmptyString) by by rewrite TrimSpace_idem.
    rewrite (isBanned_cases now _ b Hne'), TrimSpace_idem, Hl.
    case_decide; [reflexivity | lia].
  - intros c a p -> -> Hk Hp Hne. rewrite withID_ProxyID, Hid.
    unfold Spec.resolvedProxyID. rewrite <- resolveProxyIDForAuth_spec.
    rewrite (resolveProxyIDForAuth_by_ID c a p Hk Hp Hne).
    by rewrite (proj2 (eqb_false _ _) Hne).
  - intros ->. split.
    + unfold resolveReverseProxyRoute, routeProxyID.
      by destruct cfg.
    + unfold Spec.resolvedProxyID, Spec.credentialProxyID. by destruct cfg.
  - intros proxyID. apply withID_banned.
Qed.

Lemma bridgeURL_nonempty (workerBase prefix path upstreamHost rawQuery : string) :
  Spec.bridgeURL workerBase prefix path upstreamHost rawQuery ≠ EmptyString.
Proof.
  unfold Spec.bridgeURL. do 2 apply append_nonempty_r. by apply append_nonempty_l.
Qed.

Lemma buildWorkerURL_cases (c : config.Config) (proxyBaseURL prefix path rawQuery : string)
    (workerParsed upstreamParsed : url_URL) :
  let workerBase := Str.TrimSpace (config.ReverseProxyWorkerURL c) in
  let upstreamHost := Str.TrimSpace (Hostname upstreamParsed) in
  workerBase ≠ EmptyString →
  url_Parse workerBase = Some workerParsed → Host workerParsed ≠ EmptyString →
  url_Parse (Str.TrimSpace proxyBaseURL) = Some upstreamParsed →
  Host upstreamParsed ≠ EmptyString →
  upstreamHost ≠ EmptyString →
  buildReverseProxyWorkerURL (Some c) proxyBaseURL prefix path rawQuery
  = if EqualFold (Str.TrimSpace (Hostname workerParsed)) upstreamHost then EmptyString
    else Spec.bridgeURL workerBase prefix path upstreamHost rawQuery.
Proof.
  intros workerBase upstreamHost Hw Hwp Hwh Hup Huh Hh.
  unfold buildReverseProxyWorkerURL. fold workerBase.
  rewrite (proj2 (eqb_false _ _) Hw), Hwp, (proj2 (eqb_false _ _) Hwh), Hup,
    (proj2 (eqb_false _ _) Huh).
  fold upstreamHost. rewrite (proj2 (eqb_false _ _) Hh).
  destruct (EqualFold (Str.TrimSpace (Hostname workerParsed)) upstreamHost); [reflexivity |].
  unfold Spec.bridgeURL, Spec.querySuffix.
  destruct (Str.eqb rawQuery EmptyString); cbn [negb];
    destruct (Str.HasPrefix (if Str.eqb path EmptyString then "/"%string else path) "/");
    cbn [negb]; rewrite ?append_assoc, ?append_empty_r; reflexivity.
Qed.


Lemma routedPath_slash (u : url_URL) : Str.HasPrefix (Spec.routedPath u) "/" = true.
Proof.
  unfold Spec.routedPath. destruct (Str.HasPrefix (Path u) "/") eqn:H; [exact H |].
  unfold Str.HasPrefix. by destruct (Path u).
Qed.

Lemma routedPath_nonempty (u : url_URL) : Spec.routedPath u ≠ EmptyString.
Proof.
  intros H. pose proof (routedPath_slash u) as Hs. rewrite H in Hs. discriminate.
Qed.

Lemma TrimSuffix_none (s suf : string) : Str.HasSuffix s suf = false → Str.TrimSuffix s suf = s.
Proof. intros H. unfold Str.TrimSuffix. by rewrite H. Qed.

(** C8, as the code has it.  With the proxy found, the original URL
    parsed, and a worker URL and a proxy base URL that both parse with a
    host: when the two host names differ (ports aside, compared with
    [EqualFold]) the call URL is the worker base without its trailing
    slash, then prefix and path without their trailing slash, then a
    slash and the proxy's host name, then the query after a question
    mark when there is one; this is workerBase + prefix + path + slash +
    host whenever no trailing slash is there to remove.  When the two
    host names are equal there is no bridge URL and the call URL is the
    plain rewriting proxyBase + prefix + path, with the query. *)
Theorem resolveReverseProxyURLWithID_bridge
    (c : config.Config) (proxyID provider originalURL : string)
    (proxyConfig : config.ReverseProxy) (parsedURL workerParsed upstreamParsed : url_URL) :
  let workerBase := Str.TrimSpace (config.ReverseProxyWorkerURL c) in
  let upstreamHost := Str.TrimSpace (Hostname upstreamParsed) in
  let prefix := routePrefix provider (Host parsedURL) in
  let path := Spec.routedPath parsedURL in
  let query := Spec.querySuffix (RawQuery parsedURL) in
  proxyID ≠ EmptyString →
  findReverseProxyByID (Some c) proxyID = Some proxyConfig →
  url_Parse originalURL = Some parsedURL →
  workerBase ≠ EmptyString →
  url_Parse workerBase = Some workerParsed → Host workerParsed ≠ EmptyString →
  url_Parse (Str.TrimSpace (config.BaseURL proxyConfig)) = Some upstreamParsed →
  Host upstreamParsed ≠ EmptyString →
  upstreamHost ≠ EmptyString →
  (EqualFold (Str.TrimSpace (Hostname workerParsed)) upstreamHost = false →
     resolveReverseProxyURLWithID (Some c) proxyID provider originalURL
     = (Str.TrimSuffix workerBase "/"
        ++ Str.TrimSuffix (("/" ++ Str.Trim1 (Str.TrimSpace prefix) "/") ++ path) "/"
        ++ "/" ++ upstreamHost ++ query)%string
     ∧ (Str.HasSuffix workerBase "/" = false →
        ("/" ++ Str.Trim1 (Str.TrimSpace prefix) "/")%string = prefix →
        Str.HasSuffix (prefix ++ path) "/" = false →
        resolveReverseProxyURLWithID (Some c) proxyID provider originalURL
        = (workerBase ++ prefix ++ path ++ "/" ++ upstreamHost ++ query)%string))
  ∧ (EqualFold (Str.TrimSpace (Hostname workerParsed)) upstreamHost = true →
     buildReverseProxyWorkerURL (Some c) (config.BaseURL proxyConfig) prefix path
                                (RawQuery parsedURL) = EmptyString
     ∧ resolveReverseProxyURLWithID (Some c) proxyID provider originalURL
       = (Str.TrimSuffix (config.BaseURL proxyConfig) "/" ++ prefix ++ path ++ query)%string).
Proof.
  intros workerBase upstreamHost prefix path query Hid Hfind Hparse Hw Hwp Hwh Hup Huh Hh.
  pose proof (buildWorkerURL_cases c (config.BaseURL proxyConfig) prefix path
                (RawQuery parsedURL) workerParsed upstreamParsed Hw Hwp Hwh Hup Huh Hh)
    as Hbuild.
  fold workerBase upstreamHost in Hbuild.
  assert (Hlen : bool_decide (length (config.ReverseProxies c) = 0%nat) = false).
  { apply bool_decide_eq_false. intros Hl. unfold findReverseProxyByID in Hfind.
    rewrite (bool_decide_eq_true_2 _ Hl), orb_true_r in Hfind. discriminate. }
  assert (Hres : resolveReverseProxyURLWithID (Some c) proxyID provider originalURL
                 = let workerURL :=
                     buildReverseProxyWorkerURL (Some c) (config.BaseURL proxyConfig)
                       prefix path (RawQuery parsedURL) in
                   if negb (Str.eqb workerURL EmptyString) then workerURL
                   else (Str.TrimSuffix (config.BaseURL proxyConfig) "/" ++ prefix ++ path
                         ++ query)%string).
  { unfold resolveReverseProxyURLWithID.
    rewrite Hlen, (proj2 (eqb_false _ _) Hid), Hfind, Hparse. cbn [orb].
    fold prefix. unfold path, Spec.routedPath, query, Spec.querySuffix. cbv zeta.
    destruct (Str.HasPrefix (Path parsedURL) "/"); cbn [negb];
      destruct (buildReverseProxyWorkerURL _ _ _ _ _) eqn:Hb; cbn [negb];
      rewrite ?eqb_refl; cbn [negb];
      try (rewrite (proj2 (eqb_false (String _ _) EmptyString)) by discriminate;
           reflexivity);
      destruct (Str.eqb (RawQuery parsedURL) EmptyString); cbn [negb];
      rewrite ?append_assoc, ?append_empty_r; reflexivity. }
  assert (Hbridge : Spec.bridgeURL workerBase prefix path upstreamHost (RawQuery parsedURL)
                    = (Str.TrimSuffix workerBase "/"
                       ++ Str.TrimSuffix (("/" ++ Str.Trim1 (Str.TrimSpace prefix) "/") ++ path) "/"
                       ++ "/" ++ upstreamHost ++ query)%string).
  { unfold Spec.bridgeURL. unfold path.
    rewrite (proj2 (eqb_false _ _) (routedPath_nonempty parsedURL)).
    by rewrite routedPath_slash. }
  split.
  - intros Hfold. rewrite Hfold in Hbuild.
    assert (Hfirst : resolveReverseProxyURLWithID (Some c) proxyID provider originalURL
                     = Spec.bridgeURL workerBase prefix path upstreamHost (RawQuery parsedURL)).
    { rewrite Hres. cbv zeta. rewrite Hbuild.
      by rewrite (proj2 (eqb_false _ _) (bridgeURL_nonempty _ _ _ _ _)). }
    split; [by rewrite Hfirst, Hbridge |].
    intros Hs1 Hp Hs2. rewrite Hfirst, Hbridge, Hp.
    by rewrite (TrimSuffix_none _ _ Hs1), (TrimSuffix_none _ _ Hs2), append_assoc.
  - intros Hfold. rewrite Hfold in Hbuild. split; [exact Hbuild |].
    rewrite Hres. cbv zeta. rewrite Hbuild. by rewrite eqb_refl.
Qed.

End RouteFacts.

Section RouteExamples.
Import Router Examples.

Lemma resolveReverseProxyRoute_precedence_and_ban_witness :
  (resolveReverseProxyRouteForAuth Time.Second (Some (exRouteConfig EmptyString)) None
     "codex" codexURL (banReverseProxyTemporarily 0 "deno-1" ∅)).1
  = mkResolution codexURL "deno-1" false.
Proof.
  refine (proj1 (proj2 (proj2 (proj2 (proj2
            (resolveReverseProxyRoute_precedence_and_ban Time.Second
               (Some (exRouteConfig EmptyString)) None "codex" codexURL
               (banReverseProxyTemporarily 0 "deno-1" ∅)))))) _).
  vm_compute. reflexivity.
Defined.

Lemma resolveReverseProxyURLWithID_bridge_witness :
  resolveReverseProxyURLWithID
    (Some (exRouteConfig "https://cpa-deno-bridge.mengcenfay.workers.dev"))
    "deno-1" "codex" "https://chatgpt.com/backend-api/codex/responses?stream=true"
  = ("https://cpa-deno-bridge.mengcenfay.workers.dev" ++ "/codex"
     ++ "/backend-api/codex/responses" ++ "/"
     ++ "funny-starfish-28.lauracadano-max.deno.net" ++ "?stream=true")%string.
Proof.
  refine (proj2 (proj1 (resolveReverseProxyURLWithID_bridge
            (exRouteConfig "https://cpa-deno-bridge.mengcenfay.workers.dev")
            "deno-1" "codex" "https://chatgpt.com/backend-api/codex/responses?stream=true"
            denoProxy
            (mkURL "https" "chatgpt.com" "/backend-api/codex/responses" "stream=true")
            (mkURL "https" "cpa-deno-bridge.mengcenfay.workers.dev" EmptyString EmptyString)
            (mkURL "https" "funny-starfish-28.lauracadano-max.deno.net" EmptyString EmptyString)
            _ _ _ _ _ _ _ _ _) _) _ _ _);
    try (vm_compute; reflexivity); vm_compute; discriminate.
Defined.

(** C8 as stated fails when the worker URL is configured with a trailing
    slash: the code removes it, the stated concatenation keeps it. *)
Lemma resolveReverseProxyURLWithID_trailing_slash :
  let got :=
    resolveReverseProxyURLWithID (Some (exRouteConfig "https://bridge.example/"))
      "deno-1" "codex" codexURL in
  got = "https://bridge.example/codex/backend-api/codex/responses/funny-starfish-28.lauracadano-max.deno.net"%string
  ∧ got ≠ ("https://bridge.example/" ++ "/codex" ++ "/backend-api/codex/responses" ++ "/"
           ++ "funny-starfish-28.lauracadano-max.deno.net")%string.
Proof. vm_compute. split; [reflexivity | discriminate]. Qed.

End RouteExamples.
(** ** Quota cooldown detection *)

Section QuotaFacts.
Context {GL : GoLib}.
Import Codex.

(** The number the code reads from a field is the one of the
    specification. *)
Lemma gjsonToFloat_spec (r : gjson.Result) : gjsonToFloat r = SpecQuota.number r.
Proof. by destruct r as [[| | | | | |]|]. Qed.

(** The recovery time the code computes is the one of the
    specification. *)
Lemma codexWindowRecoverAt_spec (w : gjson.Result) (now : Z) :
  codexWindowRecoverAt w now = SpecQuota.recovery w now.
Proof.
  unfold codexWindowRecoverAt, SpecQuota.recovery, SpecQuota.firstPositive, floatPos, Time.Add.
  cbn [omap list_omap]. cbv beta. change (@SpecQuota.number GL) with (@gjsonToFloat GL).
  destruct (gjsonToFloat (gjson.Get w "reset_at")) as [a|];
    [destruct (Float64.gt a (Float64.of_Z 0)); [reflexivity |] |];
    (destruct (gjsonToFloat (gjson.Get w "resetAt")) as [b|];
      [destruct (Float64.gt b (Float64.of_Z 0)); [reflexivity |] |]);
    (destruct (gjsonToFloat (gjson.Get w "reset_after_seconds")) as [c|];
      [destruct (Float64.gt c (Float64.of_Z 0)); [reflexivity |] |]);
    (destruct (gjsonToFloat (gjson.Get w "resetAfterSeconds")) as [d|];
      [destruct (Float64.gt d (Float64.of_Z 0)) |]); reflexivity.
Qed.

(** The tag the code gives a primary window is the one of the
    specification. *)
Lemma resolveCodexWindowReason_spec (w : gjson.Result) (p s : string) :
  resolveCodexWindowReason w p s = SpecQuota.tag w p s.
Proof.
  unfold resolveCodexWindowReason, SpecQuota.tag, SpecQuota.declaresLong, floatGe, daySeconds.
  change (24 * 60 * 60) with 86400. cbn [existsb]. change (@SpecQuota.number GL) with (@gjsonToFloat GL).
  unfold Str.eqb. case_bool_decide as Hps.
  - subst s. by destruct (_ || _).
  - destruct w as [[| | | | | |]|]; cbn [gjson.Exists gjson.isNull gjson.Get negb orb];
      cbn [gjsonToFloat]; try reflexivity.
    destruct (gjsonToFloat (gjson.member "limit_window_seconds" l)) as [a|];
      [destruct (Float64.ge a (Float64.of_Z 86400)); [reflexivity |] |];
      (destruct (gjsonToFloat (gjson.member "limitWindowSeconds" l)) as [b|];
        [destruct (Float64.ge b (Float64.of_Z 86400)); [reflexivity |] |]);
      (destruct (gjsonToFloat (gjson.member "reset_after_seconds" l)) as [c|];
        [destruct (Float64.ge c (Float64.of_Z 86400)); [reflexivity |] |]);
      (destruct (gjsonToFloat (gjson.member "resetAfterSeconds" l)) as [d|];
        [destruct (Float64.ge d (Float64.of_Z 86400)) |]); reflexivity.
Qed.

Lemma appendCandidate_spec (cs : list candidate) (w : gjson.Result) (pl : bool)
    (r : string) (now : Z) :
  appendCodexWindowCandidate cs w pl r now = cs ++ SpecQuota.windowCandidate w pl r now.
Proof.
  unfold appendCodexWindowCandidate, SpecQuota.windowCandidate, SpecQuota.usedUp, Time.After.
  rewrite codexWindowRecoverAt_spec. unfold floatGe. cbn [existsb].
  change (@SpecQuota.number GL) with (@gjsonToFloat GL).
  destruct (gjson.Exists w), (gjson.isNull w); cbn [negb orb andb];
    rewrite ?app_nil_r; try reflexivity.
  destruct (match gjsonToFloat (gjson.Get w "used_percent") with
            | Some v => Float64.ge v (Float64.of_Z 100) | None => false end),
    (match gjsonToFloat (gjson.Get w "usedPercent") with
     | Some v => Float64.ge v (Float64.of_Z 100) | None => false end), pl;
    cbn [negb orb andb];
    rewrite ?app_nil_r; try reflexivity;
    destruct (SpecQuota.recovery w now) as [t|]; rewrite ?app_nil_r; try reflexivity;
    destruct (now <? t); cbn [negb]; rewrite ?app_nil_r; reflexivity.
Qed.

Lemma addByRateLimit_spec (now : Z) (cs : list candidate) (rl : gjson.Result)
    (p s : string) :
  addByRateLimit now cs rl p s = cs ++ SpecQuota.sectionCandidates rl p s now.
Proof.
  unfold addByRateLimit, SpecQuota.sectionCandidates, SpecQuota.sectionFlagged.
  destruct (gjson.Exists rl), (gjson.isNull rl); cbn [negb orb andb];
    rewrite ?app_nil_r; try reflexivity.
  cbv zeta. rewrite !appendCandidate_spec, !resolveCodexWindowReason_spec, <- !app_assoc.
  destruct (gjson.Exists (gjson.Get rl "allowed") && negb (gjson.Bool (gjson.Get rl "allowed")));
    rewrite ?orb_true_r, ?orb_false_r; reflexivity.
Qed.

Lemma quotaCandidates_spec (root : gjson.Result) (now : Z) :
  quotaCandidates root now = SpecQuota.limitingCandidates root now.
Proof.
  unfold quotaCandidates, SpecQuota.limitingCandidates. cbv zeta.
  rewrite !addByRateLimit_spec, <- !app_assoc. reflexivity.
Qed.

Lemma pickEarliest_acc (rest : list candidate) (first : candidate) :
  (pickEarliest first rest = first ∨ pickEarliest first rest ∈ rest)
  ∧ resetAt (pickEarliest first rest) ≤ resetAt first
  ∧ ∀ c, c ∈ rest → resetAt (pickEarliest first rest) ≤ resetAt c.
Proof.
  unfold pickEarliest. revert first.
  induction rest as [|x rest IH]; intros first; cbn [foldl].
  - split; [by left |]. split; [lia |]. intros c Hc. by inversion Hc.
  - destruct (Time.Before (resetAt x) (resetAt first)) eqn:Hb; unfold Time.Before in Hb;
      [apply Z.ltb_lt in Hb | apply Z.ltb_ge in Hb].
    + destruct (IH x) as (Hin & Hle & Hall). split; [| split].
      * right. destruct Hin as [-> | Hin]; [by left | by right].
      * lia.
      * intros c Hc. apply elem_of_cons in Hc as [-> | Hc]; [exact Hle | by apply Hall].
    + destruct (IH first) as (Hin & Hle & Hall). split; [| split].
      * destruct Hin as [-> | Hin]; [by left | right; by right].
      * exact Hle.
      * intros c Hc. apply elem_of_cons in Hc as [-> | Hc]; [lia | by apply Hall].
Qed.

(** A float that fits converts to the integer left of its point. *)
Lemma int64_fits (f : spec_float) (z : Z) :
  Float64.trunc f = Some z →
  (Time.minDuration <=? z) && (z <=? Time.maxDuration) = true →
  int64 f = z.
Proof. intros Ht Hr. unfold int64. by rewrite Ht, Hr. Qed.

(** A whole number of seconds, as the payloads of the examples give it,
    is the duration the window adds to now. *)
Lemma seconds_duration (n : Z) :
  Float64.trunc (Float64.mul (Float64.of_Z n) (Float64.of_Z Time.Second))
  = Some (n * Time.Second) →
  (Time.minDuration <=? n * Time.Second) && (n * Time.Second <=? Time.maxDuration) = true →
  int64 (Float64.mul (Float64.of_Z n) (Float64.of_Z Time.Second)) = n * Time.Second.
Proof. apply int64_fits. Qed.

Lemma recover_after_seconds (n now : Z) :
  Float64.gt (Float64.of_Z n) (Float64.of_Z 0) = true →
  Float64.trunc (Float64.mul (Float64.of_Z n) (Float64.of_Z Time.Second))
  = Some (n * Time.Second) →
  (Time.minDuration <=? n * Time.Second) && (n * Time.Second <=? Time.maxDuration) = true →
  codexWindowRecoverAt (Some (JObj [ ("reset_after_seconds"%string, JNum (Float64.of_Z n)) ]))
                       now
  = Some (now + n * Time.Second).
Proof.
  intros Hpos Ht Hr. unfold codexWindowRecoverAt, floatPos.
  cbn [gjson.Get gjson.member gjsonToFloat].
  change (Str.eqb "reset_after_seconds" "reset_at") with false.
  change (Str.eqb "reset_after_seconds" "resetAt") with false.
  change (Str.eqb "reset_after_seconds" "reset_after_seconds") with true.
  cbn [gjsonToFloat]. rewrite Hpos, (seconds_duration n Ht Hr).
  reflexivity.
Qed.

Lemma candidatesNearest (now : Z) :
  quotaCandidates (Some Examples.payloadNearest) now
  = [ mkCandidate (now + 18000 * Time.Second) "codex_5h_limit";
      mkCandidate (now + 86400 * Time.Second) "codex_weekly_limit" ].
Proof.
  cbv -[Z.ltb Z.add Z.mul codexWindowRecoverAt Float64.of_Z Float64.ge Float64.gt Time.Second].
  rewrite (recover_after_seconds 18000 now eq_refl eq_refl eq_refl).
  rewrite (recover_after_seconds 86400 now eq_refl eq_refl eq_refl).
  change (Float64.ge (Float64.of_Z 18000) (Float64.of_Z 86400)) with false.
  rewrite !(proj2 (Z.ltb_lt _ _)) by (unfold Time.Second; lia). reflexivity.
Qed.

Lemma candidatesWeekly (now : Z) :
  quotaCandidates (Some Examples.payloadWeekly) now
  = [ mkCandidate (now + 604800 * Time.Second) "codex_weekly_limit" ].
Proof.
  cbv -[Z.ltb Z.add Z.mul codexWindowRecoverAt Float64.of_Z Float64.ge Float64.gt Time.Second].
  rewrite (recover_after_seconds 604800 now eq_refl eq_refl eq_refl).
  rewrite !(proj2 (Z.ltb_lt _ _)) by (unfold Time.Second; lia). reflexivity.
Qed.

Lemma candidatesWeeklyPrimary (now : Z) :
  quotaCandidates (Some Examples.payloadWeeklyPrimary) now
  = [ mkCandidate (now + 604800 * Time.Second) "codex_weekly_limit" ].
Proof.
  cbv -[Z.ltb Z.add Z.mul codexWindowRecoverAt Float64.of_Z Float64.ge Float64.gt Time.Second].
  change (Float64.ge (Float64.of_Z 604800) (Float64.of_Z 86400)) with true. cbv iota.
  pose proof (recover_after_seconds 604800 now eq_refl eq_refl eq_refl) as H.
  unfold codexWindowRecoverAt, floatPos in H |- *.
  cbn [gjson.Get gjson.member gjsonToFloat] in H |- *.
  change (Str.eqb "limit_window_seconds" _) with false.
  change (Str.eqb "reset_after_seconds" "reset_at") with false in H |- *.
  change (Str.eqb "reset_after_seconds" "resetAt") with false in H |- *.
  cbn [gjson.member gjsonToFloat] in H |- *. rewrite H.
  rewrite !(proj2 (Z.ltb_lt _ _)) by (unfold Time.Second; lia). reflexivity.
Qed.

Lemma windowCandidate_after (w : gjson.Result) (pl : bool) (r : string) (now : Z)
    (c : candidate) :
  c ∈ SpecQuota.windowCandidate w pl r now → now < resetAt c.
Proof.
  unfold SpecQuota.windowCandidate.
  destruct (gjson.Exists w && negb (gjson.isNull w) && (pl || SpecQuota.usedUp w));
    [| by inversion 1].
  destruct (SpecQuota.recovery w now) as [t|]; [| by inversion 1].
  destruct (Z.ltb_spec now t) as [Hlt | Hge]; [| by inversion 1].
  intros Hc. apply list_elem_of_singleton in Hc. by subst c.
Qed.

Lemma sectionCandidates_after (rl : gjson.Result) (p s : string) (now : Z) (c : candidate) :
  c ∈ SpecQuota.sectionCandidates rl p s now → now < resetAt c.
Proof.
  unfold SpecQuota.sectionCandidates.
  destruct (gjson.Exists rl && negb (gjson.isNull rl)); [| by inversion 1].
  cbv zeta. rewrite !elem_of_app.
  intros [H | [H | [H | H]]]; by apply windowCandidate_after in H.
Qed.

Lemma limitingCandidates_after (root : gjson.Result) (now : Z) (c : candidate) :
  c ∈ SpecQuota.limitingCandidates root now → now < resetAt c.
Proof.
  unfold SpecQuota.limitingCandidates. rewrite !elem_of_app.
  intros [H | [H | [H | H]]]; by apply sectionCandidates_after in H.
Qed.

(** C3. Whenever the payload has a limiting window whose recovery time
    is strictly after now, [codexQuotaRecoverAt] answers with one of the
    limiting candidates, its recovery time and its reason tag, and no
    candidate of any section recovers earlier.  The candidates are those
    of the specification: a window of a section that is there, limiting
    because its section is flagged or it has used 100 percent or more,
    with its absolute reset epoch or else now plus its reset-after
    seconds as recovery time, converted from float64 as Go does, and,
    for a primary window of the rate-limit section, the weekly tag when
    it declares 24 hours or more and the 5-hour tag otherwise.  For the
    payload with a reached limit, a primary window resetting in 18000 s
    and a secondary window resetting in 86400 s the answer is now + 5 h
    tagged codex_5h_limit; for the payload with a secondary window only,
    resetting in 604800 s, it is now + 7 d tagged codex_weekly_limit;
    for the payload whose primary window declares a week it is
    now + 7 d tagged codex_weekly_limit too. *)
Theorem codexQuotaRecoverAt_earliest (payload : string) (now : Z) :
  (SpecQuota.limitingCandidates (gjson_Parse payload) now ≠ [] →
   ∃ e, e ∈ SpecQuota.limitingCandidates (gjson_Parse payload) now
        ∧ codexQuotaRecoverAt payload now = (resetAt e, reason e, true)
        ∧ now < resetAt e
        ∧ ∀ c, c ∈ SpecQuota.limitingCandidates (gjson_Parse payload) now →
               resetAt e ≤ resetAt c)
  ∧ (gjson_Parse payload = Some Examples.payloadNearest →
     codexQuotaRecoverAt payload now = (now + 5 * Time.Hour, "codex_5h_limit"%string, true))
  ∧ (gjson_Parse payload = Some Examples.payloadWeekly →
     codexQuotaRecoverAt payload now
     = (now + 7 * 24 * Time.Hour, "codex_weekly_limit"%string, true))
  ∧ (gjson_Parse payload = Some Examples.payloadWeeklyPrimary →
     codexQuotaRecoverAt payload now
     = (now + 7 * 24 * Time.Hour, "codex_weekly_limit"%string, true)).
Proof.
  split; [| split; [| split]].
  - intros Hne. unfold codexQuotaRecoverAt. cbv zeta.
    rewrite quotaCandidates_spec.
    destruct (SpecQuota.limitingCandidates (gjson_Parse payload) now) as [|first rest] eqn:Hc;
      [done |].
    destruct (pickEarliest_acc rest first) as (Hin & Hle & Hall).
    assert (Hmem : pickEarliest first rest ∈ first :: rest).
    { destruct Hin as [-> | Hin]; [by left | by right]. }
    exists (pickEarliest first rest). split; [exact Hmem |]. split; [reflexivity |].
    split.
    + apply (limitingCandidates_after (gjson_Parse payload) now). by rewrite Hc.
    + intros c Hcin. apply elem_of_cons in Hcin as [-> | Hcin]; [exact Hle | by apply Hall].
  - intros Hp. unfold codexQuotaRecoverAt. cbv zeta. rewrite Hp, candidatesNearest.
    unfold pickEarliest. cbn [foldl resetAt reason]. unfold Time.Before.
    rewrite (proj2 (Z.ltb_ge _ _)) by (unfold Time.Second; lia).
    cbn [resetAt reason]. do 2 f_equal; try (unfold Time.Hour, Time.Minute, Time.Second; lia).
  - intros Hp. unfold codexQuotaRecoverAt. cbv zeta. rewrite Hp, candidatesWeekly.
    unfold pickEarliest. cbn [foldl resetAt reason].
    do 2 f_equal; try (unfold Time.Hour, Time.Minute, Time.Second; lia).
  - intros Hp. unfold codexQuotaRecoverAt. cbv zeta. rewrite Hp, candidatesWeeklyPrimary.
    unfold pickEarliest. cbn [foldl resetAt reason].
    do 2 f_equal; try (unfold Time.Hour, Time.Minute, Time.Second; lia).
Qed.
End QuotaFacts.


Section QuotaExamples.
Import Codex Examples.

Lemma codexQuotaRecoverAt_earliest_witness :
  ∃ e, e ∈ SpecQuota.limitingCandidates (gjson_Parse payloadNearestText) 1000
       ∧ codexQuotaRecoverAt payloadNearestText 1000 = (resetAt e, reason e, true)
       ∧ 1000 < resetAt e
       ∧ ∀ c, c ∈ SpecQuota.limitingCandidates (gjson_Parse payloadNearestText) 1000 →
              resetAt e ≤ resetAt c.
Proof.
  apply (proj1 (codexQuotaRecoverAt_earliest payloadNearestText 1000)).
  vm_compute. discriminate.
Defined.

End QuotaExamples.
(** ** Quota errors *)

Section StatusErrFacts.
Context {GL : GoLib} {AL : AuthLib} {TL : Codex.Translators} (env : Codex.Env).
Import Codex.

Lemma hintFromUsageBody_positive (body : string) (now : Z) (h : codexQuotaCooldownHint) :
  hintFromUsageBody body now = (h, true) → 0 < hintRetryAfter h.
Proof.
  unfold hintFromUsageBody.
  destruct (bool_decide (String.length body = 0%nat)); [intros [=] |].
  destruct (codexQuotaRecoverAt body now) as [[retryAt reason] ok].
  destruct (negb ok || Time.IsZero retryAt || negb (Time.After retryAt now)) eqn:Hg;
    [intros [=] |].
  intros [= <-]. cbn [hintRetryAfter].
  apply orb_false_iff in Hg as [_ Hafter]. apply negb_false_iff in Hafter.
  unfold Time.After in Hafter. apply Z.ltb_lt in Hafter.
  unfold Time.Sub, Time.minDuration, Time.maxDuration. lia.
Qed.

Lemma fetch_positive (auth : option cliproxyauth.Auth) (w : World)
    (h : codexQuotaCooldownHint) :
  (fetchCodexQuotaCooldownHint env auth w).1 = (h, true) → 0 < hintRetryAfter h.
Proof.
  unfold fetchCodexQuotaCooldownHint, noHint.
  destruct auth as [a|]; [| intros [=]].
  destruct (Str.eqb _ _); [intros [=] |].
  destruct (url_Parse codexUsageURL); [| intros [=]].
  unfold bind, Do, ret, Now. cbn [fst snd].
  destruct (http_Do env (httpCalls w) _) as [e | resp]; [intros [=] |].
  destruct ((StatusCode resp <? 200) || (300 <=? StatusCode resp)); [intros [=] |].
  destruct (BodyErr resp); [intros [=] |].
  cbn [fst]. apply hintFromUsageBody_positive.
Qed.

(** C4, as the code has it.  On a 429 the error carries the status and
    the body.  A positive numeric Retry-After sets the duration to that
    many seconds, and an HTTP-date in the future sets it to the time
    until that date.  When the usage lookup yields a hint, which always
    has a positive duration, the hint's duration replaces the one from
    the header, whichever is later, and the hint's reason tag is the
    error's reason; when it yields none, the duration from the header
    stands and the reason is empty. *)
Theorem newCodexStatusErr_retry_after
    (auth : option cliproxyauth.Auth) (body : string) (headers : Header) (w : World) :
  let now := time_Now env (clockReads w) in
  let fromHeader := parseRetryAfterHeader now headers in
  let lookup := fetchCodexQuotaCooldownHint env auth (SpecExec.afterNow w) in
  let hint := lookup.1.1 in
  let ok := lookup.1.2 in
  newCodexStatusErr env auth 429 body headers w
  = (mkStatusErr 429 body
       (if ok then Some (hintRetryAfter hint) else fromHeader)
       (if ok then hintReason hint else EmptyString),
     lookup.2)
  ∧ (size headers ≠ 0%nat →
     ∀ seconds, Atoi (Str.TrimSpace (Header_Get headers "Retry-After")) = Some seconds →
       0 < seconds → fromHeader = Some (Time.wrap64 (seconds * Time.Second)))
  ∧ (size headers ≠ 0%nat →
     ∀ retryAt,
       Str.TrimSpace (Header_Get headers "Retry-After") ≠ EmptyString →
       Atoi (Str.TrimSpace (Header_Get headers "Retry-After")) = None →
       http_ParseTime (Str.TrimSpace (Header_Get headers "Retry-After")) = Some retryAt →
       now < retryAt → fromHeader = Some (Time.Sub retryAt now))
  ∧ (ok = true → 0 < hintRetryAfter hint).
Proof.
  intros now fromHeader lookup hint ok.
  split; [| split; [| split]].
  - unfold newCodexStatusErr. cbn [negb Z.eqb Pos.eqb]. unfold bind, Now, ret.
    fold now. fold (SpecExec.afterNow w). fold fromHeader. fold lookup.
    assert (Hpos : ok = true → 0 < hintRetryAfter hint).
    { intros Hok. apply (fetch_positive auth (SpecExec.afterNow w)).
      fold lookup. subst hint ok. by destruct lookup as [[h o] w']; simpl in *; subst. }
    subst hint ok. destruct lookup as [[h o] w']. cbn [fst snd] in *.
    destruct o; cbn [applyHint].
    + specialize (Hpos eq_refl). rewrite (proj2 (Z.ltb_lt _ _) Hpos).
      by destruct fromHeader.
    + by destruct fromHeader.
  - intros Hsz seconds Hatoi Hpos. subst fromHeader. unfold parseRetryAfterHeader.
    rewrite bool_decide_eq_false_2 by done.
    case_eqb (Str.TrimSpace (Header_Get headers "Retry-After")) EmptyString Hraw.
    { rewrite Hraw in Hatoi. vm_compute in Hatoi. discriminate. }
    rewrite Hatoi. by rewrite (proj2 (Z.ltb_lt _ _) Hpos).
  - intros Hsz retryAt Hraw Hatoi Hparse Hlt. subst fromHeader.
    unfold parseRetryAfterHeader.
    rewrite bool_decide_eq_false_2 by done.
    rewrite (proj2 (eqb_false _ _) Hraw), Hatoi, Hparse.
    destruct (Z.leb_spec (Time.Sub retryAt now) 0) as [Hle | Hgt]; [| reflexivity].
    exfalso. unfold Time.Sub, Time.minDuration, Time.maxDuration in Hle. lia.
  - intros Hok. apply (fetch_positive auth (SpecExec.afterNow w)).
    fold lookup. subst hint ok. by destruct lookup as [[h o] w']; simpl in *; subst.
Qed.

End StatusErrFacts.

Section StatusErrExamples.
Import Codex Examples.

Lemma newCodexStatusErr_retry_after_witness :
  parseRetryAfterHeader (time_Now exEnv (clockReads exWorld))
                        {[ "Retry-After"%string := [ "86400"%string ] ]}
  = Some (Time.wrap64 (86400 * Time.Second)).
Proof.
  refine (proj1 (proj2 (newCodexStatusErr_retry_after exEnv (Some keyAuth)
                          "usage limit reached"
                          {[ "Retry-After"%string := [ "86400"%string ] ]} exWorld))
            _ 86400 _ _).
  - vm_compute. discriminate.
  - vm_compute. reflexivity.
  - vm_compute. reflexivity.
Defined.

(** C4 as stated fails when the hint is the earlier of the two: a
    Retry-After of a day is replaced by the 5-hour hint of the lookup,
    though that hint is not later than the header's timing. *)
Lemma newCodexStatusErr_earlier_hint_overrides :
  let headers : Header := {[ "Retry-After"%string := [ "86400"%string ] ]} in
  parseRetryAfterHeader 0 headers = Some (24 * Time.Hour)
  ∧ (newCodexStatusErr exEnv (Some keyAuth) 429 "usage limit reached" headers exWorld).1
    = mkStatusErr 429 "usage limit reached" (Some (5 * Time.Hour)) "codex_5h_limit".
Proof. vm_compute. split; reflexivity. Qed.

End StatusErrExamples.
(** ** The executor's fallback to the direct route *)

Section ExecFacts.
Context {GL : GoLib} {AL : AuthLib} {TL : Codex.Translators} (env : Codex.Env).
Import Codex.

Lemma bind_run {A B : Type} (m : M A) (k : A → M B) (w w' : World) (a : A) :
  m w = (a, w') → bind m k w = k a w'.
Proof. intros H. unfold bind. by rewrite H. Qed.

Lemma run_resolveRouteM (cfg : option config.Config) (auth : option cliproxyauth.Auth)
    (provider url : string) (w : World) :
  resolveRouteM env cfg auth provider url w
  = let r := Router.resolveReverseProxyRouteForAuth (time_Now env (clockReads w)) cfg auth
               provider url (bannedTill w) in
    (r.1, mkWorld r.2 (S (clockReads w)) (httpCalls w) (trace w)).
Proof.
  unfold resolveRouteM, bind, Now, onBans. cbn [bannedTill clockReads httpCalls trace].
  by destruct (Router.resolveReverseProxyRouteForAuth _ _ _ _ _ _).
Qed.

Lemma run_applyHeadersM (cfg : option config.Config) (auth : option cliproxyauth.Auth)
    (provider : string) (w : World) :
  applyHeadersM env cfg auth provider w
  = (tt, mkWorld (Router.applyReverseProxyHeaders (time_Now env (clockReads w)) cfg auth
                    provider (bannedTill w))
                 (S (clockReads w)) (httpCalls w) (trace w)).
Proof. reflexivity. Qed.

Lemma run_banM (proxyID : string) (w : World) :
  banM env proxyID w
  = (tt, mkWorld (Router.banReverseProxyTemporarily (time_Now env (clockReads w)) proxyID
                    (bannedTill w))
                 (S (clockReads w)) (httpCalls w) (trace w)).
Proof. reflexivity. Qed.

Lemma run_Do (r : Request) (w : World) :
  Do env r w
  = (http_Do env (httpCalls w) r,
     mkWorld (bannedTill w) (clockReads w) (S (httpCalls w)) (trace w ++ [r])).
Proof. reflexivity. Qed.

Lemma fetch_run (auth : option cliproxyauth.Auth) (w w' : World)
    (h : codexQuotaCooldownHint * bool) :
  fetchCodexQuotaCooldownHint env auth w = (h, w') →
  bannedTill w' = bannedTill w
  ∧ ∃ tail, trace w' = trace w ++ tail ∧ SpecExec.posts tail = [].
Proof.
  unfold fetchCodexQuotaCooldownHint, noHint, ret.
  assert (Hnil : ∃ tail, trace w = trace w ++ tail ∧ SpecExec.posts tail = []).
  { exists []. by rewrite app_nil_r. }
  destruct auth as [a|]; [| by intros [= <- <-]].
  destruct (Str.eqb _ _); [by intros [= <- <-] |].
  destruct (url_Parse codexUsageURL); [| by intros [= <- <-]].
  rewrite (bind_run _ _ _ _ _ (run_Do _ w)).
  assert (Hget : ∃ tail, trace w ++ [mkRequest "GET" codexUsageURL] = trace w ++ tail
                         ∧ SpecExec.posts tail = []).
  { by exists [mkRequest "GET" codexUsageURL]. }
  destruct (http_Do env (httpCalls w) _) as [e | resp]; [by intros [= <- <-] |].
  destruct ((StatusCode resp <? 200) || (300 <=? StatusCode resp)); [by intros [= <- <-] |].
  destruct (BodyErr resp); [by intros [= <- <-] |].
  unfold bind, Now. by intros [= <- <-].
Qed.

Lemma applyHint_code_msg (sErr : statusErr) (h : codexQuotaCooldownHint * bool) :
  code (applyHint sErr h) = code sErr ∧ msg (applyHint sErr h) = msg sErr.
Proof.
  destruct h as [h ok]. unfold applyHint. destruct ok; [| done].
  by destruct (0 <? hintRetryAfter h).
Qed.

Lemma newCodexStatusErr_run (auth : option cliproxyauth.Auth) (statusCode : Z)
    (body : string) (headers : Header) (w w' : World) (e : statusErr) :
  newCodexStatusErr env auth statusCode body headers w = (e, w') →
  code e = statusCode ∧ msg e = body
  ∧ bannedTill w' = bannedTill w
  ∧ ∃ tail, trace w' = trace w ++ tail ∧ SpecExec.posts tail = [].
Proof.
  unfold newCodexStatusErr.
  destruct (negb (statusCode =? 429)).
  { unfold ret. intros [= <- <-]. do 3 (split; [reflexivity |]).
    exists []. by rewrite app_nil_r. }
  unfold bind, Now, ret.
  destruct (fetchCodexQuotaCooldownHint env auth _) as [h w2] eqn:Hf.
  intros [= <- <-]. apply fetch_run in Hf. cbn [bannedTill trace] in Hf.
  destruct (applyHint_code_msg
              match parseRetryAfterHeader (time_Now env (clockReads w)) headers with
              | Some d => mkStatusErr statusCode body (Some d) EmptyString
              | None => mkStatusErr statusCode body None EmptyString
              end h) as [Hc Hm].
  rewrite Hc, Hm.
  split; [by destruct (parseRetryAfterHeader _ headers) |].
  split; [by destruct (parseRetryAfterHeader _ headers) |].
  exact Hf.
Qed.

Lemma resolveURL_parse_fail (cfg : option config.Config) (proxyID provider url : string) :
  url_Parse url = None →
  Router.resolveReverseProxyURLWithID cfg proxyID provider url = url.
Proof.
  intros Hp. unfold Router.resolveReverseProxyURLWithID.
  destruct cfg as [c|]; [| reflexivity].
  destruct (_ || _); [reflexivity |].
  destruct (Router.findReverseProxyByID _ _); [| reflexivity].
  by rewrite Hp.
Qed.

Lemma proxied_parses (now : Z) (cfg : option config.Config)
    (auth : option cliproxyauth.Auth) (provider url : string) (b : Router.BanState) :
  Router.Proxied (Router.resolveReverseProxyRouteForAuth now cfg auth provider url b).1 = true →
  is_Some (url_Parse url).
Proof.
  unfold Router.resolveReverseProxyRouteForAuth, Router.resolveReverseProxyRouteWithID.
  cbn [Router.ProxyID].
  destruct (Str.eqb _ EmptyString); [intros [=] |].
  destruct (Router.isReverseProxyTemporarilyBanned _ _ _) as [[] b']; [intros [=] |].
  cbn [fst Router.Proxied].
  destruct (url_Parse url) eqn:Hp; [by eexists |].
  rewrite (resolveURL_parse_fail _ _ _ _ Hp), eqb_refl. intros [=].
Qed.

Lemma proxied_id (now : Z) (cfg : option config.Config)
    (auth : option cliproxyauth.Auth) (provider url : string) (b : Router.BanState) :
  let route := (Router.resolveReverseProxyRouteForAuth now cfg auth provider url b).1 in
  Router.Proxied route = true →
  Router.ProxyID route = Str.TrimSpace (Router.routeProxyID cfg auth provider)
  ∧ Router.ProxyID route ≠ EmptyString ∧ is_Some cfg.
Proof.
  intros route Hp. subst route. unfold Router.resolveReverseProxyRouteForAuth in *.
  split; [apply withID_ProxyID |]. rewrite withID_ProxyID.
  unfold Router.resolveReverseProxyRouteWithID in Hp. cbn [Router.ProxyID] in Hp.
  case_eqb (Str.TrimSpace (Router.routeProxyID cfg auth provider)) EmptyString Hid;
    [discriminate Hp |].
  split; [exact Hid |].
  destruct cfg as [c|]; [by eexists |].
  destruct (Router.isReverseProxyTemporarilyBanned _ _ _) as [[] b']; [discriminate Hp |].
  cbn [fst Router.Proxied Router.resolveReverseProxyURLWithID] in Hp.
  by rewrite eqb_refl in Hp.
Qed.

(** What the breaker holds for the proxy of a route once the ban has been
    recorded at [t2] and the headers of the retry applied at [t3]. *)
Lemma ban_then_headers (t2 t3 : Z) (c : config.Config) (auth : option cliproxyauth.Auth)
    (provider : string) (b : Router.BanState) :
  let id := Str.TrimSpace (Router.routeProxyID (Some c) auth provider) in
  let b' := Router.applyReverseProxyHeaders t3 (Some c) auth provider
              (Router.banReverseProxyTemporarily t2 id b) in
  id ≠ EmptyString →
  ∃ till, Router.banReverseProxyTemporarily t2 id b !! id = Some till
          ∧ t2 + Router.reverseProxyBanTTL ≤ till
          ∧ (t3 ≤ till → b' !! id = Some till)
          ∧ (till < t3 → b' !! id = None).
Proof.
  intros id b' Hid. subst b'.
  assert (Hidem : Str.TrimSpace id = id) by apply TrimSpace_idem.
  assert (Hid' : Str.TrimSpace id ≠ EmptyString) by by rewrite Hidem.
  pose proof (ban_lookup t2 id b Hid') as Hl. rewrite Hidem in Hl.
  set (b1 := Router.banReverseProxyTemporarily t2 id b) in *.
  set (till := match b !! id with
               | Some prev => Z.max prev (t2 + Router.reverseProxyBanTTL)
               | None => t2 + Router.reverseProxyBanTTL
               end) in *.
  exists till. split; [exact Hl |].
  split; [subst till; destruct (b !! id); lia |].
  unfold Router.applyReverseProxyHeaders.
  assert (Hraw : Router.routeProxyID (Some c) auth provider ≠ EmptyString).
  { intros He. apply Hid. unfold id. by rewrite He. }
  rewrite (proj2 (eqb_false _ _) Hraw).
  rewrite (isBanned_cases t3 _ b1 Hid). fold id. rewrite Hl.
  split; intros Ht; case_decide; try lia; cbn [snd]; [exact Hl | apply lookup_delete_eq].
Qed.

Lemma shouldBan_status (statusCode : Z) (errMsg : string) :
  statusCode ∈ SpecExec.banStatusCodes →
  Router.shouldBanReverseProxyOnError statusCode errMsg = true.
Proof.
  unfold SpecExec.banStatusCodes. rewrite !elem_of_cons.
  intros H. repeat (destruct H as [-> | H]; [reflexivity |]). by inversion H.
Qed.

(** The ban predicate of the code is the one of the statement. *)
Lemma shouldBan_spec (statusCode : Z) (errMsg : string) :
  Router.shouldBanReverseProxyOnError statusCode errMsg = true
  ↔ SpecExec.banPredicate statusCode errMsg.
Proof.
  unfold SpecExec.banPredicate. split.
  - unfold Router.shouldBanReverseProxyOnError.
    destruct (existsb (Z.eqb statusCode) [404; 502; 503; 504]) eqn:H1.
    { intros _. left. apply existsb_exists in H1 as (x & Hin & Hx).
      apply Z.eqb_eq in Hx as ->. unfold SpecExec.banStatusCodes. cbn [In] in Hin.
      repeat (destruct Hin as [<- | Hin]; [set_solver |]). destruct Hin. }
    destruct (existsb (Z.eqb statusCode) [520; 521; 522; 523; 524]) eqn:H2.
    { intros _. left. apply existsb_exists in H2 as (x & Hin & Hx).
      apply Z.eqb_eq in Hx as ->. unfold SpecExec.banStatusCodes. cbn [In] in Hin.
      repeat (destruct Hin as [<- | Hin]; [set_solver |]). destruct Hin. }
    cbv zeta. destruct (Str.eqb _ EmptyString); [intros [=] |].
    destruct (Str.Contains _ Router.requestDetailMarker) eqn:H3.
    { intros _. right. exists Router.requestDetailMarker. split; [by left | exact H3]. }
    intros H4. apply existsb_exists in H4 as (x & Hin & Hx).
    right. exists x. split; [| exact Hx]. right. by apply list_elem_of_In.
  - intros [Hs | (marker & Hin & Hc)]; [by apply shouldBan_status |].
    unfold Router.shouldBanReverseProxyOnError.
    destruct (existsb (Z.eqb statusCode) [404; 502; 503; 504]); [reflexivity |].
    destruct (existsb (Z.eqb statusCode) [520; 521; 522; 523; 524]); [reflexivity |].
    cbv zeta. set (msg := Str.ToLower (Str.TrimSpace errMsg)) in *.
    case_eqb msg EmptyString Hmsg.
    { rewrite Hmsg in Hc. unfold SpecExec.banMarkers in Hin.
      repeat (apply elem_of_cons in Hin as [-> | Hin]; [vm_compute in Hc; discriminate Hc |]).
      by inversion Hin. }
    apply elem_of_cons in Hin as [-> | Hin].
    { change (Str.of_codes _) with Router.requestDetailMarker in Hc. by rewrite Hc. }
    destruct (Str.Contains msg Router.requestDetailMarker); [reflexivity |].
    apply existsb_exists. exists marker. split; [| exact Hc]. by apply list_elem_of_In.
Qed.


(** C2. The one direct retry.  Take a run of [Execute] whose route is
    proxied and whose proxied call is answered outside the 2xx range.
    When the status or body satisfies the ban predicate, the run bans
    the proxy, sends exactly one more upstream call, to the original
    URL, and ends with the outcome of that call: on a second failure the
    error carries that answer's status and body as they are.  The ban is
    in the breaker when the run ends: it holds the proxy id of the route
    with an expiry at least five minutes after the clock reading of the
    ban, and until then every route resolved for the credential goes
    direct and still reports the id; this as long as the last clock
    reading of the run itself, taken for the headers of the retry, lies
    within those five minutes, since a reading past the expiry evicts
    the entry.  When the predicate does not hold, the run sends no
    further upstream call and the error carries the proxied answer's
    status and body.  The predicate holds for each of the statuses 404,
    502, 503, 504 and 520 to 524 whatever the body, and otherwise
    exactly when the error body, trimmed and in lower case, holds one
    of the markers of a proxy failure. *)
Theorem Execute_proxy_failure_retries_direct_once
    (cfg : option config.Config) (auth : option cliproxyauth.Auth) (input : ExecInput)
    (w : World) (r1 : Response) :
  let originalURL := SpecExec.originalURL auth in
  let n := clockReads w in
  let resolved :=
    Router.resolveReverseProxyRouteForAuth (time_Now env n) cfg auth "codex" originalURL
                                           (bannedTill w) in
  let route := resolved.1 in
  let out := Execute env cfg auth input w in
  Alt input ≠ "responses/compact"%string →
  ApplyThinkingErr input = None →
  Router.Proxied route = true →
  is_Some (url_Parse (Router.URL route)) →
  http_Do env (httpCalls w) (SpecExec.POST (Router.URL route)) = DoResp r1 →
  is2xx (StatusCode r1) = false →
  (Router.shouldBanReverseProxyOnError (StatusCode r1) (Body r1) = true →
     (∃ tail, trace out.2
              = trace w ++ [SpecExec.POST (Router.URL route); SpecExec.POST originalURL] ++ tail
              ∧ SpecExec.posts tail = [])
     ∧ bannedTill out.2
       = Router.applyReverseProxyHeaders (time_Now env (S (S (S n)))) cfg auth "codex"
           (Router.banReverseProxyTemporarily (time_Now env (S (S n))) (Router.ProxyID route)
              (Router.applyReverseProxyHeaders (time_Now env (S n)) cfg auth "codex"
                 resolved.2))
     ∧ match http_Do env (S (httpCalls w)) (SpecExec.POST originalURL) with
       | DoErr e => out.1 = ExecErr (ErrOther e)
       | DoResp r2 =>
           if is2xx (StatusCode r2) then out.1 = finishExecute r2
           else ∃ e, out.1 = ExecErr (ErrStatus e)
                     ∧ code e = StatusCode r2 ∧ msg e = Body r2
       end
     ∧ Router.ProxyID route ≠ EmptyString
     ∧ (time_Now env (S (S (S n))) ≤ time_Now env (S (S n)) + Router.reverseProxyBanTTL →
        (∃ till, bannedTill out.2 !! Router.ProxyID route = Some till
                 ∧ time_Now env (S (S n)) + Router.reverseProxyBanTTL ≤ till)
        ∧ ∀ later url, later ≤ time_Now env (S (S n)) + Router.reverseProxyBanTTL →
            (Router.resolveReverseProxyRouteForAuth later cfg auth "codex" url
                                                    (bannedTill out.2)).1
            = Router.mkResolution url (Router.ProxyID route) false))
  ∧ (Router.shouldBanReverseProxyOnError (StatusCode r1) (Body r1) = false →
     (∃ tail, trace out.2 = trace w ++ [SpecExec.POST (Router.URL route)] ++ tail
              ∧ SpecExec.posts tail = [])
     ∧ ∃ e, out.1 = ExecErr (ErrStatus e) ∧ code e = StatusCode r1 ∧ msg e = Body r1)
  ∧ (∀ statusCode errMsg, statusCode ∈ SpecExec.banStatusCodes →
       Router.shouldBanReverseProxyOnError statusCode errMsg = true)
  ∧ (∀ statusCode errMsg,
       Router.shouldBanReverseProxyOnError statusCode errMsg = true
       ↔ SpecExec.banPredicate statusCode errMsg).
Proof.
  intros originalURL n resolved route out HAlt Hthink Hprox Hreq Hdo Hnot2xx.
  split; [| split; [| split]];
    [| | intros ? ?; apply shouldBan_status | intros ? ?; apply shouldBan_spec].
  - intros Hban.
    destruct (proxied_parses _ _ _ _ _ _ Hprox) as [u0 Hparse0].
    destruct Hreq as [u1 Hparse1].
    assert (Hout : out
      = let w1 := mkWorld resolved.2 (S n) (httpCalls w) (trace w) in
        let w2 := mkWorld (Router.applyReverseProxyHeaders (time_Now env (S n)) cfg auth
                             "codex" resolved.2)
                          (S (S n)) (S (httpCalls w))
                          (trace w ++ [SpecExec.POST (Router.URL route)]) in
        let w3 := mkWorld (Router.applyReverseProxyHeaders (time_Now env (S (S (S n)))) cfg
                             auth "codex"
                             (Router.banReverseProxyTemporarily (time_Now env (S (S n)))
                                (Router.ProxyID route) (bannedTill w2)))
                          (S (S (S (S n)))) (S (S (httpCalls w)))
                          (trace w2 ++ [SpecExec.POST originalURL]) in
        match http_Do env (S (httpCalls w)) (SpecExec.POST originalURL) with
        | DoErr e => (ExecErr (ErrOther e), w3)
        | DoResp r2 =>
            if negb (is2xx (StatusCode r2)) then
              let r := newCodexStatusErr env auth (StatusCode r2) (Body r2)
                                         (RespHeader r2) w3 in
              (ExecErr (ErrStatus r.1), r.2)
            else (finishExecute r2, w3)
        end).
    { subst out. unfold Execute.
      rewrite (proj2 (eqb_false _ _) HAlt).
      subst originalURL. unfold SpecExec.originalURL in *.
      destruct (codexCreds auth) as [apiKey baseURL]. cbn [snd] in *.
      rewrite Hthink.
      rewrite (bind_run _ _ _ _ _ (run_resolveRouteM _ _ _ _ w)).
      fold n. fold resolved. fold route.
      unfold cacheHelper at 1. rewrite Hparse1.
      rewrite (bind_run _ _ _ _ _ (run_applyHeadersM _ _ _ _)).
      rewrite (bind_run _ _ _ _ _ (run_Do _ _)).
      cbn [bannedTill clockReads httpCalls trace].
      unfold SpecExec.POST in Hdo. rewrite Hdo, Hnot2xx. cbn [negb].
      rewrite Hprox, Hban. cbn [andb].
      rewrite (bind_run _ _ _ _ _ (run_banM _ _)).
      unfold cacheHelper. rewrite Hparse0.
      rewrite (bind_run _ _ _ _ _ (run_applyHeadersM _ _ _ _)).
      rewrite (bind_run _ _ _ _ _ (run_Do _ _)).
      cbn [bannedTill clockReads httpCalls trace]. cbv zeta. unfold SpecExec.POST.
      destruct (http_Do env (S (httpCalls w)) _) as [e | r2]; [reflexivity |].
      destruct (negb (is2xx (StatusCode r2))); [| reflexivity].
      unfold bind, ret. by destruct (newCodexStatusErr _ _ _ _ _ _). }
    assert (Hcore :
      (∃ tail, trace out.2
               = trace w ++ [SpecExec.POST (Router.URL route); SpecExec.POST originalURL]
                   ++ tail
               ∧ SpecExec.posts tail = [])
      ∧ bannedTill out.2
        = Router.applyReverseProxyHeaders (time_Now env (S (S (S n)))) cfg auth "codex"
            (Router.banReverseProxyTemporarily (time_Now env (S (S n)))
               (Router.ProxyID route)
               (Router.applyReverseProxyHeaders (time_Now env (S n)) cfg auth "codex"
                  resolved.2))
      ∧ match http_Do env (S (httpCalls w)) (SpecExec.POST originalURL) with
        | DoErr e => out.1 = ExecErr (ErrOther e)
        | DoResp r2 =>
            if is2xx (StatusCode r2) then out.1 = finishExecute r2
            else ∃ e, out.1 = ExecErr (ErrStatus e)
                      ∧ code e = StatusCode r2 ∧ msg e = Body r2
        end).
    { rewrite Hout. cbv zeta. cbn [bannedTill trace].
      destruct (http_Do env (S (httpCalls w)) (SpecExec.POST originalURL)) as [e | r2].
      + cbn [fst snd bannedTill trace]. split; [| by split].
        exists []. by rewrite <- !app_assoc.
      + destruct (is2xx (StatusCode r2)); cbn [negb fst snd bannedTill trace].
        * split; [| by split]. exists []. by rewrite <- !app_assoc.
        * destruct (newCodexStatusErr env auth (StatusCode r2) (Body r2) (RespHeader r2) _)
            as [e w4] eqn:Herr.
          apply newCodexStatusErr_run in Herr as (Hc & Hm & Hb & tail & Ht & Hp).
          cbn [fst snd bannedTill trace] in *. split; [| split].
          -- exists tail. split; [| exact Hp]. by rewrite Ht, <- !app_assoc.
          -- exact Hb.
          -- by exists e. }
    destruct Hcore as (Htrace & Hstate & Hresult).
    split; [exact Htrace |]. split; [exact Hstate |]. split; [exact Hresult |].
    destruct (proxied_id _ _ _ _ _ _ Hprox) as (Hpid & Hne & [c ->]).
    fold resolved route in Hpid, Hne.
    split; [exact Hne |]. intros Hclock.
    rewrite Hstate, Hpid. rewrite Hpid in Hne.
    destruct (ban_then_headers (time_Now env (S (S n))) (time_Now env (S (S (S n)))) c auth
                "codex"
                (Router.applyReverseProxyHeaders (time_Now env (S n)) (Some c) auth "codex"
                   resolved.2) Hne)
      as (till & _ & Hge & Hkeep & _).
    specialize (Hkeep ltac:(lia)).
    split; [exists till; by split |].
    intros later url Hlater. unfold Router.resolveReverseProxyRouteForAuth.
    apply withID_banned.
    assert (Hne' : Str.TrimSpace (Str.TrimSpace (Router.routeProxyID (Some c) auth "codex"))
                   ≠ EmptyString) by by rewrite TrimSpace_idem.
    rewrite (isBanned_cases later _ _ Hne'), TrimSpace_idem, Hkeep.
    case_decide; [reflexivity | lia].
  - intros Hban. destruct Hreq as [u1 Hparse1].
    assert (Hout : out
      = let w2 := mkWorld (Router.applyReverseProxyHeaders (time_Now env (S n)) cfg auth
                             "codex" resolved.2)
                          (S (S n)) (S (httpCalls w))
                          (trace w ++ [SpecExec.POST (Router.URL route)]) in
        let r := newCodexStatusErr env auth (StatusCode r1) (Body r1) (RespHeader r1) w2 in
        (ExecErr (ErrStatus r.1), r.2)).
    { subst out. unfold Execute.
      rewrite (proj2 (eqb_false _ _) HAlt).
      subst originalURL. unfold SpecExec.originalURL in *.
      destruct (codexCreds auth) as [apiKey baseURL]. cbn [snd] in *.
      rewrite Hthink.
      rewrite (bind_run _ _ _ _ _ (run_resolveRouteM _ _ _ _ w)).
      fold n. fold resolved. fold route.
      unfold cacheHelper at 1. rewrite Hparse1.
      rewrite (bind_run _ _ _ _ _ (run_applyHeadersM _ _ _ _)).
      rewrite (bind_run _ _ _ _ _ (run_Do _ _)).
      cbn [bannedTill clockReads httpCalls trace].
      unfold SpecExec.POST in Hdo. rewrite Hdo, Hnot2xx. cbn [negb].
      rewrite Hprox, Hban. cbn [andb].
      unfold bind, ret. cbv zeta. unfold SpecExec.POST.
      by destruct (newCodexStatusErr _ _ _ _ _ _). }
    rewrite Hout. cbv zeta.
    destruct (newCodexStatusErr env auth (StatusCode r1) (Body r1) (RespHeader r1) _)
      as [e w4] eqn:Herr.
    apply newCodexStatusErr_run in Herr as (Hc & Hm & Hb & tail & Ht & Hp).
    cbn [fst snd bannedTill trace] in *. split.
    + exists tail. split; [| exact Hp]. by rewrite Ht, <- !app_assoc.
    + by exists e.
Qed.

End ExecFacts.

Section ExecExamples.
Import Codex Examples.

Lemma Execute_proxy_failure_retries_direct_once_witness :
  (∃ e, (Execute exEnv (Some (exRouteConfig EmptyString)) (Some keyAuth) exInput exWorld).1
        = ExecErr (ErrStatus e)
        ∧ code e = 429 ∧ msg e = "usage limit reached"%string)
  ∧ ∃ till,
      bannedTill (Execute exEnv (Some (exRouteConfig EmptyString)) (Some keyAuth) exInput
                          exWorld).2 !! "deno-1"%string = Some till
      ∧ time_Now exEnv 2 + Router.reverseProxyBanTTL ≤ till.
Proof.
  pose proof (Execute_proxy_failure_retries_direct_once exEnv
                (Some (exRouteConfig EmptyString)) (Some keyAuth) exInput exWorld
                (plainResponse 502 "bad gateway" ∅)) as H.
  cbv zeta in H.
  destruct H as [H _].
  - vm_compute. discriminate.
  - reflexivity.
  - vm_compute. reflexivity.
  - vm_compute. by eexists.
  - vm_compute. reflexivity.
  - vm_compute. reflexivity.
  - destruct H as (_ & _ & H & _ & Hban); [vm_compute; reflexivity |].
    split.
    + vm_compute in H. vm_compute. exact H.
    + apply Hban. vm_compute. discriminate.
Defined.

End ExecExamples.
(** ** Client-key expiry *)

Section AuthFacts.
Context {GL : GoLib} (DefaultAccessProviderName : string).
Import configaccess.

Lemma foldl_any (es : list (string * anyv)) (out : gmap string Z) :
  foldl (fun out kv => expiryStep out kv.1 (toString kv.2)) out es
  = foldl (fun out kv => expiryStep out kv.1 kv.2) out
          (map (fun kv => (kv.1, toString kv.2)) es).
Proof.
  revert out. induction es as [|x es IH]; intros out; [reflexivity |].
  cbn [foldl map fst snd]. apply IH.
Qed.

Lemma extractBearerToken_nonempty (h : string) :
  extractBearerToken h ≠ EmptyString → h ≠ EmptyString.
Proof. intros H ->. by apply H. Qed.

Lemma loop_presented (now : Z) (p : provider) (cs : list (string * string))
    (value source : string) :
  List.find (fun c => negb (Str.eqb c.1 EmptyString) && bool_decide (c.1 ∈ keys p)) cs
  = Some (value, source) →
  authenticateLoop DefaultAccessProviderName now p cs
  = match SpecAuthn.expiryOf p value with
    | Some exp =>
        if negb (Time.IsZero exp) && negb (Time.After exp now) then ErrExpiredCredential
        else Authenticated (Identifier DefaultAccessProviderName (Some p)) value source
    | None => Authenticated (Identifier DefaultAccessProviderName (Some p)) value source
    end.
Proof.
  induction cs as [|[v s] cs IH]; [intros [=] |].
  cbn [List.find authenticateLoop fst].
  destruct (Str.eqb v EmptyString); cbn [negb andb]; [exact IH |].
  destruct (bool_decide (v ∈ keys p)); [| exact IH].
  intros [= -> ->]. unfold SpecAuthn.expiryOf.
  destruct (expiresAt p) as [ex|]; cbn [mbind option_bind]; [| reflexivity].
  by destruct (ex !! value).
Qed.

Lemma presented_handled (now : Z) (p : provider) (r : HttpRequest) (value source : string) :
  SpecAuthn.presented p r = Some (value, source) →
  Authenticate DefaultAccessProviderName now (Some p) r
  = authenticateLoop DefaultAccessProviderName now p (candidates r).
Proof.
  intros Hp. unfold Authenticate.
  pose proof Hp as Hf. unfold SpecAuthn.presented in Hf.
  apply List.find_some in Hf as [Hin Htest]. cbn [fst] in Htest.
  apply andb_true_iff in Htest as [Hne Hk].
  apply negb_true_iff, eqb_false in Hne. apply bool_decide_eq_true in Hk.
  case_bool_decide as Hsz.
  { apply size_zero_empty in Hsz. rewrite Hsz in Hk. by apply elem_of_empty in Hk. }
  destruct (_ && _) eqn:Hall; [| reflexivity].
  exfalso. repeat (apply andb_true_iff in Hall as [Hall ?]).
  repeat match goal with H : Str.eqb _ _ = true |- _ => apply eqb_true in H end.
  unfold candidates in Hin. cbn [In] in Hin.
  destruct Hin as [Hin | [Hin | [Hin | [Hin | [Hin | []]]]]]; injection Hin as Hv _;
    subst value; try congruence.
  apply extractBearerToken_nonempty in Hne. congruence.
Qed.

Lemma keysFold_spec (l : list string) (acc : gset string) (k : string) :
  k ∈ foldl (fun ks key => if Str.eqb key EmptyString then ks else {[ key ]} ∪ ks) acc l
  ↔ k ∈ acc ∨ (k ∈ l ∧ k ≠ EmptyString).
Proof.
  revert acc. induction l as [|x l IH]; intros acc; cbn [foldl].
  { split; [by left | intros [H | [H _]]; [done | by inversion H]]. }
  rewrite IH. case_eqb x EmptyString Hx.
  - split; [intros [H | [H1 H2]]; [by left | right; split; [by right | done]] |].
    intros [H | [H1 H2]]; [by left |]. right. split; [| done].
    apply elem_of_cons in H1 as [-> | H1]; [done | exact H1].
  - rewrite elem_of_union, elem_of_singleton. split.
    + intros [[-> | H] | [H1 H2]]; [right; split; [by left | done] | by left |].
      right. split; [by right | done].
    + intros [H | [H1 H2]]; [left; by right |].
      apply elem_of_cons in H1 as [-> | H1]; [left; by left | right; done].
Qed.

Lemma expiryFold_sound (entries : list (string * string)) (out : gmap string Z)
    (key : string) (ts : Z) :
  foldl (fun out kv => expiryStep out kv.1 kv.2) out entries !! key = Some ts →
  out !! key = Some ts
  ∨ (key ≠ EmptyString
     ∧ ∃ k v, (k, v) ∈ entries ∧ Str.TrimSpace k = key
              ∧ time_ParseRFC3339 (Str.TrimSpace v) = Some ts).
Proof.
  revert out. induction entries as [|[k v] entries IH]; intros out; cbn [foldl fst snd].
  { by left. }
  intros H. apply IH in H as [H | (Hne & k' & v' & Hin & Hk & Hp)].
  2:{ right. split; [done |]. exists k', v'. split; [by right | done]. }
  unfold expiryStep in H.
  case_eqb (Str.TrimSpace k) EmptyString Hk; [by left |].
  case_eqb (Str.TrimSpace v) EmptyString Hv; [by left |]. cbn [orb] in H.
  destruct (time_ParseRFC3339 (Str.TrimSpace v)) as [t|] eqn:Hp; [| by left].
  destruct (decide (Str.TrimSpace k = key)) as [<- | Hne].
  - rewrite lookup_insert_eq in H. injection H as <-.
    right. split; [done |]. exists k, v. split; [by left | done].
  - rewrite lookup_insert_ne in H by done. by left.
Qed.

(** The expiry the provider built from a configuration holds for a key
    is what the loop of [parseExpiryMap] leaves under it. *)
Lemma expiryOf_newProvider (cfg : AccessProvider) (key : string) :
  SpecAuthn.expiryOf (newProvider DefaultAccessProviderName cfg) key
  = foldl (fun out kv => expiryStep out kv.1 kv.2) ∅
          (SpecAuthn.expiryEntries (SpecAuthn.rawExpiry cfg)) !! key.
Proof.
  unfold SpecAuthn.expiryOf, newProvider. cbn [expiresAt]. unfold parseExpiryMap.
  case_bool_decide as Hsz.
  { apply map_size_empty_inv in Hsz. unfold SpecAuthn.rawExpiry.
    by rewrite Hsz, !lookup_empty. }
  fold (SpecAuthn.rawExpiry cfg). cbv zeta.
  destruct (SpecAuthn.rawExpiry cfg) as [| v | v |];
    cbn [SpecAuthn.expiryEntries foldl mbind option_bind]; try by rewrite lookup_empty.
  - case_bool_decide as Ho; [| reflexivity].
    apply map_size_empty_inv in Ho. by rewrite Ho, lookup_empty.
  - rewrite <- foldl_any. case_bool_decide as Ho; [| reflexivity].
    apply map_size_empty_inv in Ho. by rewrite Ho, lookup_empty.
Qed.

Lemma expiryStep_lookup (out : gmap string Z) (kv : string * string) (key : string) :
  key ≠ EmptyString →
  expiryStep out kv.1 kv.2 !! key
  = match SpecAuthn.entryTimestamp key kv with
    | Some ts => Some ts
    | None => out !! key
    end.
Proof.
  intros Hkey. unfold expiryStep, SpecAuthn.entryTimestamp.
  case_eqb (Str.TrimSpace kv.1) key Hk.
  - rewrite Hk, (proj2 (eqb_false _ _) Hkey). cbn [orb andb].
    destruct (Str.eqb (Str.TrimSpace kv.2) EmptyString); cbn [negb]; [reflexivity |].
    destruct (time_ParseRFC3339 (Str.TrimSpace kv.2)); [apply lookup_insert_eq | reflexivity].
  - cbn [andb]. destruct (_ || _); [reflexivity |].
    destruct (time_ParseRFC3339 (Str.TrimSpace kv.2)); [by rewrite lookup_insert_ne | reflexivity].
Qed.

(** What the loop of [parseExpiryMap] leaves under a key: the timestamp
    of the last entry that gives one for it. *)
Lemma expiryFold_last (entries : list (string * string)) (out : gmap string Z)
    (key : string) :
  key ≠ EmptyString →
  foldl (fun out kv => expiryStep out kv.1 kv.2) out entries !! key
  = match last (omap (SpecAuthn.entryTimestamp key) entries) with
    | Some ts => Some ts
    | None => out !! key
    end.
Proof.
  intros Hkey. revert out.
  induction entries as [|kv entries IH]; intros out; [reflexivity |].
  cbn [foldl omap list_omap]. rewrite IH, (expiryStep_lookup out kv key Hkey).
  destruct (SpecAuthn.entryTimestamp key kv) as [ts|]; [| reflexivity].
  rewrite last_cons. by destruct (last _).
Qed.

(** The expiry of the provider for a key is the last of the timestamps
    the configuration holds for it. *)
Lemma expiryOf_last (cfg : AccessProvider) (key : string) :
  key ≠ EmptyString →
  SpecAuthn.expiryOf (newProvider DefaultAccessProviderName cfg) key
  = last (SpecAuthn.timestamps cfg key).
Proof.
  intros Hkey. rewrite expiryOf_newProvider, (expiryFold_last _ _ key Hkey).
  unfold SpecAuthn.timestamps. rewrite lookup_empty. by destruct (last _).
Qed.

(** Expiries are kept under trimmed keys: the configuration holds no
    timestamp for a key with white space at its ends. *)
Lemma timestamps_padded (cfg : AccessProvider) (key : string) :
  Str.TrimSpace key ≠ key → SpecAuthn.timestamps cfg key = [].
Proof.
  intros Hpad. unfold SpecAuthn.timestamps.
  induction (SpecAuthn.expiryEntries (SpecAuthn.rawExpiry cfg)) as [|kv es IH];
    [reflexivity |].
  cbn [omap list_omap]. rewrite IH. unfold SpecAuthn.entryTimestamp.
  case_eqb (Str.TrimSpace kv.1) key Hk; [| reflexivity].
  destruct Hpad. rewrite <- Hk. apply TrimSpace_idem.
Qed.

Lemma Identifier_newProvider (cfg : AccessProvider) :
  Identifier DefaultAccessProviderName (Some (newProvider DefaultAccessProviderName cfg))
  = SpecAuthn.providerName DefaultAccessProviderName cfg.
Proof.
  unfold Identifier, newProvider, SpecAuthn.providerName. cbn [name].
  case_eqb (Name cfg) EmptyString Hn.
  - by destruct (Str.eqb DefaultAccessProviderName EmptyString).
  - by rewrite (proj2 (eqb_false _ _) Hn).
Qed.

(** C10, as the code has it.  Take the provider built from a
    configuration and a request that presents a configured client key:
    the first candidate value that is one of the API keys, as they are
    written.  The api-key-expiry configuration, under either spelling,
    holds an RFC3339 timestamp for the key in each entry whose key is
    the key and whose value reads as a timestamp, white space at their
    ends aside.  When it holds one and every one it holds is not the
    zero time and is not after now, [Authenticate] rejects with the
    expired-credential error.  When every one it holds is the zero time
    or is after now, it succeeds with the key as principal; so it does
    when the configuration holds none for the key, which is the case
    when no entry bears the key, when the values of its entries are
    blank or do not read as RFC3339, such entries being dropped when the
    provider is built, and whenever the key has white space at its
    ends, since expiries are kept under trimmed keys and client keys as
    written.  The expiry that decides is the one of the last entry for
    the key in the order the loop visits them. *)
Theorem Authenticate_expiry (now : Z) (cfg : AccessProvider) (r : HttpRequest)
    (value source : string) :
  let p := newProvider DefaultAccessProviderName cfg in
  let accepted :=
    Authenticated (SpecAuthn.providerName DefaultAccessProviderName cfg) value source in
  SpecAuthn.presented p r = Some (value, source) →
  (value ∈ APIKeys cfg ∧ value ≠ EmptyString)
  ∧ SpecAuthn.expiryOf p value = last (SpecAuthn.timestamps cfg value)
  ∧ (SpecAuthn.timestamps cfg value ≠ [] →
     (∀ ts, ts ∈ SpecAuthn.timestamps cfg value → ts ≠ Time.zero ∧ ts ≤ now) →
     Authenticate DefaultAccessProviderName now (Some p) r = ErrExpiredCredential)
  ∧ ((∀ ts, ts ∈ SpecAuthn.timestamps cfg value → ts = Time.zero ∨ now < ts) →
     Authenticate DefaultAccessProviderName now (Some p) r = accepted)
  ∧ (SpecAuthn.timestamps cfg value = [] →
     Authenticate DefaultAccessProviderName now (Some p) r = accepted)
  ∧ (Str.TrimSpace value ≠ value →
     SpecAuthn.timestamps cfg value = []
     ∧ Authenticate DefaultAccessProviderName now (Some p) r = accepted).
Proof.
  intros p accepted Hp. subst accepted.
  rewrite (presented_handled now p r value source Hp).
  rewrite (loop_presented now p (candidates r) value source Hp).
  assert (Hkey : value ∈ APIKeys cfg ∧ value ≠ EmptyString).
  { unfold SpecAuthn.presented in Hp. apply List.find_some in Hp as [_ Htest].
    cbn [fst] in Htest. apply andb_true_iff in Htest as [_ Hk].
    apply bool_decide_eq_true in Hk. subst p. unfold newProvider in Hk. cbn [keys] in Hk.
    apply keysFold_spec in Hk as [Hk | Hk]; [by apply elem_of_empty in Hk | exact Hk]. }
  split; [exact Hkey |]. destruct Hkey as [_ Hne]. subst p.
  rewrite (expiryOf_last cfg value Hne), Identifier_newProvider.
  split; [reflexivity |].
  assert (Hlast : ∀ ts, last (SpecAuthn.timestamps cfg value) = Some ts →
                        ts ∈ SpecAuthn.timestamps cfg value).
  { intros ts H. apply last_Some in H as [l' ->]. apply elem_of_app. right. by left. }
  assert (Hfree : ∀ l : list Z,
            (∀ ts, last l = Some ts → ts ∈ l) →
            (∀ ts, ts ∈ l → ts = Time.zero ∨ now < ts) →
            match last l with
            | Some exp =>
                if negb (Time.IsZero exp) && negb (Time.After exp now)
                then ErrExpiredCredential
                else Authenticated (SpecAuthn.providerName DefaultAccessProviderName cfg)
                                   value source
            | None => Authenticated (SpecAuthn.providerName DefaultAccessProviderName cfg)
                                    value source
            end
            = Authenticated (SpecAuthn.providerName DefaultAccessProviderName cfg)
                            value source).
  { intros l Hl Hall. destruct (last l) as [exp|]; [| reflexivity].
    unfold Time.IsZero, Time.After.
    destruct (Hall exp (Hl exp eq_refl)) as [-> | Hlt].
    - by rewrite Z.eqb_refl.
    - rewrite (proj2 (Z.ltb_lt _ _) Hlt). by rewrite andb_false_r. }
  split; [| split; [| split]].
  - intros Hsome Hall.
    destruct (last (SpecAuthn.timestamps cfg value)) as [exp|] eqn:Hl.
    + destruct (Hall exp (Hlast exp eq_refl)) as [Hnz Hle].
      unfold Time.IsZero, Time.After.
      rewrite (proj2 (Z.eqb_neq _ _) Hnz), (proj2 (Z.ltb_ge _ _) Hle). reflexivity.
    + apply last_None in Hl. contradiction.
  - intros Hall. by apply Hfree.
  - intros Hnil. rewrite Hnil. reflexivity.
  - intros Hpad. rewrite (timestamps_padded cfg value Hpad). by split.
Qed.

End AuthFacts.

Section AuthExamples.
Import configaccess Examples.

Lemma Authenticate_expiry_witness :
  Authenticate "config-inline" exNow (Some exProvider) (bearer "k2") = ErrExpiredCredential.
Proof.
  refine (proj1 (proj2 (proj2 (Authenticate_expiry "config-inline" exNow exAccessProvider
                                 (bearer "k2") "k2" "authorization" _))) _ _).
  - vm_compute. reflexivity.
  - vm_compute. discriminate.
  - change (SpecAuthn.timestamps exAccessProvider "k2") with [ Time.Unix 1577836800 ].
    intros ts Hin. apply list_elem_of_singleton in Hin as ->.
    split; vm_compute; discriminate.
Defined.

(** C10 as stated fails for an expiry that is the zero time: it is an
    RFC3339 timestamp held for the key, it is not after now, and the
    request is authenticated. *)
Lemma Authenticate_zero_expiry_accepted :
  time_ParseRFC3339 "0001-01-01T00:00:00Z" = Some Time.zero
  ∧ SpecAuthn.expiryOf exProvider "k1" = Some Time.zero
  ∧ Time.After Time.zero exNow = false
  ∧ Authenticate "config-inline" exNow (Some exProvider) (bearer "k1")
    = Authenticated "config-inline" "k1" "authorization".
Proof. vm_compute. repeat split; reflexivity. Qed.

(** A client key configured with white space at its ends does not
    expire: its expiry is kept under the trimmed key, where a request
    that presents the key as written does not find it. *)
Example Authenticate_padded_key_accepted :
  SpecAuthn.expiryEntries (SpecAuthn.rawExpiry paddedAccessProvider)
  = [ (" k4 ", "2020-01-01T00:00:00Z") ]%string
  ∧ time_ParseRFC3339 "2020-01-01T00:00:00Z" = Some (Time.Unix 1577836800)
  ∧ Time.After (Time.Unix 1577836800) exNow = false
  ∧ SpecAuthn.expiryOf (newProvider "config-inline" paddedAccessProvider) "k4"
    = Some (Time.Unix 1577836800)
  ∧ Authenticate "config-inline" exNow
      (Some (newProvider "config-inline" paddedAccessProvider)) (queryKey " k4 ")
    = Authenticated "config-inline" " k4 " "query-key".
Proof. vm_compute. repeat split; reflexivity. Qed.

(** When two entries trim to the same key, the one the loop visits last
    decides: the key expired in 2020 by one entry and is accepted by
    the other. *)
Example Authenticate_last_entry_decides :
  SpecAuthn.timestamps twiceAccessProvider "k5"
  = [ Time.Unix 1577836800; Time.Unix 32472144000 ]
  ∧ Time.After (Time.Unix 1577836800) exNow = false
  ∧ Authenticate "config-inline" exNow
      (Some (newProvider "config-inline" twiceAccessProvider)) (bearer "k5")
    = Authenticated "config-inline" "k5" "authorization".
Proof. vm_compute. repeat split; reflexivity. Qed.

End AuthExamples.

(** ** The tests of the sources, replayed on the embedding *)

Section SourceTests.
Import Examples.

Example UsesWorkerBridge :
  Router.resolveReverseProxyURLWithID (Some (exRouteConfig bridgeWorkerURL)) "deno-1" "codex"
    "https://chatgpt.com/backend-api/codex/responses?stream=true"
  = "https://cpa-deno-bridge.mengcenfay.workers.dev/codex/backend-api/codex/responses/funny-starfish-28.lauracadano-max.deno.net?stream=true"%string.
Proof. vm_compute. reflexivity. Qed.

Example FallsBackToClassicRewriteWithoutWorker :
  Router.resolveReverseProxyURLWithID (Some (exRouteConfig EmptyString)) "deno-1" "codex"
    codexURL
  = proxiedCodexURL.
Proof. vm_compute. reflexivity. Qed.

Example AvoidsWorkerRecursion :
  Router.resolveReverseProxyURLWithID (Some selfWorkerConfig) "worker" "codex" codexURL
  = "https://cpa-deno-bridge.mengcenfay.workers.dev/codex/backend-api/codex/responses"%string.
Proof. vm_compute. reflexivity. Qed.

Example SkipsTemporarilyBannedProxy :
  (Router.resolveReverseProxyRouteForAuth Time.Second (Some (exRouteConfig EmptyString)) None
     "codex" codexURL (Router.banReverseProxyTemporarily 0 "deno-1" ∅)).1
  = Router.mkResolution codexURL "deno-1" false.
Proof. vm_compute. reflexivity. Qed.

Example ExpiresAutomatically :
  Router.isReverseProxyTemporarilyBanned Time.Second "deno-1" {[ "deno-1"%string := 0 ]}
  = (false, ∅).
Proof. vm_compute. reflexivity. Qed.

Example ShouldBanReverseProxyOnError :
  Router.shouldBanReverseProxyOnError 404 "status 404" = true
  ∧ Router.shouldBanReverseProxyOnError 200 Router.requestDetailMarker = true
  ∧ Router.shouldBanReverseProxyOnError 400 "invalid model" = false.
Proof. vm_compute. repeat split; reflexivity. Qed.

Example ParseRetryAfterHeader_Seconds :
  Codex.parseRetryAfterHeader 0 {[ "Retry-After"%string := [ "120"%string ] ]}
  = Some (120 * Time.Second).
Proof. vm_compute. reflexivity. Qed.

Example PrefersNearestWindow :
  Codex.codexQuotaRecoverAt payloadNearestText exNow
  = (exNow + 5 * Time.Hour, "codex_5h_limit"%string, true).
Proof. vm_compute. reflexivity. Qed.

Example WeeklyLimit :
  Codex.codexQuotaRecoverAt payloadWeeklyText exNow
  = (exNow + 7 * 24 * Time.Hour, "codex_weekly_limit"%string, true).
Proof. vm_compute. reflexivity. Qed.

Example WeeklyLimitFromPrimaryWindow :
  Codex.quotaCandidates (Some payloadWeeklyPrimary) exNow
  = [ Codex.mkCandidate (exNow + 7 * 24 * Time.Hour) "codex_weekly_limit" ].
Proof. vm_compute. reflexivity. Qed.

Example AllowsConfiguredAccount :
  Access.AllowedAuthIDsForClientKey (Some exManager) "client-1"
  = (Some {[ "auth-allowed"%string ]}, true).
Proof. vm_compute. reflexivity. Qed.

Example AllowsByDerivedIndex :
  Access.AllowedAuthIDsForClientKey (Some exIndexManager) "client-idx"
  = (Some {[ "auth-a"; "auth-b"; "auth-c"; " auth-d " ]}%string, true).
Proof. vm_compute. reflexivity. Qed.

Example DenyAll :
  Access.AllowedAuthIDsForClientKey (Some exManager) "client-2" = (Some ∅, true)
  ∧ Access.AllowedAuthIDsForClientKey (Some exManager) "client-3" = (None, false).
Proof. vm_compute. split; reflexivity. Qed.

(** The conversions of [codexWindowRecoverAt] at the edges of float64
    and int64. *)

Example ResetAfterIsRoundedAsFloat64 :
  Codex.quotaCandidates
    (Some (windowPayload true [ ("reset_after_seconds"%string, JNum f1_001) ])) 0
  = [ Codex.mkCandidate 1000999999 "codex_5h_limit" ].
Proof. vm_compute. reflexivity. Qed.

Example ResetAfterBeyondADuration :
  Codex.quotaCandidates
    (Some (windowPayload true [ ("reset_after_seconds"%string, num (10 ^ 10)) ])) exNow
  = [].
Proof. vm_compute. reflexivity. Qed.

Example ResetAtBeyondInt64 :
  Codex.quotaCandidates
    (Some (windowPayload true [ ("reset_at"%string, num (10 ^ 30)) ])) exNow
  = [].
Proof. vm_compute. reflexivity. Qed.

Example ResetAtWrapsAroundTheYearOne :
  Codex.quotaCandidates
    (Some (windowPayload true [ ("reset_at"%string, num (2 ^ 63 - 1024)) ])) exNow
  = [].
Proof. vm_compute. reflexivity. Qed.

Example UsedPercentInfinity :
  Codex.quotaCandidates
    (Some (windowPayload false [ ("used_percent"%string, JStr "Infinity");
                                 ("reset_after_seconds"%string, num 60) ])) 0
  = [ Codex.mkCandidate (60 * Time.Second) "codex_5h_limit" ].
Proof. vm_compute. reflexivity. Qed.

Example UsedPercentAsText :
  Codex.quotaCandidates
    (Some (windowPayload false [ ("used_percent"%string, JStr " 100.5 ");
                                 ("reset_after_seconds"%string, JStr "1.001") ])) 0
  = [ Codex.mkCandidate 1000999999 "codex_5h_limit" ]
  ∧ Codex.quotaCandidates
      (Some (windowPayload false [ ("used_percent"%string, JStr "99.9");
                                   ("reset_after_seconds"%string, num 60) ])) 0
    = [].
Proof. vm_compute. split; reflexivity. Qed.

Example BoolOfNumbers :
  gjson.Bool (Some (JNum (S754_zero true))) = false
  ∧ gjson.Bool (Some (JNum S754_nan)) = true
  ∧ gjson.Bool (Some (num 2)) = true.
Proof. vm_compute. repeat split; reflexivity. Qed.

End SourceTests.

(** ** The breaker and the routes, together *)

Section BreakerRouteFacts.
Context {GL : GoLib} {AL : AuthLib}.
Import Router.

Lemma isBanned_other (now : Z) (id k : string) (b : BanState) :
  k ≠ Str.TrimSpace id →
  (isReverseProxyTemporarilyBanned now id b).2 !! k = b !! k.
Proof.
  intros Hk. unfold isReverseProxyTemporarilyBanned.
  destruct (Str.eqb _ _); [reflexivity |].
  destruct (b !! Str.TrimSpace id); [| reflexivity].
  destruct (Time.After now z); [| reflexivity].
  cbn [snd]. by rewrite lookup_delete_ne.
Qed.

(** The route of a trimmed id: the three cases of
    [resolveReverseProxyRouteWithID]. *)
Lemma withID_cases (now : Z) (cfg : option config.Config)
    (proxyID provider originalURL : string) (b : BanState) :
  let id := Str.TrimSpace proxyID in
  id ≠ EmptyString →
  resolveReverseProxyRouteWithID now cfg proxyID provider originalURL b
  = match b !! id with
    | Some till =>
        if decide (now ≤ till) then (mkResolution originalURL id false, b)
        else
          let url := resolveReverseProxyURLWithID cfg id provider originalURL in
          (mkResolution url id (negb (Str.eqb url originalURL)), delete id b)
    | None =>
        let url := resolveReverseProxyURLWithID cfg id provider originalURL in
        (mkResolution url id (negb (Str.eqb url originalURL)), b)
    end.
Proof.
  intros id Hid. unfold resolveReverseProxyRouteWithID. cbn [ProxyID]. fold id.
  rewrite (proj2 (eqb_false _ _) Hid).
  assert (Hid2 : Str.TrimSpace id ≠ EmptyString) by (unfold id; by rewrite TrimSpace_idem).
  rewrite (isBanned_cases now id b Hid2). unfold id at 1 2. rewrite TrimSpace_idem. fold id.
  destruct (b !! id) as [till|]; [| reflexivity].
  destruct (decide (now ≤ till)); reflexivity.
Qed.

(** X2. A ban holds for the whole TTL.  Once [banReverseProxyTemporarily]
    has run for a proxy at [t0], whatever the breaker held before and
    whatever bans are placed afterwards, every route resolved for that
    proxy up to and including [t0] plus five minutes is the original
    URL, not proxied, and the resolution leaves the breaker as it
    is. *)
Theorem banned_proxy_is_bypassed_for_the_ttl
    (t0 now : Z) (cfg : option config.Config) (proxyID provider originalURL : string)
    (b : BanState) (later : list (Z * string)) :
  Str.TrimSpace proxyID ≠ EmptyString →
  now ≤ t0 + 5 * Time.Minute →
  let b' := Spec.banAll later (banReverseProxyTemporarily t0 proxyID b) in
  resolveReverseProxyRouteWithID now cfg proxyID provider originalURL b'
  = (mkResolution originalURL (Str.TrimSpace proxyID) false, b').
Proof.
  intros Hid Hnow b'.
  rewrite (withID_cases now cfg proxyID provider originalURL b' Hid). cbv zeta.
  pose proof (ban_lookup t0 proxyID b Hid) as Hl.
  destruct (banAll_mono later _ _ _ Hl) as (t & Ht & Hle). fold b' in Ht.
  rewrite Ht.
  assert (Hge : t0 + 5 * Time.Minute ≤ t).
  { unfold reverseProxyBanTTL in Hle. destruct (b !! Str.TrimSpace proxyID); lia. }
  destruct (decide (now ≤ t)); [reflexivity | lia].
Qed.

(** X3. The breaker closes again.  Once the expiry the breaker holds for a
    proxy lies strictly before now, the route resolved for the proxy is
    the one resolved had it never been banned, and the resolution
    removes the entry. *)
Theorem expired_ban_restores_the_route
    (now till : Z) (cfg : option config.Config) (proxyID provider originalURL : string)
    (b : BanState) :
  Str.TrimSpace proxyID ≠ EmptyString →
  b !! Str.TrimSpace proxyID = Some till →
  till < now →
  let out := resolveReverseProxyRouteWithID now cfg proxyID provider originalURL b in
  out.1 = (resolveReverseProxyRouteWithID now cfg proxyID provider originalURL
             (delete (Str.TrimSpace proxyID) b)).1
  ∧ out.2 = delete (Str.TrimSpace proxyID) b
  ∧ out.2 !! Str.TrimSpace proxyID = None.
Proof.
  intros Hblank Hl Hlt out. subst out.
  rewrite !(withID_cases _ _ _ _ _ _ Hblank). cbv zeta.
  rewrite Hl, lookup_delete_eq.
  destruct (decide (now ≤ till)); [lia |]. cbn [fst snd].
  split; [reflexivity |]. split; [reflexivity | apply lookup_delete_eq].
Qed.

(** X4. A ban concerns one proxy.  Banning a proxy changes no route of a
    proxy with another id, and the two operations commute on the
    breaker. *)
Theorem ban_leaves_other_routes
    (t0 now : Z) (cfg : option config.Config) (banned other provider originalURL : string)
    (b : BanState) :
  Str.TrimSpace other ≠ Str.TrimSpace banned →
  let before := resolveReverseProxyRouteWithID now cfg other provider originalURL b in
  let after :=
    resolveReverseProxyRouteWithID now cfg other provider originalURL
      (banReverseProxyTemporarily t0 banned b) in
  after.1 = before.1
  ∧ after.2 = banReverseProxyTemporarily t0 banned before.2.
Proof.
  intros Hne before after. subst before after.
  case_eqb (Str.TrimSpace other) EmptyString Hblank.
  { rewrite !(withID_blank _ _ _ _ _ _ Hblank). done. }
  rewrite !(withID_cases _ _ _ _ _ _ Hblank). cbv zeta.
  rewrite (ban_other t0 banned _ b Hne).
  assert (Hcomm : delete (Str.TrimSpace other) (banReverseProxyTemporarily t0 banned b)
                  = banReverseProxyTemporarily t0 banned (delete (Str.TrimSpace other) b)).
  { unfold banReverseProxyTemporarily.
    destruct (Str.eqb (Str.TrimSpace banned) EmptyString); [reflexivity |].
    rewrite lookup_delete_ne by done.
    by rewrite delete_insert_ne by done. }
  destruct (b !! Str.TrimSpace other) as [till|]; [| done].
  destruct (decide (now ≤ till)); [done |]. cbn [fst snd]. by rewrite Hcomm.
Qed.

Lemma find_enabled (c : config.Config) (id : string) (p : config.ReverseProxy) :
  findReverseProxyByID (Some c) id = Some p →
  p ∈ config.ReverseProxies c ∧ config.ID p = id ∧ config.Enabled p = true
  ∧ id ≠ EmptyString.
Proof.
  unfold findReverseProxyByID.
  case_eqb id EmptyString Hid; [intros [=] |]. cbn [orb].
  destruct (bool_decide _); [intros [=] |].
  intros Hf. apply List.find_some in Hf as [Hin Ht].
  apply andb_true_iff in Ht as [Heq Hen]. apply eqb_true in Heq.
  split; [by apply list_elem_of_In |]. done.
Qed.

Lemma resolveURL_changed (cfg : option config.Config) (id provider url : string) :
  resolveReverseProxyURLWithID cfg id provider url ≠ url →
  SpecExt.enabledProxy cfg id ∧ id ≠ EmptyString ∧ is_Some (url_Parse url).
Proof.
  unfold resolveReverseProxyURLWithID. destruct cfg as [c|]; [| done].
  destruct (_ || _); [done |].
  destruct (findReverseProxyByID (Some c) id) as [p|] eqn:Hf; [| done].
  destruct (url_Parse url) as [u|] eqn:Hu; [| done].
  intros _. apply find_enabled in Hf as (Hin & Hid & Hen & Hne).
  split; [by exists c, p |]. split; [done | by eexists].
Qed.

(** X5. When a route is proxied.  A route comes back proxied only if the
    trimmed id is not blank, an enabled proxy of that id is configured,
    the original URL parses, the URL handed back differs from it, and
    any expiry the breaker held for the id lies strictly before now; the
    breaker then no longer holds an entry for the id.  So a proxy that
    is disabled, unknown or banned never carries a request. *)
Theorem proxied_route_needs_enabled_unbanned_proxy
    (now : Z) (cfg : option config.Config) (proxyID provider originalURL : string)
    (b b' : BanState) (r : reverseProxyResolution) :
  resolveReverseProxyRouteWithID now cfg proxyID provider originalURL b = (r, b') →
  Proxied r = true →
  let id := Str.TrimSpace proxyID in
  id ≠ EmptyString
  ∧ ProxyID r = id
  ∧ SpecExt.enabledProxy cfg id
  ∧ is_Some (url_Parse originalURL)
  ∧ URL r ≠ originalURL
  ∧ (∀ till, b !! id = Some till → till < now)
  ∧ b' = delete id b.
Proof.
  intros Hr Hp id.
  case_eqb id EmptyString Hblank.
  { unfold id in Hblank. rewrite (withID_blank _ _ _ _ _ _ Hblank) in Hr.
    injection Hr as <- <-. discriminate. }
  split; [exact Hblank |].
  unfold id in Hblank. rewrite (withID_cases _ _ _ _ _ _ Hblank) in Hr. cbv zeta in Hr.
  fold id in Hr, Hblank.
  assert (Hgo : ∀ bb,
    (mkResolution (resolveReverseProxyURLWithID cfg id provider originalURL) id
       (negb (Str.eqb (resolveReverseProxyURLWithID cfg id provider originalURL) originalURL)),
     bb) = (r, b') →
    ProxyID r = id ∧ SpecExt.enabledProxy cfg id ∧ is_Some (url_Parse originalURL)
    ∧ URL r ≠ originalURL ∧ b' = bb).
  { intros bb [= <- <-]. cbn [ProxyID URL Proxied] in *.
    assert (Hne : resolveReverseProxyURLWithID cfg id provider originalURL ≠ originalURL).
    { by apply negb_true_iff, eqb_false in Hp. }
    destruct (resolveURL_changed _ _ _ _ Hne) as (He & _ & Hu). done. }
  destruct (b !! id) as [till|] eqn:Hl.
  - destruct (decide (now ≤ till)) as [Hle | Hgt].
    + injection Hr as <- <-. discriminate.
    + destruct (Hgo _ Hr) as (H1 & H2 & H3 & H4 & H5).
      do 4 (split; [done |]). split; [| done].
      intros t [= <-]. lia.
  - destruct (Hgo _ Hr) as (H1 & H2 & H3 & H4 & H5).
    do 4 (split; [done |]). split; [intros t [=] |].
    rewrite H5. symmetry. by apply delete_id.
Qed.

(** X6. The credential-level id comes from the table.  Whatever
    [resolveProxyIDForAuth] answers, if it is not empty it is the trimmed
    value that [proxy-routing-auth] holds under the credential's trimmed
    ID, index or file name, the first of the three with a value that is
    not blank; it has no white space at its ends, and so it is the id
    the route and the breaker go by. *)
Theorem resolveProxyIDForAuth_reads_the_table
    (cfg : option config.Config) (auth : option cliproxyauth.Auth) :
  let id := resolveProxyIDForAuth cfg auth in
  id ≠ EmptyString →
  ∃ c a pre k post v,
    cfg = Some c ∧ auth = Some a
    ∧ SpecExt.routingKeys a = pre ++ k :: post
    ∧ k ≠ EmptyString
    ∧ config.ProxyRoutingAuth c !! k = Some v
    ∧ id = Str.TrimSpace v
    ∧ Str.TrimSpace id = id
    ∧ Forall (fun k' => k' = EmptyString
                        ∨ Str.TrimSpace (default EmptyString (config.ProxyRoutingAuth c !! k'))
                          = EmptyString) pre.
Proof.
  intros id. subst id. unfold resolveProxyIDForAuth.
  destruct cfg as [c|]; [| done]. destruct auth as [a|]; [| done]. cbv beta zeta.
  destruct (bool_decide _); [done |].
  set (get := fun k => Str.TrimSpace (default EmptyString (config.ProxyRoutingAuth c !! k))).
  change (Str.TrimSpace (default EmptyString (config.ProxyRoutingAuth c !! ?k)))
    with (get k).
  assert (Hget : ∀ k, get k ≠ EmptyString →
            ∃ v, config.ProxyRoutingAuth c !! k = Some v ∧ get k = Str.TrimSpace v).
  { intros k. unfold get. destruct (config.ProxyRoutingAuth c !! k) as [v|].
    - intros _. by exists v.
    - cbn [default from_option]. intros H. exfalso. apply H. reflexivity. }
  assert (Hskip : ∀ k, negb (Str.eqb k EmptyString) && negb (Str.eqb (get k) EmptyString) = false →
            k = EmptyString ∨ get k = EmptyString).
  { intros k H. apply andb_false_iff in H as [H | H]; apply negb_false_iff, eqb_true in H;
      [by left | by right]. }
  assert (Htake : ∀ k, negb (Str.eqb k EmptyString) && negb (Str.eqb (get k) EmptyString) = true →
            k ≠ EmptyString ∧ get k ≠ EmptyString).
  { intros k H. apply andb_true_iff in H as [H1 H2].
    apply negb_true_iff, eqb_false in H1. apply negb_true_iff, eqb_false in H2. done. }
  unfold SpecExt.routingKeys.
  destruct (negb _ && negb _) eqn:H1.
  { intros _. apply Htake in H1 as [Hk Hv]. destruct (Hget _ Hv) as (v & Hl & He).
    exists c, a, [], (Str.TrimSpace (cliproxyauth.ID a)),
      [Str.TrimSpace (EnsureIndex a); Str.TrimSpace (cliproxyauth.FileName a)], v.
    do 5 (split; [done |]). split; [done |]. split; [| constructor].
    rewrite He. apply TrimSpace_idem. }
  apply Hskip in H1.
  destruct (negb _ && negb _) eqn:H2.
  { intros _. apply Htake in H2 as [Hk Hv]. destruct (Hget _ Hv) as (v & Hl & He).
    exists c, a, [Str.TrimSpace (cliproxyauth.ID a)], (Str.TrimSpace (EnsureIndex a)),
      [Str.TrimSpace (cliproxyauth.FileName a)], v.
    do 5 (split; [done |]). split; [done |]. split; [rewrite He; apply TrimSpace_idem |].
    apply Forall_cons_2; [exact H1 | apply Forall_nil_2]. }
  apply Hskip in H2.
  destruct (negb _ && negb _) eqn:H3; [| done].
  intros _. apply Htake in H3 as [Hk Hv]. destruct (Hget _ Hv) as (v & Hl & He).
  exists c, a, [Str.TrimSpace (cliproxyauth.ID a); Str.TrimSpace (EnsureIndex a)],
    (Str.TrimSpace (cliproxyauth.FileName a)), [], v.
  do 5 (split; [done |]). split; [done |]. split; [rewrite He; apply TrimSpace_idem |].
  apply Forall_cons_2; [exact H1 |]. apply Forall_cons_2; [exact H2 | apply Forall_nil_2].
Qed.

End BreakerRouteFacts.

(** ** The headers a proxy injects *)

Section HeaderFacts.
Context {GL : GoLib} {AL : AuthLib} {MR : MapRange} {HL : HttpLib}.
Import Router RouterExt.

Lemma Header_Get_lookup (h h' : Header) (key : string) :
  h' !! key = h !! key → Header_Get h' key = Header_Get h key.
Proof. intros H. unfold Header_Get. by rewrite H. Qed.

Lemma injectHeaders_spec (entries : list (string * string)) (h : Header) (key : string) :
  let h' := injectHeaders entries h in
  (Header_Get h key ≠ EmptyString → h' !! key = h !! key)
  ∧ (h' !! key = h !! key
     ∨ ∃ k v, (k, v) ∈ entries
              ∧ Str.TrimSpace k ≠ EmptyString ∧ Str.TrimSpace v ≠ EmptyString
              ∧ key = CanonicalMIMEHeaderKey (Str.TrimSpace k)
              ∧ Header_Get h key = EmptyString
              ∧ h' !! key = Some [ Str.TrimSpace v ]).
Proof.
  revert h. induction entries as [|[k v] entries IH]; intros h; cbv zeta.
  { split; [done | by left]. }
  unfold injectHeaders. cbn [foldl fst snd].
  set (h1 := if Str.eqb (Str.TrimSpace k) EmptyString || Str.eqb (Str.TrimSpace v) EmptyString
             then h
             else if negb (Str.eqb (Get h (Str.TrimSpace k)) EmptyString) then h
                  else Set_ h (Str.TrimSpace k) (Str.TrimSpace v)).
  fold (injectHeaders entries h1).
  destruct (IH h1) as [IH1 IH2].
  assert (Hstep : h1 = h
            ∨ (Str.TrimSpace k ≠ EmptyString ∧ Str.TrimSpace v ≠ EmptyString
               ∧ Header_Get h (CanonicalMIMEHeaderKey (Str.TrimSpace k)) = EmptyString
               ∧ h1 = <[ CanonicalMIMEHeaderKey (Str.TrimSpace k) := [ Str.TrimSpace v ] ]> h)).
  { subst h1. case_eqb (Str.TrimSpace k) EmptyString Hk; [by left |].
    case_eqb (Str.TrimSpace v) EmptyString Hv; [by left |]. cbn [orb].
    case_eqb (Get h (Str.TrimSpace k)) EmptyString Hg; [| by left]. cbn [negb].
    right. done. }
  destruct Hstep as [-> | (Hk & Hv & Hg & Hh1)].
  { split; [exact IH1 |]. destruct IH2 as [H | (k' & v' & Hin & H)]; [by left |].
    right. exists k', v'. split; [by right | exact H]. }
  split.
  - intros Hkey.
    assert (Hne : CanonicalMIMEHeaderKey (Str.TrimSpace k) ≠ key).
    { intros <-. by apply Hkey. }
    assert (Hsame : h1 !! key = h !! key) by (rewrite Hh1; by apply lookup_insert_ne).
    rewrite <- Hsame. apply IH1. by rewrite (Header_Get_lookup _ _ _ Hsame).
  - destruct (decide (CanonicalMIMEHeaderKey (Str.TrimSpace k) = key)) as [<- | Hne].
    + right. exists k, v. split; [by left |]. do 4 (split; [done |]).
      assert (Hl : h1 !! CanonicalMIMEHeaderKey (Str.TrimSpace k) = Some [ Str.TrimSpace v ]).
      { rewrite Hh1. apply lookup_insert_eq. }
      rewrite <- Hl. apply IH1. unfold Header_Get. by rewrite Hl.
    + assert (Hsame : h1 !! key = h !! key) by (rewrite Hh1; by apply lookup_insert_ne).
      destruct IH2 as [H | (k' & v' & Hin & H1 & H2 & H3 & H4 & H5)].
      * left. by rewrite H.
      * right. exists k', v'. split; [by right |]. do 3 (split; [done |]).
        split; [| done]. by rewrite <- (Header_Get_lookup _ _ _ Hsame).
Qed.

(** X7. Injected headers never replace what the request carries.  For a
    request that is there, [applyReverseProxyHeaders] hands the request
    back with, under every name, either the values it had or the single
    trimmed value the routed proxy configures for that name; a name
    under which the request already had a value that is not empty keeps
    its values; and while the proxy is banned the headers are not
    touched at all.  The breaker after the call is what the ban check
    alone leaves. *)
Theorem applyReverseProxyHeaders_keeps_request_headers
    (now : Z) (h : Header) (cfg : option config.Config) (auth : option cliproxyauth.Auth)
    (provider : string) (b : BanState) :
  (∀ (m : gmap string string) k v, (k, v) ∈ rangeOrder m → m !! k = Some v) →
  let proxyID := routeProxyID cfg auth provider in
  let out := applyReverseProxyHeadersReq now (Some h) cfg auth provider b in
  ∃ h', out.1 = Some h'
    ∧ (∀ key, Header_Get h key ≠ EmptyString → h' !! key = h !! key)
    ∧ (∀ key, h' !! key = h !! key
              ∨ ∃ p k v, findReverseProxyByID cfg proxyID = Some p
                         ∧ config.Headers p !! k = Some v
                         ∧ Str.TrimSpace k ≠ EmptyString ∧ Str.TrimSpace v ≠ EmptyString
                         ∧ key = CanonicalMIMEHeaderKey (Str.TrimSpace k)
                         ∧ h' !! key = Some [ Str.TrimSpace v ])
    ∧ ((isReverseProxyTemporarilyBanned now proxyID b).1 = true → h' = h)
    ∧ out.2 = applyReverseProxyHeaders now cfg auth provider b.
Proof.
  intros Hrange proxyID out. subst out.
  unfold applyReverseProxyHeadersReq, applyReverseProxyHeaders. fold proxyID.
  assert (Hsame : ∀ bb : BanState, ∃ h' : Header, (Some h, bb).1 = Some h'
            ∧ (∀ key, Header_Get h key ≠ EmptyString → h' !! key = h !! key)
            ∧ (∀ key, h' !! key = h !! key
                 ∨ ∃ p k v, findReverseProxyByID cfg proxyID = Some p
                            ∧ config.Headers p !! k = Some v
                            ∧ Str.TrimSpace k ≠ EmptyString ∧ Str.TrimSpace v ≠ EmptyString
                            ∧ key = CanonicalMIMEHeaderKey (Str.TrimSpace k)
                            ∧ h' !! key = Some [ Str.TrimSpace v ])
            ∧ ((isReverseProxyTemporarilyBanned now proxyID b).1 = true → h' = h)
            ∧ (Some h, bb).2 = bb).
  { intros bb. exists h. cbn [fst snd]. split; [done |]. split; [done |].
    split; [by left | done]. }
  destruct cfg as [c|]; [| apply Hsame].
  destruct (Str.eqb proxyID EmptyString); [apply Hsame |].
  destruct (isReverseProxyTemporarilyBanned now proxyID b) as [banned b'] eqn:Hb.
  cbn [fst snd] in *.
  destruct banned; [apply Hsame |].
  destruct (findReverseProxyByID (Some c) proxyID) as [p|] eqn:Hf; [| apply Hsame].
  destruct (bool_decide _); [apply Hsame |].
  exists (injectHeaders (rangeOrder (config.Headers p)) h). cbn [fst snd].
  split; [done |]. split; [| split; [| done]].
  - intros key. apply injectHeaders_spec.
  - intros key.
    destruct (proj2 (injectHeaders_spec (rangeOrder (config.Headers p)) h key))
      as [H | (k & v & Hin & Hk & Hv & Hkey & _ & Hl)]; [by left |].
    right. exists p, k, v. split; [done |]. split; [by apply Hrange | done].
Qed.

End HeaderFacts.

(** ** What a run of the executor leaves behind *)

Section FootprintFacts.
Context {GL : GoLib} {AL : AuthLib} {TL : Codex.Translators} (env : Codex.Env).
Import Codex.

Lemma footprint_refl (id : string) (q : bool) (w : World) : SpecExt.footprint id q w w [].
Proof. unfold SpecExt.footprint. by rewrite app_nil_r. Qed.

Lemma footprint_trans (id : string) (q1 q2 : bool) (w w1 w2 : World) (t1 t2 : list Request) :
  SpecExt.footprint id q1 w w1 t1 → SpecExt.footprint id q2 w1 w2 t2 →
  SpecExt.footprint id (q1 && q2) w w2 (t1 ++ t2).
Proof.
  intros (Ht1 & Hk1 & Hq1) (Ht2 & Hk2 & Hq2). split; [| split].
  - by rewrite Ht2, Ht1, app_assoc.
  - intros k Hk. by rewrite Hk2, Hk1.
  - intros Hq. apply andb_true_iff in Hq as [H1 H2].
    transitivity (bannedTill w1); [by apply Hq2 | by apply Hq1].
Qed.

Lemma footprint_weaken (id : string) (q : bool) (w w' : World) (t : list Request) :
  SpecExt.footprint id true w w' t → SpecExt.footprint id q w w' t.
Proof. intros (H1 & H2 & H3). split; [done |]. split; [done |]. intros _. by apply H3. Qed.

Lemma isBanned_subseteq (now : Z) (id : string) (b : Router.BanState) :
  (Router.isReverseProxyTemporarilyBanned now id b).2 ⊆ b.
Proof.
  unfold Router.isReverseProxyTemporarilyBanned.
  destruct (Str.eqb _ _); [done |].
  destruct (b !! Str.TrimSpace id); [| done].
  destruct (Time.After now z); [| done]. apply delete_subseteq.
Qed.

Lemma withID_footprint (now : Z) (cfg : option config.Config)
    (proxyID provider url : string) (b : Router.BanState) :
  let b' := (Router.resolveReverseProxyRouteWithID now cfg proxyID provider url b).2 in
  b' ⊆ b ∧ ∀ k, k ≠ Str.TrimSpace proxyID → b' !! k = b !! k.
Proof.
  cbv zeta. case_eqb (Str.TrimSpace proxyID) EmptyString Hblank.
  { by rewrite (withID_blank _ _ _ _ _ _ Hblank). }
  rewrite (withID_cases _ _ _ _ _ _ Hblank). cbv zeta.
  destruct (b !! Str.TrimSpace proxyID) as [till|]; [| done].
  destruct (decide (now ≤ till)); [done |]. cbn [snd].
  split; [apply delete_subseteq |]. intros k Hk. by apply lookup_delete_ne.
Qed.

Lemma applyHeaders_footprint (now : Z) (cfg : option config.Config)
    (auth : option cliproxyauth.Auth) (provider : string) (b : Router.BanState) :
  let b' := Router.applyReverseProxyHeaders now cfg auth provider b in
  b' ⊆ b ∧ ∀ k, k ≠ Str.TrimSpace (Router.routeProxyID cfg auth provider) → b' !! k = b !! k.
Proof.
  cbv zeta. unfold Router.applyReverseProxyHeaders. destruct cfg as [c|]; [| done].
  destruct (Str.eqb _ _); [done |].
  split; [apply isBanned_subseteq |]. intros k Hk. by apply isBanned_other.
Qed.

Lemma run_resolve_footprint (cfg : option config.Config) (auth : option cliproxyauth.Auth)
    (url : string) (w w1 : World) (r : Router.reverseProxyResolution) :
  resolveRouteM env cfg auth "codex" url w = (r, w1) →
  r = (Router.resolveReverseProxyRouteForAuth (time_Now env (clockReads w)) cfg auth "codex"
         url (bannedTill w)).1
  ∧ SpecExt.footprint (Str.TrimSpace (Router.routeProxyID cfg auth "codex")) true w w1 [].
Proof.
  rewrite run_resolveRouteM. cbv zeta. intros [= <- <-]. split; [done |].
  unfold SpecExt.footprint. cbn [trace bannedTill]. rewrite app_nil_r. split; [done |].
  unfold Router.resolveReverseProxyRouteForAuth.
  destruct (withID_footprint (time_Now env (clockReads w)) cfg
              (Router.routeProxyID cfg auth "codex") "codex" url (bannedTill w)) as [H1 H2].
  done.
Qed.

Lemma run_headers_footprint (cfg : option config.Config) (auth : option cliproxyauth.Auth)
    (w w1 : World) (u : unit) :
  applyHeadersM env cfg auth "codex" w = (u, w1) →
  SpecExt.footprint (Str.TrimSpace (Router.routeProxyID cfg auth "codex")) true w w1 [].
Proof.
  rewrite run_applyHeadersM. intros [= <- <-].
  unfold SpecExt.footprint. cbn [trace bannedTill]. rewrite app_nil_r. split; [done |].
  destruct (applyHeaders_footprint (time_Now env (clockReads w)) cfg auth "codex"
              (bannedTill w)) as [H1 H2].
  done.
Qed.

Lemma run_ban_footprint (id proxyID : string) (w w1 : World) (u : unit) :
  Str.TrimSpace proxyID = id →
  banM env proxyID w = (u, w1) → SpecExt.footprint id false w w1 [].
Proof.
  intros Hid. rewrite run_banM. intros [= <- <-].
  unfold SpecExt.footprint. cbn [trace bannedTill]. rewrite app_nil_r. split; [done |].
  split; [| done]. intros k Hk. apply ban_other. by rewrite Hid.
Qed.

Lemma run_Do_footprint (id : string) (q : bool) (r : Request) (w w1 : World) (a : DoResult) :
  Do env r w = (a, w1) →
  a = http_Do env (httpCalls w) r ∧ SpecExt.footprint id q w w1 [r].
Proof. rewrite run_Do. intros [= <- <-]. split; [done |]. by unfold SpecExt.footprint. Qed.

Lemma fetch_footprint (id : string) (auth : option cliproxyauth.Auth) (w w1 : World)
    (h : codexQuotaCooldownHint * bool) :
  fetchCodexQuotaCooldownHint env auth w = (h, w1) →
  (w1 = w ∧ h = noHint ∧ Str.TrimSpace (codexCreds auth).1 = EmptyString)
  ∨ (Str.TrimSpace (codexCreds auth).1 ≠ EmptyString
     ∧ ∃ gs, (gs = [] ∨ gs = [SpecExt.usageGET]) ∧ SpecExt.footprint id true w w1 gs).
Proof.
  unfold fetchCodexQuotaCooldownHint, ret.
  destruct auth as [a|]; [| intros [= <- <-]; left; done].
  case_eqb (Str.TrimSpace (codexCreds (Some a)).1) EmptyString Htok.
  { intros [= <- <-]. by left. }
  intros H. right. split; [done |].
  destruct (url_Parse codexUsageURL).
  2:{ injection H as <- <-. exists []. split; [by left | apply footprint_refl]. }
  rewrite (bind_run _ _ _ _ _ (run_Do _ _ w)) in H.
  set (w2 := mkWorld _ _ _ _) in H.
  assert (Hfp : SpecExt.footprint id true w w2 [SpecExt.usageGET]).
  { by unfold SpecExt.footprint. }
  exists [SpecExt.usageGET]. split; [by right |].
  destruct (http_Do env (httpCalls w) _) as [e | resp]; [by injection H as <- <- |].
  destruct (_ || _); [by injection H as <- <- |].
  destruct (BodyErr resp); [by injection H as <- <- |].
  unfold bind, Now in H. by injection H as <- <-.
Qed.

(** X8. What building a status error costs.  [newCodexStatusErr] always
    hands back the status and the body it was given and never touches
    the breaker.  For a status other than 429 it reads no clock and
    sends nothing.  The one request it can send is the GET of the usage
    endpoint, and it sends it only for status 429 and a credential whose
    token is not blank. *)
Theorem newCodexStatusErr_sends_at_most_the_usage_lookup
    (auth : option cliproxyauth.Auth) (statusCode : Z) (body : string) (headers : Header)
    (w : World) :
  let out := newCodexStatusErr env auth statusCode body headers w in
  code out.1 = statusCode ∧ msg out.1 = body
  ∧ bannedTill out.2 = bannedTill w
  ∧ (statusCode ≠ 429 → out = (mkStatusErr statusCode body None EmptyString, w))
  ∧ (trace out.2 = trace w
     ∨ (trace out.2 = trace w ++ [SpecExt.usageGET]
        ∧ statusCode = 429
        ∧ Str.TrimSpace (codexCreds auth).1 ≠ EmptyString)).
Proof.
  intros out.
  destruct out as [e w'] eqn:Hout. subst out. cbn [fst snd].
  destruct (newCodexStatusErr_run _ _ _ _ _ _ _ _ Hout) as (Hc & Hm & Hb & _).
  do 3 (split; [done |]).
  unfold newCodexStatusErr in Hout.
  destruct (Z.eqb_spec statusCode 429) as [-> | Hne]; cbn [negb] in Hout.
  - split; [done |].
    unfold bind, Now, ret in Hout.
    destruct (fetchCodexQuotaCooldownHint env auth _) as [h w2] eqn:Hf.
    injection Hout as _ <-.
    destruct (fetch_footprint EmptyString _ _ _ _ Hf)
      as [(-> & _) | (Htok & gs & Hgs & Hfp & _)]; [by left |].
    cbn [trace] in Hfp. destruct Hgs as [-> | ->].
    + left. by rewrite Hfp, app_nil_r.
    + right. done.
  - unfold ret in Hout. injection Hout as <- <-. split; [done | by left].
Qed.

Lemma newCodexStatusErr_footprint (id : string) (auth : option cliproxyauth.Auth)
    (statusCode : Z) (body : string) (headers : Header) (w w1 : World) (e : statusErr) :
  newCodexStatusErr env auth statusCode body headers w = (e, w1) →
  ∃ gs, (gs = [] ∨ gs = [SpecExt.usageGET]) ∧ SpecExt.footprint id true w w1 gs.
Proof.
  intros Hout.
  destruct (newCodexStatusErr_run _ _ _ _ _ _ _ _ Hout) as (_ & _ & Hb & _).
  assert (Hfoot : ∀ gs, trace w1 = trace w ++ gs → SpecExt.footprint id true w w1 gs).
  { intros gs Ht. split; [done |]. rewrite Hb. done. }
  unfold newCodexStatusErr in Hout.
  destruct (negb _).
  { unfold ret in Hout. injection Hout as <- <-. exists []. split; [by left |].
    apply footprint_refl. }
  unfold bind, Now, ret in Hout.
  destruct (fetchCodexQuotaCooldownHint env auth _) as [h w2] eqn:Hf.
  injection Hout as _ <-.
  destruct (fetch_footprint id _ _ _ _ Hf) as [(-> & _) | (_ & gs & Hgs & Hfp & _)].
  - exists []. split; [by left |]. apply Hfoot. cbn [trace]. by rewrite app_nil_r.
  - exists gs. split; [done |]. apply Hfoot. exact Hfp.
Qed.

End FootprintFacts.

Ltac mstep H a w1 :=
  lazymatch goal with
  | |- context [Codex.bind ?m ?k ?w] =>
      destruct (m w) as [a w1] eqn:H; rewrite (bind_run m k w w1 a H)
  end.

Section ExecuteRuns.
Context {GL : GoLib} {AL : AuthLib} {TL : Codex.Translators} (env : Codex.Env).
Import Codex.

Lemma executeCompact_run (cfg : option config.Config) (auth : option cliproxyauth.Auth)
    (input : ExecInput) (w : World) :
  ∃ ps gs,
    SpecExt.footprint (Str.TrimSpace (Router.routeProxyID cfg auth "codex")) true w
      (executeCompact env cfg auth input w).2 (ps ++ gs)
    ∧ (ps = [] ∨ ps = [SpecExec.POST (SpecExt.compactURL auth)])
    ∧ (gs = [] ∨ gs = [SpecExt.usageGET]).
Proof.
  set (id := Str.TrimSpace (Router.routeProxyID cfg auth "codex")).
  unfold executeCompact, SpecExt.compactURL.
  destruct (codexCreds auth) as [apiKey baseURL]. cbn [snd].
  set (url := (Str.TrimSuffix _ "/" ++ "/responses/compact")%string).
  assert (Hnone : ∃ ps gs, SpecExt.footprint id true w w (ps ++ gs)
            ∧ (ps = [] ∨ ps = [SpecExec.POST url])
            ∧ (gs = [] ∨ gs = [SpecExt.usageGET])).
  { exists [], []. split; [apply footprint_refl |]. split; by left. }
  destruct (ApplyThinkingErr input); [exact Hnone |].
  unfold cacheHelper. destruct (url_Parse url) as [pu|]; [| exact Hnone].
  mstep H1 u w1. apply run_headers_footprint in H1. fold id in H1.
  mstep H2 r w2. apply (run_Do_footprint env id true) in H2 as [_ H2].
  pose proof (footprint_trans _ _ _ _ _ _ _ _ H1 H2) as H12. cbn [andb app] in H12.
  assert (Hone : ∃ ps gs, SpecExt.footprint id true w w2 (ps ++ gs)
            ∧ (ps = [] ∨ ps = [SpecExec.POST url]) ∧ (gs = [] ∨ gs = [SpecExt.usageGET])).
  { exists [SpecExec.POST url], []. split; [exact H12 |]. split; [by right | by left]. }
  destruct r as [e | resp]; [exact Hone |].
  destruct (negb (is2xx (StatusCode resp))).
  - mstep H3 sErr w3. apply (newCodexStatusErr_footprint env id) in H3 as (gs & Hgs & H3).
    pose proof (footprint_trans _ _ _ _ _ _ _ _ H12 H3) as H13. cbn [andb] in H13.
    exists [SpecExec.POST url], gs. split; [exact H13 |]. split; [by right | exact Hgs].
  - destruct (BodyErr resp); exact Hone.
Qed.

Lemma Execute_run (cfg : option config.Config) (auth : option cliproxyauth.Auth)
    (input : ExecInput) (w : World) :
  Alt input ≠ "responses/compact"%string →
  let id := Str.TrimSpace (Router.routeProxyID cfg auth "codex") in
  let route :=
    (Router.resolveReverseProxyRouteForAuth (time_Now env (clockReads w)) cfg auth "codex"
       (SpecExec.originalURL auth) (bannedTill w)).1 in
  ∃ ps gs q,
    SpecExt.footprint id q w (Execute env cfg auth input w).2 (ps ++ gs)
    ∧ (gs = [] ∨ gs = [SpecExt.usageGET])
    ∧ ((q = true ∧ (ps = [] ∨ ps = [SpecExec.POST (Router.URL route)]))
       ∨ (Router.Proxied route = true
          ∧ ps = [SpecExec.POST (Router.URL route); SpecExec.POST (SpecExec.originalURL auth)])).
Proof.
  intros HAlt id route.
  unfold Execute. rewrite (proj2 (eqb_false _ _) HAlt).
  subst route. unfold SpecExec.originalURL.
  destruct (codexCreds auth) as [apiKey baseURL]. cbn [snd].
  set (originalURL := (Str.TrimSuffix _ "/" ++ "/responses")%string).
  set (route := (Router.resolveReverseProxyRouteForAuth _ cfg auth "codex" originalURL _).1).
  assert (Hquiet : ∀ w' ps, SpecExt.footprint id true w w' ps →
            (ps = [] ∨ ps = [SpecExec.POST (Router.URL route)]) →
            ∃ ps gs q, SpecExt.footprint id q w w' (ps ++ gs)
              ∧ (gs = [] ∨ gs = [SpecExt.usageGET])
              ∧ ((q = true ∧ (ps = [] ∨ ps = [SpecExec.POST (Router.URL route)]))
                 ∨ (Router.Proxied route = true
                    ∧ ps = [SpecExec.POST (Router.URL route); SpecExec.POST originalURL]))).
  { intros w' ps Hfp Hps. exists ps, [], true. rewrite app_nil_r.
    split; [exact Hfp |]. split; [by left |]. by left. }
  destruct (ApplyThinkingErr input).
  { apply (Hquiet w []); [apply footprint_refl | by left]. }
  mstep H0 r0 w0. apply run_resolve_footprint in H0 as [Hr0 H0]. fold id route in H0, Hr0.
  subst r0.
  unfold cacheHelper at 1. destruct (url_Parse (Router.URL route)) as [pu|].
  2:{ apply (Hquiet w0 []); [exact H0 | by left]. }
  mstep H1 u1 w1. apply run_headers_footprint in H1. fold id in H1.
  mstep H2 r w2. apply (run_Do_footprint env id true) in H2 as [_ H2].
  pose proof (footprint_trans _ _ _ _ _ _ _ _ H0
                (footprint_trans _ _ _ _ _ _ _ _ H1 H2)) as H02.
  cbn [andb app] in H02. clear H0 H1 H2.
  destruct r as [e | resp].
  { apply (Hquiet w2 _ H02). by right. }
  destruct (negb (is2xx (StatusCode resp))).
  2:{ apply (Hquiet w2 _ H02). by right. }
  destruct (Router.Proxied route) eqn:Hprox; cbn [andb].
  2:{ mstep H3 sErr w3. apply (newCodexStatusErr_footprint env id) in H3 as (gs & Hgs & H3).
      pose proof (footprint_trans _ _ _ _ _ _ _ _ H02 H3) as H03. cbn [andb] in H03.
      exists [SpecExec.POST (Router.URL route)], gs, true.
      split; [exact H03 |]. split; [exact Hgs |]. left. split; [done | by right]. }
  destruct (Router.shouldBanReverseProxyOnError _ _).
  2:{ mstep H3 sErr w3. apply (newCodexStatusErr_footprint env id) in H3 as (gs & Hgs & H3).
      pose proof (footprint_trans _ _ _ _ _ _ _ _ H02 H3) as H03. cbn [andb] in H03.
      exists [SpecExec.POST (Router.URL route)], gs, true.
      split; [exact H03 |]. split; [exact Hgs |]. left. split; [done | by right]. }
  mstep H3 u3 w3.
  assert (Hpid : Str.TrimSpace (Router.ProxyID route) = id).
  { subst route. unfold Router.resolveReverseProxyRouteForAuth.
    rewrite withID_ProxyID. apply TrimSpace_idem. }
  apply (run_ban_footprint env id _ _ _ _ Hpid) in H3.
  pose proof (footprint_trans _ _ _ _ _ _ _ _ H02 H3) as H03. cbn [andb app] in H03.
  clear H02 H3.
  unfold cacheHelper. destruct (url_Parse originalURL) as [po|] eqn:Hparse.
  2:{ exfalso. subst route.
      destruct (proxied_parses _ _ _ _ _ _ Hprox) as [pp Hu]. rewrite Hu in Hparse.
      discriminate. }
  mstep H4 u4 w4. apply run_headers_footprint in H4. fold id in H4.
  mstep H5 r2 w5. apply (run_Do_footprint env id true) in H5 as [_ H5].
  pose proof (footprint_trans _ _ _ _ _ _ _ _ H03
                (footprint_trans _ _ _ _ _ _ _ _ H4 H5)) as H05.
  cbn [andb app] in H05. clear H03 H4 H5.
  destruct r2 as [e | resp2].
  { exists [SpecExec.POST (Router.URL route); SpecExec.POST originalURL], [], false.
    split; [exact H05 |]. split; [by left |]. right. done. }
  destruct (negb (is2xx (StatusCode resp2))).
  2:{ exists [SpecExec.POST (Router.URL route); SpecExec.POST originalURL], [], false.
      split; [exact H05 |]. split; [by left |]. right. done. }
  mstep H6 sErr w6. apply (newCodexStatusErr_footprint env id) in H6 as (gs & Hgs & H6).
  pose proof (footprint_trans _ _ _ _ _ _ _ _ H05 H6) as H06. cbn [andb] in H06.
  exists [SpecExec.POST (Router.URL route); SpecExec.POST originalURL], gs, false.
  split; [exact H06 |]. split; [exact Hgs |]. right. done.
Qed.

Lemma posts_POST (u : string) (l : list Request) :
  SpecExec.posts (SpecExec.POST u :: l) = SpecExec.POST u :: SpecExec.posts l.
Proof. reflexivity. Qed.

Lemma posts_usageGET (l : list Request) :
  SpecExec.posts (SpecExt.usageGET :: l) = SpecExec.posts l.
Proof. reflexivity. Qed.

Lemma posts_budget (ps gs : list Request) (u1 u2 : string) :
  ps = [] ∨ ps = [SpecExec.POST u1] ∨ ps = [SpecExec.POST u1; SpecExec.POST u2] →
  gs = [] ∨ gs = [SpecExt.usageGET] →
  (length (SpecExec.posts (ps ++ gs)) ≤ 2)%nat
  ∧ (ps ≠ [SpecExec.POST u1; SpecExec.POST u2] → (length (SpecExec.posts (ps ++ gs)) < 2)%nat)
  ∧ (ps = [SpecExec.POST u1; SpecExec.POST u2] → length (SpecExec.posts (ps ++ gs)) = 2%nat).
Proof.
  intros [-> | [-> | ->]] [-> | ->]; cbn [app];
    rewrite ?posts_POST, ?posts_usageGET; cbn [SpecExec.posts List.filter length];
    (split; [lia |]); (split; [intros H; try lia; by destruct H | intros H; try done]);
    discriminate H.
Qed.

(** X12. The requests of one run.  A run of [Execute] that is not a
    compaction sends, in this order: at most one POST to the URL of its
    route; after it, and only on a proxied route, at most one POST to the
    original URL; and last at most one GET of the usage endpoint.
    Nothing else is sent, so a run never makes more than two upstream
    calls. *)
Theorem Execute_sends_at_most_two_upstream_calls
    (cfg : option config.Config) (auth : option cliproxyauth.Auth) (input : ExecInput)
    (w : World) :
  Alt input ≠ "responses/compact"%string →
  let originalURL := SpecExec.originalURL auth in
  let route :=
    (Router.resolveReverseProxyRouteForAuth (time_Now env (clockReads w)) cfg auth "codex"
       originalURL (bannedTill w)).1 in
  ∃ ps gs,
    trace (Execute env cfg auth input w).2 = trace w ++ ps ++ gs
    ∧ (ps = [] ∨ ps = [SpecExec.POST (Router.URL route)]
       ∨ (Router.Proxied route = true
          ∧ ps = [SpecExec.POST (Router.URL route); SpecExec.POST originalURL]))
    ∧ (gs = [] ∨ gs = [SpecExt.usageGET])
    ∧ (length (SpecExec.posts (ps ++ gs)) ≤ 2)%nat.
Proof.
  intros HAlt originalURL route.
  destruct (Execute_run cfg auth input w HAlt) as (ps & gs & q & Hfp & Hgs & Hps).
  fold originalURL route in Hps.
  exists ps, gs. split; [apply Hfp |].
  assert (Hshape : ps = [] ∨ ps = [SpecExec.POST (Router.URL route)]
            ∨ (Router.Proxied route = true
               ∧ ps = [SpecExec.POST (Router.URL route); SpecExec.POST originalURL])).
  { destruct Hps as [[_ [H | H]] | H]; [by left | by right; left | by right; right]. }
  split; [exact Hshape |]. split; [exact Hgs |].
  apply (posts_budget ps gs (Router.URL route) originalURL); [| exact Hgs].
  destruct Hshape as [H | [H | [_ H]]]; auto.
Qed.

(** X13. The breaker entries one run can touch.  Whatever the upstream
    answers, a run of [Execute] leaves the breaker entry of every proxy
    other than the one it routes through as it was; on a route that is
    not proxied, and on any run that did not make its second upstream
    call, the breaker has gained nothing: it holds a subset of the
    entries it held. *)
Theorem Execute_touches_only_its_own_breaker_entry
    (cfg : option config.Config) (auth : option cliproxyauth.Auth) (input : ExecInput)
    (w : World) :
  Alt input ≠ "responses/compact"%string →
  let id := Str.TrimSpace (Router.routeProxyID cfg auth "codex") in
  let route :=
    (Router.resolveReverseProxyRouteForAuth (time_Now env (clockReads w)) cfg auth "codex"
       (SpecExec.originalURL auth) (bannedTill w)).1 in
  let out := Execute env cfg auth input w in
  (∀ k, k ≠ id → bannedTill out.2 !! k = bannedTill w !! k)
  ∧ (Router.Proxied route = false → bannedTill out.2 ⊆ bannedTill w)
  ∧ ((length (SpecExec.posts (drop (length (trace w)) (trace out.2))) < 2)%nat →
     bannedTill out.2 ⊆ bannedTill w).
Proof.
  intros HAlt id route out. subst out.
  destruct (Execute_run cfg auth input w HAlt) as (ps & gs & q & Hfp & Hgs & Hps).
  fold id in Hfp. fold route in Hps. destruct Hfp as (Ht & Hk & Hq).
  split; [exact Hk |]. split.
  { intros Hdirect. destruct Hps as [[-> _] | [Hp _]]; [by apply Hq | congruence]. }
  rewrite Ht, drop_app_length.
  destruct Hps as [[-> _] | [_ Hps]]; [intros _; by apply Hq |].
  intros Hlt. subst route.
  destruct (posts_budget ps gs
              (Router.URL (Router.resolveReverseProxyRouteForAuth
                             (time_Now env (clockReads w)) cfg auth "codex"
                             (SpecExec.originalURL auth) (bannedTill w)).1)
              (SpecExec.originalURL auth)) as (_ & _ & Heq); [auto | exact Hgs |].
  rewrite (Heq Hps) in Hlt. lia.
Qed.

(** X14. Compaction goes direct.  With [opts.Alt] set to
    responses/compact, [Execute] sends at most one POST, to the
    compaction endpoint of the credential's base URL, whatever proxy the
    routing table names, followed at most by the GET of the usage
    endpoint; it bans nothing; and [ExecuteStream] refuses the request
    with status 400 before it reads the clock or sends anything. *)
Theorem compact_requests_bypass_the_proxy
    (cfg : option config.Config) (auth : option cliproxyauth.Auth) (input : ExecInput)
    (w : World) :
  Alt input = "responses/compact"%string →
  let out := Execute env cfg auth input w in
  (∃ ps gs,
     trace out.2 = trace w ++ ps ++ gs
     ∧ (ps = [] ∨ ps = [SpecExec.POST (SpecExt.compactURL auth)])
     ∧ (gs = [] ∨ gs = [SpecExt.usageGET]))
  ∧ bannedTill out.2 ⊆ bannedTill w
  ∧ CodexExt.ExecuteStream env cfg auth input w
    = (CodexExt.StreamErr (ErrStatus CodexExt.compactStreamErr), w).
Proof.
  intros HAlt out. subst out.
  unfold Execute, CodexExt.ExecuteStream. rewrite HAlt, eqb_refl.
  destruct (executeCompact_run cfg auth input w) as (ps & gs & (Ht & Hk & Hq) & Hps & Hgs).
  split; [by exists ps, gs |]. split; [by apply Hq | done].
Qed.

End ExecuteRuns.

Ltac mstep2 H a w1 :=
  lazymatch goal with
  | |- context [Codex.bind ?m _ ?w] =>
      destruct (m w) as [a w1] eqn:H; rewrite !(bind_run m _ w w1 a H)
  end.

(** ** [ExecuteStream] beside [Execute] *)

Section StreamFacts.
Context {GL : GoLib} {AL : AuthLib} {TL : Codex.Translators} (env : Codex.Env).
Import Codex CodexExt.

(** X15. The two entry points make the same run.  As long as the body
    of every answer outside the 2xx range can be read, [ExecuteStream]
    and [Execute] started in the same world with the same arguments
    read the clock alike, send the same requests, leave the same
    breaker, and end alike: on the same error, or, when [ExecuteStream]
    hands back an open answer, on what [Execute] makes of that answer.
    So the one direct retry and the ban of the failing proxy hold for
    streaming requests too. *)
Theorem ExecuteStream_runs_like_Execute
    (cfg : option config.Config) (auth : option cliproxyauth.Auth) (input : ExecInput)
    (w : World) :
  Alt input ≠ "responses/compact"%string →
  (∀ k r resp, http_Do env k r = DoResp resp → is2xx (StatusCode resp) = false →
               BodyErr resp = None) →
  (ExecuteStream env cfg auth input w).2 = (Execute env cfg auth input w).2
  ∧ SpecExt.sameOutcome (ExecuteStream env cfg auth input w).1
                        (Execute env cfg auth input w).1.
Proof.
  intros HAlt Hread.
  unfold ExecuteStream, Execute. rewrite (proj2 (eqb_false _ _) HAlt).
  destruct (codexCreds auth) as [apiKey baseURL].
  set (originalURL := (Str.TrimSuffix _ "/" ++ "/responses")%string).
  destruct (ApplyThinkingErr input) as [e|]; [done |].
  mstep2 H0 route w0.
  unfold cacheHelper. destruct (url_Parse (Router.URL route)) as [pu|]; [| done].
  mstep2 H1 u1 w1.
  mstep2 H2 r w2. apply (run_Do_footprint env EmptyString true) in H2 as [Hr _].
  destruct r as [e | resp]; [done |].
  destruct (is2xx (StatusCode resp)) eqn:H2xx; cbn [negb]; [done |].
  rewrite (Hread _ _ _ (eq_sym Hr) H2xx).
  destruct (Router.Proxied route && Router.shouldBanReverseProxyOnError _ _).
  2:{ mstep2 H3 sErr w3. done. }
  mstep2 H3 u3 w3.
  destruct (url_Parse originalURL) as [po|]; [| done].
  mstep2 H4 u4 w4.
  mstep2 H5 r2 w5. apply (run_Do_footprint env EmptyString true) in H5 as [Hr2 _].
  destruct r2 as [e | resp2]; [done |].
  destruct (is2xx (StatusCode resp2)) eqn:H2xx'; cbn [negb]; [done |].
  rewrite (Hread _ _ _ (eq_sym Hr2) H2xx').
  mstep2 H6 sErr w6. done.
Qed.

(** X16. A body that cannot be read ends a streaming run.  When the
    first answer of [ExecuteStream] lies outside the 2xx range and
    reading its body fails, the run ends on that read error: the
    request to the route's URL is the only one sent, the status and the
    bytes read are not looked at, so no ban is placed and the direct
    retry is not made, whether or not the route is proxied.  ([Execute]
    drops the read error and goes on with the bytes it got.) *)
Theorem ExecuteStream_read_error_ends_the_run
    (cfg : option config.Config) (auth : option cliproxyauth.Auth) (input : ExecInput)
    (w : World) (r1 : Response) (readErr : string) :
  let n := clockReads w in
  let resolved :=
    Router.resolveReverseProxyRouteForAuth (time_Now env n) cfg auth "codex"
      (SpecExec.originalURL auth) (bannedTill w) in
  let route := resolved.1 in
  Alt input ≠ "responses/compact"%string →
  ApplyThinkingErr input = None →
  is_Some (url_Parse (Router.URL route)) →
  http_Do env (httpCalls w) (SpecExec.POST (Router.URL route)) = DoResp r1 →
  is2xx (StatusCode r1) = false →
  BodyErr r1 = Some readErr →
  ExecuteStream env cfg auth input w
  = (StreamErr (ErrOther readErr),
     mkWorld (Router.applyReverseProxyHeaders (time_Now env (S n)) cfg auth "codex" resolved.2)
             (S (S n)) (S (httpCalls w)) (trace w ++ [SpecExec.POST (Router.URL route)]))
  ∧ bannedTill (ExecuteStream env cfg auth input w).2 ⊆ bannedTill w.
Proof.
  intros n resolved route HAlt Hthink [pu Hparse] Hdo H2xx Herr.
  assert (Hrun : ExecuteStream env cfg auth input w
    = (StreamErr (ErrOther readErr),
       mkWorld (Router.applyReverseProxyHeaders (time_Now env (S n)) cfg auth "codex"
                  resolved.2)
               (S (S n)) (S (httpCalls w)) (trace w ++ [SpecExec.POST (Router.URL route)]))).
  { unfold ExecuteStream. rewrite (proj2 (eqb_false _ _) HAlt).
    subst route resolved. unfold SpecExec.originalURL in *.
    destruct (codexCreds auth) as [apiKey baseURL]. cbn [snd] in *.
    rewrite Hthink.
    rewrite (bind_run _ _ _ _ _ (run_resolveRouteM _ _ _ _ _ w)). fold n. cbv zeta.
    unfold cacheHelper at 1. rewrite Hparse.
    rewrite (bind_run _ _ _ _ _ (run_applyHeadersM _ _ _ _ _)).
    rewrite (bind_run _ _ _ _ _ (run_Do _ _ _)).
    cbn [bannedTill clockReads httpCalls trace].
    unfold SpecExec.POST in Hdo. rewrite Hdo, H2xx. cbn [negb]. rewrite Herr.
    reflexivity. }
  split; [exact Hrun |]. rewrite Hrun. cbn [snd bannedTill].
  transitivity resolved.2.
  - apply (applyHeaders_footprint (time_Now env (S n)) cfg auth "codex" resolved.2).
  - subst resolved. unfold Router.resolveReverseProxyRouteForAuth.
    apply (withID_footprint (time_Now env n) cfg (Router.routeProxyID cfg auth "codex")
             "codex" (SpecExec.originalURL auth) (bannedTill w)).
Qed.

End StreamFacts.

(** ** Token refresh *)

Section RefreshFacts.
Context {RL : CodexExt.RefreshLib}.
Import cliproxyauth Codex CodexExt.

Lemma getAnyStr_insert (md : gmap string anyv) (k k' : string) (v : string) :
  getAnyStr (Some (<[ k := AString v ]> md)) k'
  = if decide (k = k') then Some v else getAnyStr (Some md) k'.
Proof.
  unfold getAnyStr. cbn [mbind option_bind].
  destruct (decide (k = k')) as [-> | Hne].
  - by rewrite lookup_insert_eq.
  - by rewrite lookup_insert_ne.
Qed.

Lemma refreshedMetadata_other (now : Z) (md : gmap string anyv) (td : CodexTokenData)
    (k : string) :
  k ∉ SpecExt.refreshKeys → refreshedMetadata now md td !! k = md !! k.
Proof.
  unfold SpecExt.refreshKeys. rewrite !not_elem_of_cons.
  intros (H1 & H2 & H3 & H4 & H5 & H6 & H7 & H8 & _).
  unfold refreshedMetadata. cbv zeta.
  rewrite !lookup_insert_ne by done.
  destruct (negb (Str.eqb (AccountID td) EmptyString)); [rewrite lookup_insert_ne by done |];
    (destruct (negb (Str.eqb (RefreshToken td) EmptyString));
     [rewrite lookup_insert_ne by done |]); by rewrite !lookup_insert_ne by done.
Qed.

Lemma refreshedMetadata_tokens (now : Z) (md : gmap string anyv) (td : CodexTokenData) :
  let md' := Some (refreshedMetadata now md td) in
  getAnyStr md' "id_token" = Some (IDToken td)
  ∧ getAnyStr md' "access_token" = Some (AccessToken td)
  ∧ getAnyStr md' "refresh_token"
    = (if Str.eqb (RefreshToken td) EmptyString then getAnyStr (Some md) "refresh_token"
       else Some (RefreshToken td))
  ∧ getAnyStr md' "email" = Some (Email td)
  ∧ getAnyStr md' "expired" = Some (Expire td)
  ∧ getAnyStr md' "type" = Some "codex"%string
  ∧ getAnyStr md' "last_refresh" = Some (time_FormatRFC3339 now).
Proof.
  cbv zeta. unfold refreshedMetadata. cbv zeta.
  destruct (Str.eqb (RefreshToken td) EmptyString), (Str.eqb (AccountID td) EmptyString);
    cbn [negb]; rewrite !getAnyStr_insert; repeat split; reflexivity.
Qed.

(** X17. What a refresh changes.  A credential without a refresh token
    that is not empty comes back as it is, whatever the token service
    would answer; a failure of the service is handed on as the error.
    After a successful refresh the credential carries the new identity
    and access tokens, e-mail, expiry, the type codex and the formatted
    time of the refresh; its refresh token is the new one if the service
    sent one that is not empty and the one it had otherwise, so it is
    never empty and the credential can be refreshed again; every other
    metadata entry and every field outside the metadata is as before. *)
Theorem Refresh_keeps_the_credential_refreshable (now : Z) (a : Auth) :
  let rt := getAnyStr (Metadata a) "refresh_token" in
  (rt = None ∨ rt = Some EmptyString → Refresh now (Some a) = inl a)
  ∧ (∀ t e, rt = Some t → t ≠ EmptyString → RefreshTokensWithRetry t = inr e →
       Refresh now (Some a) = inr (ErrOther e))
  ∧ (∀ t td, rt = Some t → t ≠ EmptyString → RefreshTokensWithRetry t = inl td →
       ∃ a', Refresh now (Some a) = inl a'
         ∧ a' = withMetadata a (default ∅ (Metadata a') )
         ∧ getAnyStr (Metadata a') "id_token" = Some (IDToken td)
         ∧ getAnyStr (Metadata a') "access_token" = Some (AccessToken td)
         ∧ (∃ t', getAnyStr (Metadata a') "refresh_token" = Some t' ∧ t' ≠ EmptyString
                  ∧ t' = if Str.eqb (RefreshToken td) EmptyString then t else RefreshToken td)
         ∧ getAnyStr (Metadata a') "email" = Some (Email td)
         ∧ getAnyStr (Metadata a') "expired" = Some (Expire td)
         ∧ getAnyStr (Metadata a') "type" = Some "codex"%string
         ∧ getAnyStr (Metadata a') "last_refresh" = Some (time_FormatRFC3339 now)
         ∧ ∀ k, k ∉ SpecExt.refreshKeys →
                Metadata a' ≫= (fun md => md !! k) = Metadata a ≫= (fun md => md !! k)).
Proof.
  intros rt. subst rt. unfold Refresh.
  split; [| split].
  - intros [-> | ->]; [reflexivity |]. by rewrite eqb_refl.
  - intros t e -> Ht He. rewrite (proj2 (eqb_false _ _) Ht). cbn [negb].
    rewrite (proj2 (eqb_false _ _) Ht). by rewrite He.
  - intros t td Hrt Ht Htd. rewrite Hrt. rewrite (proj2 (eqb_false _ _) Ht). cbn [negb].
    rewrite (proj2 (eqb_false _ _) Ht), Htd.
    set (md' := refreshedMetadata now (default ∅ (Metadata a)) td).
    exists (withMetadata a md'). split; [reflexivity |].
    change (Metadata (withMetadata a md')) with (Some md').
    destruct (refreshedMetadata_tokens now (default ∅ (Metadata a)) td)
      as (H1 & H2 & H3 & H4 & H5 & H6 & H7). fold md' in H1, H2, H3, H4, H5, H6, H7.
    split; [reflexivity |]. do 2 (split; [done |]).
    assert (Hold : getAnyStr (Some (default ∅ (Metadata a))) "refresh_token" = Some t).
    { destruct (Metadata a); [exact Hrt | discriminate]. }
    split.
    { rewrite H3, Hold. case_eqb (RefreshToken td) EmptyString Hnew; by eexists. }
    do 4 (split; [done |]).
    intros k Hk. cbn [mbind option_bind]. subst md'.
    rewrite (refreshedMetadata_other _ _ _ _ Hk).
    destruct (Metadata a); [reflexivity |]. cbn [default from_option mbind option_bind].
    unfold id. by rewrite lookup_empty.
Qed.

End RefreshFacts.

(** ** The cooldown detector, continued *)

Section QuotaMoreFacts.
Context {GL : GoLib}.
Import Codex.

Lemma windowCandidate_reason (w : gjson.Result) (pl : bool) (r : string) (now : Z)
    (c : candidate) :
  c ∈ SpecQuota.windowCandidate w pl r now → reason c = r.
Proof.
  unfold SpecQuota.windowCandidate.
  destruct (_ && _); [| by inversion 1].
  destruct (SpecQuota.recovery w now) as [t|]; [| by inversion 1].
  destruct (now <? t); [| by inversion 1].
  intros H. apply list_elem_of_singleton in H. by subst c.
Qed.

Lemma resolveReason_cases (w : gjson.Result) (p s : string) :
  SpecQuota.tag w p s = p ∨ SpecQuota.tag w p s = s.
Proof. unfold SpecQuota.tag. destruct (SpecQuota.declaresLong w); auto. Qed.

Lemma sectionCandidates_reason (rl : gjson.Result) (p s : string) (now : Z) (c : candidate) :
  c ∈ SpecQuota.sectionCandidates rl p s now → reason c = p ∨ reason c = s.
Proof.
  unfold SpecQuota.sectionCandidates.
  destruct (_ && _); [| by inversion 1]. cbv zeta. rewrite !elem_of_app.
  intros [H | [H | [H | H]]]; apply windowCandidate_reason in H; rewrite H;
    try (by right); apply resolveReason_cases.
Qed.

(** X10. The answer of the cooldown detector is well formed.  When
    [codexQuotaRecoverAt] reports a cooldown, its reason is one of the
    three tags codex_5h_limit, codex_weekly_limit and
    codex_code_review_limit, its time lies strictly after now, and time
    and reason are those of one limiting window of the payload; when it
    reports none, the payload has no limiting window and the answer is
    the zero time with the empty reason. *)
Theorem codexQuotaRecoverAt_answer_is_well_formed (payload : string) (now : Z) :
  match codexQuotaRecoverAt payload now with
  | (t, r, true) =>
      r ∈ SpecExt.reasonTags ∧ now < t
      ∧ ∃ c, c ∈ SpecQuota.limitingCandidates (gjson_Parse payload) now
             ∧ resetAt c = t ∧ reason c = r
  | (t, r, false) =>
      t = Time.zero ∧ r = EmptyString
      ∧ SpecQuota.limitingCandidates (gjson_Parse payload) now = []
  end.
Proof.
  unfold codexQuotaRecoverAt. cbv zeta. rewrite quotaCandidates_spec.
  destruct (SpecQuota.limitingCandidates (gjson_Parse payload) now) as [|first rest] eqn:Hc;
    [done |].
  destruct (pickEarliest_acc rest first) as (Hin & _ & _).
  assert (Hmem : pickEarliest first rest ∈ first :: rest).
  { destruct Hin as [-> | H]; [by left | by right]. }
  split; [| split; [| exists (pickEarliest first rest); done]]; rewrite <- Hc in Hmem;
    [| by apply (limitingCandidates_after _ _ _ Hmem)].
  unfold SpecQuota.limitingCandidates in Hmem. rewrite !elem_of_app in Hmem.
  unfold SpecExt.reasonTags. rewrite !elem_of_cons.
  destruct Hmem as [H | [H | [H | H]]]; apply sectionCandidates_reason in H; tauto.
Qed.

(** X11. The Retry-After duration.  Whenever [parseRetryAfterHeader]
    yields a duration, the trimmed header is either an integer number
    of seconds above zero, and the duration is that many seconds as
    long as they fit a [Duration] (up to 9223372036 seconds; beyond, the
    product wraps around), or it is not such a number and is an HTTP
    date after now, and the duration is the time left until it.  In
    both cases, wrap-around aside, the duration is above zero. *)
Theorem parseRetryAfterHeader_yields_positive_durations
    (now : Z) (headers : Header) (d : Z) :
  parseRetryAfterHeader now headers = Some d →
  let raw := Str.TrimSpace (Header_Get headers "Retry-After") in
  raw ≠ EmptyString
  ∧ ((∃ seconds, Atoi raw = Some seconds ∧ 0 < seconds
                 ∧ d = Time.wrap64 (seconds * Time.Second)
                 ∧ (seconds ≤ 9223372036 → d = seconds * Time.Second ∧ 0 < d))
     ∨ (∃ retryAt, http_ParseTime raw = Some retryAt
                   ∧ (∀ seconds, Atoi raw = Some seconds → seconds ≤ 0)
                   ∧ d = Time.Sub retryAt now ∧ 0 < d)).
Proof.
  unfold parseRetryAfterHeader.
  destruct (bool_decide _); [intros [=] |]. cbv zeta.
  set (raw := Str.TrimSpace (Header_Get headers "Retry-After")).
  case_eqb raw EmptyString Hraw; [intros [=] |].
  intros H. split; [exact Hraw |].
  assert (Hdate : ∀ (Hnum : ∀ seconds, Atoi raw = Some seconds → seconds ≤ 0),
            match http_ParseTime raw with
            | Some retryAt =>
                if Time.Sub retryAt now <=? 0 then None else Some (Time.Sub retryAt now)
            | None => None
            end = Some d →
            ∃ retryAt, http_ParseTime raw = Some retryAt
                       ∧ (∀ seconds, Atoi raw = Some seconds → seconds ≤ 0)
                       ∧ d = Time.Sub retryAt now ∧ 0 < d).
  { intros Hnum. destruct (http_ParseTime raw) as [retryAt|]; [| intros [=]].
    destruct (Z.leb_spec (Time.Sub retryAt now) 0); [intros [=] |].
    intros [= <-]. by exists retryAt. }
  destruct (Atoi raw) as [seconds|] eqn:Ha.
  - destruct (Z.ltb_spec 0 seconds) as [Hpos | Hle].
    + injection H as <-. left. exists seconds. do 3 (split; [done |]).
      intros Hfit. unfold Time.wrap64, Time.Second in *.
      rewrite Z.mod_small by lia. lia.
    + right. apply Hdate; [| exact H]. intros s [= <-]. exact Hle.
  - right. apply Hdate; [| exact H]. intros s [=].
Qed.

End QuotaMoreFacts.

Section StatusReasonFacts.
Context {GL : GoLib} {AL : AuthLib} {TL : Codex.Translators} (env : Codex.Env).
Import Codex.

Lemma recover_reason_tag (payload : string) (now t : Z) (r : string) :
  codexQuotaRecoverAt payload now = (t, r, true) → r ∈ SpecExt.reasonTags.
Proof.
  unfold codexQuotaRecoverAt. cbv zeta. rewrite quotaCandidates_spec.
  destruct (SpecQuota.limitingCandidates (gjson_Parse payload) now) as [|first rest] eqn:Hc;
    [intros [=] |].
  intros [= _ <-].
  destruct (pickEarliest_acc rest first) as (Hin & _ & _).
  assert (Hmem : pickEarliest first rest ∈ first :: rest).
  { destruct Hin as [-> | H]; [by left | by right]. }
  rewrite <- Hc in Hmem.
  unfold SpecQuota.limitingCandidates in Hmem. rewrite !elem_of_app in Hmem.
  unfold SpecExt.reasonTags. rewrite !elem_of_cons.
  destruct Hmem as [H | [H | [H | H]]]; apply sectionCandidates_reason in H; tauto.
Qed.

Lemma fetch_reason_tag (auth : option cliproxyauth.Auth) (w : World)
    (h : codexQuotaCooldownHint) :
  (fetchCodexQuotaCooldownHint env auth w).1 = (h, true) → hintReason h ∈ SpecExt.reasonTags.
Proof.
  unfold fetchCodexQuotaCooldownHint, noHint.
  destruct auth as [a|]; [| intros [=]].
  destruct (Str.eqb _ _); [intros [=] |].
  destruct (url_Parse codexUsageURL); [| intros [=]].
  unfold bind, Do, ret, Now. cbn [fst snd].
  destruct (http_Do env (httpCalls w) _) as [e | resp]; [intros [=] |].
  destruct (_ || _); [intros [=] |].
  destruct (BodyErr resp); [intros [=] |]. cbn [fst snd clockReads].
  unfold hintFromUsageBody.
  destruct (bool_decide _); [intros [=] |].
  destruct (codexQuotaRecoverAt (Body resp) _) as [[retryAt reason] ok] eqn:Hq.
  destruct (negb ok || _ || _) eqn:Hg; [intros [=] |].
  intros [= <-]. cbn [hintReason].
  destruct ok; [| discriminate]. by apply recover_reason_tag in Hq.
Qed.

(** X9. The quota reason of a status error.  The reason
    [newCodexStatusErr] attaches to an error is empty or one of the
    three tags of the cooldown detector, and it is empty for every
    status other than 429; an error with a reason always carries a
    retry-after duration, and that duration is above zero. *)
Theorem newCodexStatusErr_reason_is_a_known_tag
    (auth : option cliproxyauth.Auth) (statusCode : Z) (body : string) (headers : Header)
    (w : World) :
  let sErr := (newCodexStatusErr env auth statusCode body headers w).1 in
  (quotaReason sErr = EmptyString
   ∨ (quotaReason sErr ∈ SpecExt.reasonTags ∧ statusCode = 429
      ∧ ∃ d, retryAfter sErr = Some d ∧ 0 < d)).
Proof.
  cbv zeta. unfold newCodexStatusErr.
  destruct (Z.eqb_spec statusCode 429) as [-> | Hne]; cbn [negb]; [| by left].
  unfold bind, Now, ret.
  destruct (fetchCodexQuotaCooldownHint env auth _) as [[h ok] w2] eqn:Hf. cbn [fst].
  destruct ok.
  - right.
    assert (Hf1 : (fetchCodexQuotaCooldownHint env auth
                     (mkWorld (bannedTill w) (S (clockReads w)) (httpCalls w) (trace w))).1
                  = (h, true)) by (by rewrite Hf).
    pose proof (fetch_reason_tag _ _ _ Hf1) as Htag.
    pose proof (fetch_positive env _ _ _ Hf1) as Hpos.
    unfold applyHint. rewrite (proj2 (Z.ltb_lt _ _) Hpos). cbn [quotaReason retryAfter].
    split; [exact Htag |]. split; [reflexivity |]. by exists (hintRetryAfter h).
  - left. unfold applyHint. by destruct (parseRetryAfterHeader _ headers).
Qed.

End StatusReasonFacts.

(** ** Client-key authentication, continued *)

#[local] Set Warnings "-clear-no-such-hyp".

Section AuthMoreFacts.
Context {GL : GoLib} (DefaultAccessProviderName : string).
Import configaccess.

Lemma loop_none (now : Z) (p : provider) (cs : list (string * string)) :
  List.find (fun c => negb (Str.eqb c.1 EmptyString) && bool_decide (c.1 ∈ keys p)) cs = None →
  authenticateLoop DefaultAccessProviderName now p cs = ErrInvalidCredential.
Proof.
  induction cs as [|[v s] cs IH]; [reflexivity |].
  cbn [List.find authenticateLoop fst].
  destruct (Str.eqb v EmptyString); cbn [negb andb]; [exact IH |].
  destruct (bool_decide (v ∈ keys p)); [intros [=] | exact IH].
Qed.

Lemma rawCredentials_empty (r : HttpRequest) :
  let h k := Header_Get (ReqHeader r) k in
  let q k := match ReqQuery r with
             | Some v => Header_Get v k
             | None => EmptyString
             end in
  Str.eqb (h "Authorization") EmptyString && Str.eqb (h "X-Goog-Api-Key") EmptyString
  && Str.eqb (h "X-Api-Key") EmptyString && Str.eqb (q "key") EmptyString
  && Str.eqb (q "auth_token") EmptyString = true
  ↔ Forall (fun v => v = EmptyString) (SpecExt.rawCredentials r).
Proof.
  cbv zeta. unfold SpecExt.rawCredentials. rewrite !andb_true_iff, !eqb_true.
  rewrite !Forall_cons. split.
  - intros ((((H1 & H2) & H3) & H4) & H5). repeat split; done.
  - intros (H1 & H2 & H3 & H4 & H5 & _). done.
Qed.

(** The four stages of [Authenticate]. *)
Lemma Authenticate_cases (now : Z) (p : provider) (r : HttpRequest) :
  Authenticate DefaultAccessProviderName now (Some p) r
  = if bool_decide (keys p = ∅) then ErrNotHandled
    else if bool_decide (Forall (fun v => v = EmptyString) (SpecExt.rawCredentials r))
    then ErrNoCredentials
    else match SpecAuthn.presented p r with
         | None => ErrInvalidCredential
         | Some (value, source) =>
             match SpecAuthn.expiryOf p value with
             | Some exp =>
                 if negb (Time.IsZero exp) && negb (Time.After exp now)
                 then ErrExpiredCredential
                 else Authenticated (Identifier DefaultAccessProviderName (Some p)) value source
             | None => Authenticated (Identifier DefaultAccessProviderName (Some p)) value source
             end
         end.
Proof.
  unfold Authenticate.
  rewrite (bool_decide_ext _ _ (size_zero_empty (keys p))).
  destruct (bool_decide (keys p = ∅)); [reflexivity |]. cbv zeta.
  pose proof (rawCredentials_empty r) as Hraw. cbv zeta in Hraw.
  destruct (_ && _) eqn:Hall.
  - rewrite bool_decide_eq_true_2 by (by apply Hraw). reflexivity.
  - rewrite bool_decide_eq_false_2.
    2:{ intros H. apply Hraw in H. congruence. }
    unfold SpecAuthn.presented.
    destruct (List.find _ (candidates r)) as [[value source]|] eqn:Hf.
    + apply loop_presented. exact Hf.
    + apply loop_none. exact Hf.
Qed.

Lemma accepted_presented (now : Z) (p : option provider) (r : HttpRequest)
    (n principal source : string) :
  Authenticate DefaultAccessProviderName now p r = Authenticated n principal source →
  ∃ pp, p = Some pp
    ∧ SpecAuthn.presented pp r = Some (principal, source)
    ∧ n = Identifier DefaultAccessProviderName p
    ∧ ∀ exp, SpecAuthn.expiryOf pp principal = Some exp → exp = Time.zero ∨ now < exp.
Proof.
  destruct p as [pp|]; [| intros [=]].
  rewrite Authenticate_cases.
  destruct (bool_decide (keys pp = ∅)); [intros [=] |].
  destruct (bool_decide _); [intros [=] |].
  destruct (SpecAuthn.presented pp r) as [[value src]|] eqn:Hp; [| intros [=]].
  intros H. exists pp.
  assert (Hres : Authenticated n principal source
                 = Authenticated (Identifier DefaultAccessProviderName (Some pp)) value src
                 ∧ ∀ exp, SpecAuthn.expiryOf pp value = Some exp → exp = Time.zero ∨ now < exp).
  { destruct (SpecAuthn.expiryOf pp value) as [exp|]; [| split; [done | intros ? [=]]].
    destruct (negb (Time.IsZero exp) && negb (Time.After exp now)) eqn:Hx; [discriminate |].
    split; [done |]. intros ? [= <-].
    apply andb_false_iff in Hx as [Hx | Hx]; apply negb_false_iff in Hx.
    - left. unfold Time.IsZero in Hx. by apply Z.eqb_eq in Hx.
    - right. unfold Time.After in Hx. by apply Z.ltb_lt in Hx. }
  destruct Hres as [[= -> -> ->] Hexp]. done.
Qed.

Lemma presented_key (pp : provider) (r : HttpRequest) (value source : string) :
  SpecAuthn.presented pp r = Some (value, source) →
  value ∈ keys pp ∧ value ≠ EmptyString ∧ (value, source) ∈ candidates r.
Proof.
  intros Hf. unfold SpecAuthn.presented in Hf.
  apply List.find_some in Hf as [Hin Htest]. cbn [fst] in Htest.
  apply andb_true_iff in Htest as [Hne Hk].
  apply negb_true_iff, eqb_false in Hne. apply bool_decide_eq_true in Hk.
  by apply list_elem_of_In in Hin.
Qed.

(** X18. Only a configured key authenticates.  Whenever [Authenticate]
    accepts a request, the principal it reports is one of the provider's
    keys and is not empty; it is the first of the request's five
    candidate values that is one of the keys, reported with the source
    of that candidate; the provider name is the provider's identifier;
    and any expiry held for the key is the zero time or lies strictly
    after now. *)
Theorem Authenticate_accepts_only_configured_keys
    (now : Z) (p : option provider) (r : HttpRequest) (n principal source : string) :
  Authenticate DefaultAccessProviderName now p r = Authenticated n principal source →
  ∃ pp, p = Some pp
    ∧ principal ∈ keys pp ∧ principal ≠ EmptyString
    ∧ (principal, source) ∈ candidates r
    ∧ SpecAuthn.presented pp r = Some (principal, source)
    ∧ n = Identifier DefaultAccessProviderName p
    ∧ ∀ exp, SpecAuthn.expiryOf pp principal = Some exp → exp = Time.zero ∨ now < exp.
Proof.
  intros H. destruct (accepted_presented _ _ _ _ _ _ H) as (pp & Hp & Hpres & Hn & Hexp).
  destruct (presented_key _ _ _ _ Hpres) as (Hk & Hne & Hin).
  exists pp. done.
Qed.

(** X19. What each rejection means.  [Authenticate] answers
    not-handled exactly when there is no provider or it has no key;
    no-credentials exactly when the provider has keys and the
    Authorization, X-Goog-Api-Key and X-Api-Key headers and the key and
    auth_token query parameters are all empty; invalid-credential
    exactly when something was sent and no candidate value is one of the
    keys; expired exactly when the first candidate that is one of the
    keys has an expiry other than the zero time that is not after now,
    whatever the later candidates are. *)
Theorem Authenticate_rejections (now : Z) (p : option provider) (r : HttpRequest) :
  let out := Authenticate DefaultAccessProviderName now p r in
  let sent := ¬ Forall (fun v => v = EmptyString) (SpecExt.rawCredentials r) in
  (out = ErrNotHandled ↔ p = None ∨ ∃ pp, p = Some pp ∧ keys pp = ∅)
  ∧ (out = ErrNoCredentials ↔ ∃ pp, p = Some pp ∧ keys pp ≠ ∅ ∧ ¬ sent)
  ∧ (out = ErrInvalidCredential
     ↔ ∃ pp, p = Some pp ∧ keys pp ≠ ∅ ∧ sent ∧ SpecAuthn.presented pp r = None)
  ∧ (out = ErrExpiredCredential
     ↔ ∃ pp value source exp,
         p = Some pp ∧ keys pp ≠ ∅ ∧ sent
         ∧ SpecAuthn.presented pp r = Some (value, source)
         ∧ SpecAuthn.expiryOf pp value = Some exp ∧ exp ≠ Time.zero ∧ exp ≤ now).
Proof.
  intros out sent. subst out sent.
  destruct p as [pp|].
  { rewrite Authenticate_cases.
    assert (Hexp : ∀ exp, negb (Time.IsZero exp) && negb (Time.After exp now) = true
                          ↔ exp ≠ Time.zero ∧ exp ≤ now).
    { intros exp. rewrite andb_true_iff, !negb_true_iff. unfold Time.IsZero, Time.After.
      rewrite Z.eqb_neq, Z.ltb_ge. done. }
    case_bool_decide as Hk; [naive_solver |].
    case_bool_decide as Hs; [naive_solver |].
    destruct (SpecAuthn.presented pp r) as [[value source]|] eqn:Hp; [| naive_solver].
    destruct (SpecAuthn.expiryOf pp value) as [exp|] eqn:Hx; [| naive_solver].
    destruct (negb (Time.IsZero exp) && negb (Time.After exp now)) eqn:Hb.
    - apply Hexp in Hb. naive_solver.
    - assert (Hnb : ¬ (exp ≠ Time.zero ∧ exp ≤ now)).
      { intros H. apply Hexp in H. congruence. }
      naive_solver. }
  cbn [Authenticate]. naive_solver.
Qed.

(** X20. The provider is what the configuration says.  The provider
    [newProvider] builds holds exactly the configured API keys that are
    not empty, as they are written; every expiry it holds comes from an
    entry of the expiry table whose trimmed key is that key and whose
    trimmed value parses as RFC3339 to that time; a configuration
    without a key that is not empty yields a provider that handles no
    request; and a principal it authenticates is literally one of the
    configured API keys. *)
Theorem newProvider_follows_the_configuration (cfg : AccessProvider) :
  let p := newProvider DefaultAccessProviderName cfg in
  (∀ k, k ∈ keys p ↔ k ∈ APIKeys cfg ∧ k ≠ EmptyString)
  ∧ (∀ key ts, SpecAuthn.expiryOf p key = Some ts →
       key ≠ EmptyString
       ∧ ∃ k v, (k, v) ∈ SpecAuthn.expiryEntries (SpecAuthn.rawExpiry cfg)
                ∧ Str.TrimSpace k = key
                ∧ time_ParseRFC3339 (Str.TrimSpace v) = Some ts)
  ∧ (Forall (fun k => k = EmptyString) (APIKeys cfg) →
     ∀ now r, Authenticate DefaultAccessProviderName now (Some p) r = ErrNotHandled)
  ∧ (∀ now r n principal source,
       Authenticate DefaultAccessProviderName now (Some p) r
       = Authenticated n principal source →
       principal ∈ APIKeys cfg).
Proof.
  intros p.
  assert (Hkeys : ∀ k, k ∈ keys p ↔ k ∈ APIKeys cfg ∧ k ≠ EmptyString).
  { intros k. subst p. unfold newProvider. cbn [keys]. rewrite keysFold_spec.
    split; [intros [H | H]; [by apply elem_of_empty in H | done] | by right]. }
  split; [exact Hkeys |]. split; [| split].
  - intros key ts. subst p. unfold SpecAuthn.expiryOf, newProvider. cbn [expiresAt].
    unfold parseExpiryMap.
    destruct (bool_decide (size (Config cfg) = 0%nat)); [intros [=] |].
    fold (SpecAuthn.rawExpiry cfg). cbv zeta.
    destruct (SpecAuthn.rawExpiry cfg) as [| v | v |];
      [intros [=] | | | intros [=]].
    + destruct (bool_decide (size _ = 0%nat)); [intros [=] |].
      cbn [mbind option_bind SpecAuthn.expiryEntries]. intros H.
      apply expiryFold_sound in H as [H | H]; [by rewrite lookup_empty in H | exact H].
    + destruct (bool_decide (size _ = 0%nat)); [intros [=] |].
      cbn [mbind option_bind SpecAuthn.expiryEntries]. rewrite foldl_any. intros H.
      apply expiryFold_sound in H as [H | H]; [by rewrite lookup_empty in H | exact H].
  - intros Hall now r. rewrite Authenticate_cases.
    rewrite bool_decide_eq_true_2; [reflexivity |].
    apply set_eq. intros k. rewrite Hkeys. split; [| by intros H; apply elem_of_empty in H].
    intros [Hin Hne]. rewrite Forall_forall in Hall. by specialize (Hall k Hin).
  - intros now r n principal source H.
    destruct (accepted_presented _ _ _ _ _ _ H) as (pp & [= <-] & Hpres & _).
    destruct (presented_key _ _ _ _ Hpres) as (Hk & _).
    by apply Hkeys in Hk as [Hin _].
Qed.

End AuthMoreFacts.

(** ** The management handlers *)

Section TableFacts.
Import SpecExt.

Lemma keepEntries_cons (keep : string → bool) (x : string * string)
    (l : list (string * string)) (acc : gmap string string) :
  keepEntries keep (x :: l) acc
  = keepEntries keep l
      (if Str.eqb (Str.TrimSpace x.1) EmptyString || Str.eqb (Str.TrimSpace x.2) EmptyString
       then acc
       else if negb (keep (Str.TrimSpace x.1)) then acc
            else <[ Str.TrimSpace x.1 := Str.TrimSpace x.2 ]> acc).
Proof. reflexivity. Qed.

(** One round of the loop: the entry is dropped, or stored trimmed. *)
Lemma keep_step (keep : string → bool) (x : string * string) (acc : gmap string string) :
  let acc' :=
    if Str.eqb (Str.TrimSpace x.1) EmptyString || Str.eqb (Str.TrimSpace x.2) EmptyString
    then acc
    else if negb (keep (Str.TrimSpace x.1)) then acc
         else <[ Str.TrimSpace x.1 := Str.TrimSpace x.2 ]> acc in
  (dropped keep x ∧ acc' = acc)
  ∨ (¬ dropped keep x ∧ Str.TrimSpace x.1 ≠ EmptyString ∧ Str.TrimSpace x.2 ≠ EmptyString
     ∧ keep (Str.TrimSpace x.1) = true
     ∧ acc' = <[ Str.TrimSpace x.1 := Str.TrimSpace x.2 ]> acc).
Proof.
  cbv zeta. unfold dropped.
  case_eqb (Str.TrimSpace x.1) EmptyString Hk; [left; by auto |].
  case_eqb (Str.TrimSpace x.2) EmptyString Hv; [left; by auto |]. cbn [orb].
  destruct (keep (Str.TrimSpace x.1)) eqn:Hkeep; cbn [negb]; [| left; by auto].
  right. split; [| done]. intros [H | [H | H]]; done.
Qed.

Lemma keepEntries_lookup (keep : string → bool) (l : list (string * string))
    (acc : gmap string string) (k v : string) :
  keepEntries keep l acc !! k = Some v →
  acc !! k = Some v
  ∨ ∃ k0 v0, (k0, v0) ∈ l ∧ Str.TrimSpace k0 = k ∧ Str.TrimSpace v0 = v
             ∧ k ≠ EmptyString ∧ v ≠ EmptyString ∧ keep k = true.
Proof.
  revert acc. induction l as [|[k0 v0] l IH]; intros acc; [by left |].
  rewrite keepEntries_cons. intros H. apply IH in H as [H | (k1 & v1 & Hin & H)].
  2:{ right. exists k1, v1. split; [by right | exact H]. }
  destruct (keep_step keep (k0, v0) acc) as [[_ Heq] | (_ & Hk & Hv & Hkeep & Heq)];
    cbn [fst snd] in *; rewrite Heq in H; [by left |].
  destruct (decide (Str.TrimSpace k0 = k)) as [<- | Hne].
  - rewrite lookup_insert_eq in H. injection H as <-.
    right. exists k0, v0. split; [by left | done].
  - rewrite lookup_insert_ne in H by done. by left.
Qed.

Lemma keepEntries_present (keep : string → bool) (l : list (string * string))
    (acc : gmap string string) (k : string) :
  is_Some (acc !! k)
  ∨ (∃ k0 v0, (k0, v0) ∈ l ∧ Str.TrimSpace k0 = k ∧ ¬ dropped keep (k0, v0)) →
  is_Some (keepEntries keep l acc !! k).
Proof.
  revert acc. induction l as [|[k0 v0] l IH]; intros acc.
  { intros [H | (k1 & v1 & Hin & _)]; [exact H | by inversion Hin]. }
  rewrite keepEntries_cons. intros H. apply IH.
  destruct (keep_step keep (k0, v0) acc) as [[Hd Heq] | (Hnd & Hk & Hv & Hkeep & Heq)];
    cbn [fst snd] in *; rewrite Heq.
  - destruct H as [H | (k1 & v1 & Hin & Hk1 & Hnd)]; [by left |].
    apply elem_of_cons in Hin as [[= -> ->] | Hin]; [done |].
    right. by exists k1, v1.
  - destruct (decide (Str.TrimSpace k0 = k)) as [<- | Hne].
    { left. rewrite lookup_insert_eq. by eexists. }
    rewrite lookup_insert_ne by done.
    destruct H as [H | (k1 & v1 & Hin & Hk1 & Hnd1)]; [by left |].
    apply elem_of_cons in Hin as [[= -> ->] | Hin]; [done |].
    right. by exists k1, v1.
Qed.

Lemma keepEntries_agreed (keep : string → bool) (l : list (string * string))
    (acc : gmap string string) (k v : string) :
  (∀ k0 v0, (k0, v0) ∈ l → Str.TrimSpace k0 = k → ¬ dropped keep (k0, v0) →
            Str.TrimSpace v0 = v) →
  acc !! k = Some v
  ∨ (∃ k0 v0, (k0, v0) ∈ l ∧ Str.TrimSpace k0 = k ∧ ¬ dropped keep (k0, v0)) →
  keepEntries keep l acc !! k = Some v.
Proof.
  revert acc. induction l as [|[k0 v0] l IH]; intros acc Hall.
  { intros [H | (k1 & v1 & Hin & _)]; [exact H | by inversion Hin]. }
  rewrite keepEntries_cons. intros H. apply IH.
  { intros k1 v1 Hin. apply Hall. by right. }
  destruct (keep_step keep (k0, v0) acc) as [[Hd Heq] | (Hnd & Hk & Hv & Hkeep & Heq)];
    cbn [fst snd] in *; rewrite Heq.
  - destruct H as [H | (k1 & v1 & Hin & Hk1 & Hnd)]; [by left |].
    apply elem_of_cons in Hin as [[= -> ->] | Hin]; [done |].
    right. by exists k1, v1.
  - destruct (decide (Str.TrimSpace k0 = k)) as [Heqk | Hne].
    { left. rewrite <- Heqk, lookup_insert_eq. f_equal.
      apply (Hall k0 v0); [by left | done | done]. }
    rewrite lookup_insert_ne by done.
    destruct H as [H | (k1 & v1 & Hin & Hk1 & Hnd1)]; [by left |].
    apply elem_of_cons in Hin as [[= -> ->] | Hin]; [done |].
    right. by exists k1, v1.
Qed.

Lemma keepEntries_normal (keep : string → bool) (l : list (string * string)) :
  normalTable (keepEntries keep l ∅).
Proof.
  intros k v H. apply keepEntries_lookup in H as [H | (k0 & v0 & _ & <- & <- & Hk & Hv & _)].
  - by rewrite lookup_empty in H.
  - by rewrite !TrimSpace_idem.
Qed.

(** The loop leaves a table in normal form as it is. *)
Lemma keepEntries_fixed {MR : MapRange} (keep : string → bool) (m : gmap string string) :
  rangeVisitsEntries → normalTable m →
  (∀ k, is_Some (m !! k) → keep k = true) →
  keepEntries keep (rangeOrder m) ∅ = m
  ∧ ∀ kv, kv ∈ rangeOrder m → ¬ dropped keep kv.
Proof.
  intros Hrange Hnf Hkeep.
  assert (Hnd : ∀ k v, (k, v) ∈ rangeOrder m → ¬ dropped keep (k, v)).
  { intros k v Hin. apply Hrange in Hin.
    destruct (Hnf k v Hin) as (Hk & Hv & Htk & Htv). unfold dropped. cbn [fst snd].
    rewrite Htk, Htv, (Hkeep k) by (by eexists). intros [H | [H | H]]; done. }
  split; [| intros [k v]; apply Hnd].
  apply map_eq. intros k. destruct (m !! k) as [v|] eqn:Hm.
  - apply keepEntries_agreed.
    + intros k0 v0 Hin Hk0 _. apply Hrange in Hin.
      destruct (Hnf k0 v0 Hin) as (_ & _ & Htk & Htv).
      rewrite Htk in Hk0. subst k0. rewrite Hm in Hin. injection Hin as <-. exact Htv.
    + right. exists k, v. destruct (Hnf k v Hm) as (_ & _ & Htk & _).
      split; [by apply Hrange |]. split; [exact Htk |]. apply Hnd. by apply Hrange.
  - destruct (keepEntries keep (rangeOrder m) ∅ !! k) as [v|] eqn:Hl; [| reflexivity].
    apply keepEntries_lookup in Hl as [Hl | (k0 & v0 & Hin & Hk0 & _)].
    + by rewrite lookup_empty in Hl.
    + apply Hrange in Hin. destruct (Hnf k0 v0 Hin) as (_ & _ & Htk & _).
      rewrite Htk in Hk0. subst k0. rewrite Hm in Hin. discriminate.
Qed.

Lemma trimEntries_keep (l : list (string * string)) :
  management.trimEntries l = keepEntries (fun _ => true) l ∅.
Proof. reflexivity. Qed.

Lemma keepKnown_fold (known : gset string) (l : list (string * string))
    (acc : gmap string string) (ch : bool) :
  foldl (fun acc kv =>
           let '(clean, changed) := acc in
           let trimKey := Str.TrimSpace kv.1 in
           let trimValue := Str.TrimSpace kv.2 in
           if Str.eqb trimKey EmptyString || Str.eqb trimValue EmptyString
           then (clean, true)
           else if negb (bool_decide (trimKey ∈ known)) then (clean, true)
           else (<[ trimKey := trimValue ]> clean, changed))
        (acc, ch) l
  = (keepEntries (fun k => bool_decide (k ∈ known)) l acc,
     ch || existsb (fun kv => Str.eqb (Str.TrimSpace kv.1) EmptyString
                              || Str.eqb (Str.TrimSpace kv.2) EmptyString
                              || negb (bool_decide (Str.TrimSpace kv.1 ∈ known))) l).
Proof.
  revert acc ch. induction l as [|[k v] l IH]; intros acc ch.
  { cbn [foldl existsb]. by rewrite orb_false_r. }
  cbn [foldl existsb]. rewrite keepEntries_cons. cbn [fst snd].
  destruct (Str.eqb (Str.TrimSpace k) EmptyString || Str.eqb (Str.TrimSpace v) EmptyString);
    cbn [orb]; [rewrite IH; by rewrite orb_true_r |].
  destruct (bool_decide (Str.TrimSpace k ∈ known)); cbn [negb orb]; rewrite IH;
    [reflexivity | by rewrite orb_true_r].
Qed.

Lemma keepKnown_spec (known : gset string) (l : list (string * string)) :
  let keep := fun k => bool_decide (k ∈ known) in
  (management.keepKnown known l).1 = keepEntries keep l ∅
  ∧ ((management.keepKnown known l).2 = true ↔ ∃ kv, kv ∈ l ∧ dropped keep kv).
Proof.
  cbv zeta. unfold management.keepKnown. rewrite keepKnown_fold. cbn [fst snd orb].
  split; [reflexivity |]. rewrite existsb_exists. unfold dropped.
  split.
  - intros ([k v] & Hin & H). exists (k, v). split; [by apply list_elem_of_In |].
    cbn [fst snd] in *. apply orb_true_iff in H as [H | H].
    + apply orb_true_iff in H as [H | H]; apply eqb_true in H; auto.
    + apply negb_true_iff in H. auto.
  - intros ([k v] & Hin & H). exists (k, v). split; [by apply list_elem_of_In |].
    cbn [fst snd] in *. destruct H as [H | [H | H]].
    + by rewrite (proj2 (eqb_true _ _) H).
    + rewrite (proj2 (eqb_true _ _) H). by rewrite orb_true_r.
    + rewrite H. by rewrite orb_true_r.
Qed.

End TableFacts.

Section MgmtFacts.
Context {GL : GoLib} {AL : AuthLib} {MR : MapRange} {CS : management.ConfigStore}.
Import management.

Lemma removeFirst_none (id : string) (l : list config.ReverseProxy) :
  removeFirst id l = None ↔ ∀ p, p ∈ l → config.ID p ≠ id.
Proof.
  induction l as [|p l IH]; cbn [removeFirst].
  { split; [intros _ q Hq; by inversion Hq | done]. }
  case_eqb (config.ID p) id Hp.
  - split; [intros [=] |]. intros H. exfalso. apply (H p); [by left | done].
  - destruct (removeFirst id l) as [rest|].
    + split; [intros [=] |]. intros H. exfalso.
      assert (Hnone : (None : option (list config.ReverseProxy)) = None) by reflexivity.
      assert (Hl : ∀ q, q ∈ l → config.ID q ≠ id) by (intros q Hq; apply H; by right).
      apply IH in Hl. discriminate.
    + split; [| done]. intros _ q Hq. apply elem_of_cons in Hq as [-> | Hq]; [done |].
      by apply (proj1 IH).
Qed.

Lemma removeFirst_some (id : string) (l rest : list config.ReverseProxy) :
  removeFirst id l = Some rest →
  ∃ pre p post, l = pre ++ p :: post ∧ config.ID p = id
                ∧ (∀ q, q ∈ pre → config.ID q ≠ id) ∧ rest = pre ++ post.
Proof.
  revert rest. induction l as [|p l IH]; intros rest; cbn [removeFirst]; [intros [=] |].
  case_eqb (config.ID p) id Hp.
  - intros [= <-]. exists [], p, l. split; [done |]. split; [done |].
    split; [intros q Hq; by inversion Hq | done].
  - destruct (removeFirst id l) as [rest'|]; [| intros [=]]. intros [= <-].
    destruct (IH rest' eq_refl) as (pre & q & post & -> & Hq & Hpre & ->).
    exists (p :: pre), q, post. split; [done |]. split; [done |]. split; [| done].
    intros x Hx. apply elem_of_cons in Hx as [-> | Hx]; [done | by apply Hpre].
Qed.

Lemma removeFirst_split (id : string) (pre post : list config.ReverseProxy)
    (p : config.ReverseProxy) :
  config.ID p = id → (∀ q, q ∈ pre → config.ID q ≠ id) →
  removeFirst id (pre ++ p :: post) = Some (pre ++ post).
Proof.
  intros Hp. induction pre as [|x pre IH]; intros Hpre; cbn [app removeFirst].
  - by rewrite (proj2 (eqb_true _ _) Hp).
  - rewrite (proj2 (eqb_false _ _) (Hpre x ltac:(by left))).
    rewrite IH; [done |]. intros q Hq. apply Hpre. by right.
Qed.

(** What [DeleteReverseProxy] leaves in memory once the proxy is found,
    saved or not. *)
Lemma DeleteReverseProxy_found (proxyID : string) (c : config.Config)
    (pre post : list config.ReverseProxy) (p : config.ReverseProxy) :
  config.ReverseProxies c = pre ++ p :: post → config.ID p = proxyID →
  (∀ q, q ∈ pre → config.ID q ≠ proxyID) →
  let c' :=
    config.mkConfig (config.APIKeyAuth c) (clearRouting proxyID (config.Routing c))
      (clearRoutingAuth proxyID (config.ProxyRoutingAuth c)) (pre ++ post)
      (config.ReverseProxyWorkerURL c) in
  DeleteReverseProxy proxyID c = saveAndAnswer c'.
Proof.
  intros Hl Hp Hpre. cbv zeta. unfold DeleteReverseProxy.
  rewrite Hl, (removeFirst_split _ _ _ _ Hp Hpre).
  unfold withProxies, withRoutingAuth, withRouting. cbn [config.ProxyRoutingAuth
    config.APIKeyAuth config.Routing config.ReverseProxies config.ReverseProxyWorkerURL].
  case_bool_decide as Hsz; [| reflexivity].
  apply map_size_empty_inv in Hsz. rewrite Hsz. unfold clearRoutingAuth.
  by rewrite map_filter_empty.
Qed.

Lemma saveAndAnswer_config (c : config.Config) :
  (saveAndAnswer c).2 = c
  ∧ (saveAndAnswer c).1 = match SaveConfigPreserveComments c with
                          | Some _ => StatusInternalServerError
                          | None => StatusOK
                          end.
Proof. unfold saveAndAnswer. by destruct (SaveConfigPreserveComments c). Qed.

(** X21. Deleting a proxy cascades.  [DeleteReverseProxy] answers 404
    and changes nothing when no configured proxy has the id.  Otherwise
    the first proxy of that id leaves the list, every credential-level
    routing entry whose value is the id is removed and every other one
    kept, each of the nine provider-level entries equal to the id is
    emptied and the others kept, nothing else of the configuration
    changes, and the answer is 200 if the configuration could be saved
    and 500 if not; the configuration in memory is the changed one in
    both cases. *)
Theorem DeleteReverseProxy_cascades (proxyID : string) (c : config.Config) :
  let out := DeleteReverseProxy proxyID c in
  ((∀ p, p ∈ config.ReverseProxies c → config.ID p ≠ proxyID) →
   out = (StatusNotFound, c))
  ∧ (∀ pre p post,
       config.ReverseProxies c = pre ++ p :: post → config.ID p = proxyID →
       (∀ q, q ∈ pre → config.ID q ≠ proxyID) →
       out.1 = match SaveConfigPreserveComments out.2 with
               | Some _ => StatusInternalServerError
               | None => StatusOK
               end
       ∧ config.ReverseProxies out.2 = pre ++ post
       ∧ (∀ k v, config.ProxyRoutingAuth out.2 !! k = Some v
                 ↔ config.ProxyRoutingAuth c !! k = Some v ∧ v ≠ proxyID)
       ∧ SpecExt.routingFields (config.Routing out.2)
         = map (fun f => if Str.eqb f proxyID then EmptyString else f)
               (SpecExt.routingFields (config.Routing c))
       ∧ config.APIKeyAuth out.2 = config.APIKeyAuth c
       ∧ config.ReverseProxyWorkerURL out.2 = config.ReverseProxyWorkerURL c).
Proof.
  intros out. subst out. split.
  - intros Hnone. unfold DeleteReverseProxy. by rewrite (proj2 (removeFirst_none _ _) Hnone).
  - intros pre p post Hl Hp Hpre.
    rewrite (DeleteReverseProxy_found _ _ _ _ _ Hl Hp Hpre). cbv zeta.
    destruct (saveAndAnswer_config
                (config.mkConfig (config.APIKeyAuth c) (clearRouting proxyID (config.Routing c))
                   (clearRoutingAuth proxyID (config.ProxyRoutingAuth c)) (pre ++ post)
                   (config.ReverseProxyWorkerURL c))) as [-> ->].
    cbn [config.ProxyRoutingAuth config.APIKeyAuth config.Routing config.ReverseProxies
         config.ReverseProxyWorkerURL].
    split; [reflexivity |]. split; [reflexivity |]. split; [| done].
    intros k v. unfold clearRoutingAuth. rewrite map_lookup_filter_Some. cbn [snd]. done.
Qed.

(** X22. A deleted proxy carries no request.  When the configured
    proxies have distinct ids and [DeleteReverseProxy] has found the
    proxy, then, saved or not, the configuration in memory holds no
    proxy of that id, every route resolved for the id is the original
    URL and not proxied, and for an id that is not empty no
    provider-level entry and no credential-level entry is the id any
    more. *)
Theorem deleted_proxy_carries_no_request (proxyID : string) (c : config.Config) :
  NoDup (map config.ID (config.ReverseProxies c)) →
  let out := DeleteReverseProxy proxyID c in
  out.1 ≠ StatusNotFound →
  (∀ p, p ∈ config.ReverseProxies out.2 → config.ID p ≠ proxyID)
  ∧ (∀ now id provider url b,
       Str.TrimSpace id = proxyID →
       (Router.resolveReverseProxyRouteWithID now (Some out.2) id provider url b).1
       = Router.mkResolution url proxyID false)
  ∧ (proxyID ≠ EmptyString →
     Forall (fun f => f ≠ proxyID) (SpecExt.routingFields (config.Routing out.2))
     ∧ ∀ k, config.ProxyRoutingAuth out.2 !! k ≠ Some proxyID).
Proof.
  intros Hnodup out Hfound. subst out.
  destruct (removeFirst proxyID (config.ReverseProxies c)) as [rest|] eqn:Hrm.
  2:{ exfalso. apply Hfound. unfold DeleteReverseProxy. by rewrite Hrm. }
  apply removeFirst_some in Hrm as (pre & p & post & Hl & Hp & Hpre & ->).
  rewrite (DeleteReverseProxy_found _ _ _ _ _ Hl Hp Hpre). cbv zeta.
  set (c' := config.mkConfig _ _ _ _ _).
  destruct (saveAndAnswer_config c') as [-> _].
  assert (Hgone : ∀ q, q ∈ config.ReverseProxies c' → config.ID q ≠ proxyID).
  { subst c'. cbn [config.ReverseProxies]. intros q Hq.
    rewrite Hl, map_app in Hnodup. cbn [map] in Hnodup.
    apply NoDup_app in Hnodup as (_ & Hdisj & Hpost). apply NoDup_cons in Hpost as [Hnp _].
    apply elem_of_app in Hq as [Hq | Hq]; [by apply Hpre |].
    intros Heq. apply Hnp. rewrite Hp, <- Heq. apply list_elem_of_fmap. by exists q. }
  split; [exact Hgone |]. split.
  - intros now id provider url b Hid.
    assert (Hurl : Router.resolveReverseProxyURLWithID (Some c') proxyID provider url = url).
    { destruct (decide (Router.resolveReverseProxyURLWithID (Some c') proxyID provider url
                        = url)) as [H | H]; [exact H |].
      exfalso. apply resolveURL_changed in H as ((c0 & q & [= <-] & Hq & Hidq & _) & _).
      by apply (Hgone q). }
    case_eqb proxyID EmptyString Hblank.
    { rewrite Hblank in Hid |- *. by rewrite (withID_blank _ _ _ _ _ _ Hid). }
    rewrite <- Hid in Hblank. rewrite (withID_cases _ _ _ _ _ _ Hblank). cbv zeta.
    rewrite Hid, Hurl, eqb_refl. cbn [negb].
    destruct (b !! proxyID) as [till|]; [| done]. by destruct (decide (now ≤ till)).
  - intros Hne. subst c'. cbn [config.Routing config.ProxyRoutingAuth]. split.
    + unfold SpecExt.routingFields, clearRouting, clearIf.
      cbn [config.Codex config.Antigravity config.Claude config.Gemini config.GeminiCLI
           config.Vertex config.AIStudio config.Qwen config.IFlow].
      repeat (apply Forall_cons_2;
              [match goal with
               | |- (if Str.eqb ?f ?p then _ else _) ≠ _ =>
                   let H := fresh in case_eqb f p H; [by apply not_eq_sym | exact H]
               end |]).
      apply Forall_nil_2.
    + intros k Hk. unfold clearRoutingAuth in Hk.
      apply map_lookup_filter_Some in Hk as [_ Hk]. by apply Hk.
Qed.

(** X23. The worker URL the API stores.  [PutReverseProxyWorkerURL]
    answers 400 and changes nothing exactly when the body has no value
    or the trimmed value is neither empty nor a URL that parses with a
    host and the scheme http or https.  Otherwise it stores the trimmed
    value, changing nothing else, and answers 200 or 500 as the save
    goes.  A value stored this way that is not empty passes the worker
    checks of the router: for every proxy whose base URL parses with a
    host name other than the worker's, [buildReverseProxyWorkerURL]
    yields the bridge URL built on the stored value. *)
Theorem PutReverseProxyWorkerURL_stores_usable_urls
    (value : option string) (c : config.Config) :
  let out := PutReverseProxyWorkerURL value c in
  (out.1 = StatusBadRequest
   ↔ value = None ∨ ∃ v, value = Some v ∧ ¬ SpecExt.acceptableWorkerURL (Str.TrimSpace v))
  ∧ (out.1 = StatusBadRequest → out.2 = c)
  ∧ (∀ v, value = Some v → SpecExt.acceptableWorkerURL (Str.TrimSpace v) →
       out.2 = withWorkerURL c (Str.TrimSpace v)
       ∧ out.1 = match SaveConfigPreserveComments out.2 with
                 | Some _ => StatusInternalServerError
                 | None => StatusOK
                 end
       ∧ (Str.TrimSpace v ≠ EmptyString →
          ∃ workerParsed,
            url_Parse (Str.TrimSpace v) = Some workerParsed
            ∧ ∀ proxyBaseURL prefix path rawQuery upstreamParsed,
                url_Parse (Str.TrimSpace proxyBaseURL) = Some upstreamParsed →
                Host upstreamParsed ≠ EmptyString →
                Str.TrimSpace (Router.Hostname upstreamParsed) ≠ EmptyString →
                EqualFold (Str.TrimSpace (Router.Hostname workerParsed))
                          (Str.TrimSpace (Router.Hostname upstreamParsed)) = false →
                Router.buildReverseProxyWorkerURL (Some out.2) proxyBaseURL prefix path
                                                  rawQuery
                = Spec.bridgeURL (Str.TrimSpace v) prefix path
                    (Str.TrimSpace (Router.Hostname upstreamParsed)) rawQuery)).
Proof.
  intros out. subst out. unfold PutReverseProxyWorkerURL.
  destruct value as [v|].
  2:{ cbn [fst snd]. split; [split; [by left | done] |]. split; [done |]. intros ? [=]. }
  cbv zeta. set (tv := Str.TrimSpace v).
  assert (Hinv :
    (if negb (Str.eqb tv EmptyString) then
       match url_Parse tv with
       | None => true
       | Some parsed =>
           Str.eqb (Host parsed) EmptyString
           || (negb (Str.eqb (Scheme parsed) "https") && negb (Str.eqb (Scheme parsed) "http"))
       end
     else false) = true ↔ ¬ SpecExt.acceptableWorkerURL tv).
  { unfold SpecExt.acceptableWorkerURL. case_eqb tv EmptyString Ht; cbn [negb].
    { split; [intros [=] | intros H; exfalso; apply H; by left]. }
    destruct (url_Parse tv) as [parsed|].
    2:{ split; [| done]. intros _ [H | (p & [=] & _)]. done. }
    case_eqb (Host parsed) EmptyString Hh; cbn [orb].
    { split; [| done]. intros _ [H | (p & [= <-] & H & _)]; done. }
    case_eqb (Scheme parsed) "https"%string Hs; cbn [negb andb].
    { split; [intros [=] |]. intros H. exfalso. apply H. right. exists parsed. auto. }
    case_eqb (Scheme parsed) "http"%string Hs2; cbn [negb].
    { split; [intros [=] |]. intros H. exfalso. apply H. right. exists parsed. auto. }
    split; [| done]. intros _ [H | (p & [= <-] & _ & [H | H])]; done. }
  destruct (if negb (Str.eqb tv EmptyString) then _ else false) eqn:Hbad.
  - cbn [fst snd]. clear Hbad. assert (Hbad : ¬ SpecExt.acceptableWorkerURL tv) by (by apply Hinv).
    split; [split; [intros _; right; by exists v | done] |]. split; [done |].
    intros v' [= <-] Hacc. done.
  - assert (Hacc : SpecExt.acceptableWorkerURL tv).
    { destruct (decide (tv = EmptyString)) as [H | H]; [by left |].
      unfold SpecExt.acceptableWorkerURL.
      rewrite (proj2 (eqb_false _ _) H) in Hbad. cbn [negb] in Hbad.
      destruct (url_Parse tv) as [parsed|]; [| discriminate].
      apply orb_false_iff in Hbad as [Hh Hs]. apply eqb_false in Hh.
      right. exists parsed. split; [done |]. split; [done |].
      apply andb_false_iff in Hs as [Hs | Hs]; apply negb_false_iff, eqb_true in Hs; auto. }
    destruct (saveAndAnswer_config (withWorkerURL c tv)) as [H2 H1]. rewrite H1, H2.
    split.
    { split.
      - destruct (SaveConfigPreserveComments _); intros [=].
      - intros [[=] | (v' & [= <-] & H)]. done. }
    split.
    { destruct (SaveConfigPreserveComments _); intros [=]. }
    intros v' [= <-] _. fold tv. split; [reflexivity |]. split; [reflexivity |].
    intros Hne. destruct Hacc as [H | (workerParsed & Hp & Hh & _)]; [done |].
    exists workerParsed. split; [exact Hp |].
    intros proxyBaseURL prefix path rawQuery upstreamParsed Hup Huh Hhost Hfold.
    assert (Htv : Str.TrimSpace (config.ReverseProxyWorkerURL (withWorkerURL c tv)) = tv).
    { unfold withWorkerURL. cbn [config.ReverseProxyWorkerURL]. apply TrimSpace_idem. }
    pose proof (buildWorkerURL_cases (withWorkerURL c tv) proxyBaseURL prefix path rawQuery
                  workerParsed upstreamParsed) as Hb.
    cbv zeta in Hb. rewrite Htv in Hb.
    rewrite (Hb Hne Hp Hh Hup Huh Hhost), Hfold. reflexivity.
Qed.

(** X24. Without a worker URL the route is the plain rewriting.
    [DeleteReverseProxyWorkerURL] empties the worker URL, changing
    nothing else, and answers 200 or 500 as the save goes.  On the
    configuration it leaves, for every proxy found and every original
    URL that parses, the URL [resolveReverseProxyURLWithID] hands back
    is the proxy's base URL without its trailing slash, then the
    provider prefix, the path with a leading slash, and the query after
    a question mark when there is one. *)
Theorem DeleteReverseProxyWorkerURL_restores_the_plain_rewriting
    (c : config.Config) (proxyID provider originalURL : string)
    (proxyConfig : config.ReverseProxy) (parsedURL : url_URL) :
  let out := DeleteReverseProxyWorkerURL c in
  out.2 = withWorkerURL c EmptyString
  ∧ out.1 = match SaveConfigPreserveComments out.2 with
            | Some _ => StatusInternalServerError
            | None => StatusOK
            end
  ∧ (Router.findReverseProxyByID (Some c) proxyID = Some proxyConfig →
     url_Parse originalURL = Some parsedURL →
     Router.resolveReverseProxyURLWithID (Some out.2) proxyID provider originalURL
     = (Str.TrimSuffix (config.BaseURL proxyConfig) "/"
        ++ Router.routePrefix provider (Host parsedURL)
        ++ Spec.routedPath parsedURL ++ Spec.querySuffix (RawQuery parsedURL))%string).
Proof.
  intros out. subst out. unfold DeleteReverseProxyWorkerURL.
  destruct (saveAndAnswer_config (withWorkerURL c EmptyString)) as [H2 H1].
  rewrite H1, H2. split; [reflexivity |]. split; [reflexivity |].
  intros Hfind Hparse.
  assert (Hfind' : Router.findReverseProxyByID (Some (withWorkerURL c EmptyString)) proxyID
                   = Some proxyConfig) by exact Hfind.
  destruct (find_enabled _ _ _ Hfind) as (Hin & _ & _ & Hne).
  unfold Router.resolveReverseProxyURLWithID.
  rewrite Hfind', Hparse.
  rewrite (proj2 (eqb_false _ _) Hne), orb_false_r.
  rewrite bool_decide_eq_false_2.
  2:{ unfold withWorkerURL. cbn [config.ReverseProxies].
      destruct (config.ReverseProxies c); [by inversion Hin | discriminate]. }
  assert (Hoff : ∀ base prefix path q,
            Router.buildReverseProxyWorkerURL (Some (withWorkerURL c EmptyString)) base prefix
              path q = EmptyString).
  { intros. unfold Router.buildReverseProxyWorkerURL, withWorkerURL.
    cbn [config.ReverseProxyWorkerURL].
    assert (Hb : Str.TrimSpace EmptyString = EmptyString) by (vm_compute; reflexivity).
    by rewrite Hb, eqb_refl. }
  cbv zeta. rewrite Hoff, eqb_refl. cbn [negb].
  unfold Spec.routedPath, Spec.querySuffix.
  destruct (Str.HasPrefix (Path parsedURL) "/"); cbn [negb];
    destruct (Str.eqb (RawQuery parsedURL) EmptyString); cbn [negb];
    rewrite ?append_assoc, ?append_empty_r; reflexivity.
Qed.

(** X25. The credential-level table the API stores.
    [UpdateProxyRoutingAuth] replaces the table, changing nothing else,
    and answers 200 or 500 as the save goes.  The stored table is in
    normal form: keys and values are trimmed and not blank, and each
    entry is the trimmed form of an entry of the request.  Every entry
    of the request whose trimmed key and value are not blank has its
    trimmed key in the table; its trimmed value is the one stored
    unless another key of the request trims to the same key. *)
Theorem UpdateProxyRoutingAuth_stores_a_normal_table
    (req : gmap string string) (c : config.Config) :
  SpecExt.rangeVisitsEntries →
  let out := UpdateProxyRoutingAuth (Some req) c in
  let stored := config.ProxyRoutingAuth out.2 in
  out.2 = withRoutingAuth c stored
  ∧ out.1 = match SaveConfigPreserveComments out.2 with
            | Some _ => StatusInternalServerError
            | None => StatusOK
            end
  ∧ SpecExt.normalTable stored
  ∧ (∀ k v, stored !! k = Some v →
       ∃ k0 v0, req !! k0 = Some v0 ∧ Str.TrimSpace k0 = k ∧ Str.TrimSpace v0 = v)
  ∧ (∀ k0 v0, req !! k0 = Some v0 →
       Str.TrimSpace k0 ≠ EmptyString → Str.TrimSpace v0 ≠ EmptyString →
       is_Some (stored !! Str.TrimSpace k0)
       ∧ ((∀ k1, is_Some (req !! k1) → Str.TrimSpace k1 = Str.TrimSpace k0 → k1 = k0) →
          stored !! Str.TrimSpace k0 = Some (Str.TrimSpace v0))).
Proof.
  intros Hrange out stored. subst stored out. unfold UpdateProxyRoutingAuth.
  destruct (saveAndAnswer_config (withRoutingAuth c (trimEntries (rangeOrder req))))
    as [H2 H1].
  rewrite H1, H2. unfold withRoutingAuth at 2 4 5 6 7. cbn [config.ProxyRoutingAuth].
  split; [reflexivity |]. split; [reflexivity |].
  rewrite trimEntries_keep.
  split; [apply keepEntries_normal |]. split.
  - intros k v H. apply keepEntries_lookup in H as [H | (k0 & v0 & Hin & Hk & Hv & _)].
    + by rewrite lookup_empty in H.
    + exists k0, v0. split; [by apply Hrange | done].
  - intros k0 v0 Hreq Hk Hv.
    assert (Hnd : ¬ SpecExt.dropped (fun _ => true) (k0, v0)).
    { unfold SpecExt.dropped. cbn [fst snd]. intros [H | [H | H]]; done. }
    split.
    + apply keepEntries_present. right. exists k0, v0.
      split; [by apply Hrange | done].
    + intros Huniq. apply keepEntries_agreed.
      * intros k1 v1 Hin Hk1 _. apply Hrange in Hin.
        assert (k1 = k0) by (apply Huniq; [by eexists | done]). subst k1.
        rewrite Hreq in Hin. by injection Hin as <-.
      * right. exists k0, v0. split; [by apply Hrange | done].
Qed.

(** X26. A mapping written through the API takes effect.  After
    [UpdateProxyRoutingAuth], a credential whose trimmed ID is the
    trimmed form of exactly one key of the request, with a value that is
    not blank, is routed through the trimmed value:
    [resolveProxyIDForAuth] answers with it on the configuration in
    memory. *)
Theorem UpdateProxyRoutingAuth_then_resolveProxyIDForAuth
    (req : gmap string string) (c : config.Config) (a : cliproxyauth.Auth)
    (k0 v0 : string) :
  SpecExt.rangeVisitsEntries →
  req !! k0 = Some v0 →
  Str.TrimSpace k0 = Str.TrimSpace (cliproxyauth.ID a) →
  Str.TrimSpace k0 ≠ EmptyString → Str.TrimSpace v0 ≠ EmptyString →
  (∀ k1, is_Some (req !! k1) → Str.TrimSpace k1 = Str.TrimSpace k0 → k1 = k0) →
  Router.resolveProxyIDForAuth (Some (UpdateProxyRoutingAuth (Some req) c).2) (Some a)
  = Str.TrimSpace v0.
Proof.
  intros Hrange Hreq Hid Hk Hv Huniq. unfold UpdateProxyRoutingAuth.
  destruct (saveAndAnswer_config (withRoutingAuth c (trimEntries (rangeOrder req))))
    as [-> _].
  rewrite <- (TrimSpace_idem v0).
  apply resolveProxyIDForAuth_by_ID.
  - by rewrite <- Hid.
  - unfold withRoutingAuth. cbn [config.ProxyRoutingAuth]. rewrite <- Hid, trimEntries_keep.
    apply keepEntries_agreed.
    + intros k1 v1 Hin Hk1 _. apply Hrange in Hin.
      assert (k1 = k0) by (apply Huniq; [by eexists | done]). subst k1.
      rewrite Hreq in Hin. by injection Hin as <-.
    + right. exists k0, v0. split; [by apply Hrange |]. split; [done |].
      unfold SpecExt.dropped. cbn [fst snd]. intros [H | [H | H]]; done.
  - by rewrite TrimSpace_idem.
Qed.

End MgmtFacts.

Section SanitizeFacts.
Context {GL : GoLib} {MR : MapRange} {CS : management.ConfigStore}.
Import management SpecExt.

Lemma map_size_zero (m : gmap string string) : size m = 0%nat ↔ m = ∅.
Proof. apply map_size_empty_iff. Qed.

(** The three ways [sanitizeProxyRoutingAuthLocked] goes on a table
    that is not empty. *)
Lemma sanitize_cases (known : gset string) (scanned readErr : bool) (cfg : config.Config) :
  config.ProxyRoutingAuth cfg ≠ ∅ →
  let routing := config.ProxyRoutingAuth cfg in
  let answer (clean : gmap string string) (changed : bool) :=
    (clean, changed, Some (if changed then withRoutingAuth cfg clean else cfg)) in
  sanitizeProxyRoutingAuthLocked known scanned readErr (Some cfg)
  = if bool_decide (known = ∅) then
      if scanned && negb readErr then answer ∅ true
      else
        let clean := keepEntries (fun _ => true) (rangeOrder routing) ∅ in
        answer clean (negb (bool_decide (size clean = size routing)))
    else
      let keep := fun k => bool_decide (k ∈ known) in
      let clean := keepEntries keep (rangeOrder routing) ∅ in
      answer clean ((keepKnown known (rangeOrder routing)).2
                    || negb (bool_decide (size clean = size routing))).
Proof.
  intros Hne. cbv zeta. unfold sanitizeProxyRoutingAuthLocked.
  rewrite bool_decide_eq_false_2 by (by rewrite map_size_zero).
  rewrite (bool_decide_ext _ _ (size_zero_empty known)).
  destruct (bool_decide (known = ∅)).
  - destruct (scanned && negb readErr); [reflexivity |].
    rewrite trimEntries_keep. by destruct (negb (bool_decide _)).
  - destruct (keepKnown_spec known (rangeOrder (config.ProxyRoutingAuth cfg))) as [H1 _].
    cbv zeta in H1.
    destruct (keepKnown known (rangeOrder (config.ProxyRoutingAuth cfg))) as [clean changed].
    cbn [fst snd] in *. subst clean.
    destruct changed; cbn [negb andb orb]; [reflexivity |].
    by destruct (negb (bool_decide _)).
Qed.

(** X27. What the cleanup of the credential-level table keeps.  On a
    table that is not empty, [sanitizeProxyRoutingAuthLocked] writes the
    cleaned table to the configuration exactly when it reports a change.
    The cleaned table is in normal form and each of its entries is the
    trimmed form of an entry of the table.  With known references, its
    keys are known references, and every entry whose trimmed key is a
    known reference and whose trimmed value is not blank keeps its key.
    With no known reference the table is emptied only if the auth
    directory was scanned without error; otherwise every entry whose
    trimmed key and value are not blank keeps its key. *)
Theorem sanitizeProxyRoutingAuthLocked_keeps_what_is_known
    (known : gset string) (scanned readErr : bool) (cfg : config.Config) :
  rangeVisitsEntries →
  config.ProxyRoutingAuth cfg ≠ ∅ →
  let routing := config.ProxyRoutingAuth cfg in
  let '(clean, changed, c') :=
    sanitizeProxyRoutingAuthLocked known scanned readErr (Some cfg) in
  c' = Some (if changed then withRoutingAuth cfg clean else cfg)
  ∧ normalTable clean
  ∧ (∀ k v, clean !! k = Some v →
       (known = ∅ ∨ k ∈ known)
       ∧ ∃ k0 v0, routing !! k0 = Some v0 ∧ Str.TrimSpace k0 = k ∧ Str.TrimSpace v0 = v)
  ∧ (if bool_decide (known = ∅) && scanned && negb readErr
     then clean = ∅ ∧ changed = true
     else ∀ k0 v0, routing !! k0 = Some v0 →
            Str.TrimSpace k0 ≠ EmptyString → Str.TrimSpace v0 ≠ EmptyString →
            known = ∅ ∨ Str.TrimSpace k0 ∈ known →
            is_Some (clean !! Str.TrimSpace k0)).
Proof.
  intros Hrange Hne routing.
  rewrite (sanitize_cases known scanned readErr cfg Hne). cbv zeta. fold routing.
  assert (Hfrom : ∀ keep k v, keepEntries keep (rangeOrder routing) ∅ !! k = Some v →
            keep k = true
            ∧ ∃ k0 v0, routing !! k0 = Some v0 ∧ Str.TrimSpace k0 = k ∧ Str.TrimSpace v0 = v).
  { intros keep k v H.
    apply keepEntries_lookup in H as [H | (k0 & v0 & Hin & Hk & Hv & _ & _ & Hkeep)].
    - by rewrite lookup_empty in H.
    - split; [done |]. exists k0, v0. split; [by apply Hrange | done]. }
  assert (Hstays : ∀ keep k0 v0, routing !! k0 = Some v0 →
            Str.TrimSpace k0 ≠ EmptyString → Str.TrimSpace v0 ≠ EmptyString →
            keep (Str.TrimSpace k0) = true →
            is_Some (keepEntries keep (rangeOrder routing) ∅ !! Str.TrimSpace k0)).
  { intros keep k0 v0 Hl Hk Hv Hkeep. apply keepEntries_present. right.
    exists k0, v0. split; [by apply Hrange |]. split; [done |].
    unfold dropped. cbn [fst snd]. intros [H | [H | H]]; [done | done | congruence]. }
  case_bool_decide as Hknown; cbn [andb].
  - destruct (scanned && negb readErr) eqn:Hscan.
    + split; [reflexivity |]. split; [by intros k v H; rewrite lookup_empty in H |].
      split; [by intros k v H; rewrite lookup_empty in H | done].
    + split; [reflexivity |]. split; [apply keepEntries_normal |]. split.
      * intros k v H. split; [by left |]. by apply (Hfrom (fun _ => true)).
      * intros k0 v0 Hl Hk Hv _. by apply (Hstays (fun _ => true) k0 v0).
  - split; [reflexivity |]. split; [apply keepEntries_normal |]. split.
    + intros k v H. apply Hfrom in H as [Hkeep H]. split; [| exact H].
      right. by apply bool_decide_eq_true in Hkeep.
    + intros k0 v0 Hl Hk Hv [Hempty | Hin]; [done |].
      apply (Hstays _ k0 v0 Hl Hk Hv). by apply bool_decide_eq_true.
Qed.

(** X28. Reading the table twice changes nothing more.  With the same
    known references and the same state of the auth directory, a second
    [GetProxyRoutingAuth] answers with the table the first one answered
    with and leaves the configuration as the first one left it. *)
Theorem GetProxyRoutingAuth_is_stable
    (known : gset string) (scanned readErr : bool) (c : config.Config) :
  rangeVisitsEntries →
  let first := GetProxyRoutingAuth known scanned readErr c in
  GetProxyRoutingAuth known scanned readErr first.2 = first.
Proof.
  intros Hrange first. subst first.
  assert (Hempty : ∀ c0, config.ProxyRoutingAuth c0 = ∅ →
            GetProxyRoutingAuth known scanned readErr c0 = (config.ProxyRoutingAuth c0, c0)).
  { intros c0 H0. unfold GetProxyRoutingAuth, sanitizeProxyRoutingAuthLocked.
    rewrite bool_decide_eq_true_2; [reflexivity |]. by rewrite H0, map_size_empty. }
  destruct (decide (config.ProxyRoutingAuth c = ∅)) as [H0 | Hne].
  { rewrite (Hempty c H0). cbn [snd]. by apply Hempty. }
  assert (Hsame : ∀ c0, GetProxyRoutingAuth known scanned readErr c0
                        = (config.ProxyRoutingAuth c0, c0) →
            GetProxyRoutingAuth known scanned readErr
              (GetProxyRoutingAuth known scanned readErr c0).2
            = GetProxyRoutingAuth known scanned readErr c0).
  { intros c0 H. by rewrite H. }
  (* the answer on a table already cleaned by the same pass *)
  assert (Hclean : ∀ keep : string → bool,
            (bool_decide (known = ∅) = true → keep = (fun _ => true)
                                              ∧ scanned && negb readErr = false) →
            (bool_decide (known = ∅) = false → keep = (fun k => bool_decide (k ∈ known))) →
            let clean := keepEntries keep (rangeOrder (config.ProxyRoutingAuth c)) ∅ in
            GetProxyRoutingAuth known scanned readErr (withRoutingAuth c clean)
            = (clean, withRoutingAuth c clean)).
  { intros keep Hk1 Hk2. cbv zeta.
    set (clean := keepEntries keep (rangeOrder (config.ProxyRoutingAuth c)) ∅).
    destruct (decide (clean = ∅)) as [Hc0 | Hcne].
    { rewrite Hempty; [reflexivity | exact Hc0]. }
    assert (Hkeys : ∀ k, is_Some (clean !! k) → keep k = true).
    { intros k [v Hv]. subst clean.
      apply keepEntries_lookup in Hv as [Hv | (_ & _ & _ & _ & _ & _ & _ & H)];
        [by rewrite lookup_empty in Hv | exact H]. }
    destruct (keepEntries_fixed keep clean Hrange (keepEntries_normal _ _) Hkeys)
      as [Hfix Hnodrop].
    unfold GetProxyRoutingAuth.
    rewrite (sanitize_cases known scanned readErr (withRoutingAuth c clean) Hcne).
    cbv zeta. change (config.ProxyRoutingAuth (withRoutingAuth c clean)) with clean.
    destruct (bool_decide (known = ∅)) eqn:Hknown.
    - destruct (Hk1 eq_refl) as [Hkeep ->]. rewrite <- Hkeep, Hfix.
      rewrite bool_decide_eq_true_2 by reflexivity. reflexivity.
    - rewrite <- (Hk2 eq_refl), Hfix.
      rewrite bool_decide_eq_true_2 by reflexivity.
      destruct (keepKnown_spec known (rangeOrder clean)) as [_ Hch]. cbv zeta in Hch.
      rewrite <- (Hk2 eq_refl) in Hch.
      destruct (keepKnown known (rangeOrder clean)).2 eqn:Hc2; [| reflexivity].
      exfalso. destruct (proj1 Hch eq_refl) as (kv & Hin & Hd). by apply (Hnodrop kv). }
  unfold GetProxyRoutingAuth at 2 3.
  rewrite (sanitize_cases known scanned readErr c Hne). cbv zeta.
  destruct (bool_decide (known = ∅)) eqn:Hknown.
  - destruct (scanned && negb readErr) eqn:Hscan.
    + cbn [snd default from_option]. unfold id. apply Hempty. reflexivity.
    + destruct (negb (bool_decide _)) eqn:Hch.
      * cbn [snd default from_option]. unfold id.
        apply (Hclean (fun _ => true)); [done | intros [=]].
      * cbn [snd].
        assert (Hget : GetProxyRoutingAuth known scanned readErr c
                       = (config.ProxyRoutingAuth c, c)).
        { unfold GetProxyRoutingAuth.
          rewrite (sanitize_cases known scanned readErr c Hne). cbv zeta.
          rewrite Hknown, Hscan, Hch. reflexivity. }
        exact Hget.
  - destruct (_ || _) eqn:Hch.
    + cbn [snd default from_option]. unfold id.
      apply (Hclean (fun k => bool_decide (k ∈ known))); [intros [=] | done].
    + cbn [snd].
      unfold GetProxyRoutingAuth.
      rewrite (sanitize_cases known scanned readErr c Hne). cbv zeta.
      rewrite Hknown, Hch. reflexivity.
Qed.

End SanitizeFacts.

(** ** The access resolver, continued *)

Section AccessMoreFacts.
Context {AL : AuthLib}.
Import cliproxyauth.

Lemma allowed_ids_listed (m : Access.Manager) (clientKey : string) (refs : list string) :
  Str.TrimSpace clientKey ≠ EmptyString →
  Spec.keyRefs (Some m) (Str.TrimSpace clientKey) = Some refs →
  ∃ ids, Access.AllowedAuthIDsForClientKey (Some m) clientKey = (Some ids, true)
         ∧ ∀ id, id ∈ ids ↔ ∃ a, Some a ∈ Access.auths m ∧ ID a = id ∧ Spec.refMatches a refs.
Proof.
  intros Hk Hrefs. unfold Access.AllowedAuthIDsForClientKey.
  rewrite (allowedAuthRefs_lookup m clientKey Hk), Hrefs.
  cbn [negb default from_option]. unfold id.
  case_bool_decide as Hsz.
  - exists ∅. split; [done |]. intros i.
    rewrite <- (collectIDs_spec (Access.auths m) refs i).
    apply size_zero_empty in Hsz. rewrite Hsz.
    unfold Access.collectIDs. rewrite collectIDs_acc.
    split; [by left | intros [H | (a & _ & _ & Hm)]; [done |]].
    unfold Access.authMatchesAllowedRefs in Hm.
    by rewrite bool_decide_eq_true_2 in Hm.
  - eexists. split; [reflexivity |]. intros i. apply collectIDs_spec.
Qed.

Lemma refMatches_mono (a : Auth) (refs1 refs2 : list string) :
  (∀ r, r ∈ refs1 → Str.TrimSpace r ≠ EmptyString →
        ∃ r', r' ∈ refs2 ∧ Str.TrimSpace r' = Str.TrimSpace r) →
  Spec.refMatches a refs1 → Spec.refMatches a refs2.
Proof.
  intros Hsub (r & Hin & Hne & Hm).
  destruct (Hsub r Hin Hne) as (r' & Hin' & Heq).
  exists r'. rewrite Heq. done.
Qed.

(** X1. More references never allow less.  Take two snapshots of the
    manager with the same registered credentials in which a client key
    is listed.  If every reference of the first list that is not blank
    occurs, white space at the ends aside, in the second list, then
    every credential ID allowed by the first is allowed by the second;
    and if that holds both ways the two answers are the same set.  So
    the order of the references, their repetition and the white space
    around them do not matter. *)
Theorem AllowedAuthIDsForClientKey_grows_with_the_references
    (m1 m2 : Access.Manager) (clientKey : string) (refs1 refs2 : list string) :
  Access.auths m1 = Access.auths m2 →
  Str.TrimSpace clientKey ≠ EmptyString →
  Spec.keyRefs (Some m1) (Str.TrimSpace clientKey) = Some refs1 →
  Spec.keyRefs (Some m2) (Str.TrimSpace clientKey) = Some refs2 →
  (∀ r, r ∈ refs1 → Str.TrimSpace r ≠ EmptyString →
        ∃ r', r' ∈ refs2 ∧ Str.TrimSpace r' = Str.TrimSpace r) →
  ∃ ids1 ids2,
    Access.AllowedAuthIDsForClientKey (Some m1) clientKey = (Some ids1, true)
    ∧ Access.AllowedAuthIDsForClientKey (Some m2) clientKey = (Some ids2, true)
    ∧ ids1 ⊆ ids2
    ∧ ((∀ r, r ∈ refs2 → Str.TrimSpace r ≠ EmptyString →
             ∃ r', r' ∈ refs1 ∧ Str.TrimSpace r' = Str.TrimSpace r) →
       ids1 = ids2).
Proof.
  intros Hauths Hk H1 H2 Hsub.
  destruct (allowed_ids_listed m1 clientKey refs1 Hk H1) as (ids1 & Hr1 & Hs1).
  destruct (allowed_ids_listed m2 clientKey refs2 Hk H2) as (ids2 & Hr2 & Hs2).
  exists ids1, ids2. split; [exact Hr1 |]. split; [exact Hr2 |].
  assert (Hincl : ids1 ⊆ ids2).
  { intros i Hi. apply Hs1 in Hi as (a & Hin & Hid & Hm). apply Hs2.
    exists a. rewrite <- Hauths. split; [done |]. split; [done |].
    by apply (refMatches_mono a refs1 refs2). }
  split; [exact Hincl |].
  intros Hsup. apply set_eq. intros i. split; [apply Hincl |].
  intros Hi. apply Hs2 in Hi as (a & Hin & Hid & Hm). apply Hs1.
  exists a. rewrite Hauths. split; [done |]. split; [done |].
  by apply (refMatches_mono a refs2 refs1).
Qed.

End AccessMoreFacts.

(** ** The properties on concrete data *)

Section MoreExamples.
Import cliproxyauth Examples ExamplesExt.

Lemma exRange_visits : SpecExt.rangeVisitsEntries.
Proof. intros m k v. apply elem_of_map_to_list. Qed.

Lemma banned_proxy_is_bypassed_for_the_ttl_witness :
  let b' :=
    Spec.banAll [ (Time.Minute, "other"%string) ]
                (Router.banReverseProxyTemporarily 0 " deno-1 " ∅) in
  Router.resolveReverseProxyRouteWithID (5 * Time.Minute) (Some (exRouteConfig EmptyString))
    " deno-1 " "codex" codexURL b'
  = (Router.mkResolution codexURL (Str.TrimSpace " deno-1 ") false, b').
Proof.
  apply (banned_proxy_is_bypassed_for_the_ttl 0 (5 * Time.Minute)
           (Some (exRouteConfig EmptyString)) " deno-1 " "codex" codexURL ∅
           [ (Time.Minute, "other"%string) ]).
  - vm_compute. discriminate.
  - vm_compute. discriminate.
Defined.

Lemma expired_ban_restores_the_route_witness :
  let b := Router.banReverseProxyTemporarily 0 "deno-1" ∅ in
  let out :=
    Router.resolveReverseProxyRouteWithID (6 * Time.Minute) (Some (exRouteConfig EmptyString))
      "deno-1" "codex" codexURL b in
  out.1 = (Router.resolveReverseProxyRouteWithID (6 * Time.Minute)
             (Some (exRouteConfig EmptyString)) "deno-1" "codex" codexURL
             (delete (Str.TrimSpace "deno-1") b)).1
  ∧ out.2 = delete (Str.TrimSpace "deno-1") b
  ∧ out.2 !! Str.TrimSpace "deno-1" = None.
Proof.
  apply (expired_ban_restores_the_route (6 * Time.Minute) (5 * Time.Minute)
           (Some (exRouteConfig EmptyString)) "deno-1" "codex" codexURL
           (Router.banReverseProxyTemporarily 0 "deno-1" ∅)).
  - vm_compute. discriminate.
  - vm_compute. reflexivity.
  - vm_compute. reflexivity.
Defined.

Lemma ban_leaves_other_routes_witness :
  let before :=
    Router.resolveReverseProxyRouteWithID Time.Second (Some routedConfig) "deno-1" "codex"
      codexURL ∅ in
  let after :=
    Router.resolveReverseProxyRouteWithID Time.Second (Some routedConfig) "deno-1" "codex"
      codexURL (Router.banReverseProxyTemporarily 0 "other" ∅) in
  after.1 = before.1
  ∧ after.2 = Router.banReverseProxyTemporarily 0 "other" before.2.
Proof.
  apply (ban_leaves_other_routes 0 Time.Second (Some routedConfig) "other" "deno-1" "codex"
           codexURL ∅).
  vm_compute. discriminate.
Defined.

Lemma proxied_route_needs_enabled_unbanned_proxy_witness :
  SpecExt.enabledProxy (Some (exRouteConfig EmptyString)) (Str.TrimSpace " deno-1 ")
  ∧ is_Some (url_Parse codexURL).
Proof.
  destruct (proxied_route_needs_enabled_unbanned_proxy 0 (Some (exRouteConfig EmptyString))
              " deno-1 " "codex" codexURL ∅ ∅
              (Router.mkResolution proxiedCodexURL "deno-1" true))
    as (_ & _ & H1 & H2 & _).
  - vm_compute. reflexivity.
  - reflexivity.
  - split; [exact H1 | exact H2].
Defined.

Lemma resolveProxyIDForAuth_reads_the_table_witness :
  Str.TrimSpace (Router.resolveProxyIDForAuth (Some routedConfig) (Some keyAuth))
  = Router.resolveProxyIDForAuth (Some routedConfig) (Some keyAuth).
Proof.
  destruct (resolveProxyIDForAuth_reads_the_table (Some routedConfig) (Some keyAuth))
    as (c & a & pre & k & post & v & _ & _ & _ & _ & _ & _ & H & _).
  - vm_compute. discriminate.
  - exact H.
Defined.

Lemma applyReverseProxyHeaders_keeps_request_headers_witness :
  ∃ h' : Header,
    (RouterExt.applyReverseProxyHeadersReq 0
       (Some {[ "User-Agent"%string := [ "client/1.0"%string ] ]})
       (Some headerConfig) None "codex" ∅).1 = Some h'
    ∧ h' !! "User-Agent"%string = Some [ "client/1.0"%string ].
Proof.
  destruct (applyReverseProxyHeaders_keeps_request_headers 0
              {[ "User-Agent"%string := [ "client/1.0"%string ] ]}
              (Some headerConfig) None "codex" ∅)
    as (h' & H1 & H2 & _).
  - intros m k v H. by apply elem_of_map_to_list.
  - exists h'. split; [exact H1 |]. rewrite (H2 "User-Agent"%string).
    + vm_compute. reflexivity.
    + vm_compute. discriminate.
Defined.

Lemma Execute_sends_at_most_two_upstream_calls_witness :
  let originalURL := SpecExec.originalURL (Some keyAuth) in
  let route :=
    (Router.resolveReverseProxyRouteForAuth (Codex.time_Now exEnv (Codex.clockReads exWorld))
       (Some (exRouteConfig EmptyString)) (Some keyAuth) "codex" originalURL
       (Codex.bannedTill exWorld)).1 in
  ∃ ps gs,
    Codex.trace (Codex.Execute exEnv (Some (exRouteConfig EmptyString)) (Some keyAuth) exInput
                   exWorld).2
    = Codex.trace exWorld ++ ps ++ gs
    ∧ (ps = [] ∨ ps = [SpecExec.POST (Router.URL route)]
       ∨ (Router.Proxied route = true
          ∧ ps = [SpecExec.POST (Router.URL route); SpecExec.POST originalURL]))
    ∧ (gs = [] ∨ gs = [SpecExt.usageGET])
    ∧ (length (SpecExec.posts (ps ++ gs)) ≤ 2)%nat.
Proof.
  apply (Execute_sends_at_most_two_upstream_calls exEnv (Some (exRouteConfig EmptyString))
           (Some keyAuth) exInput exWorld).
  vm_compute. discriminate.
Defined.

Lemma Execute_touches_only_its_own_breaker_entry_witness :
  let id := Str.TrimSpace (Router.routeProxyID (Some (exRouteConfig EmptyString))
                             (Some keyAuth) "codex") in
  let route :=
    (Router.resolveReverseProxyRouteForAuth (Codex.time_Now exEnv (Codex.clockReads exWorld))
       (Some (exRouteConfig EmptyString)) (Some keyAuth) "codex"
       (SpecExec.originalURL (Some keyAuth)) (Codex.bannedTill exWorld)).1 in
  let out :=
    Codex.Execute exEnv (Some (exRouteConfig EmptyString)) (Some keyAuth) exInput exWorld in
  (∀ k, k ≠ id → Codex.bannedTill out.2 !! k = Codex.bannedTill exWorld !! k)
  ∧ (Router.Proxied route = false → Codex.bannedTill out.2 ⊆ Codex.bannedTill exWorld)
  ∧ ((length (SpecExec.posts (drop (length (Codex.trace exWorld)) (Codex.trace out.2))) < 2)%nat →
     Codex.bannedTill out.2 ⊆ Codex.bannedTill exWorld).
Proof.
  apply (Execute_touches_only_its_own_breaker_entry exEnv (Some (exRouteConfig EmptyString))
           (Some keyAuth) exInput exWorld).
  vm_compute. discriminate.
Defined.

Lemma compact_requests_bypass_the_proxy_witness :
  let out :=
    Codex.Execute exEnv (Some (exRouteConfig EmptyString)) (Some keyAuth) compactInput
      exWorld in
  (∃ ps gs,
     Codex.trace out.2 = Codex.trace exWorld ++ ps ++ gs
     ∧ (ps = [] ∨ ps = [SpecExec.POST (SpecExt.compactURL (Some keyAuth))])
     ∧ (gs = [] ∨ gs = [SpecExt.usageGET]))
  ∧ Codex.bannedTill out.2 ⊆ Codex.bannedTill exWorld
  ∧ CodexExt.ExecuteStream exEnv (Some (exRouteConfig EmptyString)) (Some keyAuth)
      compactInput exWorld
    = (CodexExt.StreamErr (Codex.ErrStatus CodexExt.compactStreamErr), exWorld).
Proof.
  apply (compact_requests_bypass_the_proxy exEnv (Some (exRouteConfig EmptyString))
           (Some keyAuth) compactInput exWorld).
  reflexivity.
Defined.

Lemma ExecuteStream_runs_like_Execute_witness :
  (CodexExt.ExecuteStream exEnv (Some (exRouteConfig EmptyString)) (Some keyAuth) exInput
     exWorld).2
  = (Codex.Execute exEnv (Some (exRouteConfig EmptyString)) (Some keyAuth) exInput exWorld).2
  ∧ SpecExt.sameOutcome
      (CodexExt.ExecuteStream exEnv (Some (exRouteConfig EmptyString)) (Some keyAuth) exInput
         exWorld).1
      (Codex.Execute exEnv (Some (exRouteConfig EmptyString)) (Some keyAuth) exInput
         exWorld).1.
Proof.
  apply (ExecuteStream_runs_like_Execute exEnv (Some (exRouteConfig EmptyString))
           (Some keyAuth) exInput exWorld).
  - vm_compute. discriminate.
  - intros k r resp H _. unfold exEnv in H. cbn [Codex.http_Do] in H.
    repeat (destruct (Str.eqb _ _) in H); [injection H as <- .. | discriminate];
      reflexivity.
Defined.

Lemma ExecuteStream_read_error_ends_the_run_witness :
  (CodexExt.ExecuteStream brokenBodyEnv (Some (exRouteConfig EmptyString)) (Some keyAuth)
     exInput exWorld).1
  = CodexExt.StreamErr (Codex.ErrOther "unexpected EOF").
Proof.
  refine (f_equal fst
            (proj1 (ExecuteStream_read_error_ends_the_run brokenBodyEnv
                      (Some (exRouteConfig EmptyString)) (Some keyAuth) exInput exWorld
                      (Codex.mkResponse 502 EmptyString (Some "unexpected EOF"%string) ∅)
                      "unexpected EOF" _ _ _ _ _ _))).
  - vm_compute. discriminate.
  - reflexivity.
  - vm_compute. by eexists.
  - reflexivity.
  - reflexivity.
  - reflexivity.
Defined.

Lemma Refresh_keeps_the_credential_refreshable_witness :
  ∃ a', CodexExt.Refresh exNow (Some oauthAuth) = inl a'
        ∧ getAnyStr (Metadata a') "access_token" = Some "access-2"%string
        ∧ (∃ t', getAnyStr (Metadata a') "refresh_token" = Some t' ∧ t' ≠ EmptyString
                 ∧ t' = "rt-1"%string)
        ∧ getAnyStr (Metadata a') "note" = Some "kept"%string.
Proof.
  destruct (proj2 (proj2 (Refresh_keeps_the_credential_refreshable exNow oauthAuth))
              "rt-1"%string
              (CodexExt.mkTokenData "id-2" "access-2" EmptyString "acct-1" "a@example.com"
                                    "2030-01-01T00:00:00Z"))
    as (a' & H1 & _ & _ & H3 & H4 & _ & _ & _ & _ & H5).
  - reflexivity.
  - discriminate.
  - reflexivity.
  - exists a'. split; [exact H1 |]. split; [exact H3 |]. split; [exact H4 |].
    unfold getAnyStr. rewrite (H5 "note"%string); [reflexivity |].
    vm_compute. intros H. repeat (apply elem_of_cons in H as [H | H]; [discriminate |]).
    by inversion H.
Defined.

Lemma parseRetryAfterHeader_yields_positive_durations_witness :
  Str.TrimSpace (Header_Get {[ "Retry-After"%string := [ " 120 "%string ] ]} "Retry-After")
  ≠ EmptyString
  ∧ ((∃ seconds,
        Codex.Atoi (Str.TrimSpace (Header_Get {[ "Retry-After"%string := [ " 120 "%string ] ]}
                                      "Retry-After")) = Some seconds
        ∧ 0 < seconds
        ∧ 120 * Time.Second = Time.wrap64 (seconds * Time.Second)
        ∧ (seconds ≤ 9223372036 → 120 * Time.Second = seconds * Time.Second
                                  ∧ 0 < 120 * Time.Second))
     ∨ (∃ retryAt,
          http_ParseTime (Str.TrimSpace (Header_Get
                            {[ "Retry-After"%string := [ " 120 "%string ] ]} "Retry-After"))
          = Some retryAt
          ∧ (∀ seconds,
               Codex.Atoi (Str.TrimSpace (Header_Get
                             {[ "Retry-After"%string := [ " 120 "%string ] ]} "Retry-After"))
               = Some seconds → seconds ≤ 0)
          ∧ 120 * Time.Second = Time.Sub retryAt 0 ∧ 0 < 120 * Time.Second)).
Proof.
  apply (parseRetryAfterHeader_yields_positive_durations 0
           {[ "Retry-After"%string := [ " 120 "%string ] ]} (120 * Time.Second)).
  vm_compute. reflexivity.
Defined.

Lemma Authenticate_accepts_only_configured_keys_witness :
  ∃ pp, Some exProvider = Some pp
    ∧ "k3"%string ∈ configaccess.keys pp ∧ "k3"%string ≠ EmptyString
    ∧ ("k3"%string, "authorization"%string) ∈ configaccess.candidates (bearer "k3")
    ∧ SpecAuthn.presented pp (bearer "k3") = Some ("k3"%string, "authorization"%string)
    ∧ "config-inline"%string = configaccess.Identifier "config-inline" (Some exProvider)
    ∧ ∀ exp, SpecAuthn.expiryOf pp "k3" = Some exp → exp = Time.zero ∨ exNow < exp.
Proof.
  apply (Authenticate_accepts_only_configured_keys "config-inline" exNow (Some exProvider)
           (bearer "k3") "config-inline" "k3" "authorization").
  vm_compute. reflexivity.
Defined.

Lemma deleted_proxy_carries_no_request_witness :
  (Router.resolveReverseProxyRouteWithID 0
     (Some (management.DeleteReverseProxy "deno-1" routedConfig).2) " deno-1 " "codex" codexURL
     ∅).1
  = Router.mkResolution codexURL "deno-1" false.
Proof.
  destruct (deleted_proxy_carries_no_request "deno-1" routedConfig) as (_ & H & _).
  - apply (bool_decide_unpack _). vm_compute. exact I.
  - vm_compute. discriminate.
  - apply H. vm_compute. reflexivity.
Defined.

Lemma DeleteReverseProxyWorkerURL_restores_the_plain_rewriting_witness :
  Router.resolveReverseProxyURLWithID
    (Some (management.DeleteReverseProxyWorkerURL (exRouteConfig bridgeWorkerURL)).2)
    "deno-1" "codex" codexURL
  = (Str.TrimSuffix (config.BaseURL denoProxy) "/"
     ++ Router.routePrefix "codex" (Host (mkURL "https" "chatgpt.com"
                                            "/backend-api/codex/responses" EmptyString))
     ++ Spec.routedPath (mkURL "https" "chatgpt.com" "/backend-api/codex/responses"
                               EmptyString)
     ++ Spec.querySuffix (RawQuery (mkURL "https" "chatgpt.com"
                                          "/backend-api/codex/responses" EmptyString)))%string.
Proof.
  apply (proj2 (proj2 (DeleteReverseProxyWorkerURL_restores_the_plain_rewriting
                         (exRouteConfig bridgeWorkerURL) "deno-1" "codex" codexURL denoProxy
                         (mkURL "https" "chatgpt.com" "/backend-api/codex/responses"
                                EmptyString)))).
  - vm_compute. reflexivity.
  - vm_compute. reflexivity.
Defined.

Lemma UpdateProxyRoutingAuth_stores_a_normal_table_witness :
  config.ProxyRoutingAuth
    (management.UpdateProxyRoutingAuth (Some routingRequest) routedConfig).2
  !! Str.TrimSpace " auth-1 "
  = Some (Str.TrimSpace " deno-1 ").
Proof.
  destruct (UpdateProxyRoutingAuth_stores_a_normal_table routingRequest routedConfig
              exRange_visits) as (_ & _ & _ & _ & H).
  destruct (H " auth-1 "%string " deno-1 "%string) as [_ H2].
  - reflexivity.
  - vm_compute. discriminate.
  - vm_compute. discriminate.
  - apply H2. intros k1 [v Hv] _. unfold routingRequest in Hv.
    by apply lookup_singleton_Some in Hv as [<- _].
Defined.

Lemma UpdateProxyRoutingAuth_then_resolveProxyIDForAuth_witness :
  Router.resolveProxyIDForAuth
    (Some (management.UpdateProxyRoutingAuth (Some routingRequest) routedConfig).2)
    (Some keyAuth)
  = Str.TrimSpace " deno-1 ".
Proof.
  apply (UpdateProxyRoutingAuth_then_resolveProxyIDForAuth routingRequest routedConfig
           keyAuth " auth-1 " " deno-1 " exRange_visits).
  - reflexivity.
  - vm_compute. reflexivity.
  - vm_compute. discriminate.
  - vm_compute. discriminate.
  - intros k1 [v Hv] _. unfold routingRequest in Hv.
    by apply lookup_singleton_Some in Hv as [<- _].
Defined.

Lemma sanitizeProxyRoutingAuthLocked_keeps_what_is_known_witness :
  let out :=
    management.sanitizeProxyRoutingAuthLocked {[ "auth-1"%string ]} false false
      (Some staleConfig) in
  out.2 = Some (if out.1.2 then management.withRoutingAuth staleConfig out.1.1 else staleConfig)
  ∧ is_Some (out.1.1 !! Str.TrimSpace "auth-1").
Proof.
  pose proof (sanitizeProxyRoutingAuthLocked_keeps_what_is_known {[ "auth-1"%string ]}
                false false staleConfig exRange_visits) as H.
  cbv zeta in *.
  destruct (management.sanitizeProxyRoutingAuthLocked {[ "auth-1"%string ]} false false
              (Some staleConfig)) as [[clean changed] c'].
  cbn [fst snd].
  destruct H as (H1 & _ & _ & H4); [vm_compute; discriminate |].
  split; [exact H1 |].
  apply (H4 "auth-1"%string "deno-1"%string).
  - vm_compute. reflexivity.
  - vm_compute. discriminate.
  - vm_compute. discriminate.
  - right. vm_compute. reflexivity.
Defined.

Lemma GetProxyRoutingAuth_is_stable_witness :
  management.GetProxyRoutingAuth {[ "auth-1"%string ]} false false
    (management.GetProxyRoutingAuth {[ "auth-1"%string ]} false false staleConfig).2
  = management.GetProxyRoutingAuth {[ "auth-1"%string ]} false false staleConfig.
Proof.
  apply (GetProxyRoutingAuth_is_stable {[ "auth-1"%string ]} false false staleConfig
           exRange_visits).
Defined.

Lemma AllowedAuthIDsForClientKey_grows_with_the_references_witness :
  ∃ ids1 ids2,
    Access.AllowedAuthIDsForClientKey (Some exManager) "client-1" = (Some ids1, true)
    ∧ Access.AllowedAuthIDsForClientKey (Some exManager2) "client-1" = (Some ids2, true)
    ∧ ids1 ⊆ ids2
    ∧ ((∀ r, r ∈ [ "b.json"%string; "a.json"%string ] → Str.TrimSpace r ≠ EmptyString →
             ∃ r', r' ∈ [ " a.json "%string; "  "%string ]
                   ∧ Str.TrimSpace r' = Str.TrimSpace r) →
       ids1 = ids2).
Proof.
  apply (AllowedAuthIDsForClientKey_grows_with_the_references exManager exManager2
           "client-1" [ " a.json "%string; "  "%string ] [ "b.json"%string; "a.json"%string ]).
  - reflexivity.
  - vm_compute. discriminate.
  - vm_compute. reflexivity.
  - vm_compute. reflexivity.
  - intros r Hr Hne. apply elem_of_cons in Hr as [-> | Hr].
    + exists "a.json"%string. split; [by right; left | vm_compute; reflexivity].
    + apply list_elem_of_singleton in Hr. subst r. exfalso. apply Hne. vm_compute. reflexivity.
Defined.

End MoreExamples.
